(* ===== verification/_CoqProject ===== *)
-Q . S2P
Prelude.v
Config.v
Text.v
Blocks.v
Mapping.v
Device.v
Perf.v
SsdIo.v
Gc.v
Ftl.v
Persist.v
Ssd.v
Tables.v
Lists.v
Victims.v
Inv.v
Collect.v
Host.v
Boot.v
Reload.v
SsdLaws.v
Timing.v
SsdSim.v
Space.v
Session.v
Example.v
FtlProps.v
DriveProps.v
ConfigProps.v
BlockProps.v
ModuleProps.v
Cache.v
Firm.v
FirmRing.v
FirmWrite.v
FirmFlush.v
FirmQueue.v
FirmCopy.v
FirmServe.v
FirmSession.v
FirmProps.v
Threads.v
ThreadTurns.v
ThreadRefine.v
ThreadSafe.v
ThreadProps.v
Bytes.v
Identify.v
Ide.v
IdeDisk.v
IdeSector.v
IdePio.v
IdePorts.v
IdeDma.v
IdeGuest.v
IdeIdentify.v
IdeSave.v
IdeSession.v
IdeInit.v
IdeProps.v
CacheProps.v
Monitor.v
MonitorProps.v
Monitored.v
Faults.v
