(* ===== verification/Prelude.v ===== *)
(** * VSSIM: a verification of the SSD simulator

    VSSIM simulates a solid-state drive: it keeps the tables of a page-mapping
    flash translation layer, and delays each command for the time that a drive
    with the configured geometry would take.  It moves no data.  A virtual
    machine or a benchmark calls [SSD_INIT], [SSD_READ], [SSD_WRITE] and
    [SSD_TERM]; these go, directly or through the buffers of the firmware, with
    or without a thread of their own, to the translation layer, which issues page
    commands to the flash module; the flash module and the translation layer
    report to the performance manager, and the log manager sends what happens to
    the monitor, a window of its own.  The calls of the virtual machine are in the
    IDE disk controller of its copy of QEMU, which starts the drive at power on.

    ** How the code is modelled

    A C function is a Rocq function of the same name in the monad [M S] of this
    file: state passing with three outcomes, [Ret] (a value and a state),
    [Undef] (undefined behaviour: an array access out of bounds, a pointer
    without an object, a variable without a value) and [OutOfFuel].  An [int],
    [unsigned int] or bit-field is a [Z] with its conversions written out
    ([i32], [u32], [i16]); a [double] is an IEEE 754 number of [SpecFloat].  A
    linked list is a list; a pointer to one of its elements is a position.  A
    theorem [wp m Q s] is total correctness: [m] returns from [s], without
    undefined behaviour and with the fuel that it has, in a state of [Q].

    ** Files

    - [Prelude]: integers, doubles, the monad and its rules, arrays, lists.
    - [Text]: decimal numbers as [sprintf] writes and [sscanf] reads them.
    - [Config]: [CONFIG/vssim_config_manager.c], parser of [ssd.conf], the
      values computed from it and [cfg_ok], what the rest relies on.
    - [Blocks]: [FTL/PAGE_MAP/ftl_inverse_mapping_manager.c], block states and
      lists of empty and victim blocks.
    - [Mapping]: [FTL/PAGE_MAP/ftl_mapping_manager.c].
    - [Device]: the interface between the translation layer and the module, as
      a class of operations; the specification machine [nand], which has the
      data that the simulator leaves out; and the law [DeviceLaws] that the
      operations simulate it.  Both have a log of what the [MONITOR_ON] build
      sends to the monitor.
    - [Perf], [SsdIo]: [FTL/COMMON/ftl_perf_manager.c] and
      [SSD_MODULE/ssd_io_manager.c], over a clock.
    - [Gc], [Ftl]: [FTL/PAGE_MAP/ftl_gc_manager.c] and [ftl.c], over any device.
    - [Persist], [Ssd]: the files under [./data]; [FIRMWARE/ssd.c],
      [FTL_INIT], [FTL_TERM] and [LOCAL/tests.c].
    - [Cache]: [FTL/PAGE_MAP/ftl_cache.c] ([FTL_MAP_CACHE]).
    - [Firm]: [FIRMWARE/firm_buffer_manager.c] and the variants of [ssd.c] and
      [ftl.c] with [FIRM_IO_BUFFER].
    - [Threads]: the variants of both with [SSD_THREAD], in both modes: the host
      and the drive as two step functions that share the buffers, two locks, a
      condition variable and two flags, run by a schedule, a list of turns.
    - [Bytes], [Identify]: bytes, words and memories; the words a disk tells of
      itself.
    - [Ide]: [QEMU/hw/ide.c], the controller of disks and memory cards with its
      registers, commands, data port and DMA engine, and the bytes that go through
      them.  The drive behind it is the class [Disk], the rest of QEMU the class
      [Machine]; [IdeDisk] has what the controller relies on of the block layer,
      the class [BlockLayer].
    - [IdeInit], [IdeSave]: the controllers at power on, with the geometry that
      [QEMU/block.c] guesses; snapshots, with [QEMU/savevm.c] and [hw/pci.c].
    - [Monitor]: [SSD_MODULE/ssd_log_manager.c], the messages of the other files
      ([MONITOR_ON]) and [MONITOR/SSD_MONITOR_PM/form1.ui.h].  The socket is the
      class [Socket], Qt the class [Qt] with the laws [QtLaws].
    - [Tables], [Lists], [Victims], [Inv], [Collect], [Host], [Boot], [Reload],
      [Space]: the invariant of the translation layer and that each operation
      keeps it, for any device that obeys the laws.
    - [SsdLaws], [Timing], [SsdSim]: the flash module obeys the laws; time stamps
      of commands.
    - [Session]: the composed drive.
    - [FirmRing], [FirmWrite], [FirmFlush], [FirmQueue], [FirmCopy],
      [FirmServe], [FirmSession]: the invariant of the buffers, over any store
      of the class [Backend], which the translation layer implements.
    - [ThreadTurns], [ThreadRefine], [ThreadSafe]: schedules; the simulation of
      the build without threads in mode 2; the invariant of mode 1.
    - [IdeSector], [IdePio], [IdePorts], [IdeDma], [IdeGuest], [IdeIdentify],
      [IdeSession]: the sector in the registers; transfers; the registers of the
      engine; what a guest does at the ports, command by command and in sessions,
      over the composed drive.
    - [FtlProps], [DriveProps], [ConfigProps], [BlockProps], [ModuleProps],
      [FirmProps], [ThreadProps], [IdeProps], [CacheProps], [MonitorProps],
      [Monitored]: the theorems, each applied to a concrete drive of [Example] or
      of its file.
    - [Faults]: runs in which the code does not do what it means to.

    ** What is shown

    - The drive refines a disk of logical pages ([FtlProps], [DriveProps]):
      requests on a fresh drive return, without undefined behaviour, with the
      data last written; collection keeps the data; while the pages in use leave
      room, each write succeeds; a restart keeps the disk; the benchmark ends.
    - The parser ends on every file, reads back what a file says, and what it
      computes is well formed ([ConfigProps]).
    - Blocks are neither lost nor listed twice, a new page is fresh, the victim
      is the least one, the two mapping tables are inverse ([BlockProps]).
    - Commands on a register do not overlap, the waiting loops end, latencies
      and counters are those of the requests ([ModuleProps]).
    - Buffered writes reach the disk in order, a read never overtakes a pending
      write of its sectors, no frame is lost ([FirmProps]).
    - With a thread for the drive, mode 2 reaches the state of the build without
      threads on every fair schedule; mode 1 keeps the buffers well formed and
      loses no page on any schedule, but a host that finds a buffer full waits
      for ever ([ThreadProps]).
    - From power on, a guest that reads or writes sectors at the ports of the
      controller, word by word or by DMA, with 28-bit or 48-bit addresses, has a
      disk of sectors and a memory, reads back what it wrote, and gets just these
      sectors served by the drive; a restart and a snapshot keep what the guest
      sees; the disk tells its size and serial number; the current sector survives
      the registers; a write that fails and stops the machine is done again, once
      ([IdeProps]).
    - The mapping cache answers what the table says ([CacheProps]).
    - The monitor counts and shows what the drive logs, in whatever pieces it
      arrives ([MonitorProps]); for a drive that serves requests this is what the
      host asked for and what the collector did, and the pages shown agree with the
      free pages of the drive ([Monitored]).

    ** Bounds and fuel

    A loop of the source is a [Fixpoint] with fuel computed from the state or
    the configuration: the number of entries it can visit, the blocks it can
    retire, the sectors of the request, the characters of the file or of the
    socket, the 512 entries that a table of memory areas has.  That this
    is enough is part of every [wp] theorem, since [OutOfFuel] is not [Ret].
    [cfg_ok] bounds the geometry so that page and sector numbers fit an [int];
    [config_well_formed] derives it from the configuration file.  The theorems
    on the collector and on whole sessions are for one plane per flash, the
    only geometry [VICTIM_INCHIP] handles.

    ** Not modelled

    - [SSD_MODULE/ssd_trim_manager.c]: the bodies are commented out.
    - The [PRINT_] functions and debug output: they change no state of the drive.
    - The threads of the [SSD_THREAD] build run statement by statement, but a call
      that empties a buffer in mode 2 is one step: the host spins meanwhile.
    - [QEMU], except for [hw/ide.c] and what it uses of four other files: a copy
      of a third-party program.  Of [hw/ide.c], CD-ROM drives, the Macintosh and
      PCMCIA controllers and the PCI configuration.  A DMA transfer that the block
      layer accepts moves its bytes at once; it runs to its end before the guest
      goes on.  What the block layer keeps is given by [BlockLayer]; image formats
      and files are left out.
    - [CELL_READ] and [CELL_WRITE] of the mapping cache, which no file defines,
      and the calls of the cache in the other files, which do not compile. *)

From stdpp Require Import prelude.
From Stdlib Require Import SpecFloat.

Local Open Scope Z_scope.

(** ** Machine integers

    A C integer is a [Z]; the conversions of the source are written out.  The
    three wrap-around functions are the values of a [Z] converted to
    [unsigned int], to [int] and to a 16-bit signed bit-field. *)

Definition u32 (z : Z) : Z := z mod 2 ^ 32.

Definition i32 (z : Z) : Z :=
  let u := z mod 2 ^ 32 in if u <? 2 ^ 31 then u else u - 2 ^ 32.

Definition i16 (z : Z) : Z :=
  let u := z mod 2 ^ 16 in if u <? 2 ^ 15 then u else u - 2 ^ 16.

(** ** C doubles

    The IEEE 754 binary64 operations, on the executable [spec_float]. *)

Abbreviation double := spec_float.

Definition dbl_of_Z (z : Z) : double := binary_normalize 53 1024 z 0 false.

Definition dbl_add : double -> double -> double := SFadd 53 1024.
Definition dbl_sub : double -> double -> double := SFsub 53 1024.
Definition dbl_mul : double -> double -> double := SFmul 53 1024.
Definition dbl_div : double -> double -> double := SFdiv 53 1024.

(** Conversion of a double to an integer type: truncation towards zero.  A
    value that is not finite has no defined conversion. *)
Definition dbl_trunc (d : double) : option Z :=
  match d with
  | S754_zero _ => Some 0
  | S754_finite s m e =>
      let a := if 0 <=? e then Z.pos m * 2 ^ e else Z.pos m / 2 ^ (- e) in
      Some (if s then - a else a)
  | _ => None
  end.

Definition dbl_is_zero (d : double) : bool :=
  match d with S754_zero _ => true | _ => false end.

(** ** Outcomes and the state monad

    A C function is a state transformer.  [Undef] stands for undefined
    behaviour of the source: an access outside an array, a null or dangling
    pointer, a read of an uninitialised variable.  [OutOfFuel] is the answer of
    a loop whose fuel is exhausted; the theorems on such a loop show either
    that the fuel is enough or that no fuel is. *)

Inductive outcome (A : Type) : Type :=
| Ret (a : A)
| Undef
| OutOfFuel.

Arguments Ret {A} a.
Arguments Undef {A}.
Arguments OutOfFuel {A}.

Definition M (S A : Type) : Type := S -> outcome (A * S).

#[export] Instance M_ret S : MRet (M S) := fun A a s => Ret (a, s).

#[export] Instance M_bind S : MBind (M S) := fun A B k m s =>
  match m s with
  | Ret (a, s') => k a s'
  | Undef => Undef
  | OutOfFuel => OutOfFuel
  end.

Definition gets {S A} (f : S -> A) : M S A := fun s => Ret (f s, s).
Definition modify {S} (f : S -> S) : M S unit := fun s => Ret (tt, f s).
Definition undef {S A} : M S A := fun _ => Undef.
Definition out_of_fuel {S A} : M S A := fun _ => OutOfFuel.

(** A value that may be missing because the source would have undefined
    behaviour without it. *)
Definition need {S A} (o : option A) : M S A :=
  match o with Some a => mret a | None => undef end.

(** The two halves of a state that is a pair. *)
Definition on_fst {S T A} (m : M S A) : M (S * T) A := fun '(s, t) =>
  match m s with
  | Ret (a, s') => Ret (a, (s', t))
  | Undef => Undef
  | OutOfFuel => OutOfFuel
  end.

Definition on_snd {S T A} (m : M T A) : M (S * T) A := fun '(s, t) =>
  match m t with
  | Ret (a, t') => Ret (a, (s, t'))
  | Undef => Undef
  | OutOfFuel => OutOfFuel
  end.

(** [for (k = i; k < i + n; k++) body k] *)
Fixpoint for_loop {S} (n : nat) (i : Z) (body : Z -> M S unit) : M S unit :=
  match n with
  | O => mret tt
  | S n' => body i ;; for_loop n' (i + 1) body
  end.

(** ** Arrays

    A C array is a list; an access outside of it has no value. *)

Definition aget {A} (l : list A) (i : Z) : option A :=
  if 0 <=? i then l !! Z.to_nat i else None.

Definition aset {A} (l : list A) (i : Z) (x : A) : option (list A) :=
  if (0 <=? i) && (i <? Z.of_nat (length l))
  then Some (<[Z.to_nat i := x]> l) else None.

Abbreviation zlen l := (Z.of_nat (length l)).

Definition sum_with {A} (f : A -> Z) (l : list A) : Z := foldr (fun a z => f a + z) 0 l.

(** ** Weakest preconditions

    [wp m Q s] says that [m] run in [s] returns, without undefined behaviour
    and without running out of fuel, a value and a state that satisfy [Q]. *)

Definition wp {S A} (m : M S A) (Q : A -> S -> Prop) (s : S) : Prop :=
  match m s with Ret (a, s') => Q a s' | _ => False end.

Section WpRules.
Context {S : Type}.

Lemma wp_ret {A} (a : A) (Q : A -> S -> Prop) s : Q a s -> wp (mret a) Q s.
Proof. done. Qed.

Lemma wp_bind {A B} (m : M S A) (k : A -> M S B) Q s :
  wp m (fun a s' => wp (k a) Q s') s -> wp (m ≫= k) Q s.
Proof. unfold wp, mbind, M_bind. destruct (m s) as [[a s']| |]; done. Qed.

Lemma wp_bind_inv {A B} (m : M S A) (k : A -> M S B) Q s :
  wp (m ≫= k) Q s -> wp m (fun a s' => wp (k a) Q s') s.
Proof. unfold wp, mbind, M_bind. destruct (m s) as [[a s']| |]; done. Qed.

Lemma wp_gets {A} (f : S -> A) (Q : A -> S -> Prop) s : Q (f s) s -> wp (gets f) Q s.
Proof. done. Qed.

Lemma wp_modify (f : S -> S) (Q : unit -> S -> Prop) s : Q tt (f s) -> wp (modify f) Q s.
Proof. done. Qed.

Lemma wp_need {A} (o : option A) (Q : A -> S -> Prop) a s :
  o = Some a -> Q a s -> wp (need o) Q s.
Proof. by intros ->. Qed.

Lemma wp_mono {A} (m : M S A) (P Q : A -> S -> Prop) s :
  wp m P s -> (forall a s', P a s' -> Q a s') -> wp m Q s.
Proof. unfold wp. destruct (m s) as [[a s']| |]; auto. Qed.

Lemma wp_conj {A} (m : M S A) (P Q : A -> S -> Prop) s :
  wp m P s -> wp m Q s -> wp m (fun a s' => P a s' /\ Q a s') s.
Proof. unfold wp. destruct (m s) as [[a s']| |]; auto. Qed.

Lemma wp_run {A} (m : M S A) (Q : A -> S -> Prop) s :
  wp m Q s -> exists a s', m s = Ret (a, s') /\ Q a s'.
Proof. unfold wp. destruct (m s) as [[a s']| |]; [eauto|done|done]. Qed.

Lemma run_wp {A} (m : M S A) (Q : A -> S -> Prop) s a s' :
  m s = Ret (a, s') -> Q a s' -> wp m Q s.
Proof. unfold wp. by intros ->. Qed.

Lemma wp_for (n : nat) (i : Z) (body : Z -> M S unit) (I : Z -> S -> Prop) Q s :
  I i s ->
  (forall k s', i <= k < i + Z.of_nat n -> I k s' -> wp (body k) (fun _ s'' => I (k + 1) s'') s') ->
  (forall s', I (i + Z.of_nat n) s' -> Q tt s') ->
  wp (for_loop n i body) Q s.
Proof.
  revert i s. induction n as [|n IH]; intros i s H0 Hb Hq; simpl.
  - apply wp_ret, Hq. by rewrite Z.add_0_r.
  - apply wp_bind. eapply wp_mono; [apply Hb; [lia|done]|].
    intros [] s' HI. apply IH; [done| |].
    + intros k s'' Hk. apply Hb. lia.
    + intros s'' HI'. apply Hq.
      by replace (i + Z.of_nat (Datatypes.S n)) with (i + 1 + Z.of_nat n) by lia.
Qed.

End WpRules.

Lemma wp_on_fst {S T A} (m : M S A) (Q : A -> S * T -> Prop) s t :
  wp m (fun a s' => Q a (s', t)) s -> wp (on_fst m) Q (s, t).
Proof. unfold wp, on_fst. destruct (m s) as [[a s']| |]; done. Qed.

Lemma wp_on_snd {S T A} (m : M T A) (Q : A -> S * T -> Prop) s t :
  wp m (fun a t' => Q a (s, t')) t -> wp (on_snd m) Q (s, t).
Proof. unfold wp, on_snd. destruct (m t) as [[a t']| |]; done. Qed.

(** One symbolic step; [wp_go] runs the straight-line part of a program. *)
Ltac wp_step :=
  lazymatch goal with
  | |- wp (mret _) _ _ => apply wp_ret
  | |- wp (mbind _ _) _ _ => apply wp_bind
  | |- wp (gets _) _ _ => apply wp_gets
  | |- wp (modify _) _ _ => apply wp_modify
  | |- wp (need (Some _)) _ _ => eapply wp_need; [reflexivity|]
  | |- wp (need _) _ _ => eapply wp_need; [eassumption|]
  | |- wp (on_fst _) _ _ => apply wp_on_fst
  | |- wp (on_snd _) _ _ => apply wp_on_snd
  end.

Ltac wp_go := repeat (wp_step; cbv beta).

(** ** Arrays: lemmas *)

Section Arrays.
Context {A : Type}.
Implicit Types (l : list A) (x : A).

Lemma aget_Some_range l i x : aget l i = Some x -> 0 <= i < zlen l.
Proof.
  unfold aget. case_match; [|done]. intros ?%lookup_lt_Some. lia.
Qed.

Lemma aget_range l i : 0 <= i < zlen l -> exists x, aget l i = Some x.
Proof.
  intros [? ?]. unfold aget. destruct (Z.leb_spec 0 i); [|lia].
  apply lookup_lt_is_Some. lia.
Qed.

Lemma aget_nat l (n : nat) : aget l (Z.of_nat n) = l !! n.
Proof. unfold aget. destruct (Z.leb_spec 0 (Z.of_nat n)); [|lia]. by rewrite Nat2Z.id. Qed.

Lemma aget_elem l i x : aget l i = Some x -> x ∈ l.
Proof. unfold aget. case_match; [|done]. apply list_elem_of_lookup_2. Qed.

Lemma elem_aget l x : x ∈ l -> exists i, aget l i = Some x.
Proof.
  intros [n Hn]%list_elem_of_lookup. exists (Z.of_nat n). by rewrite aget_nat.
Qed.

Lemma aset_range l i x : 0 <= i < zlen l -> exists l', aset l i x = Some l'.
Proof.
  intros ?. unfold aset. destruct (Z.leb_spec 0 i); [|lia].
  destruct (Z.ltb_spec i (zlen l)); [simpl; eauto|lia].
Qed.

Lemma aset_inv l i x l' : aset l i x = Some l' ->
  0 <= i < zlen l /\ l' = <[Z.to_nat i := x]> l.
Proof.
  unfold aset. destruct (Z.leb_spec 0 i); [|done].
  destruct (Z.ltb_spec i (zlen l)); [|done]. intros [= <-]. split; [lia|done].
Qed.

Lemma aset_length l i x l' : aset l i x = Some l' -> length l' = length l.
Proof. intros [? ->]%aset_inv. apply length_insert. Qed.

Lemma aget_aset l i x l' j : aset l i x = Some l' ->
  aget l' j = if decide (j = i) then Some x else aget l j.
Proof.
  intros [? ->]%aset_inv. unfold aget. destruct (Z.leb_spec 0 j).
  - case_decide as E; [subst; apply list_lookup_insert_eq; lia|].
    apply list_lookup_insert_ne. lia.
  - case_decide; [lia|done].
Qed.

Lemma aget_aset_eq l i x l' : aset l i x = Some l' -> aget l' i = Some x.
Proof. intros H. rewrite (aget_aset _ _ _ _ _ H). by case_decide. Qed.

Lemma aget_aset_ne l i x l' j : aset l i x = Some l' -> j <> i -> aget l' j = aget l j.
Proof. intros H ?. rewrite (aget_aset _ _ _ _ _ H). by case_decide. Qed.

Lemma aget_None l i : ~ (0 <= i < zlen l) -> aget l i = None.
Proof.
  intros H. unfold aget. destruct (Z.leb_spec 0 i); [|done].
  apply lookup_ge_None. lia.
Qed.

Lemma aget_replicate n x i : 0 <= i < Z.of_nat n -> aget (replicate n x) i = Some x.
Proof.
  intros ?. unfold aget. destruct (Z.leb_spec 0 i); [|lia].
  apply lookup_replicate_2. lia.
Qed.

End Arrays.

(** ** Machine integers: lemmas *)

Lemma u32_id z : 0 <= z < 2 ^ 32 -> u32 z = z.
Proof. intros ?. by apply Z.mod_small. Qed.

Lemma u32_range z : 0 <= u32 z < 2 ^ 32.
Proof. by apply Z.mod_pos_bound. Qed.

Lemma i32_id z : - 2 ^ 31 <= z < 2 ^ 31 -> i32 z = z.
Proof.
  intros H. unfold i32. destruct (decide (0 <= z)).
  - rewrite Z.mod_small by lia. destruct (Z.ltb_spec z (2 ^ 31)); lia.
  - replace z with (z + 2 ^ 32 + (-1) * 2 ^ 32) by lia.
    rewrite Z.mod_add, Z.mod_small by lia.
    destruct (Z.ltb_spec (z + 2 ^ 32) (2 ^ 31)); lia.
Qed.

Lemma i32_range z : - 2 ^ 31 <= i32 z < 2 ^ 31.
Proof.
  unfold i32. pose proof (Z.mod_pos_bound z (2 ^ 32) ltac:(lia)).
  destruct (Z.ltb_spec (z mod 2 ^ 32) (2 ^ 31)); lia.
Qed.

Lemma u32_i32 z : u32 (i32 z) = u32 z.
Proof.
  unfold u32, i32. destruct (Z.ltb_spec (z mod 2 ^ 32) (2 ^ 31)).
  - by rewrite Z.mod_mod.
  - replace (z mod 2 ^ 32 - 2 ^ 32) with (z mod 2 ^ 32 + (-1) * 2 ^ 32) by lia.
    by rewrite Z.mod_add, Z.mod_mod.
Qed.

(** ** Lists *)

(** Replacing one element of a list of lists. *)
Lemma mjoin_aset {A B} (f : A -> list B) (l l' : list A) i a a' :
  aget l i = Some a -> aset l i a' = Some l' ->
  exists pre post, mjoin (f <$> l) = pre ++ f a ++ post /\ mjoin (f <$> l') = pre ++ f a' ++ post.
Proof.
  intros Ha [Hi ->]%aset_inv. unfold aget in Ha. destruct (Z.leb_spec 0 i); [|done].
  exists (mjoin (f <$> take (Z.to_nat i) l)), (mjoin (f <$> drop (S (Z.to_nat i)) l)). split.
  - rewrite <- (take_drop_middle l _ a Ha) at 1. by rewrite fmap_app, join_app.
  - rewrite insert_take_drop by lia. by rewrite fmap_app, join_app.
Qed.

Lemma elem_mjoin_aget {A B} (f : A -> list B) (l : list A) x :
  x ∈ mjoin (f <$> l) <-> exists i a, aget l i = Some a /\ x ∈ f a.
Proof.
  rewrite list_elem_of_join. split.
  - intros (ys & Hx & (a & -> & Ha)%list_elem_of_fmap). apply elem_aget in Ha as [i Hi]. eauto.
  - intros (i & a & Hi & Hx). exists (f a). split; [done|].
    apply list_elem_of_fmap. exists a. split; [done|]. by eapply aget_elem.
Qed.

(** Distinct numbers below a bound. *)
Lemma NoDup_range_length (l : list Z) n :
  NoDup l -> (forall x, x ∈ l -> 0 <= x < n) -> 0 <= n -> zlen l <= n.
Proof.
  intros Hnd Hr Hn. assert (l ⊆+ seqZ 0 n) as Hs.
  { apply NoDup_submseteq; [done|]. intros x Hx. apply elem_of_seqZ. pose proof (Hr x Hx). lia. }
  apply submseteq_length in Hs. rewrite length_seqZ in Hs. lia.
Qed.

Lemma zlen_app {A} (l k : list A) : zlen (l ++ k) = zlen l + zlen k.
Proof. rewrite length_app. lia. Qed.

Lemma zlen_nonneg {A} (l : list A) : 0 <= zlen l.
Proof. lia. Qed.

(** Sums over a list. *)

#[export] Instance sum_with_Permutation {A} (f : A -> Z) : Proper ((≡ₚ) ==> (=)) (sum_with f).
Proof. intros l k H. induction H; simpl; lia. Qed.

Lemma sum_with_app {A} (f : A -> Z) l k : sum_with f (l ++ k) = sum_with f l + sum_with f k.
Proof. induction l; simpl; lia. Qed.

Lemma sum_with_lower {A} (f : A -> Z) l c : (forall a, a ∈ l -> c <= f a) -> c * zlen l <= sum_with f l.
Proof.
  induction l as [|a l IH]; intros H; simpl; [lia|].
  pose proof (H a ltac:(left)). specialize (IH (fun a' Ha' => H a' (list_elem_of_further _ _ _ Ha'))). lia.
Qed.

Lemma sum_with_zero {A} (f : A -> Z) l : (forall a, a ∈ l -> f a = 0) -> sum_with f l = 0.
Proof.
  induction l as [|a l IH]; intros H; simpl; [done|].
  rewrite (H a) by left. rewrite IH; [done|]. intros a' Ha'. apply H. by right.
Qed.

Lemma sum_with_elem {A} (f : A -> Z) l a : (forall b, b ∈ l -> 0 <= f b) -> a ∈ l -> f a <= sum_with f l.
Proof.
  induction l as [|b l IH]; intros H Ha; [by inversion Ha|]. simpl.
  pose proof (H b ltac:(left)) as Hb.
  assert (0 <= sum_with f l).
  { pose proof (sum_with_lower f l 0 (fun a' Ha' => H a' (list_elem_of_further _ _ _ Ha'))). lia. }
  apply elem_of_cons in Ha as [->|Ha]; [lia|].
  specialize (IH (fun a' Ha' => H a' (list_elem_of_further _ _ _ Ha')) Ha). lia.
Qed.
