(* ===== verification/Config.v ===== *)
(** * The configuration of the simulated drive

    [CONFIG/vssim_config_manager.c]: the globals that describe the drive, the
    parser of [ssd.conf] and the values computed from what it reads.  The build
    is that of [LOCAL/makefile]: [PAGE_MAP] is defined (by [ftl_type.h]), and
    [FIRM_IO_BUFFER], [FTL_MAP_CACHE] and [HOST_QUEUE] are not. *)

From stdpp Require Import prelude gmap strings.
From Stdlib Require Import SpecFloat Ascii.
From Stdlib Require String.
From S2P Require Import Prelude.

Local Open Scope Z_scope.

(** ** [fscanf] on the characters of a file *)

Definition is_space (c : ascii) : bool :=
  let n := N_of_ascii c in ((9 <=? n) && (n <=? 13) || (n =? 32))%N.

Definition digit_val (c : ascii) : option Z :=
  let n := Z.of_N (N_of_ascii c) in
  if (48 <=? n) && (n <=? 57) then Some (n - 48) else None.

Fixpoint skip_space (l : list ascii) : list ascii :=
  match l with
  | c :: l' => if is_space c then skip_space l' else l
  | [] => []
  end.

Fixpoint take_word (l : list ascii) : list ascii * list ascii :=
  match l with
  | c :: l' => if is_space c then ([], l) else let '(w, r) := take_word l' in (c :: w, r)
  | [] => ([], [])
  end.

Fixpoint take_digits (acc : Z) (l : list ascii) : Z * list ascii :=
  match l with
  | c :: l' => match digit_val c with
               | Some d => take_digits (10 * acc + d) l'
               | None => (acc, l)
               end
  | [] => (acc, [])
  end.

(** [fscanf(fp, "%s", buf)]: [None] is [EOF]. *)
Definition fscanf_s (l : list ascii) : option (list ascii * list ascii) :=
  match skip_space l with
  | [] => None
  | l' => Some (take_word l')
  end.

(** The conversion of [%d]: [strtol] saturates at the bounds of [long], and the
    value is stored in an [int]. *)
Definition strtol_int (z : Z) : Z := i32 (Z.max (- 2 ^ 63) (Z.min (2 ^ 63 - 1) z)).

(** [fscanf(fp, "%d", &x)]: the value stored in [x], if any, and the rest. *)
Definition fscanf_d (l : list ascii) : option Z * list ascii :=
  let l := skip_space l in
  let '(neg, l) := match l with
                   | "-"%char :: l' => (true, l')
                   | "+"%char :: l' => (false, l')
                   | _ => (false, l)
                   end in
  match l with
  | c :: _ => match digit_val c with
              | Some _ => let '(n, r) := take_digits 0 l in
                          (Some (strtol_int (if neg then - n else n)), r)
              | None => (None, l)
              end
  | [] => (None, [])
  end.

(** ** The globals read from [ssd.conf] *)

(** The integer globals the parser assigns, each under its own name. *)
Definition int_keys : list string :=
  ["PAGE_SIZE"; "PAGE_NB"; "SECTOR_SIZE"; "FLASH_NB"; "BLOCK_NB"; "PLANES_PER_FLASH";
   "REG_WRITE_DELAY"; "CELL_PROGRAM_DELAY"; "REG_READ_DELAY"; "CELL_READ_DELAY";
   "BLOCK_ERASE_DELAY"; "CHANNEL_SWITCH_DELAY_R"; "CHANNEL_SWITCH_DELAY_W";
   "DSM_TRIM_ENABLE"; "IO_PARALLELISM"; "CHANNEL_NB"; "OVP"]%string.

Record globals := Globals {
  g_ints : gmap string Z;
  FILE_NAME_HDA : list ascii;
  FILE_NAME_HDB : list ascii
}.

Definition globals0 : globals := Globals ∅ [] [].

(** A C global without an initialiser is zero. *)
Definition g_int (g : globals) (k : string) : Z := default 0 (g_ints g !! k).

(** The C string in a buffer ends at its first null character. *)
Fixpoint c_str (l : list ascii) : list ascii :=
  match l with
  | [] => []
  | c :: l' => if Ascii.eqb c zero then [] else c :: c_str l'
  end.

(** [FILE_NAME_HDA] and [FILE_NAME_HDB] have room for 1024 characters. *)
Definition conf_name (l : list ascii) : outcome (option (list ascii) * list ascii) :=
  match fscanf_s l with
  | Some (w, r) => if 1024 <=? zlen w then Undef else Ret (Some w, r)
  | None => Ret (None, [])
  end.

(** One round of the loop of [INIT_SSD_CONFIG]: the command word [cmd] has been
    read and the rest of the file is [l]. *)
Definition conf_command (cmd : string) (l : list ascii) (g : globals) : outcome (globals * list ascii) :=
  if String.eqb cmd "FILE_NAME_HDA" then
    match conf_name l with
    | Ret (Some w, r) => Ret (Globals (g_ints g) w (FILE_NAME_HDB g), r)
    | Ret (None, r) => Ret (g, r)
    | _ => Undef
    end
  else if String.eqb cmd "FILE_NAME_HDB" then
    match conf_name l with
    | Ret (Some w, r) => Ret (Globals (g_ints g) (FILE_NAME_HDA g) w, r)
    | Ret (None, r) => Ret (g, r)
    | _ => Undef
    end
  else if bool_decide (cmd ∈ int_keys) then
    let '(v, r) := fscanf_d l in
    Ret (match v with
         | Some z => Globals (<[cmd := z]> (g_ints g)) (FILE_NAME_HDA g) (FILE_NAME_HDB g)
         | None => g
         end, r)
  else Ret (g, l).

(** [while (fscanf(pfData, "%s", szCommand) != EOF)].  A word that does not fit
    the 1024 bytes of [szCommand] overruns the buffer. *)
Fixpoint parse_conf (fuel : nat) (l : list ascii) (g : globals) : outcome globals :=
  match fuel with
  | O => OutOfFuel
  | S fuel' =>
      match fscanf_s l with
      | None => Ret g
      | Some (w, r) =>
          if 1024 <=? zlen w then Undef else
          match conf_command (String.string_of_list_ascii (c_str w)) r g with
          | Ret (g', r') => parse_conf fuel' r' g'
          | Undef => Undef
          | OutOfFuel => OutOfFuel
          end
      end
  end.

(** ** The configuration *)

Record config := Config {
  PAGE_SIZE : Z;
  PAGE_NB : Z;
  SECTOR_SIZE : Z;
  FLASH_NB : Z;
  BLOCK_NB : Z;
  PLANES_PER_FLASH : Z;
  REG_WRITE_DELAY : Z;
  CELL_PROGRAM_DELAY : Z;
  REG_READ_DELAY : Z;
  CELL_READ_DELAY : Z;
  BLOCK_ERASE_DELAY : Z;
  CHANNEL_SWITCH_DELAY_R : Z;
  CHANNEL_SWITCH_DELAY_W : Z;
  DSM_TRIM_ENABLE : Z;
  IO_PARALLELISM : Z;
  CHANNEL_NB : Z;
  OVP : Z;
  SECTORS_PER_PAGE : Z;
  PAGES_PER_FLASH : Z;
  SECTOR_NB : Z;
  WAY_NB : Z;
  BLOCK_MAPPING_ENTRY_NB : Z;
  PAGES_IN_SSD : Z;
  PAGE_MAPPING_ENTRY_NB : Z;
  EACH_EMPTY_TABLE_ENTRY_NB : Z;
  EMPTY_TABLE_ENTRY_NB : Z;
  VICTIM_TABLE_ENTRY_NB : Z;
  DATA_BLOCK_NB : Z;
  GC_THRESHOLD_BLOCK_NB : Z;
  GC_THRESHOLD_BLOCK_NB_HARD : Z;
  GC_THRESHOLD_BLOCK_NB_EACH : Z;
  GC_VICTIM_NB : Z
}.

(** The values computed from the globals, in the order of the fields of
    [config] from [SECTORS_PER_PAGE] on. *)
Record derived := Derived {
  d_SECTORS_PER_PAGE : Z;
  d_PAGES_PER_FLASH : Z;
  d_SECTOR_NB : Z;
  d_WAY_NB : Z;
  d_BLOCK_MAPPING_ENTRY_NB : Z;
  d_PAGES_IN_SSD : Z;
  d_PAGE_MAPPING_ENTRY_NB : Z;
  d_EACH_EMPTY_TABLE_ENTRY_NB : Z;
  d_EMPTY_TABLE_ENTRY_NB : Z;
  d_VICTIM_TABLE_ENTRY_NB : Z;
  d_DATA_BLOCK_NB : Z;
  d_GC_THRESHOLD_BLOCK_NB : Z;
  d_GC_THRESHOLD_BLOCK_NB_HARD : Z;
  d_GC_THRESHOLD_BLOCK_NB_EACH : Z;
  d_GC_VICTIM_NB : Z
}.

Definition derived0 : derived := Derived 0 0 0 0 0 0 0 0 0 0 0 0 0 0 0.

Definition config_of (g : globals) (d : derived) : config := {|
  PAGE_SIZE := g_int g "PAGE_SIZE";
  PAGE_NB := g_int g "PAGE_NB";
  SECTOR_SIZE := g_int g "SECTOR_SIZE";
  FLASH_NB := g_int g "FLASH_NB";
  BLOCK_NB := g_int g "BLOCK_NB";
  PLANES_PER_FLASH := g_int g "PLANES_PER_FLASH";
  REG_WRITE_DELAY := g_int g "REG_WRITE_DELAY";
  CELL_PROGRAM_DELAY := g_int g "CELL_PROGRAM_DELAY";
  REG_READ_DELAY := g_int g "REG_READ_DELAY";
  CELL_READ_DELAY := g_int g "CELL_READ_DELAY";
  BLOCK_ERASE_DELAY := g_int g "BLOCK_ERASE_DELAY";
  CHANNEL_SWITCH_DELAY_R := g_int g "CHANNEL_SWITCH_DELAY_R";
  CHANNEL_SWITCH_DELAY_W := g_int g "CHANNEL_SWITCH_DELAY_W";
  DSM_TRIM_ENABLE := g_int g "DSM_TRIM_ENABLE";
  IO_PARALLELISM := g_int g "IO_PARALLELISM";
  CHANNEL_NB := g_int g "CHANNEL_NB";
  OVP := g_int g "OVP";
  SECTORS_PER_PAGE := d_SECTORS_PER_PAGE d;
  PAGES_PER_FLASH := d_PAGES_PER_FLASH d;
  SECTOR_NB := d_SECTOR_NB d;
  WAY_NB := d_WAY_NB d;
  BLOCK_MAPPING_ENTRY_NB := d_BLOCK_MAPPING_ENTRY_NB d;
  PAGES_IN_SSD := d_PAGES_IN_SSD d;
  PAGE_MAPPING_ENTRY_NB := d_PAGE_MAPPING_ENTRY_NB d;
  EACH_EMPTY_TABLE_ENTRY_NB := d_EACH_EMPTY_TABLE_ENTRY_NB d;
  EMPTY_TABLE_ENTRY_NB := d_EMPTY_TABLE_ENTRY_NB d;
  VICTIM_TABLE_ENTRY_NB := d_VICTIM_TABLE_ENTRY_NB d;
  DATA_BLOCK_NB := d_DATA_BLOCK_NB d;
  GC_THRESHOLD_BLOCK_NB := d_GC_THRESHOLD_BLOCK_NB d;
  GC_THRESHOLD_BLOCK_NB_HARD := d_GC_THRESHOLD_BLOCK_NB_HARD d;
  GC_THRESHOLD_BLOCK_NB_EACH := d_GC_THRESHOLD_BLOCK_NB_EACH d;
  GC_VICTIM_NB := d_GC_VICTIM_NB d
|}.

(** [(int)((1 - t) * (double) n)] for the literal [t] = [num]/100. *)
Definition gc_threshold (num n : Z) : option Z :=
  let t := dbl_div (dbl_of_Z num) (dbl_of_Z 100) in
  i32 <$> dbl_trunc (dbl_mul (dbl_sub (dbl_of_Z 1) t) (dbl_of_Z n)).

(** The part of [INIT_SSD_CONFIG] below the exception handler; a division by
    zero has no value. *)
Definition derive (g : globals) : option derived :=
  let PAGE_SIZE := g_int g "PAGE_SIZE" in
  let PAGE_NB := g_int g "PAGE_NB" in
  let SECTOR_SIZE := g_int g "SECTOR_SIZE" in
  let FLASH_NB := g_int g "FLASH_NB" in
  let BLOCK_NB := g_int g "BLOCK_NB" in
  let PLANES_PER_FLASH := g_int g "PLANES_PER_FLASH" in
  let CHANNEL_NB := g_int g "CHANNEL_NB" in
  let OVP := g_int g "OVP" in
  if (SECTOR_SIZE =? 0) || (CHANNEL_NB =? 0) || (PLANES_PER_FLASH =? 0) then None else
  let SECTORS_PER_PAGE := Z.quot PAGE_SIZE SECTOR_SIZE in
  let BLOCK_MAPPING_ENTRY_NB := BLOCK_NB * FLASH_NB in
  let EACH := Z.quot BLOCK_NB PLANES_PER_FLASH in
  t ← gc_threshold 95 BLOCK_MAPPING_ENTRY_NB;
  h ← gc_threshold 98 BLOCK_MAPPING_ENTRY_NB;
  e ← gc_threshold 95 EACH;
  Some {|
    d_SECTORS_PER_PAGE := SECTORS_PER_PAGE;
    d_PAGES_PER_FLASH := i32 (PAGE_NB * BLOCK_NB);
    d_SECTOR_NB := SECTORS_PER_PAGE * PAGE_NB * BLOCK_NB * FLASH_NB;
    d_WAY_NB := Z.quot FLASH_NB CHANNEL_NB;
    d_BLOCK_MAPPING_ENTRY_NB := BLOCK_MAPPING_ENTRY_NB;
    d_PAGES_IN_SSD := PAGE_NB * BLOCK_NB * FLASH_NB;
    d_PAGE_MAPPING_ENTRY_NB := PAGE_NB * BLOCK_NB * FLASH_NB;
    d_EACH_EMPTY_TABLE_ENTRY_NB := EACH;
    d_EMPTY_TABLE_ENTRY_NB := i32 (FLASH_NB * PLANES_PER_FLASH);
    d_VICTIM_TABLE_ENTRY_NB := i32 (FLASH_NB * PLANES_PER_FLASH);
    d_DATA_BLOCK_NB := BLOCK_NB;
    d_GC_THRESHOLD_BLOCK_NB := t;
    d_GC_THRESHOLD_BLOCK_NB_HARD := h;
    d_GC_THRESHOLD_BLOCK_NB_EACH := e;
    d_GC_VICTIM_NB :=
      if negb (OVP =? 0)
      then Z.quot (Z.quot (i32 (FLASH_NB * BLOCK_NB * OVP)) 100) 2
      else 20
  |}.

(** The exception handler: [true] when [INIT_SSD_CONFIG] returns early. *)
Definition conf_rejected (g : globals) : bool :=
  (g_int g "FLASH_NB" <? g_int g "CHANNEL_NB")
  || (negb (g_int g "PLANES_PER_FLASH" =? 1)
      && negb (Z.rem (g_int g "PLANES_PER_FLASH") 2 =? 0)).

(** [INIT_SSD_CONFIG] on the content of [./data/ssd.conf], [None] when the file
    cannot be opened. *)
Definition INIT_SSD_CONFIG (file : option (list ascii)) : outcome config :=
  match (match file with
         | Some l => parse_conf (S (length l)) l globals0
         | None => Ret globals0
         end) with
  | Ret g =>
      if conf_rejected g then Ret (config_of g derived0)
      else match derive g with
           | Some d => Ret (config_of g d)
           | None => Undef
           end
  | Undef => Undef
  | OutOfFuel => OutOfFuel
  end.

Definition GET_FILE_NAME_HDA (g : globals) : list ascii := FILE_NAME_HDA g.
Definition GET_FILE_NAME_HDB (g : globals) : list ascii := FILE_NAME_HDB g.

(** ** Well-formed configurations

    What the rest of the program relies on: a positive geometry whose page and
    sector numbers fit an [int], planes that divide the blocks evenly, and the
    computed values. *)
Record cfg_ok (c : config) : Prop := {
  ok_page : 0 < PAGE_NB c;
  ok_block : 0 < BLOCK_NB c;
  ok_flash : 0 < FLASH_NB c;
  ok_plane : 0 < PLANES_PER_FLASH c;
  ok_plane_block : (PLANES_PER_FLASH c | BLOCK_NB c);
  ok_spp : 0 < SECTORS_PER_PAGE c;
  ok_sectors : SECTORS_PER_PAGE c * (PAGE_NB c * BLOCK_NB c * FLASH_NB c) < 2 ^ 31;
  ok_channel : 0 < CHANNEL_NB c <= FLASH_NB c;
  ok_way : WAY_NB c = FLASH_NB c / CHANNEL_NB c;
  ok_ppf : PAGES_PER_FLASH c = PAGE_NB c * BLOCK_NB c;
  ok_sector_nb : SECTOR_NB c = SECTORS_PER_PAGE c * (PAGE_NB c * BLOCK_NB c * FLASH_NB c);
  ok_bme : BLOCK_MAPPING_ENTRY_NB c = BLOCK_NB c * FLASH_NB c;
  ok_pme : PAGE_MAPPING_ENTRY_NB c = PAGE_NB c * BLOCK_NB c * FLASH_NB c;
  ok_each : EACH_EMPTY_TABLE_ENTRY_NB c = BLOCK_NB c / PLANES_PER_FLASH c;
  ok_ete : EMPTY_TABLE_ENTRY_NB c = FLASH_NB c * PLANES_PER_FLASH c;
  ok_vte : VICTIM_TABLE_ENTRY_NB c = FLASH_NB c * PLANES_PER_FLASH c
}.

(** The checks on the globals that the source does not make and its users have
    to: with them, what [INIT_SSD_CONFIG] computes is well formed. *)
Definition raw_ok (g : globals) : Prop :=
  0 < g_int g "PAGE_NB" /\ 0 < g_int g "BLOCK_NB" /\ 0 < g_int g "FLASH_NB" /\
  0 < g_int g "PLANES_PER_FLASH" /\ (g_int g "PLANES_PER_FLASH" | g_int g "BLOCK_NB") /\
  0 < g_int g "SECTOR_SIZE" <= g_int g "PAGE_SIZE" /\
  0 < g_int g "CHANNEL_NB" <= g_int g "FLASH_NB" /\
  g_int g "PAGE_SIZE" / g_int g "SECTOR_SIZE"
    * (g_int g "PAGE_NB" * g_int g "BLOCK_NB" * g_int g "FLASH_NB") < 2 ^ 31.

Section Geometry.
Context {c : config} (Hok : cfg_ok c).

Lemma ok_pages : PAGE_NB c * BLOCK_NB c * FLASH_NB c < 2 ^ 31.
Proof using Hok.
  destruct Hok. assert (0 < PAGE_NB c * BLOCK_NB c * FLASH_NB c) by nia. nia.
Qed.

Lemma ok_blocks : 0 < BLOCK_NB c * FLASH_NB c < 2 ^ 31.
Proof using Hok. pose proof ok_pages. destruct Hok. nia. Qed.

Lemma ok_plane_le : PLANES_PER_FLASH c <= BLOCK_NB c.
Proof using Hok. destruct Hok. by apply Z.divide_pos_le. Qed.

Lemma ok_roots : 0 < FLASH_NB c * PLANES_PER_FLASH c < 2 ^ 31.
Proof using Hok.
  pose proof ok_plane_le. pose proof ok_blocks. destruct Hok. nia.
Qed.

Lemma ok_page_lt : PAGE_NB c < 2 ^ 31 /\ BLOCK_NB c < 2 ^ 31 /\ FLASH_NB c < 2 ^ 31.
Proof using Hok.
  pose proof ok_pages. destruct Hok.
  assert (1 <= PAGE_NB c * BLOCK_NB c) by nia.
  assert (1 <= BLOCK_NB c * FLASH_NB c) by nia.
  assert (1 <= PAGE_NB c * FLASH_NB c) by nia. repeat split; nia.
Qed.

Lemma ok_spp_lt : SECTORS_PER_PAGE c < 2 ^ 31.
Proof using Hok. destruct Hok. assert (0 < PAGE_NB c * BLOCK_NB c * FLASH_NB c) by nia. nia. Qed.

End Geometry.

Lemma derive_cfg_ok g d : raw_ok g -> derive g = Some d -> cfg_ok (config_of g d).
Proof.
  intros (HP & HB & HF & HL & HLB & HS & HC & HN) Hd.
  unfold derive in Hd.
  destruct (_ || _); [done|].
  apply bind_Some in Hd as (t & _ & Hd). apply bind_Some in Hd as (h & _ & Hd).
  apply bind_Some in Hd as (e & _ & Hd). injection Hd as <-.
  set (P := g_int g "PAGE_NB") in *. set (B := g_int g "BLOCK_NB") in *.
  set (F := g_int g "FLASH_NB") in *. set (L := g_int g "PLANES_PER_FLASH") in *.
  set (SS := g_int g "SECTOR_SIZE") in *. set (PS := g_int g "PAGE_SIZE") in *.
  set (C := g_int g "CHANNEL_NB") in *.
  assert (L <= B) as A1 by (apply Z.divide_pos_le; [lia|done]).
  assert (1 <= PS / SS) as A2 by (apply Z.div_le_lower_bound; lia).
  assert (0 < P * B * F) as A3 by (clear -HP HB HF; nia).
  assert (P * B * F < 2 ^ 31) as A4 by (clear -HN A2 A3; nia).
  assert (i32 (P * B) = P * B) as E1 by (apply i32_id; clear -HP HB HF A4; assert (0 < P * B) by nia; nia).
  assert (i32 (F * L) = F * L) as E2 by (apply i32_id; clear -HP HB HF HL A1 A4; assert (0 < F * L <= B * F) by nia; nia).
  assert (Z.quot PS SS = PS / SS) as E3 by (apply Z.quot_div_nonneg; lia).
  assert (Z.quot F C = F / C) as E4 by (apply Z.quot_div_nonneg; lia).
  assert (Z.quot B L = B / L) as E5 by (apply Z.quot_div_nonneg; lia).
  split; simpl; fold P B F L SS PS C; rewrite ?E1, ?E2, ?E3, ?E4, ?E5;
    first [assumption | reflexivity | clear -A2; lia | ring].
Qed.
