(* ===== verification/Text.v ===== *)
(** * Numbers as text

    The decimal numbers [sprintf] writes, and that [fscanf] and [sscanf] read them
    back; the decimal fractions of [double]. *)

From stdpp Require Import prelude gmap strings.
From Stdlib Require Import SpecFloat Ascii.
From Stdlib Require String.
From S2P Require Import Prelude Config.

Local Open Scope Z_scope.

(** ** Decimal numbers *)

Definition chars (s : string) : list ascii := String.list_ascii_of_string s.

Definition digit (d : Z) : ascii := ascii_of_N (Z.to_N (48 + d)).

(** The decimal digits of [n] before [acc]. *)
Fixpoint decimal (fuel : nat) (n : Z) (acc : list ascii) : list ascii :=
  match fuel with
  | O => acc
  | S fuel' =>
      let acc := digit (n mod 10) :: acc in
      if n <? 10 then acc else decimal fuel' (n / 10) acc
  end.

Definition print_int (n : Z) (acc : list ascii) : list ascii :=
  if n <? 0 then "-"%char :: decimal 20 (- n) acc else decimal 20 n acc.

Definition newline : ascii := ascii_of_nat 10.

Lemma digit_cases (Q : Z -> Prop) d : 0 <= d < 10 ->
  Q 0 -> Q 1 -> Q 2 -> Q 3 -> Q 4 -> Q 5 -> Q 6 -> Q 7 -> Q 8 -> Q 9 -> Q d.
Proof.
  intros Hd. assert (d = 0 \/ d = 1 \/ d = 2 \/ d = 3 \/ d = 4 \/ d = 5 \/ d = 6 \/ d = 7 \/ d = 8 \/ d = 9)
    as H by lia. intros. destruct_or! H; by subst d.
Qed.

Lemma digit_val_digit d : 0 <= d < 10 -> digit_val (digit d) = Some d.
Proof. intros Hd. by apply (digit_cases (fun d => digit_val (digit d) = Some d)). Qed.

Lemma decimal_head fuel n : 0 <= n -> forall acc, exists d r, 0 <= d < 10 /\ decimal (S fuel) n acc = digit d :: r.
Proof.
  revert n. induction fuel as [|fuel IH]; intros n Hn acc; simpl.
  - exists (n mod 10), acc. split; [apply Z.mod_pos_bound; lia|]. by destruct (n <? 10).
  - destruct (n <? 10); [exists (n mod 10), acc; split; [apply Z.mod_pos_bound; lia|done]|].
    apply IH. apply Z.div_pos; lia.
Qed.

Lemma take_digits_decimal fuel : forall n acc, 0 <= n < 10 ^ Z.of_nat (S fuel) ->
  take_digits 0 (decimal (S fuel) n acc) = take_digits n acc.
Proof.
  induction fuel as [|fuel IH]; intros n acc Hn; pose proof (Z.mod_pos_bound n 10 ltac:(lia)) as Hm.
  - cbn [decimal]. assert (n < 10) by lia. destruct (Z.ltb_spec n 10); [|lia].
    cbn [take_digits]. rewrite digit_val_digit by lia. f_equal. rewrite Z.mod_small; lia.
  - set (k := S fuel) in IH |- *. cbn [decimal]. destruct (Z.ltb_spec n 10).
    { cbn [take_digits]. rewrite digit_val_digit by lia. f_equal. rewrite Z.mod_small; lia. }
    rewrite IH.
    + cbn [take_digits]. rewrite digit_val_digit by lia. f_equal. pose proof (Z.div_mod n 10). lia.
    + split; [apply Z.div_pos; lia|]. apply Z.div_lt_upper_bound; [lia|].
      rewrite (Nat2Z.inj_succ (S fuel)), Z.pow_succ_r in Hn by lia. fold k in Hn. lia.
Qed.

Lemma fscanf_d_digits d r : 0 <= d < 10 ->
  fscanf_d (" "%char :: digit d :: r) =
    (let '(n, r') := take_digits 0 (digit d :: r) in (Some (strtol_int n), r')).
Proof.
  intros Hd. by apply (digit_cases (fun d => fscanf_d (" "%char :: digit d :: r) =
    (let '(n, r') := take_digits 0 (digit d :: r) in (Some (strtol_int n), r')))).
Qed.

Lemma fscanf_d_minus d r : 0 <= d < 10 ->
  fscanf_d (" "%char :: "-"%char :: digit d :: r) =
    (let '(n, r') := take_digits 0 (digit d :: r) in (Some (strtol_int (- n)), r')).
Proof.
  intros Hd. by apply (digit_cases (fun d => fscanf_d (" "%char :: "-"%char :: digit d :: r) =
    (let '(n, r') := take_digits 0 (digit d :: r) in (Some (strtol_int (- n)), r')))).
Qed.

Lemma strtol_int_id v : - 2 ^ 31 <= v < 2 ^ 31 -> strtol_int v = v.
Proof. intros Hv. unfold strtol_int. rewrite Z.min_r, Z.max_r by lia. apply i32_id. lia. Qed.

Lemma fscanf_d_print v acc : - 2 ^ 31 <= v < 2 ^ 31 ->
  fscanf_d (" "%char :: print_int v (newline :: acc)) = (Some v, newline :: acc).
Proof.
  intros Hv. unfold print_int. destruct (Z.ltb_spec v 0).
  - destruct (decimal_head 19 (- v) ltac:(lia) (newline :: acc)) as (d & r & Hd & E).
    pose proof (take_digits_decimal 19 (- v) (newline :: acc)) as Ht. rewrite E in Ht |- *.
    rewrite fscanf_d_minus, Ht by lia. simpl. by rewrite Z.opp_involutive, strtol_int_id.
  - destruct (decimal_head 19 v ltac:(lia) (newline :: acc)) as (d & r & Hd & E).
    pose proof (take_digits_decimal 19 v (newline :: acc)) as Ht. rewrite E in Ht |- *.
    rewrite fscanf_d_digits, Ht by lia. simpl. by rewrite strtol_int_id.
Qed.


(** ** [sscanf] on a string *)

(** The sign and the digits of an integer after blanks. *)
Definition scan_number (l : list ascii) : option (bool * Z) :=
  let l := skip_space l in
  let '(neg, l) := match l with
                   | "-"%char :: l' => (true, l')
                   | "+"%char :: l' => (false, l')
                   | _ => (false, l)
                   end in
  match l with
  | c :: _ => match digit_val c with Some _ => Some (neg, fst (take_digits 0 l)) | None => None end
  | [] => None
  end.

(** [%d], [%u] and [%lld]: the value stored, if any. *)
Definition sscanf_d (l : list ascii) : option Z :=
  match scan_number l with Some (neg, n) => Some (strtol_int (if neg then - n else n)) | None => None end.

Definition sscanf_u (l : list ascii) : option Z :=
  match scan_number l with
  | Some (neg, n) => Some (if 2 ^ 64 <=? n then 2 ^ 32 - 1 else u32 (if neg then - n else n))
  | None => None
  end.

Definition sscanf_lld (l : list ascii) : option Z :=
  match scan_number l with
  | Some (neg, n) => Some (Z.max (- 2 ^ 63) (Z.min (2 ^ 63 - 1) (if neg then - n else n)))
  | None => None
  end.

(** A text that does not go on with a digit. *)
Definition no_digit (l : list ascii) : Prop := match l with c :: _ => digit_val c = None | [] => True end.

Lemma take_digits_stop n l : no_digit l -> take_digits n l = (n, l).
Proof. destruct l as [|c l]; simpl; [done|]. by intros ->. Qed.

Lemma scan_digit d r : 0 <= d < 10 -> scan_number (digit d :: r) = Some (false, fst (take_digits 0 (digit d :: r))).
Proof. intros Hd. by apply (digit_cases (fun d => scan_number (digit d :: r) = Some (false, fst (take_digits 0 (digit d :: r))))). Qed.

Lemma scan_print v l : 0 <= v < 10 ^ 20 -> no_digit l -> scan_number (print_int v l) = Some (false, v).
Proof.
  intros Hv Hl. unfold print_int. destruct (Z.ltb_spec v 0); [lia|].
  destruct (decimal_head 19 v ltac:(lia) l) as (d & r & Hd & E). pose proof (take_digits_decimal 19 v l ltac:(lia)) as Ht.
  rewrite E in Ht |- *. by rewrite scan_digit, Ht, take_digits_stop.
Qed.

Lemma sscanf_d_print v l : 0 <= v < 2 ^ 31 -> no_digit l -> sscanf_d (print_int v l) = Some v.
Proof. intros Hv Hl. unfold sscanf_d. rewrite scan_print by (done || lia). by rewrite strtol_int_id by lia. Qed.

Lemma sscanf_u_print v l : 0 <= v < 2 ^ 32 -> no_digit l -> sscanf_u (print_int v l) = Some v.
Proof. intros Hv Hl. unfold sscanf_u. rewrite scan_print by (done || lia). destruct (Z.leb_spec (2 ^ 64) v); [lia|]. by rewrite u32_id by lia. Qed.

Lemma sscanf_lld_print v l : 0 <= v < 2 ^ 63 -> no_digit l -> sscanf_lld (print_int v l) = Some v.
Proof. intros Hv Hl. unfold sscanf_lld. rewrite scan_print by (done || lia). by rewrite Z.min_r, Z.max_r by lia. Qed.

(** ** The characters of a number *)

Lemma decimal_app fuel : forall n acc, decimal fuel n acc = decimal fuel n [] ++ acc.
Proof.
  induction fuel as [|fuel IH]; intros n acc; simpl; [done|]. destruct (n <? 10); [done|].
  rewrite IH, (IH _ [_]), <- app_assoc. done.
Qed.

Lemma print_int_app v acc : print_int v acc = print_int v [] ++ acc.
Proof. unfold print_int. destruct (v <? 0); rewrite decimal_app; done. Qed.

Definition is_digit (c : ascii) : Prop := exists d, digit_val c = Some d.

Lemma decimal_digits fuel : forall n acc, 0 <= n -> Forall is_digit acc -> Forall is_digit (decimal fuel n acc).
Proof.
  induction fuel as [|fuel IH]; intros n acc Hn Ha; simpl; [done|].
  assert (Forall is_digit (digit (n mod 10) :: acc)) as H.
  { constructor; [|done]. exists (n mod 10). apply digit_val_digit, Z.mod_pos_bound. lia. }
  destruct (n <? 10); [done|]. apply IH; [apply Z.div_pos; lia|done].
Qed.

Lemma print_int_digits v : 0 <= v -> Forall is_digit (print_int v []).
Proof. intros Hv. unfold print_int. destruct (Z.ltb_spec v 0); [lia|]. by apply decimal_digits. Qed.

Lemma print_int_ne v : print_int v [] <> [].
Proof.
  unfold print_int. destruct (Z.ltb_spec v 0); [done|].
  destruct (decimal_head 19 v ltac:(lia) []) as (d & r & _ & ->). done.
Qed.

(** ** Decimal fractions *)

(** The number nearest to [n / d], half to even. *)
Definition round_half_even (n d : Z) : Z :=
  let q := n / d in
  let r := n mod d in
  if 2 * r <? d then q else if d <? 2 * r then q + 1 else q + q mod 2.

(** [k] digits of [n], with leading zeros. *)
Fixpoint padded (k : nat) (n : Z) (acc : list ascii) : list ascii :=
  match k with O => acc | S k' => padded k' (n / 10) (digit (n mod 10) :: acc) end.

(** [%.<k>lf]. *)
Definition print_fixed (k : nat) (d : double) : list ascii :=
  match d with
  | S754_nan => chars "nan"
  | S754_infinity s => (if s then chars "-" else []) ++ chars "inf"
  | S754_zero s => (if s then chars "-" else []) ++ chars "0." ++ padded k 0 []
  | S754_finite s m e =>
      let n := if 0 <=? e then Z.pos m * 2 ^ e * 10 ^ Z.of_nat k else round_half_even (Z.pos m * 10 ^ Z.of_nat k) (2 ^ (- e)) in
      let i := n / 10 ^ Z.of_nat k in
      (if s then chars "-" else []) ++ decimal (S (Z.to_nat (Z.log2 i))) i (chars "." ++ padded k (n mod 10 ^ Z.of_nat k) [])
  end.

(** [%lf] on a decimal fraction: the double nearest to it.  Exponents, hexadecimal
    fractions, infinities and NaNs are not read. *)
Definition sscanf_lf (l : list ascii) : option double :=
  let l := skip_space l in
  let '(neg, l) := match l with
                   | "-"%char :: l' => (true, l')
                   | "+"%char :: l' => (false, l')
                   | _ => (false, l)
                   end in
  match l with
  | c :: _ =>
      match digit_val c with
      | Some _ =>
          let '(i, r) := take_digits 0 l in
          let '(n, p) := match r with
                         | "."%char :: r' => let '(n, r'') := take_digits i r' in (n, 10 ^ (zlen r' - zlen r''))
                         | _ => (i, 1)
                         end in
          Some (match n, p with
                | Zpos a, Zpos b => dbl_div (S754_finite neg a 0) (S754_finite false b 0)
                | _, _ => S754_zero neg
                end)
      | None => None
      end
  | [] => None
  end.
