(* ===== verification/Blocks.v ===== *)
(** * The state of the flash translation layer and its block lists

    [FTL/PAGE_MAP/ftl_inverse_mapping_manager.c]: the inverse mapping table, the
    block state table with its valid arrays, the lists of empty blocks and of
    victim blocks, and the operations on them.

    A linked list is a Rocq list, from [head] along [next]; the counter the
    source keeps beside it is a field of its own.  A pointer to an entry of a
    list is its position: the index of the root in the array of roots and, for
    a victim block, the index in the list. *)

From stdpp Require Import prelude.
From Stdlib Require Import Ascii.
From S2P Require Import Prelude Config.

Local Open Scope Z_scope.

(** ** Constants of [FTL/COMMON/common.h] *)

Definition SUCCESS : Z := 1.
Definition FAIL : Z := 0.
Definition EMPTY_BLOCK : Z := 30.
Definition DATA_BLOCK : Z := 39.
Definition VICTIM_OVERALL : Z := 41.
Definition VICTIM_INCHIP : Z := 42.
Definition VICTIM_NOPARAL : Z := 43.
Definition VALID : Z := 50.
Definition INVALID : Z := 51.

(** The characters of a valid array. *)
Definition chV : ascii := "V"%char.
Definition chI : ascii := "I"%char.
Definition ch0 : ascii := "0"%char.
Definition chNUL : ascii := zero.

(** ** Data *)

Record block_state_entry := BSE {
  valid_page_nb : Z;
  bs_type : Z;
  erase_count : Z;
  valid_array : list ascii
}.

Record empty_block_entry := EBE {
  phy_flash_nb : Z;
  phy_block_nb : Z;
  curr_phy_page_nb : Z
}.

Record empty_block_root := EBR {
  eb_list : list empty_block_entry;
  empty_block_nb : Z
}.

Record victim_block_entry := VBE {
  v_phy_flash_nb : Z;
  v_phy_block_nb : Z
}.

Record victim_block_root := VBR {
  vb_list : list victim_block_entry;
  victim_block_nb : Z
}.

(** The globals of the mapping manager, the inverse mapping manager and the
    garbage collector. *)
Record ftl := Ftl {
  mapping_table : list Z;
  inverse_mapping_table : list Z;
  block_state_table : list block_state_entry;
  empty_block_list : list empty_block_root;
  victim_block_list : list victim_block_root;
  total_empty_block_nb : Z;
  total_victim_block_nb : Z;
  empty_block_table_index : Z;
  gc_count : Z;
  fail_cnt : Z
}.

Definition set_mapping_table v s := Ftl v (inverse_mapping_table s) (block_state_table s)
  (empty_block_list s) (victim_block_list s) (total_empty_block_nb s)
  (total_victim_block_nb s) (empty_block_table_index s) (gc_count s) (fail_cnt s).
Definition set_inverse_mapping_table v s := Ftl (mapping_table s) v (block_state_table s)
  (empty_block_list s) (victim_block_list s) (total_empty_block_nb s)
  (total_victim_block_nb s) (empty_block_table_index s) (gc_count s) (fail_cnt s).
Definition set_block_state_table v s := Ftl (mapping_table s) (inverse_mapping_table s) v
  (empty_block_list s) (victim_block_list s) (total_empty_block_nb s)
  (total_victim_block_nb s) (empty_block_table_index s) (gc_count s) (fail_cnt s).
Definition set_empty_block_list v s := Ftl (mapping_table s) (inverse_mapping_table s)
  (block_state_table s) v (victim_block_list s) (total_empty_block_nb s)
  (total_victim_block_nb s) (empty_block_table_index s) (gc_count s) (fail_cnt s).
Definition set_victim_block_list v s := Ftl (mapping_table s) (inverse_mapping_table s)
  (block_state_table s) (empty_block_list s) v (total_empty_block_nb s)
  (total_victim_block_nb s) (empty_block_table_index s) (gc_count s) (fail_cnt s).
Definition set_total_empty_block_nb v s := Ftl (mapping_table s) (inverse_mapping_table s)
  (block_state_table s) (empty_block_list s) (victim_block_list s) v
  (total_victim_block_nb s) (empty_block_table_index s) (gc_count s) (fail_cnt s).
Definition set_total_victim_block_nb v s := Ftl (mapping_table s) (inverse_mapping_table s)
  (block_state_table s) (empty_block_list s) (victim_block_list s) (total_empty_block_nb s)
  v (empty_block_table_index s) (gc_count s) (fail_cnt s).
Definition set_empty_block_table_index v s := Ftl (mapping_table s) (inverse_mapping_table s)
  (block_state_table s) (empty_block_list s) (victim_block_list s) (total_empty_block_nb s)
  (total_victim_block_nb s) v (gc_count s) (fail_cnt s).
Definition set_gc_count v s := Ftl (mapping_table s) (inverse_mapping_table s)
  (block_state_table s) (empty_block_list s) (victim_block_list s) (total_empty_block_nb s)
  (total_victim_block_nb s) (empty_block_table_index s) v (fail_cnt s).
Definition set_fail_cnt v s := Ftl (mapping_table s) (inverse_mapping_table s)
  (block_state_table s) (empty_block_list s) (victim_block_list s) (total_empty_block_nb s)
  (total_victim_block_nb s) (empty_block_table_index s) (gc_count s) v.

(** Array accesses through the state. *)
Definition rd {S A} (f : S -> list A) (i : Z) : M S A :=
  l ← gets f; need (aget l i).

Definition wr {S A} (f : S -> list A) (set : list A -> S -> S) (i : Z) (x : A) : M S unit :=
  l ← gets f; l' ← need (aset l i x); modify (set l').

Section Operations.
Context (cfg : config).

(** ** The block state table *)

(** The index of an entry; the table is indexed where the pointer is used. *)
Definition GET_BLOCK_STATE_ENTRY (phy_flash_nb phy_block_nb : Z) : Z :=
  u32 (phy_flash_nb * BLOCK_NB cfg + phy_block_nb).

Definition GET_INVERSE_MAPPING_INFO (ppn : Z) : M ftl Z := rd inverse_mapping_table ppn.

Definition UPDATE_INVERSE_MAPPING (ppn lpn : Z) : M ftl Z :=
  wr inverse_mapping_table set_inverse_mapping_table ppn lpn ;;
  mret SUCCESS.

(** The loop that recounts the valid pages of a block. *)
Fixpoint count_valid (l : list ascii) : Z :=
  match l with
  | [] => 0
  | c :: l' => (if Ascii.eqb c chV then 1 else 0) + count_valid l'
  end.

Definition UPDATE_BLOCK_STATE_ENTRY (phy_flash_nb phy_block_nb phy_page_nb valid : Z) : M ftl Z :=
  if (u32 (FLASH_NB cfg) <=? phy_flash_nb) || (u32 (BLOCK_NB cfg) <=? phy_block_nb)
     || (u32 (PAGE_NB cfg) <=? phy_page_nb)
  then mret FAIL
  else
    let i := GET_BLOCK_STATE_ENTRY phy_flash_nb phy_block_nb in
    b_s_entry ← rd block_state_table i;
    va ← (if valid =? VALID then need (aset (valid_array b_s_entry) phy_page_nb chV)
          else if valid =? INVALID then need (aset (valid_array b_s_entry) phy_page_nb chI)
          else if valid =? 0 then need (aset (valid_array b_s_entry) phy_page_nb ch0)
          else mret (valid_array b_s_entry));
    (if zlen va <? PAGE_NB cfg then undef else mret tt) ;;
    let valid_count := count_valid (take (Z.to_nat (PAGE_NB cfg)) va) in
    wr block_state_table set_block_state_table i
       (BSE valid_count (bs_type b_s_entry) (erase_count b_s_entry) va) ;;
    mret SUCCESS.

Definition UPDATE_BLOCK_STATE (phy_flash_nb phy_block_nb type : Z) : M ftl Z :=
  let i := GET_BLOCK_STATE_ENTRY phy_flash_nb phy_block_nb in
  b_s_entry ← rd block_state_table i;
  wr block_state_table set_block_state_table i
     (BSE (valid_page_nb b_s_entry) type (erase_count b_s_entry) (valid_array b_s_entry)) ;;
  (if type =? EMPTY_BLOCK
   then for_loop (Z.to_nat (PAGE_NB cfg)) 0
          (fun k => UPDATE_BLOCK_STATE_ENTRY phy_flash_nb phy_block_nb k 0 ;; mret tt)
   else mret tt) ;;
  mret SUCCESS.

(** ** The block lists *)

(** [plane_nb * FLASH_NB + phy_flash_nb] with [plane_nb = phy_block_nb %
    PLANES_PER_FLASH]: the root of a block. *)
Definition root_index (phy_flash_nb phy_block_nb : Z) : Z :=
  i32 (i32 (phy_block_nb mod u32 (PLANES_PER_FLASH cfg)) * FLASH_NB cfg + phy_flash_nb).

Definition INSERT_EMPTY_BLOCK (phy_flash_nb phy_block_nb : Z) : M ftl Z :=
  let new_empty_block := EBE phy_flash_nb phy_block_nb 0 in
  let mapping_index := root_index phy_flash_nb phy_block_nb in
  curr_root_entry ← rd empty_block_list mapping_index;
  r ← (if empty_block_nb curr_root_entry =? 0
       then mret (EBR [new_empty_block] 1)
       else match eb_list curr_root_entry with
            | [] => undef
            | l => mret (EBR (l ++ [new_empty_block]) (u32 (empty_block_nb curr_root_entry + 1)))
            end);
  wr empty_block_list set_empty_block_list mapping_index r ;;
  modify (fun s => set_total_empty_block_nb (total_empty_block_nb s + 1) s) ;;
  mret SUCCESS.

Definition INSERT_VICTIM_BLOCK (full_block : empty_block_entry) : M ftl Z :=
  let new_v_b_entry := VBE (phy_flash_nb full_block) (phy_block_nb full_block) in
  let mapping_index := root_index (phy_flash_nb full_block) (phy_block_nb full_block) in
  curr_v_b_root ← rd victim_block_list mapping_index;
  r ← (if victim_block_nb curr_v_b_root =? 0
       then mret (VBR [new_v_b_entry] 1)
       else match vb_list curr_v_b_root with
            | [] => undef
            | l => mret (VBR (l ++ [new_v_b_entry]) (u32 (victim_block_nb curr_v_b_root + 1)))
            end);
  wr victim_block_list set_victim_block_list mapping_index r ;;
  modify (fun s => set_total_victim_block_nb (total_victim_block_nb s + 1) s) ;;
  mret SUCCESS.

(** The pointer of a victim block: its root and its position. *)
Definition victim_ptr : Type := Z * nat.

Definition victim_entry (p : victim_ptr) : M ftl victim_block_entry :=
  r ← rd victim_block_list (fst p); need (vb_list r !! snd p).

(** Unlinking: the entry is the head, or the tail, of the root computed from its
    address, or it has a neighbour on each side. *)
Definition EJECT_VICTIM_BLOCK (victim_block : victim_ptr) : M ftl Z :=
  v ← victim_entry victim_block;
  let '(i, j) := victim_block in
  let mapping_index := root_index (v_phy_flash_nb v) (v_phy_block_nb v) in
  curr_v_b_root ← rd victim_block_list mapping_index;
  own ← rd victim_block_list i;
  (if (i =? mapping_index) && (j =? 0)%nat then
     if victim_block_nb curr_v_b_root =? 1
     then wr victim_block_list set_victim_block_list i (VBR [] (victim_block_nb curr_v_b_root))
     else match vb_list curr_v_b_root with
          | _ :: (_ :: _) as l =>
              wr victim_block_list set_victim_block_list i (VBR (tail (vb_list curr_v_b_root)) (victim_block_nb curr_v_b_root))
          | _ => undef
          end
   else if (i =? mapping_index) && (S j =? length (vb_list curr_v_b_root))%nat then
     wr victim_block_list set_victim_block_list i
        (VBR (take j (vb_list curr_v_b_root)) (victim_block_nb curr_v_b_root))
   else if (0 <? j)%nat && (S j <? length (vb_list own))%nat then
     wr victim_block_list set_victim_block_list i
        (VBR (take j (vb_list own) ++ drop (S j) (vb_list own)) (victim_block_nb own))
   else undef) ;;
  r ← rd victim_block_list mapping_index;
  wr victim_block_list set_victim_block_list mapping_index
     (VBR (vb_list r) (u32 (victim_block_nb r - 1))) ;;
  modify (fun s => set_total_victim_block_nb (total_victim_block_nb s - 1) s) ;;
  mret SUCCESS.

(** ** Allocation of an empty block *)

(** [empty_block_table_index++], back to 0 at the end of the table. *)
Definition next_table_index (i : Z) : Z :=
  if u32 (i + 1) =? u32 (EMPTY_TABLE_ENTRY_NB cfg) then 0 else u32 (i + 1).

Definition advance_table_index : M ftl unit :=
  modify (fun s => set_empty_block_table_index (next_table_index (empty_block_table_index s)) s).

(** The head of root [idx] is full: it leaves the list of empty blocks and joins
    the victim blocks. *)
Definition retire_full_head (idx : Z) (curr_empty_block : empty_block_entry) : M ftl unit :=
  curr_root_entry ← rd empty_block_list idx;
  wr empty_block_list set_empty_block_list idx
     (if empty_block_nb curr_root_entry =? 1 then EBR [] 0
      else EBR (tail (eb_list curr_root_entry)) (u32 (empty_block_nb curr_root_entry - 1))) ;;
  INSERT_VICTIM_BLOCK curr_empty_block ;;
  modify (fun s => set_total_empty_block_nb (total_empty_block_nb s - 1) s).

(** The [while] loop of [GET_EMPTY_BLOCK].  The answer is the root whose head is
    the block, [None] for [NULL]. *)
Fixpoint get_empty_block_loop (fuel : nat) (mode input_mapping_index mapping_index : Z) : M ftl (option Z) :=
  match fuel with
  | O => out_of_fuel
  | S fuel' =>
    t ← gets total_empty_block_nb;
    if t =? 0 then mret None else
    if mode =? VICTIM_OVERALL then
      idx ← gets empty_block_table_index;
      curr_root_entry ← rd empty_block_list idx;
      if empty_block_nb curr_root_entry =? 0 then
        advance_table_index ;;
        get_empty_block_loop fuel' mode input_mapping_index mapping_index
      else
        curr_empty_block ← need (head (eb_list curr_root_entry));
        if curr_phy_page_nb curr_empty_block =? u32 (PAGE_NB cfg) then
          retire_full_head idx curr_empty_block ;;
          advance_table_index ;;
          get_empty_block_loop fuel' mode input_mapping_index mapping_index
        else
          advance_table_index ;;
          mret (Some idx)
    else if mode =? VICTIM_INCHIP then
      curr_root_entry ← rd empty_block_list mapping_index;
      if empty_block_nb curr_root_entry =? 0 then
        if negb (PLANES_PER_FLASH cfg =? 1) then
          let mi := i32 (mapping_index + 1) in
          let mi := if Z.rem mi (PLANES_PER_FLASH cfg) =? 0
                    then i32 (mi - (PLANES_PER_FLASH cfg - 1)) else mi in
          if mi =? input_mapping_index then mret None
          else get_empty_block_loop fuel' mode input_mapping_index mi
        else mret None
      else
        curr_empty_block ← need (head (eb_list curr_root_entry));
        if curr_phy_page_nb curr_empty_block =? u32 (PAGE_NB cfg) then
          retire_full_head mapping_index curr_empty_block ;;
          get_empty_block_loop fuel' mode input_mapping_index mapping_index
        else mret (Some mapping_index)
    else if mode =? VICTIM_NOPARAL then
      curr_root_entry ← rd empty_block_list mapping_index;
      if empty_block_nb curr_root_entry =? 0 then
        let mi := i32 (mapping_index + 1) in
        if mi =? EMPTY_TABLE_ENTRY_NB cfg then
          modify (set_empty_block_table_index 0) ;;
          get_empty_block_loop fuel' mode input_mapping_index 0
        else
          modify (fun s => set_empty_block_table_index (u32 (empty_block_table_index s + 1)) s) ;;
          get_empty_block_loop fuel' mode input_mapping_index mi
      else
        curr_empty_block ← need (head (eb_list curr_root_entry));
        if curr_phy_page_nb curr_empty_block =? u32 (PAGE_NB cfg) then
          retire_full_head mapping_index curr_empty_block ;;
          get_empty_block_loop fuel' mode input_mapping_index mapping_index
        else mret (Some mapping_index)
    else get_empty_block_loop fuel' mode input_mapping_index mapping_index
  end.

(** Every round either drops one of the empty blocks or moves to the next root;
    one turn over the roots per empty block is enough. *)
Definition get_empty_block_fuel (s : ftl) : nat :=
  (S (Z.to_nat (total_empty_block_nb s)) * S (Z.to_nat (EMPTY_TABLE_ENTRY_NB cfg)))%nat.

Definition GET_EMPTY_BLOCK (mode mapping_index : Z) : M ftl (option Z) :=
  t ← gets total_empty_block_nb;
  if t =? 0 then mret None
  else
    fuel ← gets get_empty_block_fuel;
    get_empty_block_loop fuel mode mapping_index mapping_index.

End Operations.
