(* ===== verification/Mapping.v ===== *)
(** * The page mapping table

    [FTL/PAGE_MAP/ftl_mapping_manager.c]: the table from logical to physical
    page numbers, the allocation of a new physical page, and the decomposition
    of a physical page number ([FTL_MAP_CACHE] is not defined). *)

From stdpp Require Import prelude.
From S2P Require Import Prelude Config Blocks.

Local Open Scope Z_scope.

Section Operations.
Context (cfg : config).

Definition GET_MAPPING_INFO (lpn : Z) : M ftl Z := rd mapping_table lpn.

(** The quotients and remainders are those of [int]; the results are converted
    to [unsigned int]. *)
Definition CALC_FLASH (ppn : Z) : Z := u32 (Z.quot (Z.quot ppn (PAGE_NB cfg)) (BLOCK_NB cfg)).
Definition CALC_BLOCK (ppn : Z) : Z := u32 (Z.rem (Z.quot ppn (PAGE_NB cfg)) (BLOCK_NB cfg)).
Definition CALC_PAGE (ppn : Z) : Z := u32 (Z.rem ppn (PAGE_NB cfg)).

(** The page number assigned through [ppn], or [None] when the function returns
    [FAIL].  The block is the head of the root that [GET_EMPTY_BLOCK] answers. *)
Definition GET_NEW_PAGE (mode mapping_index : Z) : M ftl (option Z) :=
  b1 ← GET_EMPTY_BLOCK cfg mode mapping_index;
  curr_empty_block ←
    (match b1 with
     | None => if mode =? VICTIM_INCHIP then GET_EMPTY_BLOCK cfg VICTIM_OVERALL mapping_index
               else mret None
     | Some _ => mret b1
     end);
  match curr_empty_block with
  | None => mret None
  | Some idx =>
      root ← rd empty_block_list idx;
      match eb_list root with
      | [] => undef
      | e :: l =>
          let ppn := i32 (phy_flash_nb e * BLOCK_NB cfg * PAGE_NB cfg
                          + phy_block_nb e * PAGE_NB cfg + curr_phy_page_nb e) in
          let e' := EBE (phy_flash_nb e) (phy_block_nb e) (u32 (curr_phy_page_nb e + 1)) in
          wr empty_block_list set_empty_block_list idx (EBR (e' :: l) (empty_block_nb root)) ;;
          mret (Some ppn)
      end
  end.

Definition UPDATE_OLD_PAGE_MAPPING (lpn : Z) : M ftl Z :=
  old_ppn ← GET_MAPPING_INFO lpn;
  if old_ppn =? -1 then mret SUCCESS
  else
    UPDATE_BLOCK_STATE_ENTRY cfg (CALC_FLASH old_ppn) (CALC_BLOCK old_ppn) (CALC_PAGE old_ppn) INVALID ;;
    UPDATE_INVERSE_MAPPING old_ppn (-1) ;;
    mret SUCCESS.

Definition UPDATE_NEW_PAGE_MAPPING (lpn ppn : Z) : M ftl Z :=
  wr mapping_table set_mapping_table lpn ppn ;;
  UPDATE_BLOCK_STATE_ENTRY cfg (CALC_FLASH ppn) (CALC_BLOCK ppn) (CALC_PAGE ppn) VALID ;;
  UPDATE_BLOCK_STATE cfg (CALC_FLASH ppn) (CALC_BLOCK ppn) DATA_BLOCK ;;
  UPDATE_INVERSE_MAPPING ppn lpn ;;
  mret SUCCESS.

End Operations.
