(* ===== verification/Device.v ===== *)
(** * The interface between the translation layer and the SSD module

    What [ftl.c] and [ftl_gc_manager.c] call of [SSD_MODULE/ssd_io_manager.c]
    and [FTL/COMMON/ftl_perf_manager.c], as a class of operations, and what they
    may rely on, as a specification machine [nand] and a simulation law.

    The simulator moves no data.  The specification machine gives each command
    the data effect that the command has on a drive: a read loads the page
    register and, for the host, delivers it; a collector's program stores the
    register; a host program stores new data.
    New data is a fresh version number; the content of a page is the list of
    the versions that make it up, newest first, back to the last whole-page
    write. *)

From stdpp Require Import prelude gmap.
From S2P Require Import Prelude Config.

Local Open Scope Z_scope.

(** ** Constants of [FTL/COMMON/common.h] *)

Definition NOOP : Z := 800.
Definition READ : Z := 801.
Definition WRITE : Z := 802.
Definition ERASE : Z := 803.
Definition GC_READ : Z := 804.
Definition GC_WRITE : Z := 805.

(** ** What is logged

    Built with [MONITOR_ON], that is without [LOCAL], the drive tells the monitor
    what happens: a read of [length] sectors, a write of [length] sectors in
    [pages] pages, a round of the collector that copies [copies] pages, an
    erasure, and the averages after a request.  The texts are in [Monitor]. *)
Inductive event :=
| ReadDone (length : Z)
| WriteDone (length pages : Z)
| Collected (copies : Z)
| Erased
| ReadAverage (bandwidth : double)
| WriteAverage (bandwidth util : double).

(** The translation layer logs the first three, the performance checker the
    others. *)
Definition ftl_event (e : event) : bool :=
  match e with ReadDone _ | WriteDone _ _ | Collected _ => true | _ => false end.

(** ** The operations

    [alloc_io_request sector_nb length type] is the statement
    [io_alloc_overhead = ALLOC_IO_REQUEST(sector_nb, length, type, &io_page_nb)]
    and answers [io_page_nb].  The arguments of the page commands are those of
    the source: flash, block, page, offset in the request, type, size of the
    request.  [write_log] is [WRITE_LOG] with the texts of an event. *)
Class Device := {
  dev : Type;
  alloc_io_request : Z -> Z -> Z -> M dev Z;
  increase_io_request_seq_nb : M dev unit;
  ssd_page_read : Z -> Z -> Z -> Z -> Z -> Z -> M dev Z;
  ssd_page_write : Z -> Z -> Z -> Z -> Z -> Z -> M dev Z;
  ssd_page_partial_write : Z -> Z -> Z -> Z -> Z -> Z -> Z -> Z -> Z -> M dev Z;
  ssd_block_erase : Z -> Z -> M dev Z;
  write_log : event -> M dev unit
}.

(** ** Splitting a request into pages

    One round of the loops of [_FTL_READ], [_FTL_WRITE] and [ALLOC_IO_REQUEST]:
    the sectors of the page on the right of the request and the sectors of the
    page in the request. *)
Definition page_skips (cfg : config) (remain left_skip : Z) : Z * Z :=
  let right_skip :=
    if u32 (SECTORS_PER_PAGE cfg - left_skip) <? remain then 0
    else u32 (SECTORS_PER_PAGE cfg - left_skip - remain) in
  (right_skip, u32 (SECTORS_PER_PAGE cfg - left_skip - right_skip)).

(** The number of rounds, that is [io_page_nb]. *)
Fixpoint count_pages (cfg : config) (fuel : nat) (remain left_skip : Z) : outcome Z :=
  match fuel with
  | O => OutOfFuel
  | S fuel' =>
      if remain <=? 0 then Ret 0 else
      let '(_, sects) := page_skips cfg remain left_skip in
      match count_pages cfg fuel' (u32 (remain - sects)) 0 with
      | Ret n => Ret (n + 1)
      | Undef => Undef
      | OutOfFuel => OutOfFuel
      end
  end.

Definition io_pages (cfg : config) (sector_nb length : Z) : outcome Z :=
  count_pages cfg (S (Z.to_nat length)) length (u32 (Z.rem sector_nb (SECTORS_PER_PAGE cfg))).

(** ** The specification machine *)

Definition content : Type := list Z.

Record nand := Nand {
  n_blocks : gmap (Z * Z) (list content);  (** the programmed pages of each block, in order *)
  n_buffer : content;                      (** the page register *)
  n_version : Z;                           (** the next version number *)
  n_request : option Z;                    (** the pages of the open request *)
  n_seq : Z;                               (** the requests closed so far *)
  n_out : list content;                    (** the data read for the host by the last request *)
  n_log : list event                       (** what the translation layer has logged *)
}.

Definition nand0 : nand := Nand ∅ [] 0 None 0 [] [].

Definition n_block (n : nand) (f b : Z) : list content := default [] (n_blocks n !! (f, b)).

Definition n_page (n : nand) (f b p : Z) : option content := aget (n_block n f b) p.

(** A request has at most [2^15 - 1] pages, the range of the 16-bit
    [request_size], and the sequence numbers do not reach [2^32 - 1], which as
    an [int] is the mark of "no request". *)
Definition nand_alloc (cfg : config) (sector_nb length type : Z) : M nand Z := fun n =>
  match n_request n, io_pages cfg sector_nb length with
  | None, Ret k =>
      if (1 <=? k) && (k <? 2 ^ 15) && (n_seq n <? 2 ^ 32 - 1)
      then Ret (k, Nand (n_blocks n) (n_buffer n) (n_version n) (Some k) (n_seq n) [] (n_log n))
      else Undef
  | _, _ => Undef
  end.

Definition nand_close : M nand unit := fun n =>
  match n_request n with
  | Some _ => Ret (tt, Nand (n_blocks n) (n_buffer n) (n_version n) None (n_seq n + 1) (n_out n) (n_log n))
  | None => Undef
  end.

(** A host command belongs to a page of the open request. *)
Definition offset_ok (n : nand) (type offset : Z) : bool :=
  match n_request n with
  | Some k => (0 <=? offset) && (offset <? k)
  | None => false
  end || (type =? GC_READ) || (type =? GC_WRITE).

Definition addr_ok (cfg : config) (f b p : Z) : bool :=
  (0 <=? f) && (f <? FLASH_NB cfg) && (0 <=? b) && (b <? BLOCK_NB cfg)
  && (0 <=? p) && (p <? PAGE_NB cfg).

(** Only a programmed page can be read. *)
Definition nand_read (cfg : config) (f b p offset type io_page_nb : Z) : M nand Z := fun n =>
  if negb (addr_ok cfg f b p && offset_ok n type offset && ((type =? READ) || (type =? GC_READ)))
  then Undef else
  match n_page n f b p with
  | Some c => Ret (1, Nand (n_blocks n) c (n_version n) (n_request n) (n_seq n)
                           (if type =? READ then n_out n ++ [c] else n_out n) (n_log n))
  | None => Undef
  end.

(** The pages of a block are programmed in order, each once. *)
Definition nand_append (n : nand) (f b : Z) (c : content) (v : Z) : nand :=
  Nand (<[(f, b) := n_block n f b ++ [c]]> (n_blocks n)) (n_buffer n) v (n_request n) (n_seq n) (n_out n) (n_log n).

Definition nand_write (cfg : config) (f b p offset type io_page_nb : Z) : M nand Z := fun n =>
  if negb (addr_ok cfg f b p && offset_ok n type offset && (p =? zlen (n_block n f b)))
  then Undef else
  if type =? WRITE then Ret (1, nand_append n f b [n_version n] (n_version n + 1))
  else if type =? GC_WRITE then Ret (1, nand_append n f b (n_buffer n) (n_version n))
  else Undef.

Definition nand_partial_write (cfg : config) (of_ ob op nf nb np offset type io_page_nb : Z) : M nand Z := fun n =>
  if negb (addr_ok cfg of_ ob op && addr_ok cfg nf nb np && offset_ok n type offset
           && (np =? zlen (n_block n nf nb)) && (type =? WRITE))
  then Undef else
  match n_page n of_ ob op with
  | Some c => Ret (1, nand_append n nf nb (n_version n :: c) (n_version n + 1))
  | None => Undef
  end.

Definition nand_erase (cfg : config) (f b : Z) : M nand Z := fun n =>
  if negb (addr_ok cfg f b 0) then Undef else
  Ret (1, Nand (<[(f, b) := []]> (n_blocks n)) (n_buffer n) (n_version n) (n_request n) (n_seq n) (n_out n) (n_log n)).

Definition add_log (e : event) (n : nand) : nand :=
  Nand (n_blocks n) (n_buffer n) (n_version n) (n_request n) (n_seq n) (n_out n) (n_log n ++ [e]).

Definition nand_log (e : event) : M nand unit := modify (add_log e).

(** The specification machine is itself a device. *)
Definition NandDevice (cfg : config) : Device := {|
  dev := nand;
  alloc_io_request := nand_alloc cfg;
  increase_io_request_seq_nb := nand_close;
  ssd_page_read := nand_read cfg;
  ssd_page_write := nand_write cfg;
  ssd_page_partial_write := nand_partial_write cfg;
  ssd_block_erase := nand_erase cfg;
  write_log := nand_log
|}.

(** ** The law of a device

    [refines n m R]: when the specification command [n] is allowed, the device's
    [m] runs without undefined behaviour, answers the same value and stays
    related. *)
Definition refines {D A} (R : nand -> D -> Prop) (m : M D A) (spec : M nand A) : Prop :=
  forall n d a n', R n d -> spec n = Ret (a, n') -> wp m (fun a' d' => a' = a /\ R n' d') d.

Class DeviceLaws (cfg : config) (D : Device) := {
  dev_rel : nand -> dev -> Prop;
  alloc_law s l t : refines dev_rel (alloc_io_request s l t) (nand_alloc cfg s l t);
  close_law : refines dev_rel increase_io_request_seq_nb nand_close;
  read_law f b p o t k : refines dev_rel (ssd_page_read f b p o t k) (nand_read cfg f b p o t k);
  write_law f b p o t k : refines dev_rel (ssd_page_write f b p o t k) (nand_write cfg f b p o t k);
  partial_law f b p f' b' p' o t k :
    refines dev_rel (ssd_page_partial_write f b p f' b' p' o t k)
            (nand_partial_write cfg f b p f' b' p' o t k);
  erase_law f b : refines dev_rel (ssd_block_erase f b) (nand_erase cfg f b);
  log_law e : ftl_event e = true -> refines dev_rel (write_log e) (nand_log e)
}.

#[export] Instance NandLaws cfg : DeviceLaws cfg (NandDevice cfg).
Proof.
  refine {| dev_rel := (fun n d => n = d) : nand -> @dev (NandDevice cfg) -> Prop |};
    intros; intros n d a n' <- Hs; unfold wp; simpl; first [rewrite Hs; done|by injection Hs as <- <-].
Defined.

(** A rule for programs: a device command does what the specification does. *)
Lemma wp_refines {D A} (R : nand -> D -> Prop) (m : M D A) spec n d a n' (Q : A -> D -> Prop) :
  refines R m spec -> R n d -> spec n = Ret (a, n') ->
  (forall d', R n' d' -> Q a d') -> wp m Q d.
Proof.
  intros Hm HR Hs HQ. eapply wp_mono; [by eapply Hm|]. intros a' d' [-> ?]. auto.
Qed.
