(* ===== verification/Perf.v ===== *)
(** * The performance checker and the list of host requests

    [FTL/COMMON/ftl_perf_manager.c], with the clock of
    [SSD_MODULE/ssd_io_manager.c].

    The clock is not part of the program: its [k]-th reading is [usec k], for a
    function that is a parameter.  Times are [int64_t] microseconds and are not
    wrapped. *)

From stdpp Require Import prelude.
From S2P Require Import Prelude Config Blocks Device.

Local Open Scope Z_scope.

(** ** Constants of [FTL/COMMON/common.h] *)

Definition CH_OP : Z := 80.
Definition REG_OP : Z := 81.
Definition LATENCY_OP : Z := 82.
Definition SEQ_WRITE : Z := 806.
Definition RAN_WRITE : Z := 807.
Definition RAN_COLD_WRITE : Z := 808.
Definition RAN_HOT_WRITE : Z := 809.
Definition SEQ_MERGE_READ : Z := 810.
Definition RAN_MERGE_READ : Z := 811.
Definition SEQ_MERGE_WRITE : Z := 812.
Definition RAN_MERGE_WRITE : Z := 813.
Definition RAN_COLD_MERGE_WRITE : Z := 816.
Definition RAN_HOT_MERGE_WRITE : Z := 817.
Definition UPDATE_START_TIME : Z := 900.
Definition UPDATE_END_TIME : Z := 901.

(** ** The clock

    [horizon t] is a reading from which on the clock has reached [t]; it bounds
    the busy-waiting loops. *)
Class Clock := {
  usec : nat -> Z;
  horizon : Z -> nat
}.

Class ClockLaws (C : Clock) := {
  usec_mono k : usec k <= usec (S k);
  usec_pos k : 0 < usec k;
  usec_horizon t k : (horizon t <= k)%nat -> t <= usec k
}.

(** ** Data *)

Record io_request := IoRequest {
  request_nb : Z;
  request_type : Z;
  request_size : Z;
  start_count : Z;
  end_count : Z;
  start_time : list Z;
  end_time : list Z
}.

(** The fourteen groups of [avg_*_delay], [total_*_count], [total_*_delay]. *)
Inductive io_kind :=
| k_write | k_read | k_gc_write | k_gc_read
| k_seq_write | k_ran_write | k_ran_cold_write | k_ran_hot_write
| k_seq_merge_read | k_ran_merge_read | k_seq_merge_write | k_ran_merge_write
| k_ran_cold_merge_write | k_ran_hot_merge_write.

#[export] Instance io_kind_eq_dec : EqDecision io_kind.
Proof. solve_decision. Defined.

Record io_stat := IoStat {
  avg_delay : double;
  total_count : double;
  total_delay : double
}.

(** The globals of the file, and the number of readings of the clock so far.
    [io_requests] is the list from [io_request_start] to [io_request_end];
    [log_events] is what has been given to [WRITE_LOG], with [MONITOR_ON]. *)
Record perf := Perf {
  clock_reads : nat;
  io_stats : io_kind -> io_stat;
  io_request_nb : Z;
  io_request_seq_nb : Z;
  io_requests : list io_request;
  read_latency_count : double;
  write_latency_count : double;
  avg_read_latency : double;
  avg_write_latency : double;
  ssd_util : double;
  written_page_nb : Z;
  log_events : list event
}.

Definition dbl0 : double := dbl_of_Z 0.
Definition dbl1 : double := dbl_of_Z 1.

Definition set_clock_reads v p := Perf v (io_stats p) (io_request_nb p) (io_request_seq_nb p)
  (io_requests p) (read_latency_count p) (write_latency_count p) (avg_read_latency p)
  (avg_write_latency p) (ssd_util p) (written_page_nb p) (log_events p).
Definition set_io_stats v p := Perf (clock_reads p) v (io_request_nb p) (io_request_seq_nb p)
  (io_requests p) (read_latency_count p) (write_latency_count p) (avg_read_latency p)
  (avg_write_latency p) (ssd_util p) (written_page_nb p) (log_events p).
Definition set_io_requests l nb p := Perf (clock_reads p) (io_stats p) nb (io_request_seq_nb p)
  l (read_latency_count p) (write_latency_count p) (avg_read_latency p)
  (avg_write_latency p) (ssd_util p) (written_page_nb p) (log_events p).
Definition set_io_request_seq_nb v p := Perf (clock_reads p) (io_stats p) (io_request_nb p) v
  (io_requests p) (read_latency_count p) (write_latency_count p) (avg_read_latency p)
  (avg_write_latency p) (ssd_util p) (written_page_nb p) (log_events p).
Definition set_read_latency c a p := Perf (clock_reads p) (io_stats p) (io_request_nb p)
  (io_request_seq_nb p) (io_requests p) c (write_latency_count p) a (avg_write_latency p)
  (ssd_util p) (written_page_nb p) (log_events p).
Definition set_write_latency c a p := Perf (clock_reads p) (io_stats p) (io_request_nb p)
  (io_request_seq_nb p) (io_requests p) (read_latency_count p) c (avg_read_latency p) a
  (ssd_util p) (written_page_nb p) (log_events p).
Definition set_ssd_util u w p := Perf (clock_reads p) (io_stats p) (io_request_nb p)
  (io_request_seq_nb p) (io_requests p) (read_latency_count p) (write_latency_count p)
  (avg_read_latency p) (avg_write_latency p) u w (log_events p).
Definition set_log_events v p := Perf (clock_reads p) (io_stats p) (io_request_nb p)
  (io_request_seq_nb p) (io_requests p) (read_latency_count p) (write_latency_count p)
  (avg_read_latency p) (avg_write_latency p) (ssd_util p) (written_page_nb p) v.

(** [sprintf] and [WRITE_LOG] *)
Definition log_event (e : event) (p : perf) : perf := set_log_events (log_events p ++ [e]) p.

(** What the translation layer has logged. *)
Definition ftl_log (p : perf) : list event := filter (fun e => ftl_event e = true) (log_events p).

(** The initial value of the globals, at the [k]-th reading of the clock. *)
Definition perf0 (k : nat) : perf :=
  Perf k (fun _ => IoStat dbl0 dbl0 dbl0) 0 0 [] dbl0 dbl0 dbl0 dbl0 dbl0 0 [].

(** [INIT_PERF_CHECKER]; the clock goes on. *)
Definition INIT_PERF_CHECKER : M perf unit := modify (fun p =>
  Perf (clock_reads p) (fun _ => IoStat dbl0 dbl0 dbl0) 0 0 [] dbl0 dbl0 dbl0 dbl0 dbl0 0 (log_events p)).

(** What [TERM_PERF_CHECKER] prints: the average latencies. *)
Definition TERM_PERF_CHECKER : M perf (double * double) :=
  gets (fun p => (avg_read_latency p, avg_write_latency p)).

Definition get_usec `{Clock} : M perf Z :=
  k ← gets clock_reads;
  modify (set_clock_reads (S k)) ;;
  mret (usec k).

(** ** [SEND_TO_PERF_CHECKER] *)

Definition stat_of (op_type : Z) : option io_kind :=
  if op_type =? READ then Some k_read
  else if op_type =? WRITE then Some k_write
  else if op_type =? GC_READ then Some k_gc_read
  else if op_type =? GC_WRITE then Some k_gc_write
  else if op_type =? SEQ_WRITE then Some k_seq_write
  else if op_type =? RAN_WRITE then Some k_ran_write
  else if op_type =? RAN_COLD_WRITE then Some k_ran_cold_write
  else if op_type =? RAN_HOT_WRITE then Some k_ran_hot_write
  else if op_type =? SEQ_MERGE_READ then Some k_seq_merge_read
  else if op_type =? RAN_MERGE_READ then Some k_ran_merge_read
  else if op_type =? SEQ_MERGE_WRITE then Some k_seq_merge_write
  else if op_type =? RAN_MERGE_WRITE then Some k_ran_merge_write
  else if op_type =? RAN_COLD_MERGE_WRITE then Some k_ran_cold_merge_write
  else if op_type =? RAN_HOT_MERGE_WRITE then Some k_ran_hot_merge_write
  else None.

(** [total_*_delay += delay] *)
Definition add_delay (k : io_kind) (delay : double) (p : perf) : perf :=
  let st := io_stats p k in
  let st' := IoStat (avg_delay st) (total_count st) (dbl_add (total_delay st) delay) in
  set_io_stats (fun k' => if decide (k' = k) then st' else io_stats p k') p.

(** [total_*_count++; avg_*_delay = total_*_delay / total_*_count] *)
Definition count_io (k : io_kind) (p : perf) : perf :=
  let st := io_stats p k in
  let c := dbl_add (total_count st) dbl1 in
  let st' := IoStat (dbl_div (total_delay st) c) c (total_delay st) in
  set_io_stats (fun k' => if decide (k' = k) then st' else io_stats p k') p.

Definition add_written (n : Z) (p : perf) : perf := set_ssd_util (ssd_util p) (written_page_nb p + n) p.

Definition is_kind (l : list io_kind) (k : io_kind) : bool := bool_decide (k ∈ l).

Section Operations.
Context (cfg : config).

(** Only the reads are counted when the channel is done. *)
Definition send_ch_op (op_type : Z) (delay : double) (p : perf) : perf :=
  match stat_of op_type with
  | Some k_read => count_io k_read (add_delay k_read delay p)
  | Some k => add_delay k delay p
  | None => p
  end.

(** Everything but the reads is counted when the cell is done; the writes of the
    host count as writes too; programs and erases change the utilisation. *)
Definition send_reg_op (op_type : Z) (delay : double) (p : perf) : perf :=
  let p :=
    match stat_of op_type with
    | Some k_read => add_delay k_read delay p
    | Some k =>
        let p := count_io k (add_delay k delay p) in
        let p := if is_kind [k_seq_write; k_ran_write; k_ran_cold_write; k_ran_hot_write] k
                 then count_io k_write (add_delay k_write delay p) else p in
        if is_kind [k_gc_read; k_seq_merge_read; k_ran_merge_read] k then p else add_written 1 p
    | None => if op_type =? ERASE then log_event Erased (add_written (- PAGE_NB cfg) p) else p
    end in
  set_ssd_util (dbl_mul (dbl_div (dbl_of_Z (written_page_nb p)) (dbl_of_Z (PAGES_IN_SSD cfg))) (dbl_of_Z 100))
    (written_page_nb p) p.

Definition GET_IO_BANDWIDTH (delay : double) : double :=
  if negb (dbl_is_zero delay)
  then dbl_div (dbl_mul (dbl_of_Z (PAGE_SIZE cfg)) (dbl_of_Z 1000000))
               (dbl_mul (dbl_mul delay (dbl_of_Z 1024)) (dbl_of_Z 1024))
  else dbl0.

(** [(avg * count + delay) / (count + 1)] *)
Definition next_avg (avg count delay : double) : double :=
  dbl_div (dbl_add (dbl_mul avg count) delay) (dbl_add count dbl1).

Definition send_latency_op (op_type : Z) (delay : double) (p : perf) : perf :=
  if op_type =? READ then
    log_event (ReadAverage (GET_IO_BANDWIDTH (avg_delay (io_stats p k_read))))
      (set_read_latency (dbl_add (read_latency_count p) dbl1)
        (next_avg (avg_read_latency p) (read_latency_count p) delay) p)
  else if op_type =? WRITE then
    log_event (WriteAverage (GET_IO_BANDWIDTH (avg_delay (io_stats p k_write))) (ssd_util p))
      (set_write_latency (dbl_add (write_latency_count p) dbl1)
        (next_avg (avg_write_latency p) (write_latency_count p) delay) p)
  else p.

Definition SEND_TO_PERF_CHECKER (op_type op_delay type : Z) : M perf unit :=
  let delay := dbl_of_Z op_delay in
  modify (fun p =>
    if type =? CH_OP then send_ch_op op_type delay p
    else if type =? REG_OP then send_reg_op op_type delay p
    else if type =? LATENCY_OP then send_latency_op op_type delay p
    else p).

(** ** The list of requests *)

Context `{Clock}.

(** The answer is the number of pages, assigned through [page_nb], and the time
    the call took. *)
Definition ALLOC_IO_REQUEST (sector_nb length io_type : Z) : M perf (Z * Z) :=
  start ← get_usec;
  io_page_nb ← (fun p => match io_pages cfg sector_nb length with
                         | Ret n => Ret (n, p)
                         | Undef => Undef
                         | OutOfFuel => OutOfFuel
                         end);
  let zeros := replicate (Z.to_nat io_page_nb) 0 in
  seq ← gets io_request_seq_nb;
  let curr_io_request := IoRequest seq (i16 io_type) (i16 io_page_nb) 0 0 zeros zeros in
  l ← gets io_requests;
  nb ← gets io_request_nb;
  (match l with
   | [] => if nb =? 0 then mret tt else undef
   | _ => mret tt
   end) ;;
  modify (set_io_requests (l ++ [curr_io_request]) (u32 (nb + 1))) ;;
  end_ ← get_usec;
  mret (io_page_nb, end_ - start).

(** The search among the first [n] requests: the position of the request. *)
Fixpoint lookup_loop (n : nat) (nb : Z) (l : list io_request) : option nat :=
  match n, l with
  | S n', r :: l' => if request_nb r =? nb then Some O else S <$> lookup_loop n' nb l'
  | _, _ => None
  end.

Definition LOOKUP_IO_REQUEST (request_nb : Z) : M perf (option nat) :=
  l ← gets io_requests;
  total_request ← gets io_request_nb;
  mret (lookup_loop (Z.to_nat (i32 total_request)) (u32 request_nb) l).

(** Unlinking the request at position [i]; the loop looks at the successors of
    the first [io_request_nb - 1] requests. *)
Definition FREE_IO_REQUEST (i : nat) : M perf unit :=
  l ← gets io_requests;
  nb ← gets io_request_nb;
  if nb =? 1 then modify (set_io_requests [] (u32 (nb - 1)))
  else if (i =? 0)%nat then modify (set_io_requests (tail l) (u32 (nb - 1)))
  else if Z.of_nat i <=? u32 (nb - 1) then modify (set_io_requests (delete i l) (u32 (nb - 1)))
  else mret tt.

(** The same for the request of the current number.  A request that is not
    there is a null pointer: it is dereferenced, unless the search ends before
    the end of the list. *)
Definition FREE_DUMMY_IO_REQUEST : M perf unit :=
  seq ← gets io_request_seq_nb;
  r ← LOOKUP_IO_REQUEST (i32 seq);
  match r with
  | Some i => FREE_IO_REQUEST i
  | None =>
      l ← gets io_requests;
      nb ← gets io_request_nb;
      if (nb =? 1) || negb (u32 (nb - 1) <? zlen l) then undef else mret tt
  end.

(** *** The latency of a request *)

(** Pages whose end was not recorded get the nominal delay. *)
Definition fill_end (type : Z) (s e : Z) : Z :=
  if e =? 0 then
    if type =? READ then s + REG_READ_DELAY cfg + CELL_READ_DELAY cfg
    else if type =? WRITE then s + REG_WRITE_DELAY cfg + CELL_PROGRAM_DELAY cfg
    else e
  else e.

Definition CALC_IO_LATENCY (r : io_request) : option Z :=
  let n := Z.to_nat (request_size r) in
  if (request_size r =? 0) || (zlen (start_time r) <? request_size r)
     || (zlen (end_time r) <? request_size r) then None else
  let starts := take n (start_time r) in
  let ends := zip_with (fill_end (request_type r)) starts (take n (end_time r)) ++ drop n (end_time r) in
  s0 ← head (start_time r);
  e0 ← head ends;
  let min_start_time := foldl Z.min s0 (tail starts) in
  let max_end_time := foldl Z.max e0 (tail (take n ends)) in
  Some (Z.quot (max_end_time - min_start_time) (request_size r)).

(** *** [UPDATE_IO_REQUEST] *)

Definition set_start (r : io_request) (l : list Z) : io_request :=
  IoRequest (request_nb r) (request_type r) (request_size r) (i16 (start_count r + 1)) (end_count r)
    l (end_time r).
Definition set_end (r : io_request) (l : list Z) : io_request :=
  IoRequest (request_nb r) (request_type r) (request_size r) (start_count r) (i16 (end_count r + 1))
    (start_time r) l.

Definition UPDATE_IO_REQUEST (request_nb offset time type : Z) : M perf Z :=
  start ← get_usec;
  if request_nb =? -1 then mret 0 else
  pos ← LOOKUP_IO_REQUEST request_nb;
  match pos with
  | None => mret 0
  | Some i =>
      l ← gets io_requests;
      nb ← gets io_request_nb;
      curr_request ← need (l !! i);
      r ← (if type =? UPDATE_START_TIME then
             t ← need (aset (start_time curr_request) offset time); mret (set_start curr_request t)
           else if type =? UPDATE_END_TIME then
             t ← need (aset (end_time curr_request) offset time); mret (set_end curr_request t)
           else mret curr_request);
      modify (set_io_requests (<[i := r]> l) nb) ;;
      (if (start_count r =? request_size r) && (end_count r =? request_size r) then
         latency ← need (CALC_IO_LATENCY r);
         SEND_TO_PERF_CHECKER (request_type r) latency LATENCY_OP ;;
         FREE_IO_REQUEST i
       else mret tt) ;;
      end_ ← get_usec;
      mret (end_ - start)
  end.

Definition INCREASE_IO_REQUEST_SEQ_NB : M perf unit :=
  modify (fun p => set_io_request_seq_nb
    (if io_request_seq_nb p =? 2 ^ 32 - 1 then 0 else u32 (io_request_seq_nb p + 1)) p).

End Operations.
