(* ===== verification/SsdIo.v ===== *)
(** * The timing model of the flash module

    [SSD_MODULE/ssd_io_manager.c], built with [VSSIM_BENCH] and without
    [O_DIRECT_VSSIM].  A command waits until the registers and cells it uses
    have finished their previous command, then records its own time stamps.
    The registers are arrays with one element per plane of each flash. *)

From stdpp Require Import prelude.
From S2P Require Import Prelude Config Blocks Device Perf.

Local Open Scope Z_scope.

(** ** State *)

Record io := Io {
  reg_io_cmd : list Z;
  reg_io_type : list Z;
  reg_io_time : list Z;
  cell_io_time : list Z;
  access_nb : list (Z * Z);
  io_overhead : list Z;
  old_channel_nb : Z;
  old_channel_cmd : Z;
  old_channel_time : Z;
  init_diff_reg : Z;
  io_alloc_overhead : Z;
  io_update_overhead : Z
}.

(** The initial value of the globals. *)
Definition io0 : io := Io [] [] [] [] [] [] 0 0 0 0 0 0.

Definition set_reg_io_cmd v s := Io v (reg_io_type s) (reg_io_time s) (cell_io_time s) (access_nb s)
  (io_overhead s) (old_channel_nb s) (old_channel_cmd s) (old_channel_time s) (init_diff_reg s)
  (io_alloc_overhead s) (io_update_overhead s).
Definition set_reg_io_type v s := Io (reg_io_cmd s) v (reg_io_time s) (cell_io_time s) (access_nb s)
  (io_overhead s) (old_channel_nb s) (old_channel_cmd s) (old_channel_time s) (init_diff_reg s)
  (io_alloc_overhead s) (io_update_overhead s).
Definition set_reg_io_time v s := Io (reg_io_cmd s) (reg_io_type s) v (cell_io_time s) (access_nb s)
  (io_overhead s) (old_channel_nb s) (old_channel_cmd s) (old_channel_time s) (init_diff_reg s)
  (io_alloc_overhead s) (io_update_overhead s).
Definition set_cell_io_time v s := Io (reg_io_cmd s) (reg_io_type s) (reg_io_time s) v (access_nb s)
  (io_overhead s) (old_channel_nb s) (old_channel_cmd s) (old_channel_time s) (init_diff_reg s)
  (io_alloc_overhead s) (io_update_overhead s).
Definition set_access_nb v s := Io (reg_io_cmd s) (reg_io_type s) (reg_io_time s) (cell_io_time s) v
  (io_overhead s) (old_channel_nb s) (old_channel_cmd s) (old_channel_time s) (init_diff_reg s)
  (io_alloc_overhead s) (io_update_overhead s).
Definition set_io_overhead v s := Io (reg_io_cmd s) (reg_io_type s) (reg_io_time s) (cell_io_time s)
  (access_nb s) v (old_channel_nb s) (old_channel_cmd s) (old_channel_time s) (init_diff_reg s)
  (io_alloc_overhead s) (io_update_overhead s).
Definition set_old_channel nb cmd t s := Io (reg_io_cmd s) (reg_io_type s) (reg_io_time s)
  (cell_io_time s) (access_nb s) (io_overhead s) nb cmd t (init_diff_reg s)
  (io_alloc_overhead s) (io_update_overhead s).
Definition set_init_diff_reg v s := Io (reg_io_cmd s) (reg_io_type s) (reg_io_time s) (cell_io_time s)
  (access_nb s) (io_overhead s) (old_channel_nb s) (old_channel_cmd s) (old_channel_time s) v
  (io_alloc_overhead s) (io_update_overhead s).
Definition set_overheads a u s := Io (reg_io_cmd s) (reg_io_type s) (reg_io_time s) (cell_io_time s)
  (access_nb s) (io_overhead s) (old_channel_nb s) (old_channel_cmd s) (old_channel_time s)
  (init_diff_reg s) a u.

(** The state of the module: the performance checker with the clock, and the
    registers. *)
Abbreviation module := (perf * io)%type.

Definition module0 (k : nat) : module := (perf0 k, io0).

Definition io_rd {A} (f : io -> list A) (i : Z) : M module A := on_snd (rd f i).
Definition io_wr {A} (f : io -> list A) (set : list A -> io -> io) (i : Z) (x : A) : M module unit :=
  on_snd (wr f set i x).
Definition io_gets {A} (f : io -> A) : M module A := on_snd (gets f).
Definition io_modify (f : io -> io) : M module unit := on_snd (modify f).

Section Operations.
Context (cfg : config) `{Clock}.

Definition now : M module Z := on_fst get_usec.

Definition regs : nat := Z.to_nat (FLASH_NB cfg * PLANES_PER_FLASH cfg).

Definition SSD_IO_INIT : M module Z :=
  io_modify (fun s => Io (replicate regs NOOP) (replicate regs NOOP) (replicate regs (-1))
    (replicate regs (-1)) (replicate regs (-1, -1)) (replicate regs 0)
    (CHANNEL_NB cfg) NOOP 0 (init_diff_reg s) (io_alloc_overhead s) (io_update_overhead s)) ;;
  mret 0.

(** ** Overhead and requests *)

Definition SSD_UPDATE_IO_OVERHEAD (reg overhead_time : Z) : M module unit :=
  o ← io_rd io_overhead reg;
  io_wr io_overhead set_io_overhead reg (o + overhead_time) ;;
  io_modify (set_overheads 0 0).

(** [io_update_overhead = UPDATE_IO_REQUEST(...)] *)
Definition update_io_request (nb offset time type : Z) : M module Z :=
  v ← on_fst (UPDATE_IO_REQUEST cfg nb offset time type);
  io_modify (fun s => set_overheads (io_alloc_overhead s) v s) ;;
  mret v.

Definition SSD_UPDATE_IO_REQUEST (reg : Z) : M module unit :=
  curr_time ← now;
  d ← io_gets init_diff_reg;
  a ← io_rd access_nb reg;
  v ← update_io_request (fst a) (snd a) (if negb (d =? 0) then curr_time else 0) UPDATE_END_TIME;
  SSD_UPDATE_IO_OVERHEAD reg v ;;
  a ← io_rd access_nb reg;
  io_wr access_nb set_access_nb reg (-1, snd a).

(** ** Delays *)

(** [while (diff < delay) diff = get_usec() - base;] *)
Fixpoint busy_wait (fuel : nat) (base delay diff : Z) : M module unit :=
  match fuel with
  | O => out_of_fuel
  | S fuel' =>
      if diff <? delay then t ← now; busy_wait fuel' base delay (t - base) else mret tt
  end.

(** The clock reaches [base + delay] at its horizon. *)
Definition wait_until (base delay diff : Z) : M module unit :=
  busy_wait (S (S (horizon (base + delay)))) base delay diff.

Definition SSD_CH_SWITCH_DELAY (channel : Z) : M module Z :=
  cmd ← io_gets old_channel_cmd;
  if negb ((cmd =? READ) || (cmd =? WRITE)) then mret 0 else
  let switch_delay := if cmd =? READ then CHANNEL_SWITCH_DELAY_R cfg else CHANNEL_SWITCH_DELAY_W cfg in
  start ← now;
  t ← io_gets old_channel_time;
  wait_until t switch_delay (start - t) ;;
  end_ ← now;
  mret (end_ - start).

Definition SSD_REG_WRITE_DELAY (reg : Z) : M module Z :=
  time_stamp ← io_rd reg_io_time reg;
  if time_stamp =? -1 then mret 0 else
  start ← now;
  let diff := start - time_stamp in
  wait_until time_stamp (REG_WRITE_DELAY cfg) diff ;;
  end_ ← now;
  type ← io_rd reg_io_type reg;
  on_fst (SEND_TO_PERF_CHECKER cfg type (end_ - start) CH_OP) ;;
  io_wr reg_io_time set_reg_io_time reg (-1) ;;
  mret (if diff <? REG_WRITE_DELAY cfg then 1 else 0).

Definition SSD_REG_READ_DELAY (reg : Z) : M module Z :=
  time_stamp ← io_rd reg_io_time reg;
  if time_stamp =? -1 then mret 0 else
  start ← now;
  let diff := start - time_stamp in
  wait_until time_stamp (REG_READ_DELAY cfg) diff ;;
  end_ ← now;
  type ← io_rd reg_io_type reg;
  on_fst (SEND_TO_PERF_CHECKER cfg type (end_ - start) CH_OP) ;;
  SSD_UPDATE_IO_REQUEST reg ;;
  io_wr reg_io_time set_reg_io_time reg (-1) ;;
  io_wr reg_io_cmd set_reg_io_cmd reg NOOP ;;
  io_wr reg_io_type set_reg_io_type reg NOOP ;;
  mret (if diff <? REG_READ_DELAY cfg then 1 else 0).

Definition SSD_CELL_WRITE_DELAY (reg : Z) : M module Z :=
  time_stamp ← io_rd cell_io_time reg;
  if time_stamp =? -1 then mret 0 else
  start ← now;
  o ← io_rd io_overhead reg;
  let diff := start - time_stamp + o in
  (if diff <? CELL_PROGRAM_DELAY cfg then io_modify (set_init_diff_reg diff) else mret tt) ;;
  wait_until (time_stamp - o) (CELL_PROGRAM_DELAY cfg) diff ;;
  end_ ← now;
  type ← io_rd reg_io_type reg;
  on_fst (SEND_TO_PERF_CHECKER cfg type (end_ - start) REG_OP) ;;
  SSD_UPDATE_IO_REQUEST reg ;;
  io_wr cell_io_time set_cell_io_time reg (-1) ;;
  io_wr reg_io_cmd set_reg_io_cmd reg NOOP ;;
  io_wr reg_io_type set_reg_io_type reg NOOP ;;
  io_wr io_overhead set_io_overhead reg 0 ;;
  mret (if diff <? CELL_PROGRAM_DELAY cfg then 1 else 0).

Definition SSD_CELL_READ_DELAY (reg : Z) : M module Z :=
  time_stamp ← io_rd cell_io_time reg;
  if time_stamp =? -1 then mret 0 else
  start ← now;
  o ← io_rd io_overhead reg;
  let diff := start - time_stamp + o in
  (if diff <? CELL_READ_DELAY cfg then io_modify (set_init_diff_reg diff) else mret tt) ;;
  wait_until (time_stamp - o) (CELL_READ_DELAY cfg) diff ;;
  end_ ← now;
  type ← io_rd reg_io_type reg;
  on_fst (SEND_TO_PERF_CHECKER cfg type (end_ - start) REG_OP) ;;
  io_wr cell_io_time set_cell_io_time reg (-1) ;;
  io_wr io_overhead set_io_overhead reg 0 ;;
  mret (if diff <? CELL_READ_DELAY cfg then 1 else 0).

Definition SSD_BLOCK_ERASE_DELAY (reg : Z) : M module Z :=
  time_stamp ← io_rd cell_io_time reg;
  if time_stamp =? -1 then mret 0 else
  start ← now;
  t ← now;
  let diff := t - time_stamp in
  wait_until time_stamp (BLOCK_ERASE_DELAY cfg) diff ;;
  end_ ← now;
  type ← io_rd reg_io_type reg;
  on_fst (SEND_TO_PERF_CHECKER cfg type (end_ - start) REG_OP) ;;
  io_wr cell_io_time set_cell_io_time reg (-1) ;;
  io_wr reg_io_cmd set_reg_io_cmd reg NOOP ;;
  io_wr reg_io_type set_reg_io_type reg NOOP ;;
  mret (if diff <? BLOCK_ERASE_DELAY cfg then 1 else 0).

(** ** Access to registers, flashes and channels *)

Definition SSD_REG_ACCESS (reg : Z) : M module Z :=
  reg_cmd ← io_rd reg_io_cmd reg;
  if reg_cmd =? NOOP then mret 0
  else if reg_cmd =? READ then SSD_CELL_READ_DELAY reg ;; SSD_REG_READ_DELAY reg
  else if reg_cmd =? WRITE then SSD_REG_WRITE_DELAY reg ;; SSD_CELL_WRITE_DELAY reg
  else if reg_cmd =? ERASE then SSD_BLOCK_ERASE_DELAY reg
  else mret 0.

Definition SSD_REMAIN_IO_DELAY (reg : Z) : M module unit := SSD_REG_ACCESS reg ;; mret tt.

(** The loop over the planes of a flash, from register [r_num] on. *)
Fixpoint flash_access_loop (n : nat) (r_num reg ret : Z) : M module Z :=
  match n with
  | O => mret ret
  | S n' =>
      skip ← (if r_num =? reg then mret false else
                a ← io_rd access_nb r_num;
                seq ← on_fst (gets io_request_seq_nb);
                mret (u32 (fst a) =? seq));
      ret ← (if (skip : bool) then mret ret else SSD_REG_ACCESS r_num);
      flash_access_loop n' (r_num + 1) reg ret
  end.

Definition SSD_FLASH_ACCESS (flash_nb reg : Z) : M module Z :=
  flash_access_loop (Z.to_nat (PLANES_PER_FLASH cfg)) (i32 (flash_nb * PLANES_PER_FLASH cfg)) reg 0.

Definition SSD_CH_ENABLE (channel : Z) : M module Z :=
  if (CHANNEL_SWITCH_DELAY_R cfg =? 0) && (CHANNEL_SWITCH_DELAY_W cfg =? 0) then mret SUCCESS else
  o ← io_gets old_channel_nb;
  (if negb (o =? channel) then SSD_CH_SWITCH_DELAY channel ;; mret tt else mret tt) ;;
  mret SUCCESS.

(** The registers of a channel, in the order of the nested loops. *)
Definition channel_regs (channel : Z) : list Z :=
  i ← seqZ 0 (WAY_NB cfg);
  (fun j => channel * PLANES_PER_FLASH cfg + i * CHANNEL_NB cfg * PLANES_PER_FLASH cfg + j)
    <$> seqZ 0 (PLANES_PER_FLASH cfg).

Fixpoint ch_access_loop (l : list Z) (ret : Z) : M module Z :=
  match l with
  | [] => mret ret
  | r_num :: l' =>
      t ← io_rd reg_io_time r_num;
      u ← now;
      cmd ← io_rd reg_io_cmd r_num;
      ret ← (if (t <=? u) && negb (t =? -1) then
               if cmd =? READ then
                 SSD_CELL_READ_DELAY r_num ;; SSD_REG_READ_DELAY r_num ;; mret FAIL
               else if cmd =? WRITE then SSD_REG_WRITE_DELAY r_num ;; mret FAIL
               else mret ret
             else mret ret);
      ch_access_loop l' ret
  end.

Definition SSD_CH_ACCESS (channel : Z) : M module Z := ch_access_loop (channel_regs channel) SUCCESS.

(** [while (ret == FAIL) ret = SSD_CH_ACCESS(channel);]: every round that fails
    finishes the transfer of a register of the channel. *)
Fixpoint ch_access_while (fuel : nat) (channel ret : Z) : M module Z :=
  match fuel with
  | O => out_of_fuel
  | S fuel' =>
      if ret =? FAIL then ret ← SSD_CH_ACCESS channel; ch_access_while fuel' channel ret
      else mret ret
  end.

Definition check_channel (channel ret : Z) : M module Z :=
  ch_access_while (S (S (length (channel_regs channel)))) channel ret.

(** ** Time stamps *)

Definition SSD_CH_RECORD (channel cmd offset ret : Z) : M module Z :=
  t ← io_gets old_channel_time;
  io_modify (set_old_channel channel cmd t) ;;
  (if (cmd =? READ) && negb (offset =? 0) && (ret =? 0) then
     io_modify (set_old_channel channel cmd (t + CHANNEL_SWITCH_DELAY_R cfg))
   else if (cmd =? WRITE) && negb (offset =? 0) && (ret =? 0) then
     io_modify (set_old_channel channel cmd (t + CHANNEL_SWITCH_DELAY_W cfg))
   else u ← now; io_modify (set_old_channel channel cmd u)) ;;
  mret SUCCESS.

(** The transfers of reads on the channel that are still to come are put off. *)
Fixpoint update_ch_loop (l : list Z) (current_time : Z) : M module unit :=
  match l with
  | [] => mret tt
  | r_num :: l' =>
      cmd ← io_rd reg_io_cmd r_num;
      t ← io_rd reg_io_time r_num;
      (if (cmd =? READ) && (current_time <? t)
       then io_wr reg_io_time set_reg_io_time r_num (t + REG_WRITE_DELAY cfg) else mret tt) ;;
      update_ch_loop l' current_time
  end.

Definition SSD_UPDATE_CH_ACCESS_TIME (channel current_time : Z) : M module unit :=
  update_ch_loop (channel_regs channel) current_time.

Fixpoint ch_time_loop (l : list Z) (latest_time : Z) : M module Z :=
  match l with
  | [] => mret latest_time
  | r_num :: l' =>
      cmd ← io_rd reg_io_cmd r_num;
      t ← io_rd reg_io_time r_num;
      let temp_time := if cmd =? READ then t + REG_READ_DELAY cfg
                       else if cmd =? WRITE then t + REG_WRITE_DELAY cfg else 0 in
      ch_time_loop l' (if latest_time <? temp_time then temp_time else latest_time)
  end.

Definition SSD_GET_CH_ACCESS_TIME_FOR_READ (channel reg : Z) : M module Z :=
  c ← io_rd cell_io_time reg;
  ch_time_loop (channel_regs channel) (c + CELL_READ_DELAY cfg).

(** The page of the request that a register works for; the start is recorded. *)
Definition record_start (reg offset : Z) : M module unit :=
  seq ← on_fst (gets io_request_seq_nb);
  io_wr access_nb set_access_nb reg (i32 seq, offset) ;;
  t ← io_gets old_channel_time;
  v ← update_io_request (i32 seq) offset t UPDATE_START_TIME;
  SSD_UPDATE_IO_OVERHEAD reg v.

Definition is_host_write (type : Z) : bool :=
  (type =? WRITE) || (type =? SEQ_WRITE) || (type =? RAN_WRITE) || (type =? RAN_COLD_WRITE)
  || (type =? RAN_HOT_WRITE).

Definition SSD_REG_RECORD (reg cmd type offset channel : Z) : M module Z :=
  io_wr reg_io_cmd set_reg_io_cmd reg cmd ;;
  io_wr reg_io_type set_reg_io_type reg type ;;
  (if cmd =? WRITE then
     t ← io_gets old_channel_time;
     io_wr reg_io_time set_reg_io_time reg (t + CHANNEL_SWITCH_DELAY_W cfg) ;;
     SSD_UPDATE_CH_ACCESS_TIME channel (t + CHANNEL_SWITCH_DELAY_W cfg) ;;
     (if is_host_write type then record_start reg offset
      else io_wr access_nb set_access_nb reg (-1, -1))
   else if cmd =? READ then
     t ← SSD_GET_CH_ACCESS_TIME_FOR_READ channel reg;
     io_wr reg_io_time set_reg_io_time reg t ;;
     (if type =? READ then record_start reg offset
      else io_wr access_nb set_access_nb reg (-1, -1))
   else if cmd =? ERASE then io_wr access_nb set_access_nb reg (-1, -1)
   else mret tt) ;;
  mret SUCCESS.

Definition SSD_CELL_RECORD (reg cmd : Z) : M module Z :=
  (if cmd =? WRITE then
     t ← io_rd reg_io_time reg;
     io_wr cell_io_time set_cell_io_time reg (t + REG_WRITE_DELAY cfg)
   else if cmd =? READ then
     t ← io_gets old_channel_time;
     io_wr cell_io_time set_cell_io_time reg (t + CHANNEL_SWITCH_DELAY_R cfg)
   else if cmd =? ERASE then
     u ← now;
     io_wr cell_io_time set_cell_io_time reg u
   else mret tt) ;;
  mret SUCCESS.

(** ** Commands *)

Definition channel_of (flash_nb : Z) : Z := i32 (flash_nb mod u32 (CHANNEL_NB cfg)).
Definition reg_of (flash_nb block_nb : Z) : Z :=
  i32 (flash_nb * PLANES_PER_FLASH cfg + block_nb mod u32 (PLANES_PER_FLASH cfg)).

Definition access (flash_nb reg : Z) : M module Z :=
  if IO_PARALLELISM cfg =? 0 then SSD_FLASH_ACCESS flash_nb reg else SSD_REG_ACCESS reg.

Definition SSD_PAGE_WRITE (flash_nb block_nb page_nb offset type io_page_nb : Z) : M module Z :=
  let channel := channel_of flash_nb in
  let reg := reg_of flash_nb block_nb in
  SSD_CH_ENABLE channel ;;
  delay_ret ← access flash_nb reg;
  check_channel channel FAIL ;;
  SSD_CH_RECORD channel WRITE offset delay_ret ;;
  SSD_REG_RECORD reg WRITE type offset channel ;;
  SSD_CELL_RECORD reg WRITE ;;
  mret SUCCESS.

(** The second check of the channel starts from the [ret] of the first one. *)
Definition SSD_PAGE_PARTIAL_WRITE (old_flash_nb old_block_nb old_page_nb
    new_flash_nb new_block_nb new_page_nb offset type io_page_nb : Z) : M module Z :=
  let channel := channel_of old_flash_nb in
  let reg := reg_of old_flash_nb old_block_nb in
  SSD_CH_ENABLE channel ;;
  delay_ret ← access old_flash_nb reg;
  ret ← check_channel channel FAIL;
  SSD_CH_RECORD channel READ offset delay_ret ;;
  SSD_REG_RECORD reg READ type offset channel ;;
  SSD_CELL_RECORD reg READ ;;
  SSD_REMAIN_IO_DELAY reg ;;
  let channel := channel_of new_flash_nb in
  let reg := reg_of new_flash_nb new_block_nb in
  SSD_CH_ENABLE channel ;;
  delay_ret ← access new_flash_nb reg;
  check_channel channel ret ;;
  SSD_CH_RECORD channel WRITE offset delay_ret ;;
  SSD_REG_RECORD reg WRITE type offset channel ;;
  SSD_CELL_RECORD reg WRITE ;;
  mret SUCCESS.

Definition SSD_PAGE_READ (flash_nb block_nb page_nb offset type io_page_nb : Z) : M module Z :=
  let channel := channel_of flash_nb in
  let reg := reg_of flash_nb block_nb in
  SSD_CH_ENABLE channel ;;
  delay_ret ← access flash_nb reg;
  SSD_CH_RECORD channel READ offset delay_ret ;;
  SSD_CELL_RECORD reg READ ;;
  SSD_REG_RECORD reg READ type offset channel ;;
  mret SUCCESS.

Definition SSD_BLOCK_ERASE (flash_nb block_nb : Z) : M module Z :=
  let channel := channel_of flash_nb in
  let reg := reg_of flash_nb block_nb in
  access flash_nb reg ;;
  SSD_REG_RECORD reg ERASE ERASE (-1) channel ;;
  SSD_CELL_RECORD reg ERASE ;;
  mret SUCCESS.

(** [io_alloc_overhead = ALLOC_IO_REQUEST(sector_nb, length, type, &io_page_nb)] *)
Definition alloc_request (sector_nb length type : Z) : M module Z :=
  r ← on_fst (ALLOC_IO_REQUEST cfg sector_nb length type);
  io_modify (fun s => set_overheads (snd r) (io_update_overhead s) s) ;;
  mret (fst r).

(** The module as the device of the translation layer. *)
Definition SsdDevice : Device := {|
  dev := module;
  alloc_io_request := alloc_request;
  increase_io_request_seq_nb := on_fst INCREASE_IO_REQUEST_SEQ_NB;
  ssd_page_read := SSD_PAGE_READ;
  ssd_page_write := SSD_PAGE_WRITE;
  ssd_page_partial_write := SSD_PAGE_PARTIAL_WRITE;
  ssd_block_erase := SSD_BLOCK_ERASE;
  write_log := fun e => on_fst (modify (log_event e))
|}.

End Operations.
