(* ===== verification/Gc.v ===== *)
(** * Garbage collection

    [FTL/PAGE_MAP/ftl_gc_manager.c], with [GC_ON] and [GC_TRIGGER_OVERALL]
    defined and [GC_VICTIM_OVERALL] not, as [common.h] has it for [PAGE_MAP]. *)

From stdpp Require Import prelude.
From Stdlib Require Import Ascii.
From S2P Require Import Prelude Config Blocks Mapping Device.

Local Open Scope Z_scope.

Section Operations.
Context (cfg : config).

(** ** Greedy victim selection *)

(** The inner loop over the [n] entries of root [i]; [best] is [victim_block]
    with [curr_valid_page_nb]. *)
Fixpoint select_in_root (n : nat) (i : Z) (j : nat) (l : list victim_block_entry)
    (best : victim_ptr * Z) : M ftl (victim_ptr * Z) :=
  match n with
  | O => mret best
  | S n' =>
      match l with
      | [] => undef
      | v :: l' =>
          b_s_entry ← rd block_state_table
            (GET_BLOCK_STATE_ENTRY cfg (v_phy_flash_nb v) (v_phy_block_nb v));
          select_in_root n' i (S j) l'
            (if valid_page_nb b_s_entry <? snd best then ((i, j), valid_page_nb b_s_entry) else best)
      end
  end.

(** The outer loop over the roots from [i] on. *)
Fixpoint select_in_roots (n : nat) (i : Z) (best : option (victim_ptr * Z)) : M ftl (option (victim_ptr * Z)) :=
  match n with
  | O => mret best
  | S n' =>
      curr_v_b_root ← rd victim_block_list i;
      if victim_block_nb curr_v_b_root =? 0 then select_in_roots n' (i + 1) best
      else
        h ← need (head (vb_list curr_v_b_root));
        best ← (match best with
                | Some b => mret b
                | None =>
                    b_s_entry ← rd block_state_table
                      (GET_BLOCK_STATE_ENTRY cfg (v_phy_flash_nb h) (v_phy_block_nb h));
                    mret ((i, O), valid_page_nb b_s_entry)
                end);
        best ← select_in_root (Z.to_nat (victim_block_nb curr_v_b_root)) i O (vb_list curr_v_b_root) best;
        select_in_roots n' (i + 1) (Some best)
  end.

(** The address assigned through the pointers, or [None] for [FAIL]. *)
Definition SELECT_VICTIM_BLOCK : M ftl (option (Z * Z)) :=
  t ← gets total_victim_block_nb;
  if t =? 0 then mret None else
  best ← select_in_roots (Z.to_nat (VICTIM_TABLE_ENTRY_NB cfg)) 0 None;
  '(p, curr_valid_page_nb) ← need best;
  if curr_valid_page_nb =? PAGE_NB cfg then
    modify (fun s => set_fail_cnt (i32 (fail_cnt s + 1)) s) ;;
    mret None
  else
    v ← victim_entry p;
    EJECT_VICTIM_BLOCK cfg p ;;
    mret (Some (v_phy_flash_nb v, v_phy_block_nb v)).

Context {D : Device}.

(** ** The copy loop

    [for (i = 0; i < PAGE_NB; i++) if (valid_array[i] == 'V') ...]: the answer
    is [copy_page_nb], [None] when [GET_NEW_PAGE] fails. *)
Fixpoint gc_copy_pages (n : nat) (i victim_phy_flash_nb victim_phy_block_nb mapping_index copy_page_nb : Z) : M (ftl * dev) (option Z) :=
  match n with
  | O => mret (Some copy_page_nb)
  | S n' =>
      b_s_entry ← on_fst (rd block_state_table
        (GET_BLOCK_STATE_ENTRY cfg victim_phy_flash_nb victim_phy_block_nb));
      c ← on_fst (need (aget (valid_array b_s_entry) i));
      if Ascii.eqb c chV then
        np ← on_fst (GET_NEW_PAGE cfg VICTIM_INCHIP mapping_index);
        match np with
        | None => mret None
        | Some new_ppn =>
            on_snd (ssd_page_read victim_phy_flash_nb victim_phy_block_nb i i GC_READ (-1)) ;;
            on_snd (ssd_page_write (CALC_FLASH cfg new_ppn) (CALC_BLOCK cfg new_ppn)
                      (CALC_PAGE cfg new_ppn) i GC_WRITE (-1)) ;;
            let old_ppn := i32 (victim_phy_flash_nb * PAGES_PER_FLASH cfg
                                + victim_phy_block_nb * PAGE_NB cfg + i) in
            lpn ← on_fst (GET_INVERSE_MAPPING_INFO old_ppn);
            on_fst (UPDATE_NEW_PAGE_MAPPING cfg lpn new_ppn) ;;
            gc_copy_pages n' (i + 1) victim_phy_flash_nb victim_phy_block_nb mapping_index
              (i32 (copy_page_nb + 1))
        end
      else gc_copy_pages n' (i + 1) victim_phy_flash_nb victim_phy_block_nb mapping_index copy_page_nb
  end.

Definition GARBAGE_COLLECTION : M (ftl * dev) Z :=
  v ← on_fst SELECT_VICTIM_BLOCK;
  match v with
  | None => mret FAIL
  | Some (victim_phy_flash_nb, victim_phy_block_nb) =>
      let mapping_index := root_index cfg victim_phy_flash_nb victim_phy_block_nb in
      r ← gc_copy_pages (Z.to_nat (PAGE_NB cfg)) 0 victim_phy_flash_nb victim_phy_block_nb mapping_index 0;
      match r with
      | None => mret FAIL
      | Some copy_page_nb =>
          b_s_entry ← on_fst (rd block_state_table
            (GET_BLOCK_STATE_ENTRY cfg victim_phy_flash_nb victim_phy_block_nb));
          if negb (copy_page_nb =? valid_page_nb b_s_entry) then mret FAIL
          else
            on_snd (ssd_block_erase victim_phy_flash_nb victim_phy_block_nb) ;;
            on_fst (UPDATE_BLOCK_STATE cfg victim_phy_flash_nb victim_phy_block_nb EMPTY_BLOCK) ;;
            on_fst (INSERT_EMPTY_BLOCK cfg victim_phy_flash_nb victim_phy_block_nb) ;;
            on_fst (modify (fun s => set_gc_count (u32 (gc_count s + 1)) s)) ;;
            on_snd (write_log (Collected copy_page_nb)) ;;
            mret SUCCESS
      end
  end.

(** [for (i = 0; i < GC_VICTIM_NB; i++)] with the [break] on failure. *)
Fixpoint gc_rounds (n : nat) : M (ftl * dev) unit :=
  match n with
  | O => mret tt
  | S n' =>
      ret ← GARBAGE_COLLECTION;
      if ret =? FAIL then mret tt else gc_rounds n'
  end.

(** The plane and the root the source computes from the arguments are not used
    when the trigger is the overall number of empty blocks. *)
Definition GC_CHECK (phy_flash_nb phy_block_nb : Z) : M (ftl * dev) unit :=
  t ← gets (fun w => total_empty_block_nb (fst w));
  if t <=? i32 (FLASH_NB cfg * PLANES_PER_FLASH cfg)
  then gc_rounds (Z.to_nat (GC_VICTIM_NB cfg))
  else mret tt.

End Operations.
