(* ===== verification/Ftl.v ===== *)
(** * Host requests

    [FTL/PAGE_MAP/ftl.c]: the translation of a read or write of sectors into
    page commands ([FIRM_IO_BUFFER], [FTL_MAP_CACHE] and [WRITE_NOPARAL]
    not defined, [GC_ON] and [MONITOR_ON] defined). *)

From stdpp Require Import prelude.
From S2P Require Import Prelude Config Blocks Mapping Device Gc.

Local Open Scope Z_scope.

Section Operations.
Context (cfg : config) {D : Device}.

(** [unsigned int left_skip = sector_nb % SECTORS_PER_PAGE] *)
Definition first_skip (sector_nb : Z) : Z := u32 (Z.rem sector_nb (SECTORS_PER_PAGE cfg)).

(** [sector_nb + length > SECTOR_NB]: the sum is computed in [unsigned int] and
    compared in [int64_t]. *)
Definition exceeds (sector_nb length : Z) : bool := SECTOR_NB cfg <? u32 (sector_nb + length).

(** ** Reading *)

(** The first loop of [_FTL_READ]: is every page of the request mapped? *)
Fixpoint read_check (fuel : nat) (lba remain left_skip : Z) : M (ftl * dev) bool :=
  match fuel with
  | O => out_of_fuel
  | S fuel' =>
      if remain <=? 0 then mret true else
      let '(_, read_sects) := page_skips cfg remain left_skip in
      let lpn := Z.quot lba (i32 (SECTORS_PER_PAGE cfg)) in
      ppn ← on_fst (GET_MAPPING_INFO lpn);
      if ppn =? -1 then mret false
      else read_check fuel' (i32 (lba + read_sects)) (u32 (remain - read_sects)) 0
  end.

(** The second loop: one page read per page of the request. *)
Fixpoint read_pages (fuel : nat) (lba remain left_skip read_page_nb io_page_nb ret : Z) : M (ftl * dev) Z :=
  match fuel with
  | O => out_of_fuel
  | S fuel' =>
      if remain <=? 0 then mret ret else
      let '(_, read_sects) := page_skips cfg remain left_skip in
      let lpn := Z.quot lba (i32 (SECTORS_PER_PAGE cfg)) in
      ppn ← on_fst (GET_MAPPING_INFO lpn);
      ret ← on_snd (ssd_page_read (CALC_FLASH cfg ppn) (CALC_BLOCK cfg ppn) (CALC_PAGE cfg ppn)
                      read_page_nb READ io_page_nb);
      read_pages fuel' (i32 (lba + read_sects)) (u32 (remain - read_sects)) 0
        (i32 (read_page_nb + 1)) io_page_nb ret
  end.

Definition _FTL_READ (sector_nb length : Z) : M (ftl * dev) Z :=
  if exceeds sector_nb length then mret FAIL else
  ok ← read_check (S (Z.to_nat length)) sector_nb length (first_skip sector_nb);
  if negb ok then mret FAIL else
  io_page_nb ← on_snd (alloc_io_request sector_nb length READ);
  ret ← read_pages (S (Z.to_nat length)) sector_nb length (first_skip sector_nb) 0 io_page_nb FAIL;
  on_snd increase_io_request_seq_nb ;;
  on_snd (write_log (ReadDone length)) ;;
  mret ret.

(** ** Writing *)

(** The loop of [_FTL_WRITE].  The answer is [None] when no page is left, and
    otherwise [ret] with the last [new_ppn], which is not initialised before the
    first round, and [write_page_nb]. *)
Fixpoint write_pages (fuel : nat) (lba remain left_skip write_page_nb io_page_nb ret : Z)
    (new_ppn : option Z) : M (ftl * dev) (option (Z * option Z * Z)) :=
  match fuel with
  | O => out_of_fuel
  | S fuel' =>
      if remain <=? 0 then mret (Some (ret, new_ppn, write_page_nb)) else
      let '(right_skip, write_sects) := page_skips cfg remain left_skip in
      np ← on_fst (GET_NEW_PAGE cfg VICTIM_OVERALL (EMPTY_TABLE_ENTRY_NB cfg));
      match np with
      | None => mret None
      | Some new_ppn =>
          let lpn := Z.quot lba (i32 (SECTORS_PER_PAGE cfg)) in
          old_ppn ← on_fst (GET_MAPPING_INFO lpn);
          ret ← (if (negb (left_skip =? 0) || negb (right_skip =? 0)) && negb (old_ppn =? -1)
                 then on_snd (ssd_page_partial_write
                        (CALC_FLASH cfg old_ppn) (CALC_BLOCK cfg old_ppn) (CALC_PAGE cfg old_ppn)
                        (CALC_FLASH cfg new_ppn) (CALC_BLOCK cfg new_ppn) (CALC_PAGE cfg new_ppn)
                        write_page_nb WRITE io_page_nb)
                 else on_snd (ssd_page_write
                        (CALC_FLASH cfg new_ppn) (CALC_BLOCK cfg new_ppn) (CALC_PAGE cfg new_ppn)
                        write_page_nb WRITE io_page_nb));
          on_fst (UPDATE_OLD_PAGE_MAPPING cfg lpn) ;;
          on_fst (UPDATE_NEW_PAGE_MAPPING cfg lpn new_ppn) ;;
          write_pages fuel' (i32 (lba + write_sects)) (u32 (remain - write_sects)) 0
            (i32 (write_page_nb + 1)) io_page_nb ret (Some new_ppn)
      end
  end.

Definition _FTL_WRITE (sector_nb length : Z) : M (ftl * dev) Z :=
  if exceeds sector_nb length then mret FAIL else
  io_page_nb ← on_snd (alloc_io_request sector_nb length WRITE);
  r ← write_pages (S (Z.to_nat length)) sector_nb length (first_skip sector_nb) 0 io_page_nb FAIL None;
  match r with
  | None => mret FAIL
  | Some (ret, new_ppn, write_page_nb) =>
      on_snd increase_io_request_seq_nb ;;
      new_ppn ← need new_ppn;
      GC_CHECK cfg (CALC_FLASH cfg new_ppn) (CALC_BLOCK cfg new_ppn) ;;
      on_snd (write_log (WriteDone length write_page_nb)) ;;
      mret ret
  end.

(** The public entry points drop the result. *)
Definition FTL_READ (sector_nb length : Z) : M (ftl * dev) unit :=
  _FTL_READ sector_nb length ;; mret tt.

Definition FTL_WRITE (sector_nb length : Z) : M (ftl * dev) unit :=
  _FTL_WRITE sector_nb length ;; mret tt.

End Operations.
