(* ===== verification/Persist.v ===== *)
(** * Start-up and shutdown of the translation layer

    The [INIT_*] and [TERM_*] functions of [ftl_mapping_manager.c] and
    [ftl_inverse_mapping_manager.c]: the tables are created, or read back from
    the files under [./data] that the previous run wrote. *)

From stdpp Require Import prelude.
From Stdlib Require Import Ascii.
From S2P Require Import Prelude Config Blocks Mapping.

Local Open Scope Z_scope.

(** ** The files

    A file is the sequence of the items written to it.  The pointers inside the
    structures that are written are not part of it: the code that reads a file
    back sets them again ([valid_array], [next], [prev]) or, for the [head] and
    [tail] of a root without entries, never follows them. *)
Record files := Files {
  mapping_table_dat : option (list Z);
  inverse_mapping_dat : option (list Z);
  block_state_table_dat : option (list (Z * Z * Z));   (** valid_page_nb, type, erase_count *)
  valid_array_dat : option (list ascii);
  empty_block_list_dat : option (list Z * list empty_block_entry);
  victim_block_list_dat : option (list Z * list victim_block_entry)
}.

Definition no_files : files := Files None None None None None None.

(** [fread] of [n] items over a zeroed array: a short file leaves zeros. *)
Definition fread {A} (n : nat) (z : A) (file : list A) : list A :=
  take n file ++ replicate (n - length file) z.

(** [n] items read one after the other from the rest of a file. *)
Definition fread_rest {A} (n : nat) (z : A) (file : list A) : list A * list A :=
  (fread n z file, drop n file).

(** The initial value of the globals. *)
Definition ftl0 : ftl := Ftl [] [] [] [] [] 0 0 0 0 0.

Section Operations.
Context (cfg : config).

Abbreviation nat_of z := (Z.to_nat z).

(** ** Start-up *)

Definition INIT_MAPPING_TABLE (fs : files) : M ftl unit :=
  let n := nat_of (PAGE_MAPPING_ENTRY_NB cfg) in
  modify (set_mapping_table
    (match mapping_table_dat fs with
     | Some l => fread n 0 l
     | None => replicate n (-1)
     end)).

Definition INIT_INVERSE_MAPPING_TABLE (fs : files) : M ftl unit :=
  let n := nat_of (PAGE_MAPPING_ENTRY_NB cfg) in
  modify (set_inverse_mapping_table
    (match inverse_mapping_dat fs with
     | Some l => fread n 0 l
     | None => replicate n (-1)
     end)).

Definition INIT_BLOCK_STATE_TABLE (fs : files) : M ftl unit :=
  let n := nat_of (BLOCK_MAPPING_ENTRY_NB cfg) in
  modify (set_block_state_table
    (match block_state_table_dat fs with
     | Some l => (fun '(v, t, e) => BSE v t e []) <$> fread n (0, 0, 0) l
     | None => replicate n (BSE 0 EMPTY_BLOCK 0 [])
     end)).

(** The valid arrays, [PAGE_NB] characters for each block in turn. *)
Fixpoint load_valid_arrays (l : list block_state_entry) (file : list ascii) : list block_state_entry :=
  match l with
  | [] => []
  | e :: l' =>
      let '(va, rest) := fread_rest (nat_of (PAGE_NB cfg)) chNUL file in
      BSE (valid_page_nb e) (bs_type e) (erase_count e) va :: load_valid_arrays l' rest
  end.

Definition INIT_VALID_ARRAY (fs : files) : M ftl unit :=
  modify (fun s => set_block_state_table
    (match valid_array_dat fs with
     | Some l => load_valid_arrays (block_state_table s) l
     | None => (fun e => BSE (valid_page_nb e) (bs_type e) (erase_count e)
                          (replicate (nat_of (PAGE_NB cfg)) chNUL)) <$> block_state_table s
     end) s).

(** [for (k = i; k < BLOCK_NB; k += PLANES_PER_FLASH)] *)
Fixpoint blocks_of_plane (fuel : nat) (k : Z) : list Z :=
  match fuel with
  | O => []
  | S fuel' => if k <? BLOCK_NB cfg then k :: blocks_of_plane fuel' (k + PLANES_PER_FLASH cfg) else []
  end.

(** The roots in the order of the two outer loops, planes then flashes. *)
Definition plane_flash_pairs : list (Z * Z) :=
  i ← seqZ 0 (PLANES_PER_FLASH cfg); (fun j => (i, j)) <$> seqZ 0 (FLASH_NB cfg).

Definition fresh_root (i j : Z) : empty_block_root :=
  EBR ((fun k => EBE j k 0) <$> blocks_of_plane (nat_of (BLOCK_NB cfg)) i)
      (u32 (EACH_EMPTY_TABLE_ENTRY_NB cfg)).

(** The blocks in the order the loops reach them, each marked empty. *)
Fixpoint mark_empty (l : list empty_block_entry) : M ftl unit :=
  match l with
  | [] => mret tt
  | e :: l' =>
      UPDATE_BLOCK_STATE cfg (phy_flash_nb e) (phy_block_nb e) EMPTY_BLOCK ;;
      mark_empty l'
  end.

(** The entries of the roots, read back one after the other. *)
Fixpoint load_roots {A} (z : A) (counts : list Z) (file : list A) : list (list A) :=
  match counts with
  | [] => []
  | k :: counts' =>
      let '(l, rest) := fread_rest (nat_of k) z file in
      l :: load_roots z counts' rest
  end.

Definition root_count : nat := nat_of (PLANES_PER_FLASH cfg * FLASH_NB cfg).

Definition INIT_EMPTY_BLOCK_LIST (fs : files) : M ftl unit :=
  match empty_block_list_dat fs with
  | Some (counts, entries) =>
      let counts := fread root_count 0 counts in
      let lists := load_roots (EBE 0 0 0) counts entries in
      modify (set_empty_block_list (zip_with EBR lists counts)) ;;
      modify (set_total_empty_block_nb (foldr Z.add 0 counts)) ;;
      modify (set_empty_block_table_index 0)
  | None =>
      let roots := (fun '(i, j) => fresh_root i j) <$> plane_flash_pairs in
      modify (set_empty_block_list roots) ;;
      mark_empty (mjoin (eb_list <$> roots)) ;;
      modify (set_total_empty_block_nb (BLOCK_MAPPING_ENTRY_NB cfg)) ;;
      modify (set_empty_block_table_index 0)
  end.

Definition INIT_VICTIM_BLOCK_LIST (fs : files) : M ftl unit :=
  match victim_block_list_dat fs with
  | Some (counts, entries) =>
      let counts := fread root_count 0 counts in
      let lists := load_roots (VBE 0 0) counts entries in
      modify (set_victim_block_list (zip_with VBR lists counts)) ;;
      modify (set_total_victim_block_nb (foldr Z.add 0 counts))
  | None =>
      modify (set_victim_block_list (replicate root_count (VBR [] 0))) ;;
      modify (set_total_victim_block_nb 0)
  end.

(** The calls of [FTL_INIT] that concern the tables, in its order. *)
Definition INIT_TABLES (fs : files) : M ftl unit :=
  INIT_MAPPING_TABLE fs ;;
  INIT_INVERSE_MAPPING_TABLE fs ;;
  INIT_BLOCK_STATE_TABLE fs ;;
  INIT_VALID_ARRAY fs ;;
  INIT_EMPTY_BLOCK_LIST fs ;;
  INIT_VICTIM_BLOCK_LIST fs.

(** ** Shutdown

    [can_write] says whether [fopen] for writing succeeds.  A table that is
    freed has no element left. *)
Context (can_write : bool).

Definition set_mapping_dat v (fs : files) := Files (Some v) (inverse_mapping_dat fs)
  (block_state_table_dat fs) (valid_array_dat fs) (empty_block_list_dat fs) (victim_block_list_dat fs).
Definition set_inverse_dat v (fs : files) := Files (mapping_table_dat fs) (Some v)
  (block_state_table_dat fs) (valid_array_dat fs) (empty_block_list_dat fs) (victim_block_list_dat fs).
Definition set_block_state_dat v (fs : files) := Files (mapping_table_dat fs)
  (inverse_mapping_dat fs) (Some v) (valid_array_dat fs) (empty_block_list_dat fs) (victim_block_list_dat fs).
Definition set_valid_dat v (fs : files) := Files (mapping_table_dat fs) (inverse_mapping_dat fs)
  (block_state_table_dat fs) (Some v) (empty_block_list_dat fs) (victim_block_list_dat fs).
Definition set_empty_dat v (fs : files) := Files (mapping_table_dat fs) (inverse_mapping_dat fs)
  (block_state_table_dat fs) (valid_array_dat fs) (Some v) (victim_block_list_dat fs).
Definition set_victim_dat v (fs : files) := Files (mapping_table_dat fs) (inverse_mapping_dat fs)
  (block_state_table_dat fs) (valid_array_dat fs) (empty_block_list_dat fs) (Some v).

(** [fwrite] of [n] items from an array. *)
Definition fwrite {A} (n : Z) (l : list A) : option (list A) :=
  if zlen l <? n then None else Some (take (nat_of n) l).

Definition TERM_MAPPING_TABLE : M (ftl * files) unit :=
  if negb can_write then mret tt else
  l ← gets (fun w => mapping_table (fst w));
  out ← need (fwrite (PAGE_MAPPING_ENTRY_NB cfg) l);
  on_snd (modify (set_mapping_dat out)) ;;
  on_fst (modify (set_mapping_table [])).

Definition TERM_INVERSE_MAPPING_TABLE : M (ftl * files) unit :=
  if negb can_write then mret tt else
  l ← gets (fun w => inverse_mapping_table (fst w));
  out ← need (fwrite (PAGE_MAPPING_ENTRY_NB cfg) l);
  on_snd (modify (set_inverse_dat out)) ;;
  on_fst (modify (set_inverse_mapping_table [])).

Definition TERM_BLOCK_STATE_TABLE : M (ftl * files) unit :=
  if negb can_write then mret tt else
  l ← gets (fun w => block_state_table (fst w));
  out ← need (fwrite (BLOCK_MAPPING_ENTRY_NB cfg) l);
  on_snd (modify (set_block_state_dat
    ((fun e => (valid_page_nb e, bs_type e, erase_count e)) <$> out))) ;;
  on_fst (modify (set_block_state_table [])).

(** The valid arrays of the first [BLOCK_MAPPING_ENTRY_NB] blocks, [PAGE_NB]
    characters each. *)
Definition TERM_VALID_ARRAY : M (ftl * files) unit :=
  if negb can_write then mret tt else
  l ← gets (fun w => block_state_table (fst w));
  es ← need (fwrite (BLOCK_MAPPING_ENTRY_NB cfg) l);
  vas ← need (mapM (fun e => fwrite (PAGE_NB cfg) (valid_array e)) es);
  on_snd (modify (set_valid_dat (mjoin vas))).

(** The roots, then the entries each root counts.  A failed [fopen] is reported
    and then written to. *)
Definition TERM_EMPTY_BLOCK_LIST : M (ftl * files) unit :=
  if negb can_write then undef else
  l ← gets (fun w => empty_block_list (fst w));
  roots ← need (fwrite (PLANES_PER_FLASH cfg * FLASH_NB cfg) l);
  ls ← need (mapM (fun r => fwrite (empty_block_nb r) (eb_list r)) roots);
  on_snd (modify (set_empty_dat (empty_block_nb <$> roots, mjoin ls))).

Definition TERM_VICTIM_BLOCK_LIST : M (ftl * files) unit :=
  if negb can_write then undef else
  l ← gets (fun w => victim_block_list (fst w));
  roots ← need (fwrite (PLANES_PER_FLASH cfg * FLASH_NB cfg) l);
  ls ← need (mapM (fun r => fwrite (victim_block_nb r) (vb_list r)) roots);
  on_snd (modify (set_victim_dat (victim_block_nb <$> roots, mjoin ls))).

(** The calls of [FTL_TERM] that concern the tables, in its order. *)
Definition TERM_TABLES : M (ftl * files) unit :=
  TERM_MAPPING_TABLE ;;
  TERM_INVERSE_MAPPING_TABLE ;;
  TERM_VALID_ARRAY ;;
  TERM_BLOCK_STATE_TABLE ;;
  TERM_EMPTY_BLOCK_LIST ;;
  TERM_VICTIM_BLOCK_LIST.

End Operations.
