(* ===== verification/Ssd.v ===== *)
(** * The drive as a whole

    [FTL_INIT] and [FTL_TERM] of [FTL/PAGE_MAP/ftl.c], the entry points of
    [FIRMWARE/ssd.c] and the benchmark of [LOCAL/tests.c], over the translation
    layer, the flash module and the files under [./data]. *)

From stdpp Require Import prelude.
From Stdlib Require Import Ascii.
From S2P Require Import Prelude Config Blocks Mapping Device Perf SsdIo Gc Ftl Persist.

Local Open Scope Z_scope.

(** The globals of the program: the configuration, [g_init], the state of the
    translation layer and of the module, and the files. *)
Record drive := Drive {
  d_config : config;
  g_init : Z;
  d_state : ftl * module;
  d_files : files
}.

(** A step of the translation layer over the module. *)
Definition on_state {A} (m : M (ftl * module) A) : M drive A := fun d =>
  match m (d_state d) with
  | Ret (a, w) => Ret (a, Drive (d_config d) (g_init d) w (d_files d))
  | Undef => Undef
  | OutOfFuel => OutOfFuel
  end.

(** A step over the tables and the files. *)
Definition on_tables {A} (m : M (ftl * files) A) : M drive A := fun d =>
  match m (fst (d_state d), d_files d) with
  | Ret (a, (s, fs)) => Ret (a, Drive (d_config d) (g_init d) (s, snd (d_state d)) fs)
  | Undef => Undef
  | OutOfFuel => OutOfFuel
  end.

Section Operations.
Context `{Clock}.

(** [conf] is the content of [./data/ssd.conf]. *)
Definition FTL_INIT (conf : option (list ascii)) : M drive unit :=
  i ← gets g_init;
  if negb (i =? 0) then mret tt else
  fs ← gets d_files;
  cfg ← (fun d => match INIT_SSD_CONFIG conf with
                  | Ret c => Ret (c, Drive c (g_init d) (d_state d) (d_files d))
                  | Undef => Undef
                  | OutOfFuel => OutOfFuel
                  end);
  on_state (on_fst (INIT_TABLES cfg fs)) ;;
  on_state (on_snd (on_fst INIT_PERF_CHECKER)) ;;
  modify (fun d => Drive (d_config d) 1 (d_state d) (d_files d)) ;;
  on_state (on_snd (SSD_IO_INIT cfg)) ;;
  mret tt.

(** [can_write]: the files can be opened for writing. *)
Definition FTL_TERM (can_write : bool) : M drive unit :=
  cfg ← gets d_config;
  on_tables (TERM_TABLES cfg can_write) ;;
  on_state (on_snd (on_fst TERM_PERF_CHECKER)) ;;
  mret tt.

Definition SSD_INIT (conf : option (list ascii)) : M drive unit := FTL_INIT conf.

Definition SSD_TERM (can_write : bool) : M drive unit := FTL_TERM can_write.

Definition SSD_WRITE (length sector_nb : Z) : M drive unit :=
  cfg ← gets d_config;
  on_state (@FTL_WRITE cfg (SsdDevice cfg) sector_nb length).

Definition SSD_READ (length sector_nb : Z) : M drive unit :=
  cfg ← gets d_config;
  on_state (@FTL_READ cfg (SsdDevice cfg) sector_nb length).

Definition SSD_IS_SUPPORT_TRIM : Z := 0.

(** ** The benchmark *)

Definition ACCESS_RANDOM : Z := 0.
Definition ACCESS_SEQUENTIAL : Z := 1.

Definition u64 (z : Z) : Z := z mod 2 ^ 64.

(** The results of [random ()], in the order of the calls. *)
Context (random : nat -> Z).

(** One round of the loop: the sector written.  [lba] keeps its value when
    [access_type] is neither of the two. *)
Definition next_lba (access_type : Z) (n : nat) (i req_size max_lba lba : Z) : Z :=
  if access_type =? ACCESS_SEQUENTIAL then i32 (u64 i mod max_lba)
  else if access_type =? ACCESS_RANDOM
  then i32 (u64 (u64 (random n) / req_size * req_size) mod max_lba)
  else lba.

Fixpoint test_loop (fuel : nat) (access_type : Z) (n : nat) (i req_size max_lba lba : Z) : M drive unit :=
  match fuel with
  | O => out_of_fuel
  | S fuel' =>
      if u64 i <? max_lba then
        if req_size =? 0 then undef else
        let lba := next_lba access_type n i req_size max_lba lba in
        SSD_WRITE (u32 req_size) lba ;;
        test_loop fuel' access_type (S n) (i32 (u64 i + req_size)) req_size max_lba lba
      else mret tt
  end.

Definition test_access (req_size access_type : Z) : M drive Z :=
  cfg ← gets d_config;
  if SECTOR_SIZE cfg =? 0 then undef else
  let req_size := req_size / u64 (SECTOR_SIZE cfg) in
  let max_lba := u64 (Z.quot (SECTOR_NB cfg * 7) 10) in
  test_loop (S (Z.to_nat max_lba)) access_type 0 0 req_size max_lba 0 ;;
  mret 0.

(** The arguments of [main]: the size of the requests and the kind of access,
    or [None] for [exit(1)]. *)
Definition main_args (a1 a2 : ascii) : option (Z * Z) :=
  match (if Ascii.eqb a1 "1" then Some (4 * 1024)
         else if Ascii.eqb a1 "2" then Some (8 * 1024)
         else if Ascii.eqb a1 "4" then Some (16 * 1024)
         else if Ascii.eqb a1 "8" then Some (32 * 1024)
         else None),
        (if Ascii.eqb a2 "s" then Some ACCESS_SEQUENTIAL
         else if Ascii.eqb a2 "r" then Some ACCESS_RANDOM
         else None) with
  | Some size, Some access => Some (size, access)
  | _, _ => None
  end.

(** [main] after [rm data/*.dat] has run: the exit status. *)
Definition main (conf : option (list ascii)) (can_write : bool) (argc : Z) (a1 a2 : ascii) : M drive Z :=
  if negb (argc =? 3) then mret 1 else
  match main_args a1 a2 with
  | None => mret 1
  | Some (req_size, access_type) =>
      SSD_INIT conf ;;
      test_access req_size access_type ;;
      SSD_TERM can_write ;;
      mret 0
  end.

End Operations.
