(* ===== verification/Tables.v ===== *)
(** * The tables: addresses, page states and their updates

    The arithmetic of page and block numbers, the well-formedness of the mapping
    tables and of the block state table, and the effect of each update on the
    state of every page of the drive. *)

From stdpp Require Import prelude.
From Stdlib Require Import Ascii.
From S2P Require Import Prelude Config Blocks Mapping.

Local Open Scope Z_scope.

Section Tables.
Context (cfg : config) (Hok : cfg_ok cfg).

Local Abbreviation P := (PAGE_NB cfg).
Local Abbreviation B := (BLOCK_NB cfg).
Local Abbreviation F := (FLASH_NB cfg).
Local Abbreviation L := (PLANES_PER_FLASH cfg).

(** The number of pages of the drive. *)
Definition npages : Z := P * B * F.

(** The number of a block on the drive; the number of a page. *)
Definition block_id (f b : Z) : Z := f * B + b.
Definition page_id (f b p : Z) : Z := block_id f b * P + p.

(** The state of page [q], a character of the valid array of its block. *)
Definition page_char (t : list block_state_entry) (q : Z) : option ascii :=
  e ← aget t (q / P); aget (valid_array e) (q mod P).

(** Lengths, and [valid_page_nb] counts the valid pages of its block. *)
Record tables_ok (s : ftl) : Prop := {
  t_mapping : zlen (mapping_table s) = npages;
  t_inverse : zlen (inverse_mapping_table s) = npages;
  t_blocks : zlen (block_state_table s) = B * F;
  t_entry i e : aget (block_state_table s) i = Some e ->
    zlen (valid_array e) = P /\ valid_page_nb e = count_valid (valid_array e)
}.

(** ** Addresses *)

Lemma block_id_range f b : 0 <= f < F -> 0 <= b < B -> 0 <= block_id f b < B * F.
Proof using Hok. unfold block_id. nia. Qed.

Lemma page_id_range f b p : 0 <= f < F -> 0 <= b < B -> 0 <= p < P ->
  0 <= page_id f b p < npages.
Proof using Hok.
  intros Hf Hb Hp. pose proof (block_id_range f b Hf Hb). unfold page_id, npages. nia.
Qed.

Lemma page_id_block f b p : 0 <= p < P -> page_id f b p / P = block_id f b.
Proof using Hok.
  intros. unfold page_id. rewrite Z.add_comm, Z.div_add, Z.div_small by lia. lia.
Qed.

Lemma page_id_page f b p : 0 <= p < P -> page_id f b p mod P = p.
Proof using Hok. intros. unfold page_id. rewrite Z.add_comm, Z.mod_add, Z.mod_small; lia. Qed.

Lemma block_id_inj f b f' b' : 0 <= b < B -> 0 <= b' < B ->
  block_id f b = block_id f' b' -> f = f' /\ b = b'.
Proof using Hok.
  unfold block_id. intros ? ? ?. apply (Z.div_mod_unique B); lia.
Qed.

Lemma entry_index f b : 0 <= f < F -> 0 <= b < B -> GET_BLOCK_STATE_ENTRY cfg f b = block_id f b.
Proof using Hok.
  intros Hf Hb. pose proof (block_id_range f b Hf Hb). pose proof (ok_blocks Hok).
  unfold GET_BLOCK_STATE_ENTRY. rewrite u32_id; [done|]. unfold block_id in *. lia.
Qed.

Section Decomposition.
Context (q : Z) (Hq : 0 <= q < npages).

Lemma page_block_range : 0 <= q / P < B * F.
Proof using Hok Hq.
  destruct Hok. unfold npages in Hq. split; [apply Z.div_pos; lia|].
  apply Z.div_lt_upper_bound; lia.
Qed.

Lemma calc_flash : CALC_FLASH cfg q = q / P / B.
Proof using Hok Hq.
  pose proof page_block_range. pose proof (ok_page_lt Hok). destruct Hok. unfold CALC_FLASH.
  rewrite (Z.quot_div_nonneg q P), Z.quot_div_nonneg by lia. apply u32_id. split; [apply Z.div_pos; lia|].
  apply Z.div_lt_upper_bound; [lia|]. apply Z.lt_le_trans with (B * F); [lia|].
  apply Z.mul_le_mono_nonneg_l; lia.
Qed.

Lemma calc_block : CALC_BLOCK cfg q = (q / P) mod B.
Proof using Hok Hq.
  pose proof page_block_range. pose proof (ok_page_lt Hok). destruct Hok. unfold CALC_BLOCK.
  rewrite Z.quot_div_nonneg, Z.rem_mod_nonneg by lia. apply u32_id.
  pose proof (Z.mod_pos_bound (q / P) B). lia.
Qed.

Lemma calc_page : CALC_PAGE cfg q = q mod P.
Proof using Hok Hq.
  pose proof (ok_page_lt Hok). destruct Hok. unfold CALC_PAGE.
  rewrite Z.rem_mod_nonneg by lia. apply u32_id. pose proof (Z.mod_pos_bound q P). lia.
Qed.

Lemma calc_ranges : 0 <= CALC_FLASH cfg q < F /\ 0 <= CALC_BLOCK cfg q < B /\ 0 <= CALC_PAGE cfg q < P.
Proof using Hok Hq.
  rewrite calc_flash, calc_block, calc_page. pose proof page_block_range. destruct Hok.
  split; [split; [apply Z.div_pos; lia|apply Z.div_lt_upper_bound; lia]|].
  split; apply Z.mod_pos_bound; lia.
Qed.

Lemma calc_block_id : block_id (CALC_FLASH cfg q) (CALC_BLOCK cfg q) = q / P.
Proof using Hok Hq.
  rewrite calc_flash, calc_block. unfold block_id. destruct Hok.
  pose proof (Z.div_mod (q / P) B). lia.
Qed.

Lemma calc_page_id : page_id (CALC_FLASH cfg q) (CALC_BLOCK cfg q) (CALC_PAGE cfg q) = q.
Proof using Hok Hq.
  unfold page_id. rewrite calc_block_id, calc_page. destruct Hok. pose proof (Z.div_mod q P). lia.
Qed.

End Decomposition.

Lemma calc_of_page_id f b p : 0 <= f < F -> 0 <= b < B -> 0 <= p < P ->
  CALC_FLASH cfg (page_id f b p) = f /\ CALC_BLOCK cfg (page_id f b p) = b
  /\ CALC_PAGE cfg (page_id f b p) = p.
Proof using Hok.
  intros Hf Hb Hp. pose proof (page_id_range f b p Hf Hb Hp) as Hr.
  rewrite calc_flash, calc_block, calc_page, page_id_block, page_id_page by done.
  unfold block_id. rewrite Z.div_add_l, (Z.div_small b B) by lia.
  rewrite (Z.add_comm (f * B)), Z.mod_add, Z.mod_small by lia. lia.
Qed.

(** ** Page states *)

Lemma page_char_range t q c : zlen t = B * F ->
  (forall i e, aget t i = Some e -> zlen (valid_array e) = P) ->
  page_char t q = Some c -> 0 <= q < npages.
Proof using Hok.
  intros Hl Hv (e & He & Hc)%bind_Some. apply aget_Some_range in He as Hr. destruct Hok.
  pose proof (Z.div_mod q P). pose proof (Z.mod_pos_bound q P). unfold npages. nia.
Qed.

Lemma page_char_Some s q : tables_ok s -> 0 <= q < npages ->
  exists c, page_char (block_state_table s) q = Some c.
Proof using Hok.
  intros Ht Hq. unfold page_char.
  destruct (aget_range (block_state_table s) (q / P)) as [e He].
  { rewrite (t_blocks s Ht). by apply page_block_range. }
  rewrite He. simpl. apply aget_range.
  rewrite (proj1 (t_entry s Ht _ _ He)). apply Z.mod_pos_bound. apply Hok.
Qed.

(** The tables after the update of one entry. *)
Lemma tables_ok_set s i e t' : tables_ok s -> zlen (valid_array e) = P ->
  valid_page_nb e = count_valid (valid_array e) ->
  aset (block_state_table s) i e = Some t' -> tables_ok (set_block_state_table t' s).
Proof.
  intros [H1 H2 H3 H4] Hl Hc Hs. split; simpl; [done|done| |].
  - by rewrite (aset_length _ _ _ _ Hs).
  - intros j e' Hj. rewrite (aget_aset _ _ _ _ j Hs) in Hj. case_decide; [by simplify_eq|eauto].
Qed.

Lemma page_char_set s i e t' q : tables_ok s -> aset (block_state_table s) i e = Some t' ->
  page_char t' q = if decide (q / P = i) then aget (valid_array e) (q mod P)
                   else page_char (block_state_table s) q.
Proof.
  intros _ Hs. unfold page_char. rewrite (aget_aset _ _ _ _ _ Hs). by case_decide.
Qed.

(** ** [UPDATE_BLOCK_STATE_ENTRY] *)

(** The argument [valid] and the character it stands for. *)
Definition valid_code (valid : Z) : ascii :=
  if valid =? VALID then chV else if valid =? INVALID then chI else ch0.

Lemma update_block_state_entry f b p v s :
  tables_ok s -> 0 <= f < F -> 0 <= b < B -> 0 <= p < P ->
  v = VALID \/ v = INVALID \/ v = 0 ->
  wp (UPDATE_BLOCK_STATE_ENTRY cfg f b p v)
     (fun r s' => r = SUCCESS /\ exists t, s' = set_block_state_table t s /\ tables_ok s' /\
        (forall q, page_char t q = if decide (q = page_id f b p) then Some (valid_code v)
                              else page_char (block_state_table s) q))
     s.
Proof using Hok.
  intros Ht Hf Hb Hp Hv. pose proof (ok_page_lt Hok) as (? & ? & ?).
  unfold UPDATE_BLOCK_STATE_ENTRY. rewrite !u32_id by lia.
  destruct (Z.leb_spec F f); [lia|]. destruct (Z.leb_spec B b); [lia|].
  destruct (Z.leb_spec P p); [lia|]. simpl.
  rewrite entry_index by done.
  destruct (aget_range (block_state_table s) (block_id f b)) as [e He].
  { rewrite (t_blocks s Ht). by apply block_id_range. }
  destruct (t_entry s Ht _ _ He) as [Hl Hc].
  destruct (aset_range (valid_array e) p (valid_code v)) as [va Hva]; [lia|].
  unfold rd, wr. wp_go.
  apply wp_mono with (P := fun x s' => x = va /\ s' = s).
  { unfold valid_code in Hva. destruct Hv as [-> | [-> | ->]]; simpl in *; wp_go; done. }
  intros _ _ [-> ->]. apply aset_length in Hva as Hlv.
  destruct (Z.ltb_spec (zlen va) P); [lia|]. wp_go.
  set (e' := BSE _ _ _ _).
  destruct (aset_range (block_state_table s) (block_id f b) e') as [t Ht'].
  { rewrite (t_blocks s Ht). by apply block_id_range. }
  wp_go. split; [done|]. exists t. split; [done|]. split.
  - eapply tables_ok_set; [done| | |done]; simpl; [lia|].
    rewrite take_ge; [done|]. lia.
  - intros q. rewrite (page_char_set _ _ _ _ q Ht Ht'). simpl.
    rewrite (aget_aset _ _ _ _ (q mod P) Hva). unfold page_char.
    destruct (decide (q = page_id f b p)) as [->|Hne].
    + rewrite page_id_block, page_id_page by lia. by rewrite !decide_True by done.
    + case_decide as E; [|done]. rewrite E, He. simpl. case_decide as E'; [|done].
      exfalso. apply Hne. unfold page_id. rewrite <- E, <- E'. destruct Hok.
      pose proof (Z.div_mod q P). lia.
Qed.

(** ** [UPDATE_BLOCK_STATE] *)

Lemma update_block_type f b ty s :
  tables_ok s -> 0 <= f < F -> 0 <= b < B -> ty <> EMPTY_BLOCK ->
  wp (UPDATE_BLOCK_STATE cfg f b ty)
     (fun _ s' => exists t, s' = set_block_state_table t s /\ tables_ok s' /\
        (forall q, page_char t q = page_char (block_state_table s) q)) s.
Proof using Hok.
  intros Ht Hf Hb Hty. unfold UPDATE_BLOCK_STATE. rewrite entry_index by done.
  destruct (aget_range (block_state_table s) (block_id f b)) as [e He].
  { rewrite (t_blocks s Ht). by apply block_id_range. }
  destruct (t_entry s Ht _ _ He) as [Hl Hc].
  unfold rd, wr. wp_go. set (e' := BSE _ _ _ _).
  destruct (aset_range (block_state_table s) (block_id f b) e') as [t Ht'].
  { rewrite (t_blocks s Ht). by apply block_id_range. }
  wp_go. destruct (Z.eqb_spec ty EMPTY_BLOCK); [done|]. wp_go.
  exists t. split; [done|]. split; [by apply (tables_ok_set s (block_id f b) e' t)|].
  intros q. rewrite (page_char_set _ _ _ _ q Ht Ht'). unfold page_char.
  case_decide as E; [|done]. by rewrite E, He.
Qed.

(** Marking a block empty clears the state of each of its pages. *)
Lemma update_block_empty f b s :
  tables_ok s -> 0 <= f < F -> 0 <= b < B ->
  wp (UPDATE_BLOCK_STATE cfg f b EMPTY_BLOCK)
     (fun _ s' => exists t, s' = set_block_state_table t s /\ tables_ok s' /\
        (forall q, page_char t q = if decide (q / P = block_id f b) then Some ch0
                              else page_char (block_state_table s) q)) s.
Proof using Hok.
  intros Ht Hf Hb. unfold UPDATE_BLOCK_STATE. rewrite entry_index by done.
  destruct (aget_range (block_state_table s) (block_id f b)) as [e He].
  { rewrite (t_blocks s Ht). by apply block_id_range. }
  destruct (t_entry s Ht _ _ He) as [Hl Hc].
  unfold rd, wr. wp_go. set (e' := BSE _ _ _ _).
  destruct (aset_range (block_state_table s) (block_id f b) e') as [t Ht'].
  { rewrite (t_blocks s Ht). by apply block_id_range. }
  wp_go. simpl. wp_go.
  assert (forall q, page_char t q = page_char (block_state_table s) q) as Hsame.
  { intros q. rewrite (page_char_set _ _ _ _ q Ht Ht'). unfold page_char.
    case_decide as E; [|done]. by rewrite E, He. }
  apply wp_for with (I := fun k s' => exists t', s' = set_block_state_table t' s /\ tables_ok s' /\
    (forall q, page_char t' q = if decide (q / P = block_id f b /\ q mod P < k) then Some ch0
                            else page_char (block_state_table s) q)).
  - exists t. split; [done|]. split; [by apply (tables_ok_set s (block_id f b) e' t)|]. intros q.
    rewrite Hsame. case_decide as E; [|done]. pose proof (Z.mod_pos_bound q P (ok_page _ Hok)). lia.
  - intros k s' Hk (t1 & -> & Hok1 & Hq). apply wp_bind.
    eapply wp_mono; [apply update_block_state_entry; [done..|lia|tauto]|].
    intros _ s'' (_ & t2 & -> & Hok2 & Hq2). apply wp_ret.
    exists t2. split; [done|]. split; [done|]. intros q. rewrite Hq2. simpl. rewrite Hq.
    destruct (decide (q = page_id f b k)) as [->|Hne].
    + rewrite page_id_block, page_id_page by lia. by case_decide; [|lia].
    + destruct (decide (q / P = block_id f b /\ q mod P < k)), (decide (q / P = block_id f b /\ q mod P < k + 1)); try lia; try done.
      exfalso. apply Hne. unfold page_id. pose proof (ok_page _ Hok). pose proof (Z.div_mod q P). lia.
  - intros s' (t' & -> & Hok' & Hq). apply wp_ret. exists t'. split; [done|]. split; [done|].
    intros q. rewrite Hq. pose proof (Z.mod_pos_bound q P (ok_page _ Hok)).
    destruct (decide (q / P = block_id f b /\ q mod P < 0 + Z.of_nat (Z.to_nat P))),
      (decide (q / P = block_id f b)); try lia; done.
Qed.

End Tables.
