(* ===== verification/Lists.v ===== *)
(** * The lists of empty blocks and of victim blocks

    The invariant of the two arrays of lists and the specification of the
    operations that move blocks between them.  [GET_EMPTY_BLOCK] terminates and
    answers a block with a free page as long as there is one. *)

From stdpp Require Import prelude.
From S2P Require Import Prelude Config Blocks Mapping Tables.

Local Open Scope Z_scope.

Section Lists.
Context (cfg : config) (Hok : cfg_ok cfg).

Local Abbreviation P := (PAGE_NB cfg).
Local Abbreviation B := (BLOCK_NB cfg).
Local Abbreviation F := (FLASH_NB cfg).
Local Abbreviation L := (PLANES_PER_FLASH cfg).
Local Abbreviation K := (FLASH_NB cfg * PLANES_PER_FLASH cfg).

(** All the entries of the lists, and the block each stands for. *)
Definition empties (s : ftl) : list empty_block_entry := mjoin (eb_list <$> empty_block_list s).
Definition victims (s : ftl) : list victim_block_entry := mjoin (vb_list <$> victim_block_list s).
Definition e_id (e : empty_block_entry) : Z := block_id cfg (phy_flash_nb e) (phy_block_nb e).
Definition v_id (v : victim_block_entry) : Z := block_id cfg (v_phy_flash_nb v) (v_phy_block_nb v).
Definition listed (s : ftl) : list Z := (e_id <$> empties s) ++ (v_id <$> victims s).

Definition entry_ok (e : empty_block_entry) : Prop :=
  0 <= phy_flash_nb e < F /\ 0 <= phy_block_nb e < B /\ 0 <= curr_phy_page_nb e <= P.

Definition victim_ok (v : victim_block_entry) : Prop :=
  0 <= v_phy_flash_nb v < F /\ 0 <= v_phy_block_nb v < B.

(** A block is in at most one list and at most once, in the list of its plane
    and flash, and the counters are the lengths.  Only the first block of a list
    of empty blocks is partly written. *)
Record lists_ok (s : ftl) : Prop := {
  lo_elen : zlen (empty_block_list s) = K;
  lo_vlen : zlen (victim_block_list s) = K;
  lo_empty i r : aget (empty_block_list s) i = Some r ->
    empty_block_nb r = zlen (eb_list r) /\
    forall e, e ∈ eb_list r -> entry_ok e /\ root_index cfg (phy_flash_nb e) (phy_block_nb e) = i;
  lo_victim i r : aget (victim_block_list s) i = Some r ->
    victim_block_nb r = zlen (vb_list r) /\
    forall v, v ∈ vb_list r -> victim_ok v /\ root_index cfg (v_phy_flash_nb v) (v_phy_block_nb v) = i;
  lo_heads i r e : aget (empty_block_list s) i = Some r -> e ∈ tail (eb_list r) ->
    curr_phy_page_nb e = 0;
  lo_nodup : NoDup (listed s);
  lo_te : total_empty_block_nb s = zlen (empties s);
  lo_tv : total_victim_block_nb s = zlen (victims s);
  lo_index : 0 <= empty_block_table_index s < K
}.

(** The tables and counters that the list operations leave alone. *)
Definition same_tables (s s' : ftl) : Prop :=
  mapping_table s' = mapping_table s /\ inverse_mapping_table s' = inverse_mapping_table s /\
  block_state_table s' = block_state_table s /\ gc_count s' = gc_count s /\ fail_cnt s' = fail_cnt s.

(** The pages that are still to be handed out. *)
Definition free_pages (s : ftl) : Z := sum_with (fun e => P - curr_phy_page_nb e) (empties s).

(** What [GET_EMPTY_BLOCK] may do: blocks that are full become victims. *)
Definition retired (s s' : ftl) : Prop :=
  same_tables s s' /\
  (forall e, e ∈ empties s' -> e ∈ empties s) /\
  (forall e, e ∈ empties s -> curr_phy_page_nb e < P -> e ∈ empties s') /\
  free_pages s' = free_pages s /\ listed s' ≡ₚ listed s.

(** ** Elementary facts *)

Lemma same_tables_refl s : same_tables s s.
Proof. done. Qed.

Lemma same_tables_trans s1 s2 s3 : same_tables s1 s2 -> same_tables s2 s3 -> same_tables s1 s3.
Proof. unfold same_tables. intros (?&?&?&?&?) (?&?&?&?&?). repeat split; congruence. Qed.

Lemma retired_refl s : retired s s.
Proof. done. Qed.

Lemma retired_trans s1 s2 s3 : retired s1 s2 -> retired s2 s3 -> retired s1 s3.
Proof.
  intros (T1 & E1 & R1 & F1 & P1) (T2 & E2 & R2 & F2 & P2).
  split; [by eapply same_tables_trans|]. split; [by auto|]. split; [by auto|].
  split; [congruence|]. by etrans.
Qed.

Lemma root_index_val f b : 0 <= f < F -> 0 <= b < B ->
  root_index cfg f b = (b mod L) * F + f /\ 0 <= root_index cfg f b < K.
Proof using Hok.
  intros Hf Hb. pose proof (ok_roots Hok) as HK. pose proof (ok_page_lt Hok).
  pose proof (ok_plane_le Hok) as HLB. pose proof (ok_plane _ Hok) as HL.
  pose proof (Z.mod_pos_bound b L HL) as Hm. unfold root_index.
  rewrite u32_id by lia. rewrite (i32_id (b mod L)) by lia.
  assert (0 <= b mod L * F + f < K) as Hr by nia.
  rewrite i32_id by lia. done.
Qed.

Lemma elem_empties s e : lists_ok s -> e ∈ empties s -> entry_ok e.
Proof.
  intros Hs (i & r & Hi & He)%elem_mjoin_aget. by apply (lo_empty s Hs i r Hi).
Qed.

Lemma elem_victims s v : lists_ok s -> v ∈ victims s -> victim_ok v.
Proof.
  intros Hs (i & r & Hi & Hv)%elem_mjoin_aget. by apply (lo_victim s Hs i r Hi).
Qed.

Lemma elem_listed s x : lists_ok s -> x ∈ listed s -> 0 <= x < B * F.
Proof using Hok.
  intros Hs. unfold listed. rewrite elem_of_app, !list_elem_of_fmap.
  intros [(e & -> & He)|(v & -> & Hv)].
  - destruct (elem_empties s e Hs He) as (? & ? & _). by apply block_id_range.
  - destruct (elem_victims s v Hs Hv). by apply block_id_range.
Qed.

Lemma listed_length s : lists_ok s -> zlen (empties s) + zlen (victims s) <= B * F.
Proof using Hok.
  intros Hs. pose proof (ok_blocks Hok).
  pose proof (NoDup_range_length (listed s) (B * F) (lo_nodup s Hs)) as Hl.
  unfold listed in Hl at 2. rewrite length_app, !length_fmap in Hl.
  enough (Z.of_nat (length (empties s) + length (victims s)) <= B * F) by lia.
  apply Hl; [|lia]. intros x. by apply elem_listed.
Qed.

Lemma empty_root_length s i r : lists_ok s -> aget (empty_block_list s) i = Some r ->
  zlen (eb_list r) <= zlen (empties s).
Proof.
  intros Hs Hi. destruct (aset_range (empty_block_list s) i r) as [l' Hl'].
  { by eapply aget_Some_range. }
  destruct (mjoin_aset eb_list _ _ _ _ _ Hi Hl') as (pre & post & E & _).
  unfold empties. rewrite E, !length_app. lia.
Qed.

Lemma victim_root_length s i r : lists_ok s -> aget (victim_block_list s) i = Some r ->
  zlen (vb_list r) <= zlen (victims s).
Proof.
  intros Hs Hi. destruct (aset_range (victim_block_list s) i r) as [l' Hl'].
  { by eapply aget_Some_range. }
  destruct (mjoin_aset vb_list _ _ _ _ _ Hi Hl') as (pre & post & E & _).
  unfold victims. rewrite E, !length_app. lia.
Qed.

(** ** Moving a full block to the victims *)

Definition victim_of (e : empty_block_entry) : victim_block_entry :=
  VBE (phy_flash_nb e) (phy_block_nb e).

Lemma insert_victim_run e s r :
  aget (victim_block_list s) (root_index cfg (phy_flash_nb e) (phy_block_nb e)) = Some r ->
  victim_block_nb r = zlen (vb_list r) -> zlen (vb_list r) + 1 < 2 ^ 32 ->
  exists t, aset (victim_block_list s) (root_index cfg (phy_flash_nb e) (phy_block_nb e))
              (VBR (vb_list r ++ [victim_of e]) (zlen (vb_list r) + 1)) = Some t /\
    INSERT_VICTIM_BLOCK cfg e s =
      Ret (SUCCESS, set_total_victim_block_nb (total_victim_block_nb s + 1) (set_victim_block_list t s)).
Proof.
  intros Hr Hnb Hlt. set (i := root_index _ _ _) in *.
  destruct (aset_range (victim_block_list s) i (VBR (vb_list r ++ [victim_of e]) (zlen (vb_list r) + 1)))
    as [t Ht]; [by eapply aget_Some_range|].
  exists t. split; [done|]. unfold INSERT_VICTIM_BLOCK. fold i.
  unfold rd, wr, mbind, M_bind, gets, need, mret, M_ret. rewrite Hr.
  destruct r as [[|v vl] vn]; cbn -[u32 aset zlen] in *; subst vn.
  { change (Z.of_nat 0 + 1) with 1 in Ht. unfold victim_of in Ht. simpl in Ht |- *. by rewrite Ht. }
  destruct (Z.eqb_spec (Z.of_nat (S (length vl))) 0); [lia|].
  rewrite u32_id by lia. unfold victim_of in Ht. by rewrite Ht.
Qed.

(** A block has gone from the head of its list of empty blocks to the end of its list
    of victims. *)
Lemma moved_to_victims s s' idx r e l vr t tv : lists_ok s -> aget (empty_block_list s) idx = Some r -> eb_list r = e :: l ->
  aset (empty_block_list s) idx (EBR l (zlen l)) = Some t ->
  aget (victim_block_list s) (root_index cfg (phy_flash_nb e) (phy_block_nb e)) = Some vr ->
  aset (victim_block_list s) (root_index cfg (phy_flash_nb e) (phy_block_nb e)) (VBR (vb_list vr ++ [victim_of e]) (zlen (vb_list vr) + 1)) = Some tv ->
  empty_block_list s' = t -> victim_block_list s' = tv -> total_empty_block_nb s' = total_empty_block_nb s - 1 ->
  total_victim_block_nb s' = total_victim_block_nb s + 1 -> empty_block_table_index s' = empty_block_table_index s ->
  lists_ok s' /\ empties s ≡ₚ e :: empties s' /\ listed s' ≡ₚ listed s.
Proof using Hok.
  intros Hs Hr Hl Ht Hvr Htv Et Ev Ete Etv Ei. destruct (lo_empty s Hs idx r Hr) as [Hnb Hel].
  destruct (Hel e) as [(Hf & Hb & Hp) Hri]; [rewrite Hl; left|]. destruct (lo_victim s Hs _ vr Hvr) as [Hvnb Hvel].
  destruct (mjoin_aset eb_list _ _ _ _ _ Hr Ht) as (epre & epost & Ee & Ee').
  destruct (mjoin_aset vb_list _ _ _ _ _ Hvr Htv) as (vpre & vpost & Ev1 & Ev').
  simpl in Ee', Ev'. rewrite Hl in Ee.
  assert (empties s ≡ₚ e :: empties s') as Pe.
  { unfold empties. rewrite Et, Ee, Ee'. simpl. symmetry. apply Permutation_middle. }
  assert (victims s' ≡ₚ victim_of e :: victims s) as Pv.
  { unfold victims. rewrite Ev, Ev1, Ev', <- (assoc_L app). simpl.
    rewrite !(assoc_L app). by rewrite <- Permutation_middle. }
  assert (listed s' ≡ₚ listed s) as Pl.
  { unfold listed. rewrite Pe, Pv. simpl. by rewrite <- Permutation_middle. }
  split; [|done]. split.
  - by rewrite Et, (aset_length _ _ _ _ Ht), (lo_elen s Hs).
  - by rewrite Ev, (aset_length _ _ _ _ Htv), (lo_vlen s Hs).
  - rewrite Et. intros i r0. rewrite (aget_aset _ _ _ _ i Ht). case_decide; [|apply (lo_empty s Hs)].
    subst i. intros [= <-]. simpl. split; [done|]. intros e0 He0. apply Hel. rewrite Hl. by right.
  - rewrite Ev. intros i r0. rewrite (aget_aset _ _ _ _ i Htv). case_decide; [|apply (lo_victim s Hs)].
    subst i. intros [= <-]. simpl. split; [rewrite zlen_app; simpl; lia|].
    intros v [Hv | ->%list_elem_of_singleton]%elem_of_app; [by apply Hvel|]. done.
  - rewrite Et. intros i r0 e0. rewrite (aget_aset _ _ _ _ i Ht). case_decide; [|apply (lo_heads s Hs)].
    subst i. intros [= <-]. simpl. intros He0. apply (lo_heads s Hs idx r); [done|].
    rewrite Hl. simpl. destruct l; [done|by right].
  - rewrite Pl. apply (lo_nodup s Hs).
  - rewrite Ete, (lo_te s Hs). apply Permutation_length in Pe. simpl in Pe. lia.
  - rewrite Etv, (lo_tv s Hs). apply Permutation_length in Pv. simpl in Pv. lia.
  - rewrite Ei. apply (lo_index s Hs).
Qed.

Lemma retire_full_head_spec idx r e l s :
  lists_ok s -> aget (empty_block_list s) idx = Some r -> eb_list r = e :: l ->
  curr_phy_page_nb e = P ->
  wp (retire_full_head cfg idx e)
     (fun _ s' => lists_ok s' /\ retired s s' /\
                  total_empty_block_nb s' = total_empty_block_nb s - 1 /\
                  empty_block_table_index s' = empty_block_table_index s) s.
Proof using Hok.
  intros Hs Hr Hl Hfull. pose proof (ok_blocks Hok) as HBF.
  pose proof (listed_length s Hs) as Hlen.
  destruct (lo_empty s Hs idx r Hr) as [Hnb Hel].
  destruct (Hel e) as [(Hf & Hb & Hp) Hri]; [rewrite Hl; left|].
  destruct (root_index_val _ _ Hf Hb) as [_ Hrange].
  set (r' := if empty_block_nb r =? 1 then EBR [] 0 else EBR (tail (eb_list r)) (u32 (empty_block_nb r - 1))).
  assert (r' = EBR l (zlen l)) as Hr'.
  { pose proof (empty_root_length s idx r Hs Hr) as Hle. unfold r'.
    rewrite Hnb, Hl in *. simpl length in *. destruct (Z.eqb_spec (Z.of_nat (S (length l))) 1).
    - destruct l; [done|simpl in *; lia].
    - simpl. f_equal. rewrite u32_id; lia. }
  destruct (aset_range (empty_block_list s) idx r') as [t Ht]; [by eapply aget_Some_range|].
  destruct (aget_range (victim_block_list s) (root_index cfg (phy_flash_nb e) (phy_block_nb e))) as [vr Hvr].
  { rewrite (lo_vlen s Hs). done. }
  destruct (lo_victim s Hs _ vr Hvr) as [Hvnb Hvel].
  pose proof (victim_root_length s _ vr Hs Hvr) as Hvle.
  unfold retire_full_head, rd, wr. wp_go. unfold r' in Ht. wp_go. fold r' in Ht.
  destruct (insert_victim_run e (set_empty_block_list t s) vr) as (tv & Htv & Hrun); [done|done|lia|].
  eapply run_wp; [exact Hrun|]. wp_go. simpl in Htv |- *.
  rewrite Hr' in Ht. match goal with |- lists_ok ?x /\ _ => set (s' := x) end.
  destruct (moved_to_victims s s' idx r e l vr t tv) as (Hs' & Pe & Pl); try done.
  split; [done|]. split; [|done]. split; [done|]. split; [|split; [|split; [|done]]].
  - intros e0 He0. rewrite Pe. by right.
  - intros e0. rewrite Pe. intros [->|?]%elem_of_cons; [lia|done].
  - unfold free_pages. rewrite Pe. simpl. lia.
Qed.

(** ** [GET_EMPTY_BLOCK] *)

(** The head of root [idx] is a block with a free page. *)
Definition has_free_page (s : ftl) (idx : Z) : Prop :=
  exists r e l, aget (empty_block_list s) idx = Some r /\ eb_list r = e :: l /\ curr_phy_page_nb e < P.

Definition nonempty_root (s : ftl) (i : Z) : Prop :=
  exists r, aget (empty_block_list s) i = Some r /\ eb_list r <> [].

Lemma next_table_index_val i : 0 <= i < K -> next_table_index cfg i = (i + 1) mod K.
Proof using Hok.
  intros Hi. pose proof (ok_roots Hok) as HK. unfold next_table_index.
  rewrite (ok_ete _ Hok), !u32_id by lia. destruct (Z.eqb_spec (i + 1) K) as [->|].
  - by rewrite Z.mod_same by lia.
  - by rewrite Z.mod_small by lia.
Qed.

Lemma advance_spec s : lists_ok s ->
  wp (advance_table_index cfg)
     (fun _ s' => lists_ok s' /\ retired s s' /\ empty_block_list s' = empty_block_list s /\
        total_empty_block_nb s' = total_empty_block_nb s /\
        empty_block_table_index s' = (empty_block_table_index s + 1) mod K) s.
Proof using Hok.
  intros Hs. unfold advance_table_index. wp_go. rewrite next_table_index_val by apply (lo_index s Hs).
  split; [|done]. destruct Hs. split; try done. simpl. apply Z.mod_pos_bound, (ok_roots Hok).
Qed.

(** Some root is not empty, at some distance from the current one. *)
Lemma nonempty_distance s : lists_ok s -> total_empty_block_nb s <> 0 ->
  exists k, 0 <= k < K /\ nonempty_root s ((empty_block_table_index s + k) mod K).
Proof using Hok.
  intros Hs Ht. pose proof (ok_roots Hok) as HK.
  assert (exists e, e ∈ empties s) as [e (i & r & Hi & He)%elem_mjoin_aget].
  { rewrite (lo_te s Hs) in Ht. destruct (empties s) as [|e l]; [done|]. exists e. left. }
  exists ((i - empty_block_table_index s) mod K). split; [apply Z.mod_pos_bound; lia|].
  rewrite Zplus_mod_idemp_r, Z.mod_small.
  - replace (_ + _) with i by lia. exists r. split; [done|]. by intros E; rewrite E in He; inversion He.
  - apply aget_Some_range in Hi. rewrite (lo_elen s Hs) in Hi. lia.
Qed.

Definition got (s s' : ftl) (r : option Z) : Prop :=
  lists_ok s' /\ retired s s' /\
  match r with
  | Some idx => has_free_page s' idx
  | None => total_empty_block_nb s' = 0
  end.

Lemma get_overall_loop fuel : forall s k mi mi',
  lists_ok s -> 0 <= k < K ->
  (total_empty_block_nb s <> 0 -> nonempty_root s ((empty_block_table_index s + k) mod K)) ->
  (total_empty_block_nb s * (K + 1) + k < Z.of_nat fuel) ->
  wp (get_empty_block_loop cfg fuel VICTIM_OVERALL mi mi') (fun r s' => got s s' r) s.
Proof using Hok.
  pose proof (ok_roots Hok) as HK.
  induction fuel as [|fuel IH]; intros s k mi mi' Hs Hk Hne Hfuel; [pose proof (lo_te s Hs); nia|].
  simpl. wp_go. destruct (Z.eqb_spec (total_empty_block_nb s) 0) as [E|E].
  { wp_go. done. }
  specialize (Hne E). unfold rd. wp_go.
  destruct (aget_range (empty_block_list s) (empty_block_table_index s)) as [r Hr].
  { rewrite (lo_elen s Hs). apply (lo_index s Hs). }
  destruct (lo_empty s Hs _ r Hr) as [Hnb Hel]. wp_go.
  destruct (Z.eqb_spec (empty_block_nb r) 0) as [E0|E0].
  - (* the root is empty: the next one is nearer *)
    apply wp_bind. eapply wp_mono; [by apply advance_spec|].
    intros _ s1 (Hs1 & Hr1 & He1 & Ht1 & Hi1).
    assert (k <> 0) as Hk0.
    { intros ->. destruct Hne as (r0 & Hr0 & Hr0').
      rewrite Z.add_0_r, Z.mod_small in Hr0 by apply (lo_index s Hs).
      assert (r0 = r) as -> by congruence. destruct (eb_list r); [done|]. simpl in *. lia. }
    eapply wp_mono; [apply (IH s1 (k - 1)); [done|lia| |rewrite Ht1; lia]|].
    + intros _. unfold nonempty_root. rewrite He1, Hi1, Zplus_mod_idemp_l.
      by replace (_ + 1 + (k - 1)) with (empty_block_table_index s + k) by lia.
    + intros x s2 (? & ? & ?). split; [done|]. split; [by eapply retired_trans|done].
  - destruct (eb_list r) as [|e l] eqn:El; [simpl in Hnb; lia|].
    destruct (Hel e) as [(Hf & Hb & Hp) _]; [left|]. simpl. wp_go.
    pose proof (ok_page_lt Hok) as (? & _). rewrite u32_id by lia.
    destruct (Z.eqb_spec (curr_phy_page_nb e) P) as [Ep|Ep].
    + (* the head is full *)
      apply wp_bind. eapply wp_mono; [by eapply retire_full_head_spec|].
      intros _ s1 (Hs1 & Hr1 & Ht1 & Hi1). apply wp_bind.
      eapply wp_mono; [by apply advance_spec|]. intros _ s2 (Hs2 & Hr2 & He2 & Ht2 & Hi2).
      destruct (decide (total_empty_block_nb s2 = 0)) as [Ez|Ez].
      * eapply wp_mono; [apply (IH s2 0); [done|lia|done|nia]|].
        intros x s3 (? & ? & ?). split; [done|]. split; [|done]. eauto using retired_trans.
      * destruct (nonempty_distance s2 Hs2 Ez) as (k' & Hk' & Hne').
        eapply wp_mono; [apply (IH s2 k'); [done|lia|done|nia]|].
        intros x s3 (? & ? & ?). split; [done|]. split; [|done]. eauto using retired_trans.
    + apply wp_bind. eapply wp_mono; [by apply advance_spec|].
      intros _ s1 (Hs1 & Hr1 & He1 & Ht1 & Hi1). wp_go.
      split; [done|]. split; [done|]. exists r, e, l. rewrite He1. split; [done|]. split; [done|lia].
Qed.

Lemma get_overall s mi : lists_ok s ->
  wp (GET_EMPTY_BLOCK cfg VICTIM_OVERALL mi) (fun r s' => got s s' r) s.
Proof using Hok.
  intros Hs. pose proof (ok_roots Hok) as HK. unfold GET_EMPTY_BLOCK. wp_go.
  destruct (Z.eqb_spec (total_empty_block_nb s) 0) as [E|E]; [wp_go; done|]. wp_go.
  destruct (nonempty_distance s Hs E) as (k & Hk & Hne).
  eapply get_overall_loop; [done|exact Hk|done|].
  unfold get_empty_block_fuel. rewrite (ok_ete _ Hok). pose proof (lo_te s Hs). nia.
Qed.

(** With one plane per flash, the search in the chip looks at one root. *)
Definition got_in_chip (mi : Z) (s s' : ftl) (r : option Z) : Prop :=
  lists_ok s' /\ retired s s' /\
  match r with Some idx => idx = mi /\ has_free_page s' idx | None => ~ nonempty_root s' mi end.

Lemma no_empties s mi : lists_ok s -> total_empty_block_nb s = 0 -> ~ nonempty_root s mi.
Proof.
  intros Hs H0 (r & Hr & Hl). rewrite (lo_te s Hs) in H0. apply Hl.
  destruct (eb_list r) as [|e l] eqn:E; [done|]. exfalso.
  assert (e ∈ empties s) as He by (apply elem_mjoin_aget; exists mi, r; split; [done|]; rewrite E; left).
  destruct (empties s); [by inversion He|done].
Qed.

Lemma get_in_chip_loop fuel : forall s i mi,
  L = 1 -> lists_ok s -> 0 <= mi < K -> total_empty_block_nb s < Z.of_nat fuel ->
  wp (get_empty_block_loop cfg fuel VICTIM_INCHIP i mi) (fun r s' => got_in_chip mi s s' r) s.
Proof using Hok.
  intros s i mi HL. revert s. induction fuel as [|fuel IH]; intros s Hs Hmi Hfuel.
  { rewrite (lo_te s Hs) in Hfuel. lia. }
  simpl. wp_go. destruct (Z.eqb_spec (total_empty_block_nb s) 0).
  { wp_go. do 2 (split; [done|]). by apply no_empties. }
  unfold rd. wp_go. destruct (aget_range (empty_block_list s) mi) as [r Hr].
  { rewrite (lo_elen s Hs). done. }
  destruct (lo_empty s Hs _ r Hr) as [Hnb Hel]. wp_go.
  destruct (Z.eqb_spec (empty_block_nb r) 0) as [E0|E0].
  { rewrite HL. simpl. wp_go. do 2 (split; [done|]). intros (r0 & Hr0 & Hl0). apply Hl0.
    assert (r0 = r) as -> by congruence. by destruct (eb_list r); [|simpl in *; lia]. }
  destruct (eb_list r) as [|e l] eqn:El; [simpl in Hnb; lia|].
  destruct (Hel e) as [(Hf & Hb & Hp) _]; [left|]. simpl. wp_go.
  pose proof (ok_page_lt Hok) as (? & _). rewrite u32_id by lia.
  destruct (Z.eqb_spec (curr_phy_page_nb e) P) as [Ep|Ep].
  - apply wp_bind. eapply wp_mono; [by eapply retire_full_head_spec|].
    intros _ s1 (Hs1 & Hr1 & Ht1 & Hi1).
    eapply wp_mono; [apply IH; [done|done|lia]|]. intros x s2 (? & ? & ?).
    split; [done|]. split; [|done]. eauto using retired_trans.
  - wp_go. do 3 (split; [done|]). exists r, e, l. split; [done|]. split; [done|lia].
Qed.

Lemma get_in_chip s mi : L = 1 -> lists_ok s -> 0 <= mi < K ->
  wp (GET_EMPTY_BLOCK cfg VICTIM_INCHIP mi) (fun r s' => got_in_chip mi s s' r) s.
Proof using Hok.
  intros HL Hs Hmi. pose proof (ok_roots Hok) as HK. unfold GET_EMPTY_BLOCK. wp_go.
  destruct (Z.eqb_spec (total_empty_block_nb s) 0).
  { wp_go. do 2 (split; [done|]). by apply no_empties. }
  wp_go.
  apply get_in_chip_loop; [done..|]. unfold get_empty_block_fuel.
  rewrite (ok_ete _ Hok). pose proof (lo_te s Hs). nia.
Qed.

(** Without parallelism the search starts at the given root and moves on only
    from roots without blocks; it keeps [empty_block_table_index] at the root it
    looks at. *)
Lemma get_noparal_loop fuel : forall s k mi,
  lists_ok s -> 0 <= k < K ->
  (total_empty_block_nb s <> 0 -> nonempty_root s ((empty_block_table_index s + k) mod K)) ->
  (total_empty_block_nb s * (K + 1) + k < Z.of_nat fuel) ->
  wp (get_empty_block_loop cfg fuel VICTIM_NOPARAL mi (empty_block_table_index s)) (fun r s' => got s s' r) s.
Proof using Hok.
  pose proof (ok_roots Hok) as HK.
  induction fuel as [|fuel IH]; intros s k mi Hs Hk Hne Hfuel; [pose proof (lo_te s Hs); nia|].
  simpl. wp_go. destruct (Z.eqb_spec (total_empty_block_nb s) 0) as [E|E].
  { wp_go. done. }
  specialize (Hne E). unfold rd. wp_go. pose proof (lo_index s Hs) as Hidx.
  destruct (aget_range (empty_block_list s) (empty_block_table_index s)) as [r Hr].
  { by rewrite (lo_elen s Hs). }
  destruct (lo_empty s Hs _ r Hr) as [Hnb Hel]. wp_go.
  destruct (Z.eqb_spec (empty_block_nb r) 0) as [E0|E0].
  - (* the root is empty: the next one is nearer *)
    assert (k <> 0) as Hk0.
    { intros ->. destruct Hne as (r0 & Hr0 & Hr0').
      rewrite Z.add_0_r, Z.mod_small in Hr0 by done.
      assert (r0 = r) as -> by congruence. destruct (eb_list r); [done|]. simpl in *. lia. }
    assert (forall j, j = (empty_block_table_index s + 1) mod K ->
      wp (get_empty_block_loop cfg fuel VICTIM_NOPARAL mi j) (fun r s' => got s s' r)
         (set_empty_block_table_index j s)) as Hstep.
    { intros j Hj. assert (lists_ok (set_empty_block_table_index j s)) as Hs1.
      { destruct Hs. split; try done. simpl. subst j. apply Z.mod_pos_bound. lia. }
      change j with (empty_block_table_index (set_empty_block_table_index j s)) at 1.
      eapply wp_mono; [apply (IH _ (k - 1)); [done|lia| |simpl; lia]|done].
      intros _. unfold nonempty_root. simpl. rewrite Hj, Zplus_mod_idemp_l.
      by replace (_ + 1 + (k - 1)) with (empty_block_table_index s + k) by lia. }
    rewrite (ok_ete _ Hok), i32_id by lia. destruct (Z.eqb_spec (empty_block_table_index s + 1) K) as [Ek|Ek].
    + wp_go. apply Hstep. by rewrite Ek, Z.mod_same by lia.
    + wp_go. rewrite u32_id by lia. apply Hstep. by rewrite Z.mod_small by lia.
  - destruct (eb_list r) as [|e l] eqn:El; [simpl in Hnb; lia|].
    destruct (Hel e) as [(Hf & Hb & Hp) _]; [left|]. simpl. wp_go.
    pose proof (ok_page_lt Hok) as (? & _). rewrite u32_id by lia.
    destruct (Z.eqb_spec (curr_phy_page_nb e) P) as [Ep|Ep].
    + (* the head is full *)
      apply wp_bind. eapply wp_mono; [by eapply retire_full_head_spec|].
      intros _ s1 (Hs1 & Hr1 & Ht1 & Hi1). rewrite <- Hi1.
      assert (exists k', 0 <= k' < K /\ (total_empty_block_nb s1 <> 0 ->
        nonempty_root s1 ((empty_block_table_index s1 + k') mod K))) as (k' & Hk' & Hne').
      { destruct (decide (total_empty_block_nb s1 = 0)) as [Ez|Ez]; [exists 0; split; [lia|done]|].
        destruct (nonempty_distance s1 Hs1 Ez) as (k' & ? & ?). by exists k'. }
      eapply wp_mono; [apply (IH s1 k'); [done|lia|done|nia]|].
      intros x s3 (? & ? & ?). split; [done|]. split; [|done]. eauto using retired_trans.
    + wp_go. split; [done|]. split; [done|]. exists r, e, l. split; [done|]. split; [done|lia].
Qed.

Lemma get_noparal s : lists_ok s ->
  wp (GET_EMPTY_BLOCK cfg VICTIM_NOPARAL (empty_block_table_index s)) (fun r s' => got s s' r) s.
Proof using Hok.
  intros Hs. pose proof (ok_roots Hok) as HK. unfold GET_EMPTY_BLOCK. wp_go.
  destruct (Z.eqb_spec (total_empty_block_nb s) 0) as [E|E]; [wp_go; done|]. wp_go.
  destruct (nonempty_distance s Hs E) as (k & Hk & Hne).
  eapply get_noparal_loop; [done|exact Hk|done|].
  unfold get_empty_block_fuel. rewrite (ok_ete _ Hok). pose proof (lo_te s Hs). nia.
Qed.

(** ** Replacing one root *)

Lemma set_empty_root_ok s s' i r' t :
  lists_ok s -> aset (empty_block_list s) i r' = Some t ->
  empty_block_nb r' = zlen (eb_list r') ->
  (forall e, e ∈ eb_list r' -> entry_ok e /\ root_index cfg (phy_flash_nb e) (phy_block_nb e) = i) ->
  (forall e, e ∈ tail (eb_list r') -> curr_phy_page_nb e = 0) ->
  empty_block_list s' = t -> victim_block_list s' = victim_block_list s ->
  total_empty_block_nb s' = zlen (empties s') -> total_victim_block_nb s' = total_victim_block_nb s ->
  empty_block_table_index s' = empty_block_table_index s -> NoDup (listed s') ->
  lists_ok s'.
Proof.
  intros Hs Ht Hnb Hel Hhd He Hv Hte Htv Hi Hnd. split; [..|done|done| |].
  - by rewrite He, (aset_length _ _ _ _ Ht), (lo_elen s Hs).
  - by rewrite Hv, (lo_vlen s Hs).
  - rewrite He. intros j r0. rewrite (aget_aset _ _ _ _ j Ht).
    case_decide; [|apply (lo_empty s Hs)]. by intros [= <-]; subst.
  - rewrite Hv. apply (lo_victim s Hs).
  - rewrite He. intros j r0 e0. rewrite (aget_aset _ _ _ _ j Ht).
    case_decide; [|apply (lo_heads s Hs)]. by intros [= <-]; subst; auto.
  - rewrite Htv, (lo_tv s Hs). unfold victims. by rewrite Hv.
  - rewrite Hi. apply (lo_index s Hs).
Qed.

(** Two entries of the lists of empty blocks for one block are equal. *)
Lemma empties_inj s e e' : lists_ok s -> e ∈ empties s -> e' ∈ empties s -> e_id e = e_id e' -> e = e'.
Proof.
  intros Hs He He' E. pose proof (lo_nodup s Hs) as Hnd. unfold listed in Hnd.
  apply NoDup_app in Hnd as (Hnd & _ & _).
  apply list_elem_of_lookup in He as [i Hi], He' as [j Hj].
  assert (i = j) as ->; [|congruence].
  eapply (NoDup_lookup (e_id <$> empties s)); [done|..]; rewrite list_lookup_fmap.
  - by rewrite Hi.
  - rewrite Hj. simpl. by rewrite E.
Qed.

(** ** [GET_NEW_PAGE] *)

(** The entry after its next page is taken. *)
Definition bump (e : empty_block_entry) : empty_block_entry :=
  EBE (phy_flash_nb e) (phy_block_nb e) (curr_phy_page_nb e + 1).

(** The page handed out is the next free page of an empty block, which moves on
    by one page; it fails when no empty block has a free page. *)
Definition new_page (s s' : ftl) (r : option Z) : Prop :=
  lists_ok s' /\ same_tables s s' /\ listed s' ≡ₚ listed s /\
  match r with
  | None => total_empty_block_nb s' = 0 /\ free_pages s = 0 /\ free_pages s' = 0
  | Some ppn => free_pages s' = free_pages s - 1 /\ exists e, e ∈ empties s /\ curr_phy_page_nb e < P /\
      ppn = page_id cfg (phy_flash_nb e) (phy_block_nb e) (curr_phy_page_nb e) /\
      bump e ∈ empties s' /\
      forall e', e' ∈ empties s' -> e' = bump e \/ (e' ∈ empties s /\ e_id e' <> e_id e)
  end.

(** Taking the next page of the head of root [idx]. *)
Lemma take_page_spec s idx : lists_ok s -> has_free_page s idx ->
  wp (root ← rd empty_block_list idx;
      match eb_list root with
      | [] => undef
      | e :: l =>
          let ppn := i32 (phy_flash_nb e * B * P + phy_block_nb e * P + curr_phy_page_nb e) in
          let e' := EBE (phy_flash_nb e) (phy_block_nb e) (u32 (curr_phy_page_nb e + 1)) in
          wr empty_block_list set_empty_block_list idx (EBR (e' :: l) (empty_block_nb root)) ;;
          mret (Some ppn)
      end) (fun r s' => r <> None /\ new_page s s' r) s.
Proof using Hok.
  intros Hs (r & e & l & Hr & Hl & Hp). pose proof (ok_page_lt Hok) as (HP & _ & _).
  destruct (lo_empty s Hs _ r Hr) as [Hnb Hel].
  destruct (Hel e) as [(Hf & Hb & Hc) Hri]; [rewrite Hl; left|].
  unfold rd, wr. wp_go. rewrite Hl. wp_go. rewrite u32_id by lia. fold (bump e).
  destruct (aset_range (empty_block_list s) idx (EBR (bump e :: l) (empty_block_nb r))) as [t Ht].
  { by eapply aget_Some_range. }
  wp_go. split; [done|]. set (s' := set_empty_block_list t s).
  destruct (mjoin_aset eb_list _ _ _ _ _ Hr Ht) as (pre & post & Ee & Ee').
  rewrite Hl in Ee. simpl in Ee'.
  assert (empties s ≡ₚ e :: pre ++ l ++ post) as Pe.
  { unfold empties. rewrite Ee. simpl. symmetry. apply Permutation_middle. }
  assert (empties s' ≡ₚ bump e :: pre ++ l ++ post) as Pe'.
  { unfold empties, s'. simpl. rewrite Ee'. simpl. symmetry. apply Permutation_middle. }
  assert (listed s' ≡ₚ listed s) as Pl.
  { unfold listed. rewrite Pe, Pe'. done. }
  assert (lists_ok s') as Hs'.
  { eapply (set_empty_root_ok s s' idx _ t); try done; simpl.
    - by rewrite Hnb, Hl.
    - intros e0 [->|He0]%elem_of_cons; [|apply Hel; rewrite Hl; by right].
      split; [|done]. unfold entry_ok. simpl. lia.
    - intros e0 He0. apply (lo_heads s Hs idx r); [done|]. by rewrite Hl.
    - rewrite (lo_te s Hs), Pe, Pe'. done.
    - rewrite Pl. apply (lo_nodup s Hs). }
  split; [done|]. split; [done|]. split; [done|].
  split; [unfold free_pages; rewrite Pe, Pe'; simpl; lia|].
  exists e. split; [rewrite Pe; left|]. split; [done|]. split.
  { rewrite i32_id.
    - unfold page_id, block_id. ring.
    - pose proof (page_id_range cfg Hok _ _ (curr_phy_page_nb e) Hf Hb ltac:(lia)) as Hr'.
      pose proof (ok_pages Hok). unfold page_id, block_id, npages in Hr'. lia. }
  split; [rewrite Pe'; left|].
  intros e0. rewrite Pe'. intros [->|He0]%elem_of_cons; [by left|right].
  split; [rewrite Pe; by right|]. intros E.
  assert (e0 = bump e) as ->.
  { apply (empties_inj s'); [done|..|exact E]; rewrite Pe'; [by right|left]. }
  assert (bump e = e) as Hbe.
  { apply (empties_inj s); [done|..|done]; rewrite Pe; [by right|left]. }
  apply (f_equal curr_phy_page_nb) in Hbe. simpl in Hbe. lia.
Qed.

Lemma retired_new_page s1 s2 s3 r : retired s1 s2 -> r <> None -> new_page s2 s3 r -> new_page s1 s3 r.
Proof.
  intros (HT & HE & _ & HF & HP) Hr (Hl & HT' & HP' & H). split; [done|].
  split; [by eapply same_tables_trans|]. split; [by etrans|].
  destruct r as [ppn|]; [|done]. destruct H as (Hfr & e & He & Hc & Hp & Hb & H).
  split; [by rewrite Hfr, HF|]. exists e. split; [auto|]. do 3 (split; [done|]). intros e' [?|[? ?]]%H; [by left|right]. auto.
Qed.

Lemma no_free_page s1 s2 : lists_ok s1 -> lists_ok s2 -> retired s1 s2 ->
  total_empty_block_nb s2 = 0 -> new_page s1 s2 None.
Proof.
  intros Hs1 Hs2 (HT & HE & HF & Hfr & HP) H0. do 3 (split; [done|]). split; [done|].
  assert (free_pages s2 = 0) as Hz; [|by rewrite <- Hfr].
  rewrite (lo_te s2 Hs2) in H0. unfold free_pages. by destruct (empties s2).
Qed.

(** The calls that find a block when there is one. *)
Definition search_ok (s : ftl) (mode mi : Z) : Prop :=
  mode = VICTIM_OVERALL \/ (mode = VICTIM_INCHIP /\ L = 1 /\ 0 <= mi < K) \/
  (mode = VICTIM_NOPARAL /\ mi = empty_block_table_index s).

Definition found (s s' : ftl) (mode mi : Z) (r : option Z) : Prop :=
  lists_ok s' /\ retired s s' /\
  match r with
  | Some idx => has_free_page s' idx /\ (mode = VICTIM_INCHIP -> idx = mi)
  | None => if mode =? VICTIM_INCHIP then ~ nonempty_root s' mi else total_empty_block_nb s' = 0
  end.

Lemma get_empty_block s mode mi : lists_ok s -> search_ok s mode mi ->
  wp (GET_EMPTY_BLOCK cfg mode mi) (fun r s' => found s s' mode mi r) s.
Proof using Hok.
  intros Hs [->|[(-> & HL & Hmi)|[-> ->]]].
  - eapply wp_mono; [exact (get_overall s mi Hs)|]. intros [i|] s1 (? & ? & H); done.
  - eapply wp_mono; [exact (get_in_chip s mi HL Hs Hmi)|].
    intros [i|] s1 (? & ? & H); (split; [done|]); (split; [done|]); simpl; [|done].
    destruct H as [-> H]. done.
  - eapply wp_mono; [exact (get_noparal s Hs)|]. intros [i|] s1 (? & ? & H); done.
Qed.

Lemma got_after s s1 s2 r : retired s s1 -> got s1 s2 r -> got s s2 r.
Proof. intros ? (? & ? & ?). split; [done|]. split; [by eapply retired_trans|done]. Qed.

Lemma get_new_page s mode mi : lists_ok s -> search_ok s mode mi ->
  wp (GET_NEW_PAGE cfg mode mi) (fun r s' => new_page s s' r) s.
Proof using Hok.
  intros Hs Hmode. unfold GET_NEW_PAGE. apply wp_bind.
  eapply wp_mono; [by apply get_empty_block|]. intros b1 s1 (Hs1 & Hr1 & Hb1). apply wp_bind.
  apply wp_mono with (P := fun r s2 => got s s2 r).
  { destruct b1 as [i|]; [wp_go; split; [done|]; split; [done|]; by destruct Hb1|].
    destruct (mode =? VICTIM_INCHIP); [|by wp_go].
    eapply wp_mono; [by apply get_overall|]. intros r s2. by apply got_after. }
  intros [idx|] s2 (Hs2 & Hr2 & H2); [|wp_go; by apply no_free_page].
  eapply wp_mono; [by apply take_page_spec|]. intros r s3 [Hn H3]. by eapply retired_new_page.
Qed.

(** ** [INSERT_EMPTY_BLOCK] *)

Lemma insert_empty_block s f b : lists_ok s -> 0 <= f < F -> 0 <= b < B ->
  block_id cfg f b ∉ listed s ->
  wp (INSERT_EMPTY_BLOCK cfg f b)
     (fun _ s' => lists_ok s' /\ same_tables s s' /\
        empties s' ≡ₚ EBE f b 0 :: empties s /\ victims s' = victims s) s.
Proof using Hok.
  intros Hs Hf Hb Hn. destruct (root_index_val f b Hf Hb) as [_ Hri].
  pose proof (ok_blocks Hok). pose proof (ok_page _ Hok). pose proof (listed_length s Hs) as Hlen.
  destruct (aget_range (empty_block_list s) (root_index cfg f b)) as [r Hr].
  { by rewrite (lo_elen s Hs). }
  destruct (lo_empty s Hs _ r Hr) as [Hnb Hel].
  pose proof (empty_root_length s _ r Hs Hr) as Hle.
  set (r' := EBR (eb_list r ++ [EBE f b 0]) (zlen (eb_list r) + 1)).
  unfold INSERT_EMPTY_BLOCK, rd, wr. wp_go.
  apply wp_mono with (P := fun x s1 => x = r' /\ s1 = s).
  { unfold r'. rewrite Hnb. destruct (eb_list r) as [|e l] eqn:El; [by wp_go|].
    destruct (Z.eqb_spec (zlen (e :: l)) 0); [simpl in *; lia|]. wp_go. split; [|done].
    rewrite u32_id; [done|]. simpl length in *. lia. }
  intros _ _ [-> ->]. destruct (aset_range (empty_block_list s) (root_index cfg f b) r') as [t Ht].
  { by rewrite (lo_elen s Hs). }
  wp_go. match goal with |- lists_ok ?x /\ _ => set (s' := x) end.
  destruct (mjoin_aset eb_list _ _ _ _ _ Hr Ht) as (pre & post & Ee & Ee').
  assert (empties s' ≡ₚ EBE f b 0 :: empties s) as Pe.
  { unfold empties, s'. simpl. rewrite Ee, Ee'. unfold r'. simpl. rewrite <- (assoc_L app). simpl.
    rewrite !(assoc_L app). by rewrite <- Permutation_middle. }
  split; [|done]. eapply (set_empty_root_ok s s' (root_index cfg f b) r' t); try done.
  - unfold r'. simpl. rewrite zlen_app. simpl. lia.
  - unfold r'. simpl. intros e0 [He0| ->%list_elem_of_singleton]%elem_of_app; [by apply Hel|].
    split; [|done]. unfold entry_ok. simpl. lia.
  - unfold r'. simpl. destruct (eb_list r) as [|e0 l0] eqn:El; simpl; [by intros e He; inversion He|].
    intros e [He| ->%list_elem_of_singleton]%elem_of_app; [|done].
    apply (lo_heads s Hs (root_index cfg f b) r); [done|]. by rewrite El.
  - rewrite Pe. simpl. rewrite (lo_te s Hs). lia.
  - unfold listed. rewrite Pe. simpl. apply NoDup_cons. split; [exact Hn|apply (lo_nodup s Hs)].
Qed.

End Lists.
