(* ===== verification/Victims.v ===== *)
(** * Victim selection

    [EJECT_VICTIM_BLOCK] unlinks the entry it is given, wherever it is in its
    list, and [SELECT_VICTIM_BLOCK] takes out a block with the fewest valid
    pages. *)

From stdpp Require Import prelude.
From S2P Require Import Prelude Config Blocks Mapping Gc Tables Lists.

Local Open Scope Z_scope.

Section Victims.
Context (cfg : config) (Hok : cfg_ok cfg).

Local Abbreviation P := (PAGE_NB cfg).
Local Abbreviation B := (BLOCK_NB cfg).
Local Abbreviation F := (FLASH_NB cfg).
Local Abbreviation L := (PLANES_PER_FLASH cfg).
Local Abbreviation K := (FLASH_NB cfg * PLANES_PER_FLASH cfg).

(** The number of valid pages of a victim. *)
Definition valid_of (s : ftl) (v : victim_block_entry) : option Z :=
  valid_page_nb <$> aget (block_state_table s) (v_id cfg v).

(** A pointer into the lists, to the entry [v]. *)
Definition points (s : ftl) (p : victim_ptr) (v : victim_block_entry) : Prop :=
  exists r, aget (victim_block_list s) (fst p) = Some r /\ vb_list r !! snd p = Some v.

(** [best] is a victim with its number of valid pages. *)
Definition candidate (s : ftl) (best : victim_ptr * Z) : Prop :=
  exists v, points s (fst best) v /\ valid_of s v = Some (snd best).

(** ** Unlinking *)

(** The three ways of unlinking leave the same list. *)
Lemma unlink_run s i j r v t :
  aget (victim_block_list s) i = Some r -> vb_list r !! j = Some v ->
  victim_block_nb r = zlen (vb_list r) -> zlen (vb_list r) < 2 ^ 32 ->
  root_index cfg (v_phy_flash_nb v) (v_phy_block_nb v) = i ->
  aset (victim_block_list s) i
    (VBR (delete j (vb_list r)) (zlen (vb_list r) - 1)) = Some t ->
  wp (EJECT_VICTIM_BLOCK cfg (i, j)) (fun _ s' => s' =
    set_total_victim_block_nb (total_victim_block_nb s - 1) (set_victim_block_list t s)) s.
Proof.
  intros Hr Hj Hnb Hlt Hi Ht. set (l := vb_list r) in *.
  assert (0 <= i < zlen (victim_block_list s)) as Hrange by by eapply aget_Some_range.
  pose proof (lookup_lt_Some _ _ _ Hj) as Hjl.
  (* the list written by each branch, then the counter *)
  assert (forall l', l' = delete j l -> forall t1, aset (victim_block_list s) i (VBR l' (victim_block_nb r)) = Some t1 ->
    aget t1 i = Some (VBR l' (victim_block_nb r)) /\
    aset t1 i (VBR l' (u32 (victim_block_nb r - 1))) = Some t) as Hfin.
  { intros l' -> t1 Ht1. split; [by eapply aget_aset_eq|].
    rewrite Hnb, u32_id by lia. apply aset_inv in Ht as [_ ->]. apply aset_inv in Ht1 as [_ ->].
    unfold aset. rewrite length_insert. destruct (Z.leb_spec 0 i); [|lia].
    destruct (Z.ltb_spec i (zlen (victim_block_list s))); [|lia].
    simpl. by rewrite list_insert_insert_eq. }
  destruct (aset_range (victim_block_list s) i (VBR (delete j l) (victim_block_nb r)) Hrange) as [t1 Ht1].
  destruct (Hfin _ eq_refl _ Ht1) as [Hg Hs].
  unfold EJECT_VICTIM_BLOCK, victim_entry, rd, wr. wp_go. rewrite Hi, Z.eqb_refl. wp_go.
  apply wp_mono with (P := fun _ s' => s' = set_victim_block_list t1 s).
  { destruct (Nat.eqb_spec j 0) as [->|Hj0]; cbn [andb]; fold l.
    - destruct l as [|v0 l0] eqn:El; [done|].
      destruct (Z.eqb_spec (victim_block_nb r) 1) as [E|E].
      + destruct l0; [|simpl in Hnb; lia]. by wp_go.
      + destruct l0 as [|v1 l0]; [done|]. by wp_go.
    - destruct (Nat.eqb_spec (S j) (length l)) as [E|E].
      + assert (take j l = delete j l) as ->.
        { rewrite delete_take_drop, (drop_ge l) by lia. by rewrite app_nil_r. }
        by wp_go.
      + destruct (Nat.ltb_spec 0 j); [|lia]. destruct (Nat.ltb_spec (S j) (length l)); [|lia].
        cbn [andb]. rewrite <- delete_take_drop. by wp_go. }
  intros _ _ ->. by wp_go.
Qed.

Lemma eject_victim_block s p v : lists_ok cfg s -> points s p v ->
  wp (EJECT_VICTIM_BLOCK cfg p)
     (fun _ s' => lists_ok cfg s' /\ same_tables s s' /\ empties s' = empties s /\
                  victims s ≡ₚ v :: victims s') s.
Proof using Hok.
  intros Hs (r & Hr & Hj). destruct p as [i j]. simpl in Hr, Hj.
  pose proof (ok_blocks Hok). pose proof (listed_length cfg Hok s Hs).
  pose proof (victim_root_length cfg s i r Hs Hr) as Hle.
  destruct (lo_victim _ s Hs _ r Hr) as [Hnb Hel].
  destruct (Hel v) as [Hv Hi]; [by eapply list_elem_of_lookup_2|].
  destruct (aset_range (victim_block_list s) i
    (VBR (delete j (vb_list r)) (zlen (vb_list r) - 1))) as [t Ht]; [by eapply aget_Some_range|].
  eapply wp_mono; [eapply unlink_run; try done; lia|]. intros _ _ ->.
  match goal with |- lists_ok _ ?x /\ _ => set (s' := x) end.
  destruct (mjoin_aset vb_list _ _ _ _ _ Hr Ht) as (pre & post & Ev & Ev').
  assert (victims s ≡ₚ v :: victims s') as Pv.
  { unfold victims, s'. simpl. rewrite Ev, Ev'. simpl.
    rewrite (delete_Permutation (vb_list r) j v Hj) at 1. simpl. symmetry. apply Permutation_middle. }
  assert (listed cfg s ≡ₚ v_id cfg v :: listed cfg s') as Pl.
  { unfold listed. rewrite Pv. simpl. symmetry. apply Permutation_middle. }
  split; [|done]. split.
  - apply (lo_elen _ s Hs).
  - simpl. by rewrite (aset_length _ _ _ _ Ht), (lo_vlen _ s Hs).
  - apply (lo_empty _ s Hs).
  - simpl. intros k r0. rewrite (aget_aset _ _ _ _ k Ht). case_decide; [|apply (lo_victim _ s Hs)].
    subst k. intros [= <-]. simpl. split.
    + pose proof (lookup_lt_Some _ _ _ Hj). rewrite length_delete by eauto. lia.
    + intros v0 Hv0. apply Hel. rewrite (delete_Permutation (vb_list r) j v Hj). by right.
  - apply (lo_heads _ s Hs).
  - pose proof (lo_nodup _ s Hs) as Hnd. rewrite Pl in Hnd. by apply NoDup_cons in Hnd as [_ ?].
  - apply (lo_te _ s Hs).
  - simpl. rewrite (lo_tv _ s Hs). apply Permutation_length in Pv. simpl in Pv. lia.
  - apply (lo_index _ s Hs).
Qed.

(** ** The search *)

Lemma victim_state s v : tables_ok cfg s -> victim_ok cfg v ->
  exists e, aget (block_state_table s)
              (GET_BLOCK_STATE_ENTRY cfg (v_phy_flash_nb v) (v_phy_block_nb v)) = Some e /\
            valid_of s v = Some (valid_page_nb e).
Proof using Hok.
  intros Ht [Hf Hb]. rewrite (entry_index cfg Hok) by done. unfold valid_of, v_id.
  destruct (aget_range (block_state_table s) (block_id cfg (v_phy_flash_nb v) (v_phy_block_nb v))) as [e He].
  { rewrite (t_blocks _ s Ht). by apply block_id_range. }
  exists e. by rewrite He.
Qed.

Lemma select_in_root_spec s i r : tables_ok cfg s -> lists_ok cfg s ->
  aget (victim_block_list s) i = Some r ->
  forall l j best, drop j (vb_list r) = l -> candidate s best ->
  wp (select_in_root cfg (length l) i j l best)
     (fun best' s' => s' = s /\ candidate s best' /\ snd best' <= snd best /\
        forall v m, v ∈ l -> valid_of s v = Some m -> snd best' <= m) s.
Proof using Hok.
  intros Ht Hs Hr. induction l as [|v l IH]; intros j best Hd Hb; simpl.
  { wp_go. do 2 (split; [done|]). split; [lia|]. intros v m Hv. by inversion Hv. }
  assert (vb_list r !! j = Some v) as Hj.
  { rewrite <- (Nat.add_0_r j), <- lookup_drop, Hd. done. }
  destruct (lo_victim _ s Hs _ r Hr) as [_ Hel].
  destruct (Hel v) as [Hv _]; [by eapply list_elem_of_lookup_2|].
  destruct (victim_state s v Ht Hv) as (e & He & Hvo). unfold rd. wp_go.
  eapply wp_mono; [apply IH|].
  - by rewrite <- Nat.add_1_r, <- drop_drop, Hd.
  - case_match; [|done]. exists v. split; [by exists r|done].
  - intros best' s' (-> & Hc & Hle & Hmin). split; [done|]. split; [done|].
    destruct (Z.ltb_spec (valid_page_nb e) (snd best)); simpl in Hle; (split; [lia|]);
      intros v' m [->|Hv']%elem_of_cons; intros Hm; try (rewrite Hvo in Hm; simplify_eq; lia); eauto.
Qed.

(** The victims of the roots from [i] on. *)
Definition from_root (s : ftl) (i : Z) (v : victim_block_entry) : Prop :=
  exists k r, i <= k /\ aget (victim_block_list s) k = Some r /\ v ∈ vb_list r.

Lemma select_in_roots_spec s : tables_ok cfg s -> lists_ok cfg s ->
  forall n i best, 0 <= i -> i + Z.of_nat n = K ->
  (forall b, best = Some b -> candidate s b) ->
  wp (select_in_roots cfg n i best)
     (fun best' s' => s' = s /\
        match best' with
        | None => best = None /\ forall v, ~ from_root s i v
        | Some b' => candidate s b' /\ (forall b, best = Some b -> snd b' <= snd b) /\
            forall v m, from_root s i v -> valid_of s v = Some m -> snd b' <= m
        end) s.
Proof using Hok.
  intros Ht Hs. induction n as [|n IH]; intros i best Hi Hn Hb; simpl.
  { wp_go. split; [done|].
    assert (forall v, ~ from_root s i v) as Hnone.
    { intros v (k & r & Hk & Hr & _). apply aget_Some_range in Hr. rewrite (lo_vlen _ s Hs) in Hr. lia. }
    destruct best as [b|]; [|done]. split; [by apply Hb|]. split; [by intros ? [= ->]|].
    intros v m Hv. by destruct (Hnone v). }
  destruct (aget_range (victim_block_list s) i) as [r Hr]; [rewrite (lo_vlen _ s Hs); lia|].
  destruct (lo_victim _ s Hs _ r Hr) as [Hnb Hel]. unfold rd. wp_go.
  assert (forall v, from_root s i v -> v ∈ vb_list r \/ from_root s (i + 1) v) as Hsplit.
  { intros v (k & r' & Hk & Hr' & Hv). destruct (decide (k = i)) as [->|]; [left; congruence|right].
    exists k, r'. split; [lia|done]. }
  destruct (Z.eqb_spec (victim_block_nb r) 0) as [E|E].
  - eapply wp_mono; [apply (IH (i + 1) best); [lia..|done]|]. intros best' s' [-> H]. split; [done|].
    assert (vb_list r = []) as Hnil by (destruct (vb_list r); [done|simpl in *; lia]).
    rewrite Hnil in Hsplit. destruct best' as [b'|].
    + destruct H as (Hc & Hle & Hmin). split; [done|]. split; [done|].
      intros v m [Hv|Hv]%Hsplit; [by inversion Hv|eauto].
    + destruct H as [-> H]. split; [done|]. intros v [Hv|Hv]%Hsplit; [by inversion Hv|by eapply H].
  - destruct (vb_list r) as [|h l] eqn:El; [simpl in Hnb; lia|]. simpl. wp_go.
    apply wp_mono with (P := fun b s' => s' = s /\ candidate s b /\ forall b0, best = Some b0 -> b = b0).
    { destruct best as [b|]; wp_go.
      - split; [done|]. split; [by apply Hb|]. congruence.
      - destruct (Hel h) as [Hh _]; [left|]. destruct (victim_state s h Ht Hh) as (e & He & Hvo). wp_go.
        split; [done|]. split; [|done]. exists h. split; [|done]. exists r. by rewrite El. }
    intros b ? (-> & Hcb & Heq). rewrite Hnb, Nat2Z.id. apply wp_bind.
    eapply wp_mono; [apply (select_in_root_spec s i r Ht Hs Hr (h :: l) 0 b); [by rewrite El|done]|].
    intros b1 ? (-> & Hc1 & Hle1 & Hmin1).
    eapply wp_mono; [apply (IH (i + 1) (Some b1)); [lia..|by intros ? [= <-]]|].
    intros best' ? [-> H]. split; [done|]. destruct best' as [b'|]; [|by destruct H].
    destruct H as (Hc & Hle & Hmin). specialize (Hle _ eq_refl). split; [done|]. split.
    + intros b0 Hb0. rewrite (Heq _ Hb0) in Hle1. lia.
    + intros v m [Hv|Hv]%Hsplit Hm; [|eauto]. specialize (Hmin1 v m Hv Hm). lia.
Qed.

(** ** [SELECT_VICTIM_BLOCK] *)

(** The answer is a victim with the fewest valid pages, at least one of its
    pages not valid, and it has left the lists; there is no answer when there
    is no victim or all the pages of all victims are valid. *)
Definition selected (s s' : ftl) (a : option (Z * Z)) : Prop :=
  lists_ok cfg s' /\ empties s' = empties s /\
  mapping_table s' = mapping_table s /\ inverse_mapping_table s' = inverse_mapping_table s /\
  block_state_table s' = block_state_table s /\ gc_count s' = gc_count s /\
  match a with
  | None => victims s' = victims s /\
      forall v m, v ∈ victims s -> valid_of s v = Some m -> P <= m
  | Some (f, b) => victims s ≡ₚ VBE f b :: victims s' /\
      exists m, valid_of s (VBE f b) = Some m /\ m <> P /\
        forall v m', v ∈ victims s -> valid_of s v = Some m' -> m <= m'
  end.

Lemma victims_from_root s v : v ∈ victims s -> from_root s 0 v.
Proof.
  intros (k & r & Hk & Hv)%elem_mjoin_aget. exists k, r.
  apply aget_Some_range in Hk as ?. split; [lia|done].
Qed.

Lemma lists_ok_fail_cnt s k : lists_ok cfg s -> lists_ok cfg (set_fail_cnt k s).
Proof. by intros []. Qed.

Lemma select_victim_block s : tables_ok cfg s -> lists_ok cfg s ->
  wp (SELECT_VICTIM_BLOCK cfg) (fun a s' => selected s s' a) s.
Proof using Hok.
  intros Ht Hs. pose proof (ok_roots Hok) as HK. unfold SELECT_VICTIM_BLOCK. wp_go.
  destruct (Z.eqb_spec (total_victim_block_nb s) 0) as [E|E].
  { wp_go. do 7 (split; [done|]). intros v m Hv. rewrite (lo_tv _ s Hs) in E.
    destruct (victims s); [by inversion Hv|done]. }
  apply wp_bind. eapply wp_mono; [apply (select_in_roots_spec s Ht Hs _ 0 None); [lia| |done]|].
  { rewrite (ok_vte _ Hok). lia. }
  intros [[p m]|] ? [-> H]; last first.
  { destruct H as [_ H]. destruct (victims s) as [|v l] eqn:Ev; [by rewrite (lo_tv _ s Hs), Ev in E|].
    exfalso. apply (H v), victims_from_root. rewrite Ev. left. }
  destruct H as ((v & Hp & Hvo) & _ & Hmin). simpl in Hp, Hvo, Hmin. wp_go. cbv iota beta.
  destruct (Z.eqb_spec m P) as [->|Hm].
  - wp_go. split; [by apply lists_ok_fail_cnt|]. do 6 (split; [done|]).
    intros v0 m0 Hv0. apply Hmin. by apply victims_from_root.
  - pose proof Hp as (r & Hr & Hj). unfold victim_entry, rd. wp_go.
    eapply wp_mono; [by apply eject_victim_block|].
    intros _ s' (Hs' & (? & ? & ? & ? & ?) & He & Hv). wp_go. do 6 (split; [done|]).
    destruct v as [f b]. simpl. split; [done|]. exists m. split; [done|]. split; [done|].
    intros v0 m0 Hv0. apply Hmin. by apply victims_from_root.
Qed.

End Victims.
