(* ===== verification/Inv.v ===== *)
(** * The invariant of the translation layer

    The tables, the block lists and the content of the drive agree: every
    mapped logical page has a valid, programmed physical page that maps back to
    it and holds its data, and every empty block is programmed up to its next
    page.  Each step of the writer and of the collector preserves it. *)

From stdpp Require Import prelude gmap.
From Stdlib Require Import Ascii.
From S2P Require Import Prelude Config Blocks Mapping Device Gc Tables Lists Victims.

Local Open Scope Z_scope.

Section Inv.
Context (cfg : config) (Hok : cfg_ok cfg).

Local Abbreviation P := (PAGE_NB cfg).
Local Abbreviation B := (BLOCK_NB cfg).
Local Abbreviation F := (FLASH_NB cfg).
Local Abbreviation L := (PLANES_PER_FLASH cfg).
Local Abbreviation K := (FLASH_NB cfg * PLANES_PER_FLASH cfg).
Local Abbreviation chars s := (page_char cfg (block_state_table s)).

(** The content of physical page [q]. *)
Definition stored (n : nand) (q : Z) : option content :=
  n_page n (CALC_FLASH cfg q) (CALC_BLOCK cfg q) (CALC_PAGE cfg q).

(** [disk] is the data of the logical pages.  [R] are pages outside the lists
    that the collector has still to copy. *)
Record inv (R : Z -> Prop) (s : ftl) (n : nand) (disk : gmap Z content) : Prop := {
  i_tables : tables_ok cfg s;
  i_lists : lists_ok cfg s;
  i_link e : e ∈ empties s ->
    zlen (n_block n (phy_flash_nb e) (phy_block_nb e)) = curr_phy_page_nb e;
  i_valid q : chars s q = Some chV -> is_Some (stored n q);
  i_map lpn ppn : aget (mapping_table s) lpn = Some ppn -> ppn <> -1 ->
    chars s ppn = Some chV /\ aget (inverse_mapping_table s) ppn = Some lpn;
  i_inv q : chars s q = Some chV -> q / P ∈ listed cfg s \/ R q ->
    exists lpn, aget (inverse_mapping_table s) q = Some lpn /\ aget (mapping_table s) lpn = Some q;
  i_data lpn ppn : aget (mapping_table s) lpn = Some ppn ->
    disk !! lpn = if ppn =? -1 then None else stored n ppn
}.

(** The parts of the specification machine that the collector leaves alone. *)
Definition same_host (n n' : nand) : Prop :=
  n_version n' = n_version n /\ n_request n' = n_request n /\ n_seq n' = n_seq n /\ n_out n' = n_out n /\
  n_log n' = n_log n.

(** The same, but for the events [es] that it logs. *)
Definition logged (es : list event) (n n' : nand) : Prop :=
  n_version n' = n_version n /\ n_request n' = n_request n /\ n_seq n' = n_seq n /\ n_out n' = n_out n /\
  n_log n' = n_log n ++ es.

(** The lists and counters that the table updates leave alone. *)
Definition same_lists (s s' : ftl) : Prop :=
  empty_block_list s' = empty_block_list s /\ victim_block_list s' = victim_block_list s /\
  total_empty_block_nb s' = total_empty_block_nb s /\ total_victim_block_nb s' = total_victim_block_nb s /\
  empty_block_table_index s' = empty_block_table_index s.

(** ** Elementary facts *)

Lemma inv_weaken (R R' : Z -> Prop) s n disk :
  (forall q, R' q -> R q) -> inv R s n disk -> inv R' s n disk.
Proof.
  intros HR []. split; try done. intros q Hq [?|?]; eauto.
Qed.

Lemma same_lists_ok s s' : same_lists s s' -> lists_ok cfg s -> lists_ok cfg s'.
Proof.
  intros (E1 & E2 & E3 & E4 & E5) []. split; unfold listed, empties, victims in *;
    rewrite ?E1, ?E2, ?E3, ?E4, ?E5; done.
Qed.

Lemma same_lists_empties s s' : same_lists s s' -> empties s' = empties s.
Proof. intros (E & _). unfold empties. by rewrite E. Qed.

Lemma same_lists_listed s s' : same_lists s s' -> listed cfg s' = listed cfg s.
Proof. intros (E1 & E2 & _). unfold listed, empties, victims. by rewrite E1, E2. Qed.

Lemma same_lists_free s s' : same_lists s s' -> free_pages cfg s' = free_pages cfg s.
Proof. intros H. unfold free_pages. by rewrite (same_lists_empties _ _ H). Qed.

Lemma same_lists_trans s1 s2 s3 : same_lists s1 s2 -> same_lists s2 s3 -> same_lists s1 s3.
Proof. unfold same_lists. intros (?&?&?&?&?) (?&?&?&?&?). repeat split; congruence. Qed.

Lemma chars_range s q c : tables_ok cfg s -> chars s q = Some c -> 0 <= q < npages cfg.
Proof using Hok.
  intros Ht. apply (page_char_range cfg Hok); [apply (t_blocks _ s Ht)|].
  intros i e He. by apply (t_entry _ s Ht i e He).
Qed.

(** A list operation that hands blocks around keeps the invariant when it keeps
    the fill levels. *)
Lemma inv_same_tables R s s' n disk : inv R s n disk -> lists_ok cfg s' ->
  mapping_table s' = mapping_table s -> inverse_mapping_table s' = inverse_mapping_table s ->
  block_state_table s' = block_state_table s ->
  (forall x, x ∈ listed cfg s' -> x ∈ listed cfg s) ->
  (forall e, e ∈ empties s' ->
     zlen (n_block n (phy_flash_nb e) (phy_block_nb e)) = curr_phy_page_nb e) ->
  inv R s' n disk.
Proof.
  intros [] Hl E1 E2 E3 Hx He. split; rewrite ?E1, ?E2, ?E3; try done.
  - destruct i_tables0. split; by rewrite ?E1, ?E2, ?E3.
  - intros q Hq [?|?]; eauto.
Qed.

(** So does a search that finds no page: it has left no empty block. *)
Lemma inv_no_page R s s' n disk : inv R s n disk -> new_page cfg s s' None -> inv R s' n disk.
Proof.
  intros Hi (Hl & (E1 & E2 & E3 & _) & HP & H0 & _). apply (inv_same_tables R s s'); try done.
  - intros x. by rewrite HP.
  - intros e He. rewrite (lo_te _ s' Hl) in H0. destruct (empties s'); [by inversion He|done].
Qed.

(** The page register and the requests are not part of it. *)
Lemma inv_blocks R s n n' disk : n_blocks n' = n_blocks n -> inv R s n disk -> inv R s n' disk.
Proof.
  intros E []. assert (forall f b, n_block n' f b = n_block n f b) as Eb.
  { intros f b. unfold n_block. by rewrite E. }
  assert (forall q, stored n' q = stored n q) as Es.
  { intros q. unfold stored, n_page. by rewrite Eb. }
  split; try done.
  - intros e He. rewrite Eb. auto.
  - intros q Hq. rewrite Es. auto.
  - intros lpn ppn Hm. rewrite Es. auto.
Qed.

(** ** The specification machine *)

Lemma n_block_append n f b c v f' b' :
  n_block (nand_append n f b c v) f' b' =
    if decide ((f', b') = (f, b)) then n_block n f b ++ [c] else n_block n f' b'.
Proof.
  unfold n_block, nand_append. simpl. case_decide as E.
  - injection E as -> ->. by rewrite lookup_insert_eq.
  - by rewrite lookup_insert_ne by congruence.
Qed.

Section Append.
Context (n : nand) (q : Z) (c : content) (v : Z) (Hq : 0 <= q < npages cfg).
Context (Hnext : CALC_PAGE cfg q = zlen (n_block n (CALC_FLASH cfg q) (CALC_BLOCK cfg q))).

Local Abbreviation n' := (nand_append n (CALC_FLASH cfg q) (CALC_BLOCK cfg q) c v).

Lemma stored_append : stored n' q = Some c.
Proof using Hnext.
  unfold stored, n_page. rewrite n_block_append, decide_True by done.
  rewrite Hnext, aget_nat. by rewrite list_lookup_middle.
Qed.

Lemma stored_append_ne q' : 0 <= q' < npages cfg -> q' <> q -> stored n' q' = stored n q'.
Proof using Hok Hq Hnext.
  intros Hq' Hne. unfold stored, n_page. rewrite n_block_append. case_decide as E; [|done].
  injection E as E1 E2. rewrite E1, E2. unfold aget. case_match; [|done].
  assert (CALC_PAGE cfg q' <> CALC_PAGE cfg q) as Hne'.
  { intros E3. apply Hne. rewrite <- (calc_page_id cfg Hok q Hq), <- (calc_page_id cfg Hok q' Hq').
    by rewrite E1, E2, E3. }
  destruct (decide (CALC_PAGE cfg q' < CALC_PAGE cfg q)).
  - rewrite lookup_app_l by lia. done.
  - pose proof (calc_ranges cfg Hok q Hq). rewrite !(lookup_ge_None_2 _ (Z.to_nat _)); [done|lia|].
    rewrite length_app. simpl. lia.
Qed.

End Append.

Lemma stored_fresh n q : CALC_PAGE cfg q = zlen (n_block n (CALC_FLASH cfg q) (CALC_BLOCK cfg q)) ->
  stored n q = None.
Proof.
  intros E. unfold stored, n_page. rewrite E, aget_nat. by apply lookup_ge_None_2.
Qed.

(** ** Taking and programming a page *)

(** The page that [GET_NEW_PAGE] hands out is the next one of its block. *)
Lemma new_page_addr R s s1 n disk ppn : inv R s n disk -> new_page cfg s s1 (Some ppn) ->
  0 <= ppn < npages cfg /\
  CALC_PAGE cfg ppn = zlen (n_block n (CALC_FLASH cfg ppn) (CALC_BLOCK cfg ppn)) /\
  ppn / P ∈ listed cfg s1 /\ chars s1 ppn <> Some chV.
Proof using Hok.
  intros Hi (Hl & (_ & _ & Hb & _) & HP & _ & e & He & Hc & -> & Hbump & _).
  destruct (elem_empties _ s e (i_lists _ _ _ _ Hi) He) as (Hf & Hbk & Hcp).
  assert (0 <= curr_phy_page_nb e < P) as Hp by lia.
  destruct (calc_of_page_id cfg Hok _ _ _ Hf Hbk Hp) as (E1 & E2 & E3).
  assert (CALC_PAGE cfg (page_id cfg (phy_flash_nb e) (phy_block_nb e) (curr_phy_page_nb e)) =
    zlen (n_block n (CALC_FLASH cfg (page_id cfg (phy_flash_nb e) (phy_block_nb e) (curr_phy_page_nb e)))
      (CALC_BLOCK cfg (page_id cfg (phy_flash_nb e) (phy_block_nb e) (curr_phy_page_nb e))))) as Hnext.
  { rewrite E1, E2, E3. symmetry. by apply (i_link _ _ _ _ Hi). }
  split; [by apply page_id_range|]. split; [done|]. split.
  - rewrite page_id_block by done. unfold listed. apply elem_of_app. left.
    apply list_elem_of_fmap. exists (bump e). done.
  - rewrite Hb. intros [c Hc']%(i_valid _ _ _ _ Hi). by rewrite stored_fresh in Hc'.
Qed.

Lemma inv_program R s s1 n disk ppn c v : inv R s n disk -> new_page cfg s s1 (Some ppn) ->
  inv R s1 (nand_append n (CALC_FLASH cfg ppn) (CALC_BLOCK cfg ppn) c v) disk.
Proof using Hok.
  intros Hi Hn. destruct (new_page_addr _ _ _ _ _ _ Hi Hn) as (Hr & Hnext & _ & _).
  destruct Hn as (Hl & HT & HP & _ & e & He & Hc & Ep & Hbump & Hrest).
  destruct (elem_empties _ s e (i_lists _ _ _ _ Hi) He) as (Hf & Hbk & Hcp).
  destruct (calc_of_page_id cfg Hok _ _ (curr_phy_page_nb e) Hf Hbk ltac:(lia)) as (E1 & E2 & E3).
  rewrite <- Ep in E1, E2, E3.
  set (n' := nand_append _ _ _ _ _).
  assert (forall q, chars s q = Some chV -> stored n' q = stored n q) as Hst.
  { intros q Hq. apply stored_append_ne; [done..| |].
    + by apply (chars_range s q chV); [apply (i_tables _ _ _ _ Hi)|].
    + intros ->. apply (i_valid _ _ _ _ Hi) in Hq as [x Hx]. by rewrite stored_fresh in Hx. }
  destruct Hi. destruct HT as (T1 & T2 & T3 & _). split; rewrite ?T1, ?T2, ?T3; try done.
  - destruct i_tables0. split; by rewrite ?T1, ?T2, ?T3.
  - intros e' [->|[He' Hne]]%Hrest; simpl; unfold n'; rewrite E1, E2, n_block_append.
    + rewrite decide_True, zlen_app by done. simpl. by rewrite i_link0.
    + rewrite decide_False; [auto|]. intros [= Ea Eb]. apply Hne. unfold e_id. by rewrite Ea, Eb.
  - intros q Hq. rewrite Hst by done. auto.
  - intros q. rewrite HP. auto.
  - intros lpn q Hq. rewrite (i_data0 _ _ Hq). destruct (Z.eqb_spec q (-1)); [done|].
    symmetry. apply Hst. by apply (i_map0 lpn).
Qed.

(** ** The table updates *)

Lemma update_inverse s q lpn : tables_ok cfg s -> 0 <= q < npages cfg ->
  wp (UPDATE_INVERSE_MAPPING q lpn)
     (fun _ s' => exists t, s' = set_inverse_mapping_table t s /\ tables_ok cfg s' /\
        forall q', aget t q' = if decide (q' = q) then Some lpn else aget (inverse_mapping_table s) q') s.
Proof.
  intros Ht Hq. unfold UPDATE_INVERSE_MAPPING, wr.
  destruct (aset_range (inverse_mapping_table s) q lpn) as [t Hs].
  { by rewrite (t_inverse _ s Ht). }
  wp_go. exists t. split; [done|]. split.
  - destruct Ht. split; try done. simpl. by rewrite (aset_length _ _ _ _ Hs).
  - intros q'. by apply aget_aset.
Qed.

Lemma tables_ok_mapping s t : tables_ok cfg s -> length t = length (mapping_table s) ->
  tables_ok cfg (set_mapping_table t s).
Proof. intros [] E. split; try done. simpl. by rewrite E. Qed.

(** [UPDATE_OLD_PAGE_MAPPING]: the page the logical page was at is invalid and
    belongs to no logical page; nothing else changes. *)
Lemma update_old s lpn old : tables_ok cfg s -> aget (mapping_table s) lpn = Some old ->
  old = -1 \/ 0 <= old < npages cfg ->
  wp (UPDATE_OLD_PAGE_MAPPING cfg lpn)
     (fun r s' => r = SUCCESS /\ tables_ok cfg s' /\ same_lists s s' /\
        mapping_table s' = mapping_table s /\
        (forall q, q <> old -> chars s' q = chars s q /\
           aget (inverse_mapping_table s') q = aget (inverse_mapping_table s) q) /\
        (old <> -1 -> chars s' old = Some chI /\ aget (inverse_mapping_table s') old = Some (-1))) s.
Proof using Hok.
  intros Ht Hm Ho. unfold UPDATE_OLD_PAGE_MAPPING, GET_MAPPING_INFO, rd. wp_go.
  destruct (Z.eqb_spec old (-1)) as [E|E]; [wp_go; done|].
  destruct Ho as [?|Ho]; [done|]. destruct (calc_ranges cfg Hok old Ho) as (? & ? & ?).
  apply wp_bind. eapply wp_mono; [apply (update_block_state_entry cfg Hok); [done..|auto]|].
  intros _ s1 (_ & t1 & -> & Ht1 & Hc1). rewrite (calc_page_id cfg Hok old Ho) in Hc1. apply wp_bind.
  eapply wp_mono; [by apply update_inverse|]. intros _ s2 (t2 & -> & Ht2 & Hi2). wp_go.
  do 4 (split; [done|]). simpl. split.
  - intros q Hq. by rewrite Hc1, Hi2, !decide_False.
  - intros _. by rewrite Hc1, Hi2, !decide_True.
Qed.

(** [UPDATE_NEW_PAGE_MAPPING]: the logical page is at [ppn], which is valid. *)
Lemma update_new s lpn ppn : tables_ok cfg s -> 0 <= lpn < npages cfg -> 0 <= ppn < npages cfg ->
  wp (UPDATE_NEW_PAGE_MAPPING cfg lpn ppn)
     (fun r s' => r = SUCCESS /\ tables_ok cfg s' /\ same_lists s s' /\
        (forall j, aget (mapping_table s') j = if decide (j = lpn) then Some ppn else aget (mapping_table s) j) /\
        (forall q, chars s' q = if decide (q = ppn) then Some chV else chars s q) /\
        (forall q, aget (inverse_mapping_table s') q =
           if decide (q = ppn) then Some lpn else aget (inverse_mapping_table s) q)) s.
Proof using Hok.
  intros Ht Hl Hp. destruct (calc_ranges cfg Hok ppn Hp) as (? & ? & ?).
  unfold UPDATE_NEW_PAGE_MAPPING, wr.
  destruct (aset_range (mapping_table s) lpn ppn) as [m Hm]; [by rewrite (t_mapping _ s Ht)|].
  wp_go. apply (tables_ok_mapping s m) in Ht as Ht0; [|by eapply aset_length].
  eapply wp_mono; [apply (update_block_state_entry cfg Hok); [done..|auto]|].
  intros _ s1 (_ & t1 & -> & Ht1 & Hc1). rewrite (calc_page_id cfg Hok ppn Hp) in Hc1. apply wp_bind.
  eapply wp_mono; [by apply (update_block_type cfg Hok)|].
  intros _ s2 (t2 & -> & Ht2 & Hc2). apply wp_bind.
  eapply wp_mono; [by apply update_inverse|]. intros _ s3 (t3 & -> & Ht3 & Hi3). wp_go.
  do 3 (split; [done|]). simpl in *. split; [|split; [|done]].
  - intros j. by apply aget_aset.
  - intros q. rewrite Hc2. simpl. by rewrite Hc1.
Qed.

(** A mapped page is a page of the drive. *)
Lemma mapped_range R s n disk lpn ppn : inv R s n disk -> aget (mapping_table s) lpn = Some ppn ->
  ppn = -1 \/ 0 <= ppn < npages cfg.
Proof using Hok.
  intros Hi Hm. destruct (decide (ppn = -1)) as [|Hne]; [by left|right].
  destruct (i_map _ _ _ _ Hi _ _ Hm Hne) as [Hc _].
  by apply (chars_range s ppn chV); [apply (i_tables _ _ _ _ Hi)|].
Qed.

(** The writer's step: the logical page moves to the page just programmed. *)
Lemma inv_remap R s n disk lpn ppn c : inv R s n disk -> 0 <= lpn < npages cfg ->
  0 <= ppn < npages cfg -> chars s ppn <> Some chV -> stored n ppn = Some c ->
  wp (UPDATE_OLD_PAGE_MAPPING cfg lpn ;; UPDATE_NEW_PAGE_MAPPING cfg lpn ppn)
     (fun _ s' => inv R s' n (<[lpn := c]> disk) /\ same_lists s s') s.
Proof using Hok.
  intros Hi Hl Hp Hnv Hc. pose proof (i_tables _ _ _ _ Hi) as Ht.
  destruct (aget_range (mapping_table s) lpn) as [old Hold]; [by rewrite (t_mapping _ s Ht)|].
  pose proof (mapped_range _ _ _ _ _ _ Hi Hold) as Hor.
  assert (ppn <> -1) as Hp1 by lia.
  apply wp_bind. eapply wp_mono; [by apply update_old|].
  intros _ s1 (_ & Ht1 & Hs1 & Hm1 & Hne1 & Hold1).
  eapply wp_mono; [by apply update_new|]. intros _ s2 (_ & Ht2 & Hs2 & Hm2 & Hc2 & Hi2).
  pose proof (same_lists_trans _ _ _ Hs1 Hs2) as Hss.
  assert (forall q, chars s2 q = Some chV -> q = ppn \/ (q <> ppn /\ q <> old /\ chars s q = Some chV)) as HV.
  { intros q. rewrite Hc2. case_decide as E; [by left|]. intros HVq. right. split; [done|].
    destruct (decide (q = old)) as [->|Hqo].
    - destruct (decide (old = -1)) as [->|Hno].
      + apply chars_range in HVq; [lia|done].
      + destruct (Hold1 Hno) as [HI _]. by rewrite HI in HVq.
    - split; [done|]. by rewrite <- (proj1 (Hne1 q Hqo)). }
  split; [|done]. destruct Hi. split.
  - done.
  - by apply (same_lists_ok s).
  - rewrite (same_lists_empties _ _ Hss). done.
  - intros q [->|(_ & _ & ?)]%HV; eauto.
  - intros l q. rewrite Hm2, Hm1, Hi2, Hc2. case_decide as E.
    + intros [= <-] _. subst l. by rewrite !decide_True.
    + intros Hlq Hq. destruct (i_map0 l q Hlq Hq) as [HVq Hiq].
      assert (q <> ppn) by congruence. assert (q <> old).
      { intros ->. destruct (i_map0 lpn old Hold Hq). congruence. }
      rewrite !decide_False by done. by destruct (Hne1 q) as [-> ->].
  - intros q HVq. rewrite (same_lists_listed _ _ Hss). intros Hlist. rewrite Hi2.
    apply HV in HVq as [->|(Hq1 & Hq2 & HVq)].
    + exists lpn. rewrite Hm2. by rewrite !decide_True.
    + destruct (i_inv0 q HVq Hlist) as (l & Hil & Hml). exists l.
      rewrite decide_False by done. rewrite (proj2 (Hne1 q Hq2)). split; [done|].
      rewrite Hm2, decide_False, Hm1; [done|]. congruence.
  - intros l q. rewrite Hm2, Hm1. case_decide as E.
    + intros [= <-]. subst l. rewrite lookup_insert_eq. destruct (Z.eqb_spec ppn (-1)); [lia|done].
    + intros Hlq. rewrite lookup_insert_ne by done. by apply i_data0.
Qed.

(** The collector's step: page [old] is copied to [ppn]; it stays marked valid
    until its block is erased. *)
Lemma inv_copy (R R' : Z -> Prop) s n disk old lpn ppn c : inv R s n disk ->
  (forall q, R' q -> R q /\ q <> old) -> old / P ∉ listed cfg s -> R old ->
  chars s old = Some chV -> aget (inverse_mapping_table s) old = Some lpn ->
  0 <= ppn < npages cfg -> chars s ppn <> Some chV ->
  stored n old = Some c -> stored n ppn = Some c ->
  wp (UPDATE_NEW_PAGE_MAPPING cfg lpn ppn)
     (fun _ s' => inv R' s' n disk /\ same_lists s s' /\
        (forall j, aget (mapping_table s') j = if decide (j = lpn) then Some ppn else aget (mapping_table s) j) /\
        (forall q, q <> ppn -> chars s' q = chars s q)) s.
Proof using Hok.
  intros Hi HR Hnl HRo HVo Hio Hp Hnv Hco Hcp. pose proof (i_tables _ _ _ _ Hi) as Ht.
  destruct (i_inv _ _ _ _ Hi old HVo (or_intror HRo)) as (lpn' & Hio' & Hml).
  assert (lpn' = lpn) as -> by congruence.
  assert (0 <= lpn < npages cfg) as Hl.
  { apply aget_Some_range in Hml. by rewrite (t_mapping _ s Ht) in Hml. }
  assert (0 <= old < npages cfg) as Hor by by eapply chars_range.
  eapply wp_mono; [by apply update_new|]. intros _ s2 (_ & Ht2 & Hss & Hm2 & Hc2 & Hi2).
  split; [|split; [done|]]; [|split; [done|]; intros q Hq; rewrite Hc2; by case_decide].
  destruct Hi. split.
  - done.
  - by apply (same_lists_ok s).
  - rewrite (same_lists_empties _ _ Hss). done.
  - intros q. rewrite Hc2. case_decide as E; [subst; eauto|eauto].
  - intros l q. rewrite Hm2, Hi2, Hc2. case_decide as E.
    + intros [= <-] _. subst l. by rewrite !decide_True.
    + intros Hlq Hq. destruct (i_map0 l q Hlq Hq) as [HVq Hiq].
      assert (q <> ppn) by congruence. by rewrite !decide_False.
  - intros q. rewrite (same_lists_listed _ _ Hss), Hc2, Hi2. case_decide as E.
    + intros _ _. exists lpn. by rewrite Hm2, decide_True, E.
    + intros HVq Hlist. assert (q <> old) as Hqo.
      { destruct Hlist as [Hq|Hq]; [congruence|by apply HR]. }
      destruct (i_inv0 q HVq) as (l & Hil & Hlq).
      { destruct Hlist as [?|Hq]; [by left|right; by apply HR]. }
      exists l. split; [done|]. rewrite Hm2, decide_False; [done|]. congruence.
  - intros l q. rewrite Hm2. case_decide as E.
    + intros [= <-]. subst l. rewrite (i_data0 _ _ Hml).
      destruct (Z.eqb_spec old (-1)); [lia|]. destruct (Z.eqb_spec ppn (-1)); [lia|]. congruence.
    + intros Hlq. by apply i_data0.
Qed.

End Inv.
