(* ===== verification/Collect.v ===== *)
(** * The collector preserves the data

    For every device that obeys [DeviceLaws], a round of garbage collection
    returns, keeps the invariant and the data of every logical page, and only
    fails when there is nothing to collect or no page left to copy to.  The
    theorems on the collector are for one plane per flash, the configuration
    that [VICTIM_INCHIP] handles. *)

From stdpp Require Import prelude gmap.
From Stdlib Require Import Ascii.
From S2P Require Import Prelude Config Blocks Mapping Device Gc Tables Lists Victims Inv.

Local Open Scope Z_scope.

Section Collect.
Context (cfg : config) (Hok : cfg_ok cfg) (HL : PLANES_PER_FLASH cfg = 1).
Context {D : Device} {DL : DeviceLaws cfg D}.

Local Abbreviation P := (PAGE_NB cfg).
Local Abbreviation B := (BLOCK_NB cfg).
Local Abbreviation F := (FLASH_NB cfg).
Local Abbreviation chars s := (page_char cfg (block_state_table s)).
Local Abbreviation none := (fun _ : Z => False).

(** ** Addresses on the specification machine *)

Lemma addr_ok_true f b p : 0 <= f < F -> 0 <= b < B -> 0 <= p < P -> addr_ok cfg f b p = true.
Proof.
  intros ? ? ?. unfold addr_ok. repeat (apply andb_true_intro; split); lia.
Qed.

Lemma calc_addr_ok q : 0 <= q < npages cfg ->
  addr_ok cfg (CALC_FLASH cfg q) (CALC_BLOCK cfg q) (CALC_PAGE cfg q) = true.
Proof using Hok.
  intros Hq. destruct (calc_ranges cfg Hok q Hq) as (? & ? & ?). by apply addr_ok_true.
Qed.

Lemma same_host_refl n : same_host n n.
Proof. done. Qed.

Lemma same_host_trans n1 n2 n3 : same_host n1 n2 -> same_host n2 n3 -> same_host n1 n3.
Proof. unfold same_host. intros (?&?&?&?&?) (?&?&?&?&?). split_and!; congruence. Qed.

Lemma logged_refl n : logged [] n n.
Proof. unfold logged. by rewrite app_nil_r. Qed.

Lemma logged_after n1 n2 n3 es : same_host n1 n2 -> logged es n2 n3 -> logged es n1 n3.
Proof. unfold same_host, logged. intros (?&?&?&?&?) (?&?&?&?&?). split_and!; congruence. Qed.

Lemma logged_trans n1 n2 n3 es es' : logged es n1 n2 -> logged es' n2 n3 -> logged (es ++ es') n1 n3.
Proof. unfold logged. rewrite (assoc_L app). intros (?&?&?&?&E) (?&?&?&?&?). rewrite <- E. split_and!; congruence. Qed.

(** ** Taking a victim out of the lists *)

Lemma inv_selected s s' n disk f b : inv cfg none s n disk -> selected cfg s s' (Some (f, b)) ->
  inv cfg (fun q => q / P = block_id cfg f b) s' n disk /\
  (block_id cfg f b ∉ listed cfg s') /\ 0 <= f < F /\ 0 <= b < B.
Proof.
  intros Hi (Hl & He & Hm & Hv & Hb & _ & Pv & _). pose proof (i_lists _ _ _ _ _ Hi) as Hls.
  assert (VBE f b ∈ victims s) as Hin by (rewrite Pv; left).
  destruct (elem_victims cfg s _ Hls Hin) as [Hf Hbk]. simpl in Hf, Hbk.
  assert (listed cfg s ≡ₚ block_id cfg f b :: listed cfg s') as Pl.
  { unfold listed. rewrite He, Pv. simpl. symmetry. apply Permutation_middle. }
  pose proof (lo_nodup _ s Hls) as Hnd. rewrite Pl in Hnd. apply NoDup_cons in Hnd as [Hnot _].
  split; [|done]. destruct Hi. split; rewrite ?Hm, ?Hv, ?Hb; try done.
  - destruct i_tables. split; by rewrite ?Hm, ?Hv, ?Hb.
  - by rewrite He.
  - intros q Hq Hor. apply i_inv; [done|]. left. rewrite Pl.
    destruct Hor as [?|?]; [by right|]. apply elem_of_cons. auto.
Qed.

(** ** The copy loop *)

(** The pages of block [vid] from [i] on are still to be copied, and no logical
    page is left on the ones before; its valid array [va] does not change. *)
Definition copying (vid i : Z) (va : list ascii) (s : ftl) (n : nand) (disk : gmap Z content) : Prop :=
  inv cfg (fun q => q / P = vid /\ i <= q mod P) s n disk /\ (vid ∉ listed cfg s) /\
  (forall q, q / P = vid -> chars s q = aget va (q mod P)) /\
  (forall lpn ppn, aget (mapping_table s) lpn = Some ppn -> ppn / P = vid -> i <= ppn mod P).

Lemma split_page q vid i : q / P = vid -> q mod P = i -> q = vid * P + i.
Proof using Hok. intros <- <-. pose proof (Z.div_mod q P). pose proof (ok_page _ Hok). lia. Qed.

(** A page that is not valid needs no copy. *)
Lemma copying_skip vid i va s n disk : 0 <= vid -> 0 <= i < P ->
  copying vid i va s n disk -> aget va i <> Some chV -> copying vid (i + 1) va s n disk.
Proof using Hok.
  intros Hv Hr (Hi & Hnl & Hva & Hmap) Hnv. split; [|split; [done|split; [done|]]].
  - eapply inv_weaken; [|exact Hi]. simpl. intros q [? ?]. lia.
  - intros lpn ppn Hm Hd. pose proof (Hmap lpn ppn Hm Hd) as Hle.
    destruct (decide (ppn mod P = i)) as [E|]; [|lia].
    assert (ppn <> -1) as Hne.
    { intros ->. pose proof (split_page _ _ _ Hd E). nia. }
    destruct (i_map _ _ _ _ _ Hi lpn ppn Hm Hne) as [HV _]. rewrite (Hva _ Hd), E in HV. done.
Qed.

(** The device copies a page: read into the register, program from it. *)
Lemma copy_on_device R s s1 n d disk f b i old ppn :
  inv cfg R s n disk -> new_page cfg s s1 (Some ppn) -> dev_rel n d ->
  0 <= f < F -> 0 <= b < B -> 0 <= i < P -> old = page_id cfg f b i -> chars s old = Some chV ->
  wp (ssd_page_read f b i i GC_READ (-1) ;;
      ssd_page_write (CALC_FLASH cfg ppn) (CALC_BLOCK cfg ppn) (CALC_PAGE cfg ppn) i GC_WRITE (-1))
     (fun _ d' => exists n' c, dev_rel n' d' /\ same_host n n' /\ inv cfg R s1 n' disk /\
        stored cfg n' old = Some c /\ stored cfg n' ppn = Some c) d.
Proof using Hok.
  intros Hi Hn HR Hf Hb Hp Eo HV. destruct (i_valid _ _ _ _ _ Hi old HV) as [c Hc].
  assert (old <> ppn) as Hne.
  { intros ->. destruct (new_page_addr cfg Hok _ _ _ _ _ _ Hi Hn) as (_ & _ & _ & Hnv).
    destruct Hn as (_ & (_ & _ & Eb & _) & _). rewrite Eb in Hnv. done. }
  assert (n_page n f b i = Some c) as Hpg.
  { destruct (calc_of_page_id cfg Hok f b i Hf Hb Hp) as (E1 & E2 & E3).
    rewrite <- Hc. unfold stored. by rewrite Eo, E1, E2, E3. }
  set (n1 := Nand (n_blocks n) c (n_version n) (n_request n) (n_seq n) (n_out n) (n_log n)).
  assert (inv cfg R s n1 disk) as Hi1 by by apply (inv_blocks cfg R s n).
  destruct (new_page_addr cfg Hok _ _ _ _ _ _ Hi1 Hn) as (Hr & Hnext & _ & _).
  apply wp_bind. eapply wp_refines; [apply read_law|exact HR| |].
  { unfold nand_read. rewrite addr_ok_true by done. unfold offset_ok.
    rewrite orb_true_r. simpl. rewrite Hpg. done. }
  intros d1 HR1. fold n1 in HR1. eapply wp_refines; [apply write_law|exact HR1| |].
  { unfold nand_write. rewrite calc_addr_ok by done. unfold offset_ok.
    rewrite orb_true_r, <- Hnext, Z.eqb_refl. simpl. done. }
  intros d2 HR2. eexists _, c. split; [exact HR2|]. split; [done|].
  split; [by apply (inv_program cfg Hok R s)|]. split; [|by apply stored_append].
  rewrite (stored_append_ne cfg Hok); [done|done|done| |done].
  rewrite Eo. by apply page_id_range.
Qed.

(** One valid page is copied. *)
Lemma copying_step {A} (k : M (ftl * dev) A) Q f b i va s s1 n d disk ppn :
  copying (block_id cfg f b) i va s n disk -> new_page cfg s s1 (Some ppn) -> dev_rel n d ->
  0 <= f < F -> 0 <= b < B -> 0 <= i < P -> aget va i = Some chV ->
  (forall s' d' n', dev_rel n' d' -> same_host n n' -> same_lists s1 s' ->
     copying (block_id cfg f b) (i + 1) va s' n' disk -> wp k Q (s', d')) ->
  wp (on_snd (ssd_page_read f b i i GC_READ (-1)) ;;
      on_snd (ssd_page_write (CALC_FLASH cfg ppn) (CALC_BLOCK cfg ppn) (CALC_PAGE cfg ppn) i GC_WRITE (-1)) ;;
      let old_ppn := i32 (f * PAGES_PER_FLASH cfg + b * P + i) in
      lpn ← on_fst (GET_INVERSE_MAPPING_INFO old_ppn);
      on_fst (UPDATE_NEW_PAGE_MAPPING cfg lpn ppn) ;; k) Q (s1, d).
Proof using Hok.
  intros (Hi & Hnl & Hva & Hmap) Hn HR Hf Hb Hp HV Hk.
  set (vid := block_id cfg f b) in *. set (old := page_id cfg f b i).
  assert (old / P = vid /\ old mod P = i) as [Eq Em].
  { unfold old. by rewrite page_id_block, page_id_page by done. }
  assert (chars s old = Some chV) as HVo by by rewrite (Hva old Eq), Em.
  destruct (new_page_addr cfg Hok _ _ _ _ _ _ Hi Hn) as (Hr & _ & Hlist & Hnv).
  assert (0 <= old < npages cfg) as Hor by by apply page_id_range.
  assert (i32 (f * PAGES_PER_FLASH cfg + b * P + i) = old) as Eold.
  { rewrite (ok_ppf _ Hok), i32_id; unfold old, page_id, block_id, npages in *; [ring|].
    pose proof (ok_pages Hok). lia. }
  pose proof (copy_on_device _ _ _ _ _ _ f b i old ppn Hi Hn HR Hf Hb Hp eq_refl HVo) as Hdev.
  apply wp_bind_inv in Hdev. apply wp_bind, wp_on_snd. eapply wp_mono; [exact Hdev|].
  intros x d1 Hd1. apply wp_bind, wp_on_snd. eapply wp_mono; [exact Hd1|].
  intros _ d2 (n' & c & HR' & Hh & Hi' & Hco & Hcp). cbv zeta. rewrite Eold.
  destruct Hn as (Hl1 & (Em1 & Ei1 & Eb1 & _) & HP1 & _).
  assert (vid ∉ listed cfg s1) as Hnl1 by by rewrite HP1.
  rewrite <- Eb1 in HVo.
  destruct (i_inv _ _ _ _ _ Hi' old HVo) as (lpn & Hilpn & Hmlpn); [right; lia|].
  unfold GET_INVERSE_MAPPING_INFO, rd. wp_go.
  eapply wp_mono; [apply (inv_copy cfg Hok (fun q => q / P = vid /\ i <= q mod P)
    (fun q => q / P = vid /\ i + 1 <= q mod P) s1 n' disk old lpn ppn c); try done|].
  - intros q [? ?]. split; [lia|]. intros ->. lia.
  - by rewrite Eq.
  - lia.
  - intros _ s2 (Hi2 & Hss & Hm2 & Hc2). apply (Hk s2 d2 n'); [done|done|done|].
    assert (forall q, q / P = vid -> q <> ppn) as Hqp by (intros q Hq ->; congruence).
    split; [done|]. simpl. split; [by rewrite (same_lists_listed _ _ _ Hss)|]. split.
    + intros q Hq. rewrite (Hc2 q) by auto. rewrite Eb1. auto.
    + intros l q. rewrite Hm2. case_decide as E; [intros [= <-] ?; by destruct (Hqp ppn)|].
      intros Hlq Hq. pose proof Hlq as Hlq'. rewrite Em1 in Hlq. pose proof (Hmap l q Hlq Hq).
      destruct (decide (q mod P = i)) as [Eqm|]; [|lia]. exfalso. apply E.
      assert (q = old) as ->.
      { rewrite (split_page q vid i Hq Eqm), (split_page old vid i Eq Em). done. }
      destruct (i_map _ _ _ _ _ Hi' l old Hlq'); [lia|]. congruence.
Qed.

Lemma count_valid_nonneg l : 0 <= count_valid l.
Proof. induction l as [|c l IH]; simpl; [lia|]. case_match; lia. Qed.

(** The loop returns; it stops early only when there are fewer free pages than
    pages to copy. *)
Lemma gc_copy_pages_spec f b mi va disk : 0 <= f < F -> 0 <= b < B -> 0 <= mi < F * PLANES_PER_FLASH cfg ->
  zlen va = P -> forall k i copy s d n, i + Z.of_nat k = P -> 0 <= copy <= i ->
  copying (block_id cfg f b) i va s n disk -> dev_rel n d ->
  wp (gc_copy_pages cfg k i f b mi copy)
     (fun r w => exists n', dev_rel n' (snd w) /\ same_host n n' /\
        match r with
        | None => inv cfg none (fst w) n' disk /\ free_pages cfg s < count_valid (drop (Z.to_nat i) va)
        | Some c => copying (block_id cfg f b) P va (fst w) n' disk /\
                    c = copy + count_valid (drop (Z.to_nat i) va) /\
                    free_pages cfg (fst w) = free_pages cfg s - (c - copy) /\
                    listed cfg (fst w) ≡ₚ listed cfg s
        end) (s, d).
Proof using Hok HL.
  intros Hf Hb Hmi Hva. induction k as [|k IH]; intros i copy s d n Hk Hc Hcp HR; simpl.
  { wp_go. exists n. split; [done|]. split; [done|]. replace i with P in * by lia. split; [done|].
    rewrite drop_ge by lia. simpl. split; [lia|]. split; [lia|done]. }
  assert (0 <= i < P) as Hp by lia. pose proof (block_id_range cfg Hok f b Hf Hb) as Hvid.
  pose proof Hcp as (Hi & _ & Hvac & _). pose proof (i_tables _ _ _ _ _ Hi) as Ht.
  rewrite (entry_index cfg Hok) by done.
  destruct (aget_range (block_state_table s) (block_id cfg f b)) as [e He]; [by rewrite (t_blocks _ s Ht)|].
  destruct (aget_range va i) as [c Hci]; [lia|].
  assert (aget (valid_array e) i = Some c) as Hei.
  { rewrite <- Hci. specialize (Hvac (page_id cfg f b i)).
    rewrite page_id_block, page_id_page in Hvac by done. rewrite <- (Hvac eq_refl).
    unfold page_char. rewrite page_id_block, page_id_page by done. by rewrite He. }
  assert (count_valid (drop (Z.to_nat i) va) =
    (if Ascii.eqb c chV then 1 else 0) + count_valid (drop (Z.to_nat (i + 1)) va)) as Hcnt.
  { unfold aget in Hci. destruct (Z.leb_spec 0 i); [|lia].
    rewrite (drop_S va c (Z.to_nat i) Hci). simpl. by replace (S (Z.to_nat i)) with (Z.to_nat (i + 1)) by lia. }
  pose proof (count_valid_nonneg (drop (Z.to_nat (i + 1)) va)) as Hnn.
  unfold rd. wp_go. destruct (Ascii.eqb_spec c chV) as [->|Hnv].
  - apply wp_bind, wp_on_fst. eapply wp_mono.
    { apply (get_new_page cfg Hok); [apply (i_lists _ _ _ _ _ Hi)|right; left; auto]. }
    intros [ppn|] s1 Hn.
    + pose proof Hn as (_ & _ & HPn & Hfr & _).
      eapply copying_step; try done. intros s2 d2 n2 HR2 Hh2 Hsl2 Hc2.
      rewrite <- (same_lists_free cfg _ _ Hsl2) in Hfr. rewrite <- (same_lists_listed cfg _ _ Hsl2) in HPn.
      pose proof (ok_page_lt Hok) as (HP & _ & _). rewrite i32_id by lia.
      eapply wp_mono; [apply (IH (i + 1) (copy + 1) s2 d2 n2); [lia|lia|done|done]|].
      intros r [s3 d3] (n3 & HR3 & Hh3 & H3). exists n3. split; [done|].
      split; [by eapply same_host_trans|]. rewrite Hcnt. simpl in H3 |- *. destruct r as [c|].
      * destruct H3 as (? & -> & -> & HP3). split; [done|]. split; [lia|]. split; [lia|]. by rewrite HP3.
      * destruct H3 as [? ?]. split; [done|]. lia.
    + wp_go. exists n. split; [done|]. split; [done|]. rewrite Hcnt.
      pose proof Hn as (_ & _ & _ & _ & Hf0 & _). simpl. split; [|lia].
      eapply inv_weaken; [|by eapply inv_no_page]. done.
  - eapply wp_mono; [apply (IH (i + 1) copy s d n); [lia|lia| |done]|].
    { apply copying_skip; [lia|done|done|]. rewrite Hci. congruence. }
    intros r [s3 d3] (n3 & HR3 & Hh3 & H3). exists n3. split; [done|]. split; [done|].
    rewrite Hcnt. simpl in H3 |- *. destruct r as [c'|].
    + destruct H3 as (? & -> & -> & ?). split; [done|]. split; [lia|]. split; [lia|done].
    + destruct H3 as [? ?]. split; [done|]. lia.
Qed.

(** ** Erasing the victim *)

Lemma n_block_erase n f b f' b' v r k o g : n_block (Nand (<[(f, b) := []]> (n_blocks n)) (n_buffer n) v r k o g) f' b' =
  if decide ((f', b') = (f, b)) then [] else n_block n f' b'.
Proof.
  unfold n_block. simpl. case_decide as E.
  - injection E as -> ->. by rewrite lookup_insert_eq.
  - by rewrite lookup_insert_ne by congruence.
Qed.

Lemma inv_erase (R : Z -> Prop) s n disk f b : inv cfg R s n disk ->
  0 <= f < F -> 0 <= b < B -> block_id cfg f b ∉ listed cfg s ->
  (forall lpn ppn, aget (mapping_table s) lpn = Some ppn -> ppn / P <> block_id cfg f b) ->
  wp (UPDATE_BLOCK_STATE cfg f b EMPTY_BLOCK ;; INSERT_EMPTY_BLOCK cfg f b)
     (fun _ s' => inv cfg none s' (Nand (<[(f, b) := []]> (n_blocks n)) (n_buffer n) (n_version n)
                                       (n_request n) (n_seq n) (n_out n) (n_log n)) disk /\
        free_pages cfg s' = free_pages cfg s + P /\
        listed cfg s' ≡ₚ block_id cfg f b :: listed cfg s) s.
Proof using Hok.
  intros Hi Hf Hb Hnl Hmap. pose proof (i_tables _ _ _ _ _ Hi) as Ht.
  apply wp_bind. eapply wp_mono; [by apply (update_block_empty cfg Hok)|].
  intros _ s1 (t & -> & Ht1 & Hc1). set (s1 := set_block_state_table t s) in *.
  assert (lists_ok cfg s1) as Hl1 by by apply (same_lists_ok cfg s); [|apply (i_lists _ _ _ _ _ Hi)].
  eapply wp_mono; [by apply (insert_empty_block cfg Hok)|].
  intros _ s2 (Hl2 & (E1 & E2 & E3 & _) & Pe & Ev). set (n' := Nand _ _ _ _ _ _ _).
  assert (forall q, chars s2 q = Some chV -> chars s q = Some chV /\ q / P <> block_id cfg f b) as HV.
  { intros q. rewrite E3. unfold s1. simpl. rewrite Hc1. by case_decide. }
  assert (forall q, 0 <= q < npages cfg -> q / P <> block_id cfg f b -> stored cfg n' q = stored cfg n q) as Hst.
  { intros q Hq Hne. unfold stored, n_page, n'. rewrite n_block_erase, decide_False; [done|].
    intros [= E4 E5]. apply Hne. by rewrite <- (calc_block_id cfg Hok q Hq), E4, E5. }
  split; last first.
  { unfold free_pages, listed. rewrite Pe, Ev. simpl. split; [|done]. change (empties s1) with (empties s). lia. }
  destruct Hi. split; rewrite ?E1, ?E2; try done.
  - destruct Ht1. split; by rewrite ?E1, ?E2, ?E3.
  - intros e. rewrite Pe. intros [->|He]%elem_of_cons; simpl; unfold n'; rewrite n_block_erase.
    + by rewrite decide_True.
    + rewrite decide_False; [auto|]. intros [= E4 E5]. apply Hnl. unfold listed. apply elem_of_app. left.
      apply list_elem_of_fmap. exists e. unfold e_id. by rewrite E4, E5.
  - intros q [Hq Hne]%HV. rewrite Hst; [auto| |done]. by apply (chars_range cfg Hok s _ chV).
  - intros lpn ppn Hm Hne. destruct (i_map lpn ppn Hm Hne) as [HVp Hip]. split; [|done].
    rewrite E3. unfold s1. simpl. rewrite Hc1, decide_False; [done|]. by apply (Hmap lpn).
  - intros q [Hq Hne]%HV [Hin|[]]. apply i_inv; [done|]. left. unfold listed in Hin |- *.
    rewrite Pe, Ev in Hin. apply elem_of_cons in Hin as [?|?]; done.
  - intros lpn ppn Hm. rewrite (i_data _ _ Hm). destruct (Z.eqb_spec ppn (-1)); [done|].
    rewrite Hst; [done| |by apply (Hmap lpn)]. destruct (i_map lpn ppn Hm); [done|]. by apply (chars_range cfg Hok s _ chV).
Qed.

(** ** [GARBAGE_COLLECTION] and [GC_CHECK] *)

(** The valid array of a block from the states of its pages. *)
Lemma valid_array_chars s f b e va : tables_ok cfg s -> 0 <= f < F -> 0 <= b < B ->
  aget (block_state_table s) (block_id cfg f b) = Some e -> zlen va = P ->
  (forall q, q / P = block_id cfg f b -> chars s q = aget va (q mod P)) -> valid_array e = va.
Proof using Hok.
  intros Ht Hf Hb He Hl Hq. destruct (t_entry _ s Ht _ _ He) as [Hle _].
  apply list_eq. intros i. destruct (decide (Z.of_nat i < P)).
  - specialize (Hq (page_id cfg f b (Z.of_nat i))). rewrite page_id_block, page_id_page in Hq by (done || lia).
    rewrite <- !aget_nat, <- Hq by done. unfold page_char.
    rewrite page_id_block, page_id_page by (done || lia). by rewrite He.
  - rewrite !(lookup_ge_None_2 _ i) by lia. done.
Qed.

(** What the collector leaves of the host's part, and the rounds it logs. *)
Definition collected (es : list event) (n : nand) (disk : gmap Z content) (w : ftl * dev) : Prop :=
  exists n', dev_rel n' (snd w) /\ logged es n n' /\ inv cfg none (fst w) n' disk.

(** The end of a round: all valid pages are copied, the victim is erased and
    joins the empty blocks. *)
Lemma finish_gc f b s d n disk va c : 0 <= f < F -> 0 <= b < B -> zlen va = P ->
  copying (block_id cfg f b) P va s n disk -> dev_rel n d -> c = count_valid va ->
  wp (b_s_entry ← on_fst (rd block_state_table (GET_BLOCK_STATE_ENTRY cfg f b));
      if negb (c =? valid_page_nb b_s_entry) then mret FAIL
      else
        on_snd (ssd_block_erase f b) ;;
        on_fst (UPDATE_BLOCK_STATE cfg f b EMPTY_BLOCK) ;;
        on_fst (INSERT_EMPTY_BLOCK cfg f b) ;;
        on_fst (modify (fun s => set_gc_count (u32 (gc_count s + 1)) s)) ;;
        on_snd (write_log (Collected c)) ;;
        mret SUCCESS)
     (fun r w => r = SUCCESS /\ collected [Collected c] n disk w /\
        free_pages cfg (fst w) = free_pages cfg s + P /\
        listed cfg (fst w) ≡ₚ block_id cfg f b :: listed cfg s) (s, d).
Proof using Hok.
  intros Hf Hb Hva (Hi & Hnl & Hvac & Hmap) HR Hc. pose proof (i_tables _ _ _ _ _ Hi) as Ht.
  pose proof (block_id_range cfg Hok f b Hf Hb) as Hvid. pose proof (ok_page _ Hok).
  rewrite (entry_index cfg Hok) by done.
  destruct (aget_range (block_state_table s) (block_id cfg f b)) as [e He]; [by rewrite (t_blocks _ s Ht)|].
  destruct (t_entry _ s Ht _ _ He) as [_ Hcnt].
  rewrite (valid_array_chars s f b e va) in Hcnt by done.
  unfold rd. wp_go. rewrite Hcnt, <- Hc, Z.eqb_refl. simpl. wp_go.
  eapply wp_refines; [apply erase_law|exact HR| |].
  { unfold nand_erase. rewrite addr_ok_true by (done || lia). done. }
  intros d3 HR3. wp_go.
  assert (forall lpn ppn, aget (mapping_table s) lpn = Some ppn -> ppn / P <> block_id cfg f b) as Hun.
  { intros lpn ppn Hm Hd. pose proof (Hmap lpn ppn Hm Hd). pose proof (Z.mod_pos_bound ppn P). lia. }
  pose proof (wp_bind_inv _ _ _ _ (inv_erase _ s n disk f b Hi Hf Hb Hnl Hun)) as Her.
  eapply wp_mono; [exact Her|]. intros x s3 Hs3. wp_go.
  eapply wp_mono; [exact Hs3|]. intros y s4 (Hi4 & Hfr4 & HP4). cbv beta in Hi4. wp_go.
  eapply wp_refines; [by apply log_law|exact HR3|done|]. intros d4 HR4. wp_go.
  split; [done|]. split; [|done]. eexists. split; [exact HR4|]. split; [done|]. simpl.
  eapply inv_same_tables; [eapply inv_blocks; [|exact Hi4]; done|..]; try done; [by destruct (i_lists _ _ _ _ _ Hi4)|].
  apply (i_link _ _ _ _ _ Hi4).
Qed.

(** [m] is the fewest valid pages of a victim. *)
Definition least (s : ftl) (m : Z) : Prop :=
  (exists v, v ∈ victims s /\ valid_of cfg s v = Some m) /\
  forall v m', v ∈ victims s -> valid_of cfg s v = Some m' -> m <= m'.

(** What a round does to the space: it gains the pages of the victim that were
    not valid.  It fails when all pages of all victims are valid, or when there
    are fewer free pages than valid pages of the victim.  It logs the pages it
    has copied. *)
Definition gc_space (es : list event) (s s' : ftl) (r : Z) : Prop :=
  (r = SUCCESS /\ listed cfg s' ≡ₚ listed cfg s /\
     exists m, least s m /\ m <> P /\ free_pages cfg s' = free_pages cfg s + P - m /\ es = [Collected m]) \/
  (r = FAIL /\ es = [] /\ listed cfg s' ≡ₚ listed cfg s /\ free_pages cfg s' = free_pages cfg s /\
     forall v m, v ∈ victims s -> valid_of cfg s v = Some m -> P <= m) \/
  (r = FAIL /\ es = [] /\ exists m, least s m /\ m <> P /\ free_pages cfg s < m).

Lemma garbage_collection s d n disk : inv cfg none s n disk -> dev_rel n d ->
  wp (GARBAGE_COLLECTION cfg) (fun r w => exists es, collected es n disk w /\ gc_space es s (fst w) r) (s, d).
Proof using Hok HL.
  intros Hi HR. unfold GARBAGE_COLLECTION. apply wp_bind, wp_on_fst.
  eapply wp_mono; [apply (select_victim_block cfg Hok); apply Hi|]. intros [[f b]|] s1 Hsel; last first.
  { destruct Hsel as (Hl & He & Em & Ei & Eb & _ & Ev & Hall). wp_go. exists []. split.
    - exists n. split; [done|]. split; [apply logged_refl|]. simpl.
      apply (inv_same_tables cfg none s s1); [done..| |].
      + intros x. unfold listed. by rewrite He, Ev.
      + rewrite He. apply (i_link _ _ _ _ _ Hi).
    - right. left. unfold listed, free_pages. simpl. by rewrite He, Ev. }
  destruct (inv_selected _ _ _ _ _ _ Hi Hsel) as (Hi1 & Hnl & Hf & Hb).
  destruct Hsel as (_ & He1 & _ & _ & Eb1 & _ & Pv & m & Hm & HmP & Hmin).
  assert (least s m) as Hleast.
  { split; [|done]. exists (VBE f b). split; [rewrite Pv; left|done]. }
  destruct (root_index_val cfg Hok f b Hf Hb) as [_ Hmi].
  pose proof (i_tables _ _ _ _ _ Hi1) as Ht1. pose proof (block_id_range cfg Hok f b Hf Hb) as Hvid.
  destruct (aget_range (block_state_table s1) (block_id cfg f b)) as [e1 Ha1]; [by rewrite (t_blocks _ s1 Ht1)|].
  destruct (t_entry _ s1 Ht1 _ _ Ha1) as [Hva1 Hcnt1]. pose proof (ok_page _ Hok).
  assert (count_valid (valid_array e1) = m) as Hme.
  { unfold valid_of, v_id in Hm. simpl in Hm. rewrite <- Eb1, Ha1 in Hm. simpl in Hm. congruence. }
  assert (copying (block_id cfg f b) 0 (valid_array e1) s1 n disk) as Hcp.
  { split; [|split; [done|split]].
    - eapply inv_weaken; [|exact Hi1]. simpl. tauto.
    - intros q Hq. unfold page_char. by rewrite Hq, Ha1.
    - intros _ q _ _. apply Z.mod_pos_bound. lia. }
  assert (free_pages cfg s1 = free_pages cfg s) as Hfr1 by (unfold free_pages; by rewrite He1).
  apply wp_bind. eapply wp_mono; [apply (gc_copy_pages_spec f b _ (valid_array e1) disk Hf Hb Hmi Hva1
    (Z.to_nat P) 0 0 s1 d n); [lia|lia|done|done]|].
  rewrite drop_0, Hme. intros [c|] [s2 d2] (n2 & HR2 & Hh2 & H2); simpl in HR2, H2.
  2: { wp_go. destruct H2 as [? ?]. exists []. split.
       { exists n2. split; [done|]. split; [|done]. eapply logged_after; [done|apply logged_refl]. }
       right. right. split; [done|]. split; [done|].
       exists m. split; [done|]. split; [done|]. lia. }
  destruct H2 as (Hcp2 & Hc2 & Hfr2 & HP2).
  eapply wp_mono; [apply (finish_gc f b s2 d2 n2 disk (valid_array e1) c); [done..|lia]|].
  intros r w (-> & (n3 & HR3 & Hh3 & Hi3) & Hfr3 & HP3). exists [Collected c]. split.
  - exists n3. split; [done|]. split; [by eapply logged_after|done].
  - left. split; [done|]. split.
    + rewrite HP3, HP2. unfold listed. rewrite He1, Pv. simpl. apply Permutation_middle.
    + exists m. split; [done|]. split; [done|]. split; [lia|]. by rewrite Hc2.
Qed.

(** What the collector logs. *)
Definition is_round (e : event) : Prop := exists m, e = Collected m.

Lemma gc_space_rounds es s s' r : gc_space es s s' r -> Forall is_round es.
Proof.
  intros [(_ & _ & m & _ & _ & _ & ->)|[(_ & -> & _)|(_ & -> & _)]]; repeat constructor. by exists m.
Qed.

Lemma gc_rounds_spec k : forall s d n disk, inv cfg none s n disk -> dev_rel n d ->
  wp (gc_rounds cfg k) (fun _ w => exists es, collected es n disk w /\ Forall is_round es) (s, d).
Proof using Hok HL.
  induction k as [|k IH]; intros s d n disk Hi HR; simpl.
  { wp_go. exists []. split; [|done]. exists n. split; [done|]. split; [apply logged_refl|done]. }
  apply wp_bind. eapply wp_mono; [by apply garbage_collection|].
  intros r [s1 d1] (es & (n1 & HR1 & Hh1 & Hi1) & Hes%gc_space_rounds). destruct (r =? FAIL).
  - wp_go. exists es. split; [by exists n1|done].
  - eapply wp_mono; [by apply (IH s1 d1 n1 disk)|]. intros _ w (es2 & (n2 & HR2 & Hh2 & Hi2) & Hes2).
    exists (es ++ es2). split; [|by apply Forall_app]. exists n2. split; [done|].
    split; [by eapply logged_trans|done].
Qed.

Lemma gc_check_spec f b s d n disk : inv cfg none s n disk -> dev_rel n d ->
  wp (GC_CHECK cfg f b) (fun _ w => exists es, collected es n disk w /\ Forall is_round es) (s, d).
Proof using Hok HL.
  intros Hi HR. unfold GC_CHECK. wp_go. case_match.
  - by apply gc_rounds_spec.
  - wp_go. exists []. split; [|done]. exists n. split; [done|]. split; [apply logged_refl|done].
Qed.

End Collect.
