(* ===== verification/Host.v ===== *)
(** * Host requests refine a disk of logical pages

    What the drive promises to the host: a disk of logical pages, each with the
    data last written to it.  A write request changes the pages it touches, a
    read request delivers them.  [_FTL_WRITE] and [_FTL_READ] implement it on
    every device that obeys [DeviceLaws]. *)

From stdpp Require Import prelude gmap.
From S2P Require Import Prelude Config Blocks Mapping Device Gc Ftl Tables Lists Victims Inv Collect.

Local Open Scope Z_scope.

(** ** The specification *)

(** The data of the pages ever written, and the next version number. *)
Record host := Host {
  h_pages : gmap Z content;
  h_version : Z
}.

(** The data of a page, none before the first write. *)
Definition page_data (disk : gmap Z content) (lpn : Z) : content :=
  match disk !! lpn with Some c => c | None => [] end.

Section Spec.
Context (cfg : config).

(** The logical pages that sectors [sector_nb .. sector_nb + length - 1] touch. *)
Definition touched (sector_nb length : Z) : list Z :=
  if length <=? 0 then []
  else let first := sector_nb / SECTORS_PER_PAGE cfg in
       let last := (sector_nb + length - 1) / SECTORS_PER_PAGE cfg in
       seqZ first (last - first + 1).

(** Does the request cover all the sectors of page [lpn]? *)
Definition whole (sector_nb length lpn : Z) : bool :=
  (sector_nb <=? lpn * SECTORS_PER_PAGE cfg)
  && ((lpn + 1) * SECTORS_PER_PAGE cfg <=? sector_nb + length).

(** A page that is covered gets new data; of a page that is not, the rest of
    the old data stays. *)
Definition write_page (sector_nb length : Z) (h : host) (lpn : Z) : host :=
  Host (<[lpn := h_version h ::
            if whole sector_nb length lpn then [] else page_data (h_pages h) lpn]> (h_pages h))
       (h_version h + 1).

Definition host_write (sector_nb length : Z) (h : host) : host :=
  foldl (write_page sector_nb length) h (touched sector_nb length).

(** A read fails when a page has never been written. *)
Definition host_read (sector_nb length : Z) (h : host) : option (list content) :=
  mapM (fun lpn => h_pages h !! lpn) (touched sector_nb length).

(** A request the drive accepts: inside the disk, not empty, and of fewer than
    [2^15] pages. *)
Definition request_ok (sector_nb length : Z) : Prop :=
  0 <= sector_nb /\ 0 < length /\ sector_nb + length <= SECTOR_NB cfg /\
  zlen (touched sector_nb length) < 2 ^ 15.

End Spec.

(** ** Splitting a request *)

Section Split.
Context (cfg : config) (Hok : cfg_ok cfg).

Local Abbreviation SPP := (SECTORS_PER_PAGE cfg).

(** The sectors of the first page of a request, from its offset in the page. *)
Definition first_sects (sector_nb length : Z) : Z := Z.min (SPP - sector_nb mod SPP) length.

Lemma page_skips_val remain left_skip : 0 <= left_skip < SPP -> 0 < remain < 2 ^ 31 ->
  page_skips cfg remain left_skip =
    (Z.max 0 (SPP - left_skip - remain), Z.min (SPP - left_skip) remain).
Proof using Hok.
  intros Hl Hr. pose proof (ok_spp_lt Hok). unfold page_skips. rewrite (u32_id (SPP - left_skip)) by lia.
  destruct (Z.ltb_spec (SPP - left_skip) remain).
  - rewrite u32_id by lia. f_equal; lia.
  - rewrite (u32_id (SPP - left_skip - remain)) by lia. rewrite u32_id by lia. f_equal; lia.
Qed.

(** A request is its first page and the rest, which starts at a page. *)
Lemma touched_cons s l : 0 <= s -> 0 < l ->
  touched cfg s l = s / SPP :: touched cfg (s + first_sects s l) (l - first_sects s l).
Proof using Hok.
  intros Hs Hl. pose proof (ok_spp _ Hok) as HS. unfold first_sects.
  pose proof (Z.div_mod s SPP ltac:(lia)) as Hdm. pose proof (Z.mod_pos_bound s SPP HS) as Hm.
  set (q := s / SPP) in *. set (m := s mod SPP) in *.
  unfold touched at 1. destruct (Z.leb_spec l 0); [lia|]. fold q.
  destruct (decide (l <= SPP - m)) as [Hle|Hgt].
  - rewrite Z.min_r by lia. rewrite Z.sub_diag. simpl.
    assert ((s + l - 1) / SPP = q) as ->.
    { symmetry. apply (Z.div_unique_pos _ _ _ (m + l - 1)); lia. }
    by replace (q - q + 1) with 1 by lia.
  - rewrite Z.min_l by lia. unfold touched. destruct (Z.leb_spec (l - (SPP - m)) 0); [lia|].
    assert ((s + (SPP - m)) / SPP = q + 1) as ->.
    { symmetry. apply (Z.div_unique_pos _ _ _ 0); lia. }
    replace (s + (SPP - m) + (l - (SPP - m)) - 1) with (s + l - 1) by lia.
    assert (q + 1 <= (s + l - 1) / SPP) by (apply Z.div_le_lower_bound; lia).
    rewrite (seqZ_cons q) by lia. f_equal. rewrite Z.add_1_r. f_equal. lia.
Qed.

Lemma touched_nil s l : l <= 0 -> touched cfg s l = [].
Proof. intros ?. unfold touched. by destruct (Z.leb_spec l 0); [|lia]. Qed.

(** The state of the loops: what is left of the request [s], [l] is [lba],
    [remain], and [left_skip] is the offset of [lba] in its page. *)
Definition rest_of (s l lba remain left_skip : Z) : Prop :=
  0 <= s <= lba /\ lba + remain = s + l /\ 0 <= remain /\
  (0 < remain -> left_skip = lba mod SPP) /\ (lba = s \/ left_skip = 0).

Section Loop.
Context (s l lba remain left_skip : Z).
Context (Hrest : rest_of s l lba remain left_skip) (Hr : 0 < remain) (Hend : s + l < 2 ^ 31).

Local Abbreviation sects := (Z.min (SPP - left_skip) remain).

Lemma rest_skip : 0 <= left_skip < SPP.
Proof using Hrest Hr Hok.
  destruct Hrest as (_ & _ & _ & -> & _); [|done]. apply Z.mod_pos_bound, Hok.
Qed.

Lemma rest_cons : touched cfg lba remain = lba / SPP :: touched cfg (lba + sects) (remain - sects).
Proof using Hrest Hr Hok.
  destruct Hrest as (? & ? & ? & E & _). rewrite touched_cons by lia. unfold first_sects.
  by rewrite <- E by done.
Qed.

Lemma rest_next : rest_of s l (lba + sects) (remain - sects) 0 /\ 0 < sects <= remain.
Proof using Hrest Hr Hok.
  pose proof rest_skip as Hls. destruct Hrest as (? & ? & ? & E & _). specialize (E Hr).
  split; [|lia]. split; [lia|]. split; [lia|]. split; [lia|]. split; [|by right].
  intros Hgt. pose proof (ok_spp _ Hok). pose proof (Z.div_mod lba SPP).
  rewrite Z.min_l by lia. apply (Z.mod_unique_pos _ _ (lba / SPP + 1)); lia.
Qed.

(** [left_skip] or [right_skip] is not zero iff the page is not covered. *)
Lemma rest_whole : (negb (left_skip =? 0) || negb (Z.max 0 (SPP - left_skip - remain) =? 0))
  = negb (whole cfg s l (lba / SPP)).
Proof using Hrest Hr Hok.
  pose proof rest_skip as Hls. destruct Hrest as (? & ? & ? & E & Hst). specialize (E Hr).
  pose proof (ok_spp _ Hok). pose proof (Z.div_mod lba SPP). unfold whole.
  rewrite <- negb_andb. f_equal. apply eq_true_iff_eq.
  rewrite !andb_true_iff, !Z.eqb_eq, !Z.leb_le. rewrite E in *. nia.
Qed.

Lemma rest_lpn : Z.quot lba (i32 SPP) = lba / SPP.
Proof using Hrest Hok.
  clear Hr Hend. pose proof (ok_spp _ Hok). pose proof (ok_spp_lt Hok). destruct Hrest.
  rewrite i32_id by lia. apply Z.quot_div_nonneg; lia.
Qed.

End Loop.

Lemma rest_init s l : 0 <= s -> 0 <= l -> s < 2 ^ 31 -> rest_of s l s l (first_skip cfg s).
Proof using Hok.
  intros Hs Hl Hlt. pose proof (ok_spp _ Hok). pose proof (ok_spp_lt Hok). unfold rest_of, first_skip.
  pose proof (Z.mod_pos_bound s SPP). rewrite Z.rem_mod_nonneg, u32_id by lia.
  repeat split; (lia || by left).
Qed.

(** The pages of a request inside the disk are logical pages. *)
Lemma touched_range s l lpn : 0 <= s -> s + l <= SECTOR_NB cfg -> lpn ∈ touched cfg s l ->
  0 <= lpn < npages cfg.
Proof using Hok.
  intros Hs Hl. unfold touched. destruct (Z.leb_spec l 0); [by intros H'; inversion H'|].
  intros [H1 H2]%elem_of_seqZ. pose proof (ok_spp _ Hok). rewrite (ok_sector_nb _ Hok) in Hl.
  assert (0 <= s / SPP) by (apply Z.div_pos; lia).
  assert ((s + l - 1) / SPP < npages cfg) by (apply Z.div_lt_upper_bound; [lia|unfold npages; lia]). lia.
Qed.

(** The count of [ALLOC_IO_REQUEST] is the number of pages touched. *)
Lemma count_pages_val fuel : forall s l lba remain left_skip,
  rest_of s l lba remain left_skip -> s + l < 2 ^ 31 -> remain < Z.of_nat fuel ->
  count_pages cfg fuel remain left_skip = Ret (zlen (touched cfg lba remain)).
Proof using Hok.
  induction fuel as [|fuel IH]; intros s l lba remain left_skip Hrest Hend Hf.
  { destruct Hrest as (_ & _ & ? & _). lia. }
  cbn [count_pages]. destruct (Z.leb_spec remain 0); [by rewrite touched_nil by done|].
  pose proof (rest_skip _ _ _ _ _ Hrest ltac:(done)).
  assert (remain < 2 ^ 31) by (destruct Hrest as (? & ? & _); lia).
  rewrite page_skips_val by lia. destruct (rest_next _ _ _ _ _ Hrest ltac:(done)) as [Hn Hs].
  rewrite u32_id by lia. rewrite (IH s l _ _ 0 Hn) by lia.
  rewrite (rest_cons _ _ _ _ _ Hrest) by done. f_equal. simpl length. lia.
Qed.

Lemma io_pages_val s l : 0 <= s -> 0 <= l -> s + l < 2 ^ 31 ->
  io_pages cfg s l = Ret (zlen (touched cfg s l)).
Proof using Hok.
  intros Hs Hl He. unfold io_pages. eapply (count_pages_val _ s l); [|done|lia].
  apply rest_init; lia.
Qed.

End Split.

(** ** The requests *)

Section Requests.
Context (cfg : config) (Hok : cfg_ok cfg) (HL : PLANES_PER_FLASH cfg = 1).
Context {D : Device} {DL : DeviceLaws cfg D}.

Local Abbreviation SPP := (SECTORS_PER_PAGE cfg).
Local Abbreviation none := (fun _ : Z => False).

(** The state of the translation layer and of the drive stands for [h]. *)
Definition represents (s : ftl) (n : nand) (h : host) : Prop :=
  inv cfg none s n (h_pages h) /\ n_version n = h_version h.

(** *** Writing one page *)

(** The data the drive stores for page [lpn]. *)
Definition new_content (partial : bool) (n : nand) (disk : gmap Z content) (lpn : Z) : content :=
  n_version n :: if negb partial then [] else page_data disk lpn.

Lemma write_on_device s s1 n d disk lpn old ppn partial k io : inv cfg none s n disk ->
  new_page cfg s s1 (Some ppn) -> dev_rel n d -> aget (mapping_table s) lpn = Some old ->
  n_request n = Some io -> 0 <= k < io ->
  wp (if partial && negb (old =? -1)
      then ssd_page_partial_write (CALC_FLASH cfg old) (CALC_BLOCK cfg old) (CALC_PAGE cfg old)
             (CALC_FLASH cfg ppn) (CALC_BLOCK cfg ppn) (CALC_PAGE cfg ppn) k WRITE io
      else ssd_page_write (CALC_FLASH cfg ppn) (CALC_BLOCK cfg ppn) (CALC_PAGE cfg ppn) k WRITE io)
     (fun r d' => r = SUCCESS /\
        dev_rel (nand_append n (CALC_FLASH cfg ppn) (CALC_BLOCK cfg ppn)
                   (new_content partial n disk lpn) (n_version n + 1)) d') d.
Proof using Hok.
  intros Hi Hn HR Hm Hreq Hk.
  destruct (new_page_addr cfg Hok _ _ _ _ _ _ Hi Hn) as (Hr & Hnext & _ & _).
  assert (offset_ok n WRITE k = true) as Hoff.
  { unfold offset_ok. rewrite Hreq. destruct (Z.leb_spec 0 k), (Z.ltb_spec k io); (done || lia). }
  pose proof (i_data _ _ _ _ _ Hi _ _ Hm) as Hd. unfold new_content, page_data.
  destruct (mapped_range cfg Hok _ _ _ _ _ _ Hi Hm) as [->|Hor].
  - rewrite andb_false_r. rewrite Z.eqb_refl in Hd. rewrite Hd.
    eapply wp_refines; [apply write_law|exact HR| |].
    { unfold nand_write. rewrite (calc_addr_ok cfg Hok ppn), Hoff, <- Hnext, Z.eqb_refl by done. done. }
    intros d' HR'. split; [done|]. by destruct partial.
  - destruct (Z.eqb_spec old (-1)); [lia|]. rewrite andb_true_r. destruct partial; cbn [negb].
    + destruct (i_map _ _ _ _ _ Hi _ _ Hm) as [HV _]; [done|].
      destruct (i_valid _ _ _ _ _ Hi _ HV) as [c Hc]. rewrite Hd, Hc. simpl.
      eapply wp_refines; [apply partial_law|exact HR| |].
      { unfold nand_partial_write. unfold stored in Hc.
        rewrite !(calc_addr_ok cfg Hok), Hoff, <- Hnext, Z.eqb_refl, Hc by done. done. }
      intros d' HR'. done.
    + eapply wp_refines; [apply write_law|exact HR| |].
      { unfold nand_write. rewrite (calc_addr_ok cfg Hok ppn), Hoff, <- Hnext, Z.eqb_refl by done. done. }
      intros d' HR'. done.
Qed.

(** The page is programmed and the logical page moves to it. *)
Lemma represents_write s0 l s s1 n d h lpn old ppn partial k io {A} (cont : Z -> M (ftl * dev) A) Q :
  represents s n h -> new_page cfg s s1 (Some ppn) -> dev_rel n d ->
  0 <= lpn < npages cfg -> aget (mapping_table s) lpn = Some old ->
  n_request n = Some io -> 0 <= k < io -> partial = negb (whole cfg s0 l lpn) ->
  (forall s' d' n', represents s' n' (write_page cfg s0 l h lpn) -> dev_rel n' d' ->
     n_request n' = Some io -> n_seq n' = n_seq n /\ n_log n' = n_log n -> same_lists s1 s' ->
     wp (cont SUCCESS) Q (s', d')) ->
  wp (ret ← (if partial && negb (old =? -1)
        then on_snd (ssd_page_partial_write (CALC_FLASH cfg old) (CALC_BLOCK cfg old) (CALC_PAGE cfg old)
               (CALC_FLASH cfg ppn) (CALC_BLOCK cfg ppn) (CALC_PAGE cfg ppn) k WRITE io)
        else on_snd (ssd_page_write (CALC_FLASH cfg ppn) (CALC_BLOCK cfg ppn) (CALC_PAGE cfg ppn) k WRITE io));
      on_fst (UPDATE_OLD_PAGE_MAPPING cfg lpn) ;;
      on_fst (UPDATE_NEW_PAGE_MAPPING cfg lpn ppn) ;;
      cont ret) Q (s1, d).
Proof using Hok.
  intros [Hi Hv] Hn HR Hl Hm Hreq Hk Hpart Hcont.
  pose proof (write_on_device s s1 n d _ lpn old ppn partial k io Hi Hn HR Hm Hreq Hk) as Hdev.
  destruct (new_page_addr cfg Hok _ _ _ _ _ _ Hi Hn) as (Hr & Hnext & _ & Hnv).
  apply wp_bind.
  apply wp_mono with (P := fun r w => r = SUCCESS /\ fst w = s1 /\
    dev_rel (nand_append n (CALC_FLASH cfg ppn) (CALC_BLOCK cfg ppn)
       (new_content partial n (h_pages h) lpn) (n_version n + 1)) (snd w)).
  { destruct (partial && negb (old =? -1)); apply wp_on_snd; (eapply wp_mono; [exact Hdev|]);
      intros r d' [-> ?]; done. }
  intros r [s1' d1] (-> & E & HR1). simpl in E, HR1. subst s1'.
  set (n1 := nand_append _ _ _ _ _) in *. set (c := new_content _ _ _ _) in *.
  assert (inv cfg none s1 n1 (h_pages h)) as Hi1 by by apply (inv_program cfg Hok none s).
  assert (stored cfg n1 ppn = Some c) as Hst by by apply stored_append.
  pose proof (wp_bind_inv _ _ _ _ (inv_remap cfg Hok none s1 n1 _ lpn ppn c Hi1 Hl Hr Hnv Hst)) as Hre.
  apply wp_bind, wp_on_fst. eapply wp_mono; [exact Hre|]. intros x s2 Hs2. cbv beta in Hs2.
  apply wp_bind, wp_on_fst. eapply wp_mono; [exact Hs2|]. intros y s3 [Hi3 Hss].
  apply (Hcont s3 d1 n1); [|done..]. unfold represents, write_page. simpl. rewrite <- Hv.
  split; [|done]. unfold c, new_content in Hi3. rewrite Hpart, negb_involutive in Hi3. done.
Qed.

(** *** The loop of [_FTL_WRITE] *)

(** What the loop does to the data and to the space. *)
Definition wrote (s0 l lba remain io : Z) (s : ftl) (n : nand) (h : host) (ret : Z) (np : option Z)
    (r : option (Z * option Z * Z)) (w : ftl * dev) : Prop :=
  exists n', dev_rel n' (snd w) /\ n_request n' = Some io /\ (n_seq n' = n_seq n /\ n_log n' = n_log n) /\
  listed cfg (fst w) ≡ₚ listed cfg s /\
  match r with
  | Some (ret', np', k) => k = io /\
      represents (fst w) n' (foldl (write_page cfg s0 l) h (touched cfg lba remain)) /\
      free_pages cfg (fst w) = free_pages cfg s - zlen (touched cfg lba remain) /\
      (if remain =? 0 then ret' = ret /\ np' = np else ret' = SUCCESS /\ is_Some np')
  | None => total_empty_block_nb (fst w) = 0 /\
      free_pages cfg s < zlen (touched cfg lba remain) /\
      exists j, (j < length (touched cfg lba remain))%nat /\
        represents (fst w) n' (foldl (write_page cfg s0 l) h (take j (touched cfg lba remain)))
  end.

Lemma write_pages_spec s0 l io : s0 + l <= SECTOR_NB cfg -> io < 2 ^ 15 ->
  forall fuel lba remain ls k ret np s d n h,
  rest_of cfg s0 l lba remain ls -> remain < Z.of_nat fuel ->
  0 <= k -> k + zlen (touched cfg lba remain) = io -> n_request n = Some io ->
  represents s n h -> dev_rel n d ->
  wp (write_pages cfg fuel lba remain ls k io ret np) (wrote s0 l lba remain io s n h ret np) (s, d).
Proof using Hok.
  intros Hend Hio. assert (s0 + l < 2 ^ 31) as Hlt.
  { rewrite (ok_sector_nb _ Hok) in Hend. pose proof (ok_sectors _ Hok). lia. }
  induction fuel as [|fuel IH]; intros lba remain ls k ret np s d n h Hrest Hf Hk Hcount Hreq Hrep HR.
  { destruct Hrest as (_ & _ & ? & _). lia. }
  cbn [write_pages]. destruct (Z.leb_spec remain 0) as [Hz|Hpos].
  { assert (remain = 0) as -> by (destruct Hrest as (_ & _ & ? & _); lia).
    wp_go. exists n. do 4 (split; [done|]). rewrite touched_nil by done. simpl.
    rewrite touched_nil in Hcount by done. simpl in Hcount. split; [lia|]. split; [done|]. split; [lia|done]. }
  assert (remain < 2 ^ 31) by (destruct Hrest as (? & ? & _); lia).
  rewrite (page_skips_val cfg Hok) by (eauto using rest_skip). cbv iota.
  rewrite (rest_lpn cfg Hok _ _ _ _ _ Hrest).
  pose proof (rest_cons cfg Hok _ _ _ _ _ Hrest Hpos) as Hcons.
  destruct (rest_next cfg Hok _ _ _ _ _ Hrest Hpos) as [Hnext Hsects].
  assert (0 <= lba / SPP < npages cfg) as Hlpn.
  { apply (touched_range cfg Hok lba remain); [destruct Hrest as (? & ? & _); lia..|].
    rewrite Hcons. left. }
  pose proof Hrep as [Hi _]. pose proof (i_tables _ _ _ _ _ Hi) as Ht.
  apply wp_bind, wp_on_fst.
  eapply wp_mono; [apply (get_new_page cfg Hok); [apply (i_lists _ _ _ _ _ Hi)|by left]|].
  intros [ppn|] s1 Hn.
  - destruct (aget_range (mapping_table s) (lba / SPP)) as [old Hold]; [by rewrite (t_mapping _ s Ht)|].
    assert (aget (mapping_table s1) (lba / SPP) = Some old) as Hold1.
    { destruct Hn as (_ & (-> & _) & _). done. }
    apply wp_bind, wp_on_fst, wp_bind, wp_gets. eapply wp_need; [exact Hold1|]. cbv beta.
    rewrite Hcons in Hcount. simpl length in Hcount.
    rewrite (rest_whole cfg Hok _ _ _ _ _ Hrest Hpos).
    apply (represents_write s0 l s s1 n d h (lba / SPP) old ppn _ k io); try done; [lia|].
    intros s2 d2 n2 Hrep2 HR2 Hreq2 Hseq2 Hss2. destruct Hn as (_ & _ & HPn & Hfrn & _).
    rewrite <- (same_lists_free cfg _ _ Hss2) in Hfrn. rewrite <- (same_lists_listed cfg _ _ Hss2) in HPn.
    rewrite !i32_id by (destruct Hrest as (? & ? & _); lia). rewrite u32_id by lia.
    eapply wp_mono; [apply (IH _ _ 0 (k + 1) SUCCESS (Some ppn) s2 d2 n2 (write_page cfg s0 l h (lba / SPP)) Hnext);
      [lia|lia|lia|done|exact Hrep2|done]|].
    intros r w (n3 & HR3 & Hreq3 & Hseq3 & HP3 & H3). exists n3. split; [done|]. split; [done|].
    destruct Hseq2 as [Hs2 Hg2], Hseq3 as [Hs3 Hg3]. split; [split; congruence|]. split; [by rewrite HP3|]. rewrite Hcons. simpl length. destruct r as [[[ret' np'] k']|].
    + destruct H3 as (Hk3 & H3 & Hfr3 & H3'). split; [done|]. split; [done|]. split; [lia|]. destruct (Z.eqb_spec remain 0); [lia|].
      case_match; [by destruct H3' as [-> ->]|done].
    + destruct H3 as (H0 & Hlt3 & j & Hj & H3). split; [done|]. split; [lia|].
      exists (S j). split; [simpl; lia|done].
  - wp_go. exists n. do 3 (split; [done|]).
    pose proof Hn as (_ & _ & HP & H0 & Hf0 & _). split; [done|]. split; [done|].
    split; [rewrite Hcons; simpl; lia|]. exists 0%nat. split; [rewrite Hcons; simpl; lia|].
    destruct Hrep as [_ Hv]. split; [|done]. by eapply inv_no_page.
Qed.

(** *** The loops of [_FTL_READ] *)

Lemma exceeds_false s l : request_ok cfg s l -> exceeds cfg s l = false.
Proof using Hok.
  intros (Hs & Hl & He & _). unfold exceeds. pose proof (ok_sectors _ Hok).
  rewrite (ok_sector_nb _ Hok) in *. rewrite u32_id by lia. destruct (Z.ltb_spec
    (SPP * (PAGE_NB cfg * BLOCK_NB cfg * FLASH_NB cfg)) (s + l)); [lia|done].
Qed.

Lemma request_end s l : request_ok cfg s l -> s + l < 2 ^ 31.
Proof using Hok.
  intros (_ & _ & He & _). rewrite (ok_sector_nb _ Hok) in He. pose proof (ok_sectors _ Hok). lia.
Qed.

(** What the mapping table knows of a logical page. *)
Lemma mapped_data s n h lpn : represents s n h -> 0 <= lpn < npages cfg ->
  exists ppn, aget (mapping_table s) lpn = Some ppn /\
    (if ppn =? -1 then h_pages h !! lpn = None
     else 0 <= ppn < npages cfg /\ exists c, stored cfg n ppn = Some c /\ h_pages h !! lpn = Some c).
Proof using Hok.
  intros [Hi _] Hl. destruct (aget_range (mapping_table s) lpn) as [ppn Hm].
  { by rewrite (t_mapping _ s (i_tables _ _ _ _ _ Hi)). }
  exists ppn. split; [done|]. pose proof (i_data _ _ _ _ _ Hi _ _ Hm) as Hd.
  destruct (Z.eqb_spec ppn (-1)); [done|].
  destruct (mapped_range cfg Hok _ _ _ _ _ _ Hi Hm); [done|]. split; [done|].
  destruct (i_map _ _ _ _ _ Hi _ _ Hm) as [HV _]; [done|].
  destruct (i_valid _ _ _ _ _ Hi _ HV) as [c Hc]. exists c. by rewrite Hd, Hc.
Qed.

Lemma read_check_spec s0 l s n h d : s0 + l <= SECTOR_NB cfg -> represents s n h ->
  forall fuel lba remain ls, rest_of cfg s0 l lba remain ls -> remain < Z.of_nat fuel ->
  wp (read_check cfg fuel lba remain ls)
     (fun r w => w = (s, d) /\ r = bool_decide (is_Some (host_read cfg lba remain h))) (s, d).
Proof using Hok.
  intros Hend Hrep. assert (s0 + l < 2 ^ 31) as Hlt.
  { rewrite (ok_sector_nb _ Hok) in Hend. pose proof (ok_sectors _ Hok). lia. }
  induction fuel as [|fuel IH]; intros lba remain ls Hrest Hf.
  { destruct Hrest as (_ & _ & ? & _). lia. }
  cbn [read_check]. unfold host_read. destruct (Z.leb_spec remain 0) as [Hz|Hpos].
  { wp_go. split; [done|]. rewrite touched_nil by done. symmetry. by apply bool_decide_eq_true. }
  assert (remain < 2 ^ 31) by (destruct Hrest as (? & ? & _); lia).
  rewrite (page_skips_val cfg Hok) by (eauto using rest_skip). cbv iota.
  rewrite (rest_lpn cfg Hok _ _ _ _ _ Hrest).
  pose proof (rest_cons cfg Hok _ _ _ _ _ Hrest Hpos) as Hcons.
  destruct (rest_next cfg Hok _ _ _ _ _ Hrest Hpos) as [Hnext Hsects].
  assert (0 <= lba / SPP < npages cfg) as Hlpn.
  { apply (touched_range cfg Hok lba remain); [destruct Hrest as (? & ? & _); lia..|].
    rewrite Hcons. left. }
  destruct (mapped_data s n h _ Hrep Hlpn) as (ppn & Hm & Hppn).
  apply wp_bind, wp_on_fst, wp_bind, wp_gets. eapply wp_need; [exact Hm|]. cbv beta.
  rewrite Hcons. destruct (ppn =? -1).
  - wp_go. split; [done|]. simpl. rewrite Hppn. symmetry. apply bool_decide_eq_false.
    by intros [? ?].
  - rewrite i32_id by (destruct Hrest as (? & ? & _); lia). rewrite u32_id by lia.
    eapply wp_mono; [apply (IH _ _ 0 Hnext); lia|]. intros r w [-> ->]. split; [done|].
    destruct Hppn as (_ & c & _ & Hc). unfold host_read. simpl. rewrite Hc. simpl.
    destruct (mapM _ _); done.
Qed.

(** The drive delivers the data of each page. *)
Lemma read_pages_spec s0 l s h io : s0 + l <= SECTOR_NB cfg -> io < 2 ^ 15 ->
  forall fuel lba remain ls k ret n d cs, rest_of cfg s0 l lba remain ls -> remain < Z.of_nat fuel ->
  0 <= k -> k + zlen (touched cfg lba remain) = io -> n_request n = Some io ->
  represents s n h -> dev_rel n d -> host_read cfg lba remain h = Some cs ->
  wp (read_pages cfg fuel lba remain ls k io ret)
     (fun r w => fst w = s /\ (if remain =? 0 then r = ret else r = SUCCESS) /\
        exists n', dev_rel n' (snd w) /\ represents s n' h /\ n_request n' = Some io /\
          (n_seq n' = n_seq n /\ n_log n' = n_log n) /\ n_out n' = n_out n ++ cs) (s, d).
Proof using Hok.
  intros Hend Hio. assert (s0 + l < 2 ^ 31) as Hlt.
  { rewrite (ok_sector_nb _ Hok) in Hend. pose proof (ok_sectors _ Hok). lia. }
  induction fuel as [|fuel IH]; intros lba remain ls k ret n d cs Hrest Hf Hk Hcount Hreq Hrep HR Hcs.
  { destruct Hrest as (_ & _ & ? & _). lia. }
  cbn [read_pages]. unfold host_read in Hcs. destruct (Z.leb_spec remain 0) as [Hz|Hpos].
  { assert (remain = 0) as -> by (destruct Hrest as (_ & _ & ? & _); lia).
    rewrite touched_nil in Hcs by done. injection Hcs as <-. wp_go. split; [done|]. split; [done|].
    exists n. by rewrite app_nil_r. }
  assert (remain < 2 ^ 31) by (destruct Hrest as (? & ? & _); lia).
  rewrite (page_skips_val cfg Hok) by (eauto using rest_skip). cbv iota.
  rewrite (rest_lpn cfg Hok _ _ _ _ _ Hrest).
  pose proof (rest_cons cfg Hok _ _ _ _ _ Hrest Hpos) as Hcons.
  destruct (rest_next cfg Hok _ _ _ _ _ Hrest Hpos) as [Hnext Hsects].
  assert (0 <= lba / SPP < npages cfg) as Hlpn.
  { apply (touched_range cfg Hok lba remain); [destruct Hrest as (? & ? & _); lia..|].
    rewrite Hcons. left. }
  destruct (mapped_data s n h _ Hrep Hlpn) as (ppn & Hm & Hppn).
  rewrite Hcons in Hcs, Hcount. simpl length in Hcount.
  apply mapM_Some in Hcs. inversion_clear Hcs as [|? c ? cs' Hc Hcs'].
  destruct (ppn =? -1); [congruence|]. destruct Hppn as (Hr & c' & Hst & Hc'). assert (c' = c) as -> by congruence.
  apply wp_bind, wp_on_fst, wp_bind, wp_gets. eapply wp_need; [exact Hm|]. cbv beta.
  apply wp_bind, wp_on_snd. eapply wp_refines; [apply read_law|exact HR| |].
  { unfold nand_read, offset_ok. unfold stored in Hst. rewrite (calc_addr_ok cfg Hok), Hreq, Hst by done.
    destruct (Z.leb_spec 0 k), (Z.ltb_spec k io); [|lia..]. done. }
  intros d1 HR1. rewrite !i32_id by (destruct Hrest as (? & ? & _); lia). rewrite u32_id by lia.
  destruct Hrep as [Hi Hv].
  set (n1 := Nand (n_blocks n) c (n_version n) (Some io) (n_seq n) (n_out n ++ [c]) (n_log n)).
  eapply wp_mono; [apply (IH _ _ 0 (k + 1) 1 n1 d1 cs' Hnext); [lia|lia|lia|done| |exact HR1|]|].
  - split; [|done]. by apply (inv_blocks cfg none s n).
  - by apply mapM_Some.
  - intros r w (Hw & Hret & n' & HR' & Hrep' & Hreq' & Hseq' & Hout). split; [done|]. split.
    { destruct (Z.eqb_spec remain 0); [lia|]. case_match; by subst. }
    exists n'. do 4 (split; [done|]). rewrite Hout. simpl. by rewrite <- (assoc_L app).
Qed.

(** *** The whole requests *)

(** Between two requests: no request is open and a sequence number is left. *)
Definition idle (n : nand) : Prop := n_request n = None /\ n_seq n < 2 ^ 32 - 1.

Lemma touched_length s l : 0 <= s -> 0 < l -> 0 < zlen (touched cfg s l).
Proof using Hok. intros ? ?. rewrite (touched_cons cfg Hok) by done. simpl. lia. Qed.

Lemma alloc_run n s l t : idle n -> request_ok cfg s l ->
  nand_alloc cfg s l t n = Ret (zlen (touched cfg s l),
    Nand (n_blocks n) (n_buffer n) (n_version n) (Some (zlen (touched cfg s l))) (n_seq n) [] (n_log n)).
Proof using Hok.
  intros [Hr Hs] Hreq. pose proof (request_end _ _ Hreq). destruct Hreq as (H1 & H2 & H3 & H4).
  unfold nand_alloc. rewrite Hr, (io_pages_val cfg Hok) by lia.
  pose proof (touched_length s l H1 H2).
  destruct (Z.leb_spec 1 (zlen (touched cfg s l))), (Z.ltb_spec (zlen (touched cfg s l)) (2 ^ 15)),
    (Z.ltb_spec (n_seq n) (2 ^ 32 - 1)); (done || lia).
Qed.

(** A write request: all its pages are written, or the drive has no free page
    left and some of the first pages are written. *)
Definition write_result (sector_nb len : Z) (n : nand) (h : host) (r : Z) (w : ftl * dev) : Prop :=
  exists n', dev_rel n' (snd w) /\
  ((r = SUCCESS /\ represents (fst w) n' (host_write cfg sector_nb len h) /\
    n_request n' = None /\ n_seq n' = n_seq n + 1 /\
    exists gs, Forall is_round gs /\
      n_log n' = n_log n ++ gs ++ [WriteDone len (zlen (touched cfg sector_nb len))]) \/
   (r = FAIL /\ n_log n' = n_log n /\ total_empty_block_nb (fst w) = 0 /\ n_request n' <> None /\
    exists j, (j < length (touched cfg sector_nb len))%nat /\
      represents (fst w) n'
        (foldl (write_page cfg sector_nb len) h (take j (touched cfg sector_nb len))))).

(** The request up to the call of the collector. *)
Lemma ftl_write_loop sector_nb len s d n h Q :
  request_ok cfg sector_nb len -> represents s n h -> idle n -> dev_rel n d ->
  (forall f b s' d' n', represents s' n' (host_write cfg sector_nb len h) -> dev_rel n' d' ->
     n_request n' = None -> n_seq n' = n_seq n + 1 /\ n_log n' = n_log n -> listed cfg s' ≡ₚ listed cfg s ->
     free_pages cfg s' = free_pages cfg s - zlen (touched cfg sector_nb len) ->
     wp (GC_CHECK cfg f b) (fun _ w => exists n2, dev_rel n2 (snd w) /\ forall d2,
       dev_rel (add_log (WriteDone len (zlen (touched cfg sector_nb len))) n2) d2 -> Q SUCCESS (fst w, d2)) (s', d')) ->
  (forall s' d' n' j, (j < length (touched cfg sector_nb len))%nat ->
     represents s' n' (foldl (write_page cfg sector_nb len) h (take j (touched cfg sector_nb len))) ->
     dev_rel n' d' -> n_request n' <> None /\ n_log n' = n_log n -> total_empty_block_nb s' = 0 ->
     free_pages cfg s < zlen (touched cfg sector_nb len) -> Q FAIL (s', d')) ->
  wp (_FTL_WRITE cfg sector_nb len) Q (s, d).
Proof using Hok.
  intros Hreq [Hi Hv] Hidle HR Hgc Hfail. unfold _FTL_WRITE. rewrite exceeds_false by done.
  pose proof (request_end _ _ Hreq) as Hend. pose proof Hreq as (H1 & H2 & H3 & H4).
  apply wp_bind, wp_on_snd. eapply wp_refines; [apply alloc_law|exact HR|by apply alloc_run|].
  intros d1 HR1. set (n1 := Nand _ _ _ _ _ _ _) in HR1. set (io := zlen _) in *. apply wp_bind.
  eapply wp_mono; [apply (write_pages_spec sector_nb len io H3 H4 _ _ _ _ 0 FAIL None s d1 n1 h)|];
    try done; [apply rest_init; (done || lia)|lia|by split; [apply (inv_blocks cfg none s n)|]|].
  intros [[[ret np] k]|] [s2 d2] (n2 & HR2 & Hreq2 & [Hseq2 Hlog2] & HP2 & Hw); simpl in HR2, HP2.
  - destruct (Z.eqb_spec len 0); [lia|]. destruct Hw as (-> & [Hi2 Hv2] & Hfr2 & (-> & ppn & ->)).
    apply wp_bind, wp_on_snd. eapply wp_refines; [apply close_law|exact HR2| |].
    { unfold nand_close. by rewrite Hreq2. }
    intros d3 HR3. set (n3 := Nand _ _ _ _ _ _ _) in HR3. apply wp_bind. eapply wp_need; [done|].
    apply wp_bind. eapply wp_mono; [apply (Hgc _ _ s2 d3 n3)|]; try done.
    + split; [by apply (inv_blocks cfg none s2 n2)|done].
    + simpl. by rewrite Hseq2.
    + intros _ [s4 d4] (n4 & HR4 & HQ). apply wp_bind, wp_on_snd.
      eapply wp_refines; [by apply log_law|exact HR4|done|]. intros d5 HR5. apply wp_ret. by apply HQ.
  - apply wp_ret. destruct Hw as (H0 & Hlt & j & Hj & Hrep).
    apply (Hfail s2 d2 n2 j); try done. by rewrite Hreq2, Hlog2.
Qed.

Lemma ftl_write sector_nb len s d n h :
  request_ok cfg sector_nb len -> represents s n h -> idle n -> dev_rel n d ->
  wp (_FTL_WRITE cfg sector_nb len) (write_result sector_nb len n h) (s, d).
Proof using Hok HL.
  intros Hreq Hrep Hidle HR. apply (ftl_write_loop _ _ _ _ n h); try done.
  - intros f b s2 d2 n2 [Hi2 Hv2] HR2 Hreq2 [Hseq2 Hlog2] _ _.
    eapply wp_mono; [by apply (gc_check_spec cfg Hok HL f b s2 d2 n2)|].
    intros _ w (es & (n4 & HR4 & (Hv4 & Hreq4 & Hseq4 & _ & Hlog4) & Hi4) & Hes). exists n4. split; [done|].
    intros d5 HR5. eexists. split; [exact HR5|]. left. split; [done|]. simpl.
    split; [split; [by apply (inv_blocks cfg none (fst w) n4)|by simpl; rewrite Hv4]|].
    rewrite Hreq4, Hseq4, Hlog4, Hlog2. split; [done|]. split; [done|]. exists es. by rewrite <- (assoc_L app).
  - intros s2 d2 n2 j Hj Hrep2 HR2 [Hopen Hlog2] H0 _. exists n2. split; [done|]. right.
    split; [done|]. split; [done|]. split; [done|]. split; [done|]. by exists j.
Qed.

(** A read request delivers the data of its pages, or fails when one of them was
    never written; the tables do not change. *)
Definition read_result (sector_nb length : Z) (s : ftl) (n : nand) (h : host) (r : Z) (w : ftl * dev) : Prop :=
  fst w = s /\ exists n', dev_rel n' (snd w) /\ represents s n' h /\ n_request n' = None /\
  match host_read cfg sector_nb length h with
  | Some cs => r = SUCCESS /\ n_out n' = cs /\ n_seq n' = n_seq n + 1 /\ n_log n' = n_log n ++ [ReadDone length]
  | None => r = FAIL /\ n' = n
  end.

Lemma ftl_read sector_nb len s d n h :
  request_ok cfg sector_nb len -> represents s n h -> idle n -> dev_rel n d ->
  wp (_FTL_READ cfg sector_nb len) (read_result sector_nb len s n h) (s, d).
Proof using Hok.
  intros Hreq Hrep Hidle HR. unfold _FTL_READ. rewrite exceeds_false by done.
  pose proof (request_end _ _ Hreq) as Hend. pose proof Hreq as (H1 & H2 & H3 & H4).
  apply wp_bind. eapply wp_mono.
  { apply (read_check_spec sector_nb len s n h d H3 Hrep); [apply rest_init; (done || lia)|lia]. }
  intros r w [-> ->]. unfold read_result.
  destruct (host_read cfg sector_nb len h) as [cs|] eqn:Hcs; last first.
  { rewrite bool_decide_false by (by intros [? ?]). cbn [negb]. wp_go. split; [done|]. exists n. split; [done|]. split; [done|]. by destruct Hidle. }
  rewrite bool_decide_true by done. cbn [negb].
  apply wp_bind, wp_on_snd. eapply wp_refines; [apply alloc_law|exact HR|by apply alloc_run|].
  intros d1 HR1. set (n1 := Nand _ _ _ _ _ _ _) in HR1. set (io := zlen _) in *. apply wp_bind.
  eapply wp_mono; [apply (read_pages_spec sector_nb len s h io H3 H4 _ _ _ _ 0 FAIL n1 d1 cs)|];
    try done; [apply rest_init; (done || lia)|lia| |].
  { destruct Hrep. split; [by apply (inv_blocks cfg none s n)|done]. }
  intros r [s2 d2] (Hw & Hret & n2 & HR2 & [Hi2 Hv2] & Hreq2 & [Hseq2 Hlog2] & Hout). simpl in Hw, HR2. subst s2.
  destruct (Z.eqb_spec len 0); [lia|]. subst r.
  apply wp_bind, wp_on_snd. eapply wp_refines; [apply close_law|exact HR2| |].
  { unfold nand_close. by rewrite Hreq2. }
  intros d3 HR3. apply wp_bind, wp_on_snd. eapply wp_refines; [by apply log_law|exact HR3|done|].
  intros d4 HR4. wp_go. split; [done|]. eexists. split; [exact HR4|].
  split; [split; [by apply (inv_blocks cfg none s n2)|done]|]. simpl. split; [done|]. split; [done|].
  rewrite Hout, Hseq2, Hlog2. done.
Qed.

End Requests.
