(* ===== verification/Boot.v ===== *)
(** * Start-up on an empty drive

    Without files under [./data], [FTL_INIT] builds tables that represent the
    empty disk: every block of the drive is in the list of its plane and flash,
    once, and no logical page is mapped. *)

From stdpp Require Import prelude gmap.
From Stdlib Require Import Ascii.
From S2P Require Import Prelude Config Blocks Mapping Device Persist Tables Lists Inv Host.

Local Open Scope Z_scope.

Section Boot.
Context (cfg : config) (Hok : cfg_ok cfg).

Local Abbreviation P := (PAGE_NB cfg).
Local Abbreviation B := (BLOCK_NB cfg).
Local Abbreviation F := (FLASH_NB cfg).
Local Abbreviation L := (PLANES_PER_FLASH cfg).
Local Abbreviation chars s := (page_char cfg (block_state_table s)).

(** ** The loops over planes, flashes and blocks *)

Lemma blocks_of_plane_val fuel : forall k m, 0 <= m <= Z.of_nat fuel ->
  k + m * L >= B -> (0 < m -> k + (m - 1) * L < B) ->
  blocks_of_plane cfg fuel k = (fun t => k + t * L) <$> seqZ 0 m.
Proof using Hok.
  pose proof (ok_plane _ Hok) as HL.
  induction fuel as [|fuel IH]; intros k m Hm Hge Hlt; simpl.
  { by replace m with 0 by lia. }
  destruct (Z.ltb_spec k B) as [Hk|Hk].
  - assert (0 < m) by (destruct (decide (m = 0)); [subst; lia|lia]).
    rewrite (seqZ_cons 0 m), fmap_cons by lia. f_equal; [lia|].
    rewrite (IH (k + L) (m - 1)); [|lia|lia|intros; rewrite <- Z.add_assoc; specialize (Hlt ltac:(lia)); lia].
    replace (Z.succ 0) with (0 + 1) by lia. replace (Z.pred m) with (m - 1) by lia.
    rewrite <- (fmap_add_seqZ 1 0), <- list_fmap_compose.
    apply list_fmap_ext. intros _ t _. simpl. lia.
  - destruct (decide (m = 0)) as [->|]; [done|]. specialize (Hlt ltac:(lia)).
    assert (0 <= (m - 1) * L) by nia. lia.
Qed.

Lemma blocks_per_plane : B = B / L * L.
Proof using Hok.
  pose proof (ok_plane _ Hok). rewrite Z.mul_comm. apply Z.div_exact; [lia|].
  by apply Z.mod_divide; [lia|apply Hok].
Qed.

Lemma blocks_of_plane_init i : 0 <= i < L ->
  blocks_of_plane cfg (Z.to_nat B) i = (fun t => i + t * L) <$> seqZ 0 (B / L).
Proof using Hok.
  intros Hi. pose proof blocks_per_plane. pose proof (ok_block _ Hok).
  assert (0 <= B / L) by (apply Z.div_pos; lia). apply blocks_of_plane_val; [nia..].
Qed.

Lemma plane_flash_pairs_val :
  plane_flash_pairs cfg = (fun k => (k / F, k mod F)) <$> seqZ 0 (L * F).
Proof using Hok.
  pose proof (ok_plane _ Hok). pose proof (ok_flash _ Hok). unfold plane_flash_pairs.
  rewrite <- (Z2Nat.id L) by lia. generalize (Z.to_nat L) as m. clear -Hok H0.
  induction m as [|m IH]; [done|].
  rewrite Nat2Z.inj_succ, <- Z.add_1_r. rewrite seqZ_app by lia. rewrite bind_app, IH.
  rewrite Z.mul_add_distr_r, (seqZ_app 0 (Z.of_nat m * F) (1 * F)) by nia. rewrite fmap_app. f_equal.
  change (seqZ (0 + Z.of_nat m) 1) with [0 + Z.of_nat m]. cbn [mbind list_bind].
  rewrite app_nil_r, Z.add_0_l, Z.mul_1_l. rewrite <- (Z.add_0_r (0 + Z.of_nat m * F)).
  rewrite <- fmap_add_seqZ, <- list_fmap_compose. apply list_fmap_ext. intros ix j Hj.
  apply list_elem_of_lookup_2, elem_of_seqZ in Hj. simpl.
  f_equal; [apply (Z.div_unique_pos _ _ _ j)|apply (Z.mod_unique_pos _ _ (Z.of_nat m))]; lia.
Qed.

(** The roots of an empty drive. *)
Definition fresh_roots : list empty_block_root :=
  (fun '(i, j) => fresh_root cfg i j) <$> plane_flash_pairs cfg.

Lemma fresh_roots_length : zlen fresh_roots = F * L.
Proof using Hok.
  unfold fresh_roots. pose proof (ok_roots Hok).
  rewrite plane_flash_pairs_val, !length_fmap, length_seqZ. lia.
Qed.

Lemma fresh_roots_lookup k : 0 <= k < F * L ->
  aget fresh_roots k = Some (fresh_root cfg (k / F) (k mod F)).
Proof using Hok.
  intros Hk. unfold fresh_roots, aget. destruct (Z.leb_spec 0 k); [|lia].
  rewrite plane_flash_pairs_val, !list_lookup_fmap, lookup_seqZ_lt by lia. simpl.
  by rewrite Z2Nat.id.
Qed.

(** The plane and the flash of a root. *)
Lemma root_split k : 0 <= k < F * L -> 0 <= k / F < L /\ 0 <= k mod F < F.
Proof using Hok.
  intros Hk. pose proof (ok_flash _ Hok). split; [|apply Z.mod_pos_bound; lia].
  split; [apply Z.div_pos; lia|apply Z.div_lt_upper_bound; lia].
Qed.

Lemma fresh_root_entries i j e : 0 <= i < L ->
  e ∈ eb_list (fresh_root cfg i j) <-> exists t, 0 <= t < B / L /\ e = EBE j (i + t * L) 0.
Proof using Hok.
  intros Hi. unfold fresh_root. simpl. rewrite blocks_of_plane_init by done. split.
  - intros (k & -> & (t & -> & Ht%elem_of_seqZ)%list_elem_of_fmap)%list_elem_of_fmap.
    exists t. split; [lia|done].
  - intros (t & Ht & ->). apply list_elem_of_fmap. exists (i + t * L). split; [done|].
    apply list_elem_of_fmap. exists t. split; [done|]. apply elem_of_seqZ. lia.
Qed.

Lemma fresh_root_length i j : 0 <= i < L -> zlen (eb_list (fresh_root cfg i j)) = B / L.
Proof using Hok.
  intros Hi. unfold fresh_root. simpl. rewrite blocks_of_plane_init, !length_fmap, length_seqZ by done.
  pose proof (ok_block _ Hok). pose proof (ok_plane _ Hok).
  assert (0 <= B / L) by (apply Z.div_pos; lia). lia.
Qed.

Lemma plane_of_block i t : 0 <= i < L -> 0 <= t < B / L ->
  0 <= i + t * L < B /\ (i + t * L) mod L = i.
Proof using Hok.
  intros Hi Ht. pose proof blocks_per_plane. split; [nia|].
  rewrite Z.mod_add, Z.mod_small; lia.
Qed.

(** ** The lists hold every block once *)

Definition fresh_entries : list empty_block_entry := mjoin (eb_list <$> fresh_roots).

Lemma fresh_entry e : e ∈ fresh_entries ->
  0 <= phy_flash_nb e < F /\ 0 <= phy_block_nb e < B /\ curr_phy_page_nb e = 0.
Proof using Hok.
  intros (k & r & Hk & He)%elem_mjoin_aget. apply aget_Some_range in Hk as Hr.
  rewrite fresh_roots_length in Hr. rewrite fresh_roots_lookup in Hk by done. injection Hk as <-.
  destruct (root_split k Hr). apply fresh_root_entries in He as (t & Ht & ->); [|done]. simpl.
  destruct (plane_of_block (k / F) t); done.
Qed.

Lemma fresh_entries_length : zlen fresh_entries = B * F.
Proof using Hok.
  unfold fresh_entries. pose proof blocks_per_plane.
  assert (forall k r, aget fresh_roots k = Some r -> zlen (eb_list r) = B / L) as Hlen.
  { intros k r Hk. apply aget_Some_range in Hk as Hr. rewrite fresh_roots_length in Hr.
    rewrite fresh_roots_lookup in Hk by done. injection Hk as <-. apply fresh_root_length, root_split, Hr. }
  assert (forall l : list empty_block_root, (forall r, r ∈ l -> zlen (eb_list r) = B / L) ->
    zlen (mjoin (eb_list <$> l)) = zlen l * (B / L)) as Hsum.
  { induction l as [|r l IH]; intros Hl; [done|].
    change (mjoin (eb_list <$> r :: l)) with (eb_list r ++ mjoin (eb_list <$> l)). rewrite zlen_app, IH.
    - rewrite (Hl r) by left. simpl length. lia.
    - intros r' Hr'. apply Hl. by right. }
  rewrite Hsum; [rewrite fresh_roots_length; nia|].
  intros r [k Hk]%elem_aget. eauto.
Qed.

(** Every block is there, and there are as many entries as blocks. *)
Lemma fresh_entries_blocks : e_id cfg <$> fresh_entries ≡ₚ seqZ 0 (B * F).
Proof using Hok.
  pose proof (ok_blocks Hok). pose proof (ok_block _ Hok). pose proof (ok_plane _ Hok). symmetry.
  apply submseteq_length_Permutation.
  - apply NoDup_submseteq; [apply NoDup_seqZ|]. intros x Hx%elem_of_seqZ.
    assert (0 <= x / B < F) as Hf by (split; [apply Z.div_pos; lia|apply Z.div_lt_upper_bound; lia]).
    pose proof (Z.mod_pos_bound x B ltac:(lia)) as Hb.
    pose proof (Z.mod_pos_bound (x mod B) L ltac:(lia)) as Hp.
    assert (0 <= x mod B / L < B / L) as Ht.
    { pose proof blocks_per_plane. split; [apply Z.div_pos; lia|apply Z.div_lt_upper_bound; lia]. }
    apply list_elem_of_fmap. exists (EBE (x / B) (x mod B) 0). split.
    { unfold e_id, block_id. simpl. pose proof (Z.div_mod x B). lia. }
    apply elem_mjoin_aget. exists ((x mod B) mod L * F + x / B).
    eexists. rewrite fresh_roots_lookup by nia. split; [done|].
    rewrite <- (Z.div_unique_pos _ F ((x mod B) mod L) (x / B)) by lia.
    rewrite <- (Z.mod_unique_pos _ F ((x mod B) mod L) (x / B)) by lia.
    apply fresh_root_entries; [done|]. exists (x mod B / L). split; [done|]. f_equal.
    pose proof (Z.div_mod (x mod B) L). lia.
  - rewrite length_fmap, length_seqZ. pose proof fresh_entries_length. lia.
Qed.

(** ** Marking the blocks *)

Lemma mark_empty_spec l : forall s, tables_ok cfg s ->
  (forall e, e ∈ l -> 0 <= phy_flash_nb e < F /\ 0 <= phy_block_nb e < B) ->
  wp (mark_empty cfg l)
     (fun _ s' => exists t, s' = set_block_state_table t s /\ tables_ok cfg s' /\
        forall q, chars s' q = chars s q \/ chars s' q = Some ch0) s.
Proof using Hok.
  induction l as [|e l IH]; intros s Ht Hl; simpl.
  { wp_go. exists (block_state_table s). destruct s. split; [done|]. split; [done|]. by left. }
  destruct (Hl e) as [Hf Hb]; [left|]. apply wp_bind.
  eapply wp_mono; [by apply (update_block_empty cfg Hok)|]. intros _ s1 (t1 & -> & Ht1 & Hc1).
  eapply wp_mono; [apply IH; [done|intros e' He'; apply Hl; by right]|].
  intros _ s2 (t2 & -> & Ht2 & Hc2). exists t2. split; [done|]. split; [done|].
  intros q. destruct (Hc2 q) as [E|E]; [|by right]. rewrite E. simpl. rewrite Hc1.
  case_decide; [by right|by left].
Qed.

(** ** [FTL_INIT] *)

(** The tables before the lists are built. *)
Definition blank : ftl := Ftl
  (replicate (Z.to_nat (npages cfg)) (-1)) (replicate (Z.to_nat (npages cfg)) (-1))
  (replicate (Z.to_nat (B * F)) (BSE 0 EMPTY_BLOCK 0 (replicate (Z.to_nat P) chNUL)))
  fresh_roots [] 0 0 0 0 0.

Lemma count_valid_blank k : count_valid (replicate k chNUL) = 0.
Proof. induction k; simpl; [done|]. by rewrite IHk. Qed.

Lemma blank_ok : tables_ok cfg blank.
Proof using Hok.
  pose proof (ok_blocks Hok). pose proof (ok_page _ Hok).
  assert (0 <= npages cfg) by (unfold npages; nia).
  split; simpl; rewrite ?length_replicate; try lia.
  intros i e He. apply aget_elem, elem_of_replicate in He as [-> _]. simpl.
  rewrite length_replicate, count_valid_blank. lia.
Qed.

Lemma blank_chars q : chars blank q <> Some chV.
Proof.
  unfold page_char. simpl. destruct (aget _ _) as [e|] eqn:He; [|done]. simpl.
  apply aget_elem, elem_of_replicate in He as [-> _]. simpl.
  intros [E _]%aget_elem%elem_of_replicate. done.
Qed.

Lemma fresh_lists_ok s : empty_block_list s = fresh_roots ->
  victim_block_list s = replicate (Z.to_nat (F * L)) (VBR [] 0) ->
  total_empty_block_nb s = B * F -> total_victim_block_nb s = 0 -> empty_block_table_index s = 0 ->
  lists_ok cfg s.
Proof using Hok.
  intros He Hv Hte Htv Hi. pose proof (ok_roots Hok). pose proof (ok_page _ Hok).
  assert (victims s = []) as Hvs.
  { unfold victims. rewrite Hv. clear. induction (Z.to_nat (F * L)) as [|k IH]; [done|exact IH]. }
  assert (empties s = fresh_entries) as Hes by (unfold empties; by rewrite He).
  split.
  - by rewrite He, fresh_roots_length.
  - rewrite Hv, length_replicate. lia.
  - rewrite He. intros k r Hk. apply aget_Some_range in Hk as Hr. rewrite fresh_roots_length in Hr.
    rewrite fresh_roots_lookup in Hk by done. injection Hk as <-. destruct (root_split k Hr) as [Hp Hf].
    split.
    { rewrite fresh_root_length by done. simpl. rewrite (ok_each _ Hok). apply u32_id.
      pose proof (ok_blocks Hok). pose proof blocks_per_plane. nia. }
    intros e (t & Ht & ->)%fresh_root_entries; [|done]. destruct (plane_of_block _ _ Hp Ht) as [Hb Hm].
    unfold entry_ok. simpl. split; [lia|].
    destruct (root_index_val cfg Hok (k mod F) (k / F + t * L) Hf Hb) as [-> _].
    rewrite Hm. pose proof (Z.div_mod k F). lia.
  - rewrite Hv. intros k r [-> _]%aget_elem%elem_of_replicate. split; [done|].
    intros v Hin. by inversion Hin.
  - rewrite He. intros k r e Hk Hin. apply (fresh_entry e), elem_mjoin_aget. exists k, r.
    split; [done|]. destruct (eb_list r); [done|by right].
  - unfold listed. rewrite Hes, Hvs, app_nil_r, fresh_entries_blocks. apply NoDup_seqZ.
  - by rewrite Hte, Hes, fresh_entries_length.
  - by rewrite Htv, Hvs.
  - rewrite Hi. lia.
Qed.

(** No page of them is written. *)
Lemma fresh_space s : empty_block_list s = fresh_roots ->
  victim_block_list s = replicate (root_count cfg) (VBR [] 0) ->
  listed cfg s ≡ₚ seqZ 0 (B * F) /\ free_pages cfg s = P * (B * F).
Proof using Hok.
  intros He Hv. assert (empties s = fresh_entries) as Hes by (unfold empties; by rewrite He).
  assert (victims s = []) as Hvs.
  { unfold victims. rewrite Hv. clear. induction (root_count cfg) as [|k IH]; [done|exact IH]. }
  split; [unfold listed; by rewrite Hes, Hvs, app_nil_r, fresh_entries_blocks|].
  unfold free_pages. rewrite Hes, <- fresh_entries_length.
  assert (forall e, e ∈ fresh_entries -> P - curr_phy_page_nb e = P) as Hc.
  { intros e Hin. destruct (fresh_entry e Hin) as (_ & _ & ->). lia. }
  revert Hc. generalize fresh_entries as l. clear. intros l Hc.
  induction l as [|e l IH]; simpl; [lia|]. rewrite IH by (intros e' He'; apply Hc; by right). rewrite (Hc e) by left. lia.
Qed.

Lemma init_tables_spec :
  wp (INIT_TABLES cfg no_files) (fun _ s => represents cfg s nand0 (Host ∅ 0) /\
    listed cfg s ≡ₚ seqZ 0 (B * F) /\ free_pages cfg s = P * (B * F)) ftl0.
Proof using Hok.
  unfold INIT_TABLES, INIT_MAPPING_TABLE, INIT_INVERSE_MAPPING_TABLE, INIT_BLOCK_STATE_TABLE,
    INIT_VALID_ARRAY, INIT_EMPTY_BLOCK_LIST, INIT_VICTIM_BLOCK_LIST. simpl. wp_go.
  rewrite (ok_pme _ Hok), (ok_bme _ Hok). fold (npages cfg). fold fresh_roots. fold fresh_entries.
  match goal with |- wp (mark_empty _ _) _ ?s => assert (s = blank) as -> end.
  { unfold blank, set_empty_block_list. f_equal. simpl block_state_table.
    by rewrite (fmap_replicate _ (Z.to_nat (B * F))). }
  eapply wp_mono; [apply mark_empty_spec; [apply blank_ok|]|].
  { intros e He. by destruct (fresh_entry e He) as (? & ? & _). }
  intros _ s1 (t & -> & Ht1 & Hc1). wp_go.
  match goal with |- represents _ ?s _ _ /\ _ => set (s' := s) end.
  split; [|by apply fresh_space].
  assert (forall q, chars s' q <> Some chV) as HV.
  { intros q. destruct (Hc1 q) as [E|E]; simpl in E |- *; rewrite E; [apply blank_chars|done]. }
  split; [|done]. split.
  - destruct Ht1. by split.
  - apply fresh_lists_ok; try done. simpl. unfold root_count. f_equal. f_equal. lia.
  - intros e He. change (empties s') with fresh_entries in He. by destruct (fresh_entry e He) as (_ & _ & ->).
  - intros q Hq. by destruct (HV q).
  - intros lpn ppn Hm Hne. apply aget_elem, elem_of_replicate in Hm as [-> _]. done.
  - intros q Hq. by destruct (HV q).
  - intros lpn ppn Hm. apply aget_elem, elem_of_replicate in Hm as [-> _]. done.
Qed.

End Boot.
