(* ===== verification/Reload.v ===== *)
(** * Shutdown and start-up again

    What [FTL_TERM] writes to the files, [FTL_INIT] reads back: the drive
    represents the same disk after a restart. *)

From stdpp Require Import prelude gmap.
From Stdlib Require Import Ascii.
From S2P Require Import Prelude Config Blocks Mapping Device Persist Tables Lists Inv Host.

Local Open Scope Z_scope.

(** ** Reading back what was written *)

Lemma fwrite_all {A} n (l : list A) : zlen l = n -> fwrite n l = Some l.
Proof.
  intros <-. unfold fwrite. destruct (Z.ltb_spec (zlen l) (zlen l)); [lia|].
  by rewrite Nat2Z.id, take_ge.
Qed.

Lemma fread_all {A} n (z : A) l : length l = n -> fread n z l = l.
Proof. intros <-. unfold fread. by rewrite take_ge, Nat.sub_diag, app_nil_r. Qed.

Lemma fread_rest_app {A} n (z : A) l k : length l = n -> fread_rest n z (l ++ k) = (l, k).
Proof.
  intros <-. unfold fread_rest, fread. rewrite take_app_length, drop_app_length, length_app.
  replace (length l - (length l + length k))%nat with 0%nat by lia. by rewrite app_nil_r.
Qed.

Lemma mapM_fwrite {A B} (f : A -> list B) (g : A -> Z) l :
  (forall a, a ∈ l -> zlen (f a) = g a) -> mapM (fun a => fwrite (g a) (f a)) l = Some (f <$> l).
Proof.
  induction l as [|a l IH]; intros H; [done|]. simpl. rewrite fwrite_all by (apply H; left). simpl.
  rewrite IH; [done|]. intros a' Ha'. apply H. by right.
Qed.

Lemma load_roots_all {A B} (z : A) (f : B -> list A) (g : B -> Z) (l : list B) :
  (forall b, b ∈ l -> g b = zlen (f b)) -> load_roots z (g <$> l) (mjoin (f <$> l)) = f <$> l.
Proof.
  induction l as [|b l IH]; intros H; [done|].
  change (mjoin (f <$> b :: l)) with (f b ++ mjoin (f <$> l)).
  rewrite !fmap_cons. cbn [load_roots].
  rewrite fread_rest_app by (rewrite (H b) by left; lia). f_equal. apply IH. intros b' Hb'. apply H. by right.
Qed.

Lemma sum_lengths {A B} (f : B -> list A) (g : B -> Z) (l : list B) :
  (forall b, b ∈ l -> g b = zlen (f b)) -> foldr Z.add 0 (g <$> l) = zlen (mjoin (f <$> l)).
Proof.
  induction l as [|b l IH]; intros H; [done|].
  change (mjoin (f <$> b :: l)) with (f b ++ mjoin (f <$> l)). simpl.
  rewrite zlen_app, (H b) by left. f_equal. apply IH. intros b' Hb'. apply H. by right.
Qed.

Section Reload.
Context (cfg : config) (Hok : cfg_ok cfg).

Local Abbreviation P := (PAGE_NB cfg).
Local Abbreviation B := (BLOCK_NB cfg).
Local Abbreviation F := (FLASH_NB cfg).
Local Abbreviation L := (PLANES_PER_FLASH cfg).

Definition strip (e : block_state_entry) : Z * Z * Z := (valid_page_nb e, bs_type e, erase_count e).

Lemma load_valid_arrays_all l : (forall e, e ∈ l -> zlen (valid_array e) = P) ->
  load_valid_arrays cfg ((fun '(v, t, k) => BSE v t k []) <$> (strip <$> l)) (mjoin (valid_array <$> l)) = l.
Proof.
  induction l as [|e l IH]; intros H; [done|].
  change (mjoin (valid_array <$> e :: l)) with (valid_array e ++ mjoin (valid_array <$> l)).
  rewrite !fmap_cons. cbn [load_valid_arrays].
  rewrite fread_rest_app by (pose proof (H e ltac:(left)); lia). destruct e. simpl. f_equal.
  apply IH. intros e' He'. apply H. by right.
Qed.

(** The files after a shutdown. *)
Definition image (s : ftl) : files := Files
  (Some (mapping_table s)) (Some (inverse_mapping_table s)) (Some (strip <$> block_state_table s))
  (Some (mjoin (valid_array <$> block_state_table s)))
  (Some (empty_block_nb <$> empty_block_list s, empties s))
  (Some (victim_block_nb <$> victim_block_list s, victims s)).

Section State.
Context (s : ftl) (Ht : tables_ok cfg s) (Hl : lists_ok cfg s).

Lemma empty_counts r : r ∈ empty_block_list s -> empty_block_nb r = zlen (eb_list r).
Proof using Hl. intros [i Hi]%elem_aget. by apply (lo_empty _ s Hl i r Hi). Qed.

Lemma victim_counts r : r ∈ victim_block_list s -> victim_block_nb r = zlen (vb_list r).
Proof using Hl. intros [i Hi]%elem_aget. by apply (lo_victim _ s Hl i r Hi). Qed.

Lemma array_lengths e : e ∈ block_state_table s -> zlen (valid_array e) = P.
Proof using Ht. intros [i Hi]%elem_aget. by apply (t_entry _ s Ht i e Hi). Qed.

Lemma term_tables_spec fs :
  wp (TERM_TABLES cfg true) (fun _ w => snd w = image s) (s, fs).
Proof using Hok Ht Hl.
  pose proof (fwrite_all (PAGE_MAPPING_ENTRY_NB cfg) (mapping_table s)) as W1.
  pose proof (fwrite_all (PAGE_MAPPING_ENTRY_NB cfg) (inverse_mapping_table s)) as W2.
  pose proof (fwrite_all (BLOCK_MAPPING_ENTRY_NB cfg) (block_state_table s)) as W3.
  pose proof (fwrite_all (L * F) (empty_block_list s)) as W4.
  pose proof (fwrite_all (L * F) (victim_block_list s)) as W5.
  rewrite (ok_pme _ Hok), (t_mapping _ s Ht) in W1. rewrite (ok_pme _ Hok), (t_inverse _ s Ht) in W2.
  rewrite (ok_bme _ Hok), (t_blocks _ s Ht) in W3. rewrite (lo_elen _ s Hl) in W4.
  rewrite (lo_vlen _ s Hl) in W5.
  specialize (W1 eq_refl). specialize (W2 eq_refl). specialize (W3 eq_refl).
  specialize (W4 ltac:(lia)). specialize (W5 ltac:(lia)).
  pose proof (mapM_fwrite valid_array (fun _ => P) (block_state_table s) array_lengths) as W6.
  pose proof (mapM_fwrite eb_list empty_block_nb (empty_block_list s)
    (fun r Hr => eq_sym (empty_counts r Hr))) as W7.
  pose proof (mapM_fwrite vb_list victim_block_nb (victim_block_list s)
    (fun r Hr => eq_sym (victim_counts r Hr))) as W8.
  unfold TERM_TABLES, TERM_MAPPING_TABLE, TERM_INVERSE_MAPPING_TABLE, TERM_VALID_ARRAY,
    TERM_BLOCK_STATE_TABLE, TERM_EMPTY_BLOCK_LIST, TERM_VICTIM_BLOCK_LIST. cbn [negb].
  rewrite (ok_pme _ Hok), (ok_bme _ Hok). wp_go. done.
Qed.

(** Everything comes back but the position in the table of empty blocks, which
    restarts at 0; the counters of the collector are those of the new run. *)
Lemma init_image_spec s0 : wp (INIT_TABLES cfg (image s))
  (fun _ s' => s' = Ftl (mapping_table s) (inverse_mapping_table s) (block_state_table s)
     (empty_block_list s) (victim_block_list s) (total_empty_block_nb s) (total_victim_block_nb s)
     0 (gc_count s0) (fail_cnt s0)) s0.
Proof using Hok Ht Hl.
  pose proof (ok_blocks Hok). pose proof (ok_roots Hok). pose proof (ok_page _ Hok).
  assert (0 <= npages cfg) by (unfold npages; nia).
  pose proof (t_mapping _ s Ht). pose proof (t_inverse _ s Ht). pose proof (t_blocks _ s Ht).
  pose proof (lo_elen _ s Hl). pose proof (lo_vlen _ s Hl).
  unfold INIT_TABLES, INIT_MAPPING_TABLE, INIT_INVERSE_MAPPING_TABLE, INIT_BLOCK_STATE_TABLE,
    INIT_VALID_ARRAY, INIT_EMPTY_BLOCK_LIST, INIT_VICTIM_BLOCK_LIST, image.
  cbn [mapping_table_dat inverse_mapping_dat block_state_table_dat valid_array_dat
       empty_block_list_dat victim_block_list_dat]. wp_go.
  rewrite (ok_pme _ Hok), (ok_bme _ Hok). fold (npages cfg).
  rewrite (fread_all _ 0 (mapping_table s)), (fread_all _ 0 (inverse_mapping_table s)) by lia.
  rewrite (fread_all _ (0, 0, 0)) by (rewrite length_fmap; lia).
  rewrite !(fread_all (root_count cfg)) by (rewrite length_fmap; unfold root_count; lia).
  unfold empties, victims. rewrite (load_roots_all _ eb_list), (load_roots_all _ vb_list) by
    (exact empty_counts || exact victim_counts).
  rewrite (sum_lengths eb_list), (sum_lengths vb_list) by (exact empty_counts || exact victim_counts).
  fold (empties s). fold (victims s). rewrite <- (lo_te _ s Hl), <- (lo_tv _ s Hl).
  unfold set_total_victim_block_nb. simpl. rewrite load_valid_arrays_all by exact array_lengths.
  f_equal.
  - clear. induction (empty_block_list s) as [|[l k] rs IH]; [done|]. simpl. by f_equal.
  - clear. induction (victim_block_list s) as [|[l k] rs IH]; [done|]. simpl. by f_equal.
Qed.

End State.

(** A restart keeps what the drive represents. *)
Lemma reload_represents s n h (s' : ftl) k c : represents cfg s n h ->
  s' = Ftl (mapping_table s) (inverse_mapping_table s) (block_state_table s)
     (empty_block_list s) (victim_block_list s) (total_empty_block_nb s) (total_victim_block_nb s) 0 k c ->
  represents cfg s' n h.
Proof using Hok.
  intros [Hi Hv] ->. split; [|done]. apply (inv_same_tables cfg _ s); try done.
  - destruct (i_lists _ _ _ _ _ Hi). split; try done. simpl. pose proof (ok_roots Hok). lia.
  - apply (i_link _ _ _ _ _ Hi).
Qed.

End Reload.
