(* ===== verification/SsdLaws.v ===== *)
(** * The flash module obeys the laws of a device

    Every command of [ssd_io_manager.c] that the specification machine allows
    returns [SUCCESS]: the busy-waiting loops end, no array is accessed outside
    of its bounds, and the page of a request that is updated is a page of that
    request. *)

From stdpp Require Import prelude.
From S2P Require Import Prelude Config Blocks Device Perf SsdIo.

Local Open Scope Z_scope.

(** ** Requests *)

(** The number of requests allocated when [seq] are closed. *)
Definition issued (seq : Z) (open : option Z) : Z := seq + match open with Some _ => 1 | None => 0 end.

Definition open_request_ok (seq : Z) (open : option Z) (r : io_request) : Prop :=
  1 <= request_size r < 2 ^ 15 /\ zlen (start_time r) = request_size r /\
  zlen (end_time r) = request_size r /\ 0 <= request_nb r < issued seq open /\
  (forall k, open = Some k -> request_nb r = seq -> request_size r = k).

Record perf_ok (seq : Z) (open : option Z) (p : perf) : Prop := {
  po_seq : io_request_seq_nb p = seq;
  po_nb : io_request_nb p = zlen (io_requests p);
  po_len : zlen (io_requests p) <= issued seq open;
  po_range : 0 <= seq /\ issued seq open < 2 ^ 32;
  po_req r : r ∈ io_requests p -> open_request_ok seq open r
}.

(** No request appears or changes its size. *)
Definition older (p p' : perf) : Prop :=
  forall r', r' ∈ io_requests p' -> exists r, r ∈ io_requests p /\
    request_nb r' = request_nb r /\ request_size r' = request_size r.

Lemma older_refl p : older p p.
Proof. intros r Hr. eauto. Qed.

Lemma older_trans p1 p2 p3 : older p1 p2 -> older p2 p3 -> older p1 p3.
Proof.
  intros H1 H2 r (r2 & Hr2 & -> & ->)%H2. apply H1 in Hr2. done.
Qed.

Section Perf.
Context (cfg : config) {C : Clock} {CL : ClockLaws C}.
Context (seq : Z) (open : option Z).
Implicit Types p : perf.

(** An update of the statistics or the clock does not touch the requests. *)
Lemma perf_ok_same p p' : io_request_seq_nb p' = io_request_seq_nb p ->
  io_request_nb p' = io_request_nb p -> io_requests p' = io_requests p ->
  perf_ok seq open p -> perf_ok seq open p'.
Proof. intros E1 E2 E3 []. split; rewrite ?E1, ?E2, ?E3; done. Qed.

Lemma older_same p p' : io_requests p' = io_requests p -> older p p'.
Proof. intros E r Hr. rewrite E in Hr. eauto. Qed.

Lemma get_usec_spec p : wp get_usec (fun t p' => t = usec (clock_reads p) /\
  p' = set_clock_reads (S (clock_reads p)) p) p.
Proof. unfold get_usec. by wp_go. Qed.

Definition keeps_requests (f : perf -> perf) : Prop := forall p,
  clock_reads (f p) = clock_reads p /\ io_request_seq_nb (f p) = io_request_seq_nb p /\
  io_request_nb (f p) = io_request_nb p /\ io_requests (f p) = io_requests p /\ ftl_log (f p) = ftl_log p.

Lemma send_keeps op d ty : keeps_requests (fun p =>
    if ty =? CH_OP then send_ch_op op d p
    else if ty =? REG_OP then send_reg_op cfg op d p
    else if ty =? LATENCY_OP then send_latency_op cfg op d p else p).
Proof.
  intros p. unfold send_ch_op, send_reg_op, send_latency_op.
  repeat (case_match; try done); split_and!; try done; unfold ftl_log; simpl;
    rewrite filter_app, filter_cons_False, app_nil_r by done; done.
Qed.

Lemma send_spec op d ty p : wp (SEND_TO_PERF_CHECKER cfg op d ty) (fun _ p' =>
  clock_reads p' = clock_reads p /\ io_request_seq_nb p' = io_request_seq_nb p /\
  io_request_nb p' = io_request_nb p /\ io_requests p' = io_requests p /\ ftl_log p' = ftl_log p) p.
Proof. unfold SEND_TO_PERF_CHECKER. wp_go. apply (send_keeps op (dbl_of_Z d) ty p). Qed.

Lemma lookup_loop_spec n nb l i : lookup_loop n nb l = Some i ->
  exists r, l !! i = Some r /\ request_nb r = nb.
Proof.
  revert n i. induction l as [|r l IH]; intros [|n] i; simpl; try done.
  destruct (Z.eqb_spec (request_nb r) nb) as [E|E].
  - intros [= <-]. by exists r.
  - intros (j & Hj & ->)%fmap_Some. by apply (IH n).
Qed.

(** A request in the list leaves it. *)
Lemma free_spec p i : perf_ok seq open p -> (i < length (io_requests p))%nat ->
  wp (FREE_IO_REQUEST i) (fun _ p' => perf_ok seq open p' /\ older p p' /\
    io_requests p' = delete i (io_requests p)) p.
Proof.
  intros Hp Hi. pose proof (po_nb _ _ _ Hp) as Hnb. pose proof (po_len _ _ _ Hp) as Hlen.
  pose proof (po_range _ _ _ Hp) as Hr.
  assert (wp (FREE_IO_REQUEST i) (fun _ p' =>
    p' = set_io_requests (delete i (io_requests p)) (zlen (io_requests p) - 1) p) p) as Hrun.
  { unfold FREE_IO_REQUEST. wp_go. rewrite Hnb.
    assert (u32 (zlen (io_requests p) - 1) = zlen (io_requests p) - 1) as -> by (apply u32_id; lia).
    destruct (Z.eqb_spec (zlen (io_requests p)) 1) as [E|E].
    { wp_go. f_equal. destruct (io_requests p) as [|r [|? ?]]; simpl in *; try lia.
      by replace i with 0%nat by lia. }
    destruct (Nat.eqb_spec i 0) as [->|].
    { wp_go. f_equal. by destruct (io_requests p). }
    destruct (Z.leb_spec (Z.of_nat i) (zlen (io_requests p) - 1)); [|lia]. by wp_go. }
  eapply wp_mono; [exact Hrun|]. intros _ _ ->.
  assert (forall r, r ∈ delete i (io_requests p) -> r ∈ io_requests p) as Hsub.
  { intros r Hin. destruct (lookup_lt_is_Some_2 _ _ Hi) as [x Hx].
    rewrite (delete_Permutation _ _ _ Hx). by right. }
  split; [|split; [|done]].
  - destruct Hp. split; simpl; [done| |..]; rewrite ?length_delete; eauto using lookup_lt_is_Some_2; lia.
  - intros r Hin. exists r. split; [by apply Hsub|done].
Qed.

(** *** The latency *)

Lemma calc_latency_Some r : 1 <= request_size r -> zlen (start_time r) = request_size r ->
  zlen (end_time r) = request_size r -> is_Some (CALC_IO_LATENCY cfg r).
Proof.
  intros Hs H1 H2. unfold CALC_IO_LATENCY.
  destruct (Z.eqb_spec (request_size r) 0); [lia|].
  destruct (Z.ltb_spec (zlen (start_time r)) (request_size r)); [lia|].
  destruct (Z.ltb_spec (zlen (end_time r)) (request_size r)); [lia|]. simpl.
  destruct (start_time r) as [|s0 ss]; [simpl in *; lia|].
  destruct (end_time r) as [|e0 es]; [simpl in *; lia|].
  replace (Z.to_nat (request_size r)) with (S (length ss)) by (simpl in *; lia).
  simpl. eauto.
Qed.

(** *** [UPDATE_IO_REQUEST] *)

(** A request after the update of one of its times. *)
Definition updated (r r' : io_request) : Prop :=
  request_nb r' = request_nb r /\ request_type r' = request_type r /\
  request_size r' = request_size r /\
  length (start_time r') = length (start_time r) /\ length (end_time r') = length (end_time r).

Lemma updated_ok r r' : updated r r' -> open_request_ok seq open r -> open_request_ok seq open r'.
Proof.
  intros (E1 & _ & E2 & E3 & E4). unfold open_request_ok. by rewrite E1, E2, E3, E4.
Qed.

Lemma insert_request_ok p i r r' : perf_ok seq open p -> io_requests p !! i = Some r -> updated r r' ->
  perf_ok seq open (set_io_requests (<[i := r']> (io_requests p)) (io_request_nb p) p) /\
  older p (set_io_requests (<[i := r']> (io_requests p)) (io_request_nb p) p).
Proof.
  intros Hp Hi Hu.
  assert (forall x, x ∈ <[i := r']> (io_requests p) -> x = r' \/ x ∈ io_requests p) as Hin.
  { intros x [j Hj]%list_elem_of_lookup. destruct (decide (j = i)) as [->|].
    - left. rewrite list_lookup_insert_eq in Hj by (by eapply lookup_lt_Some). congruence.
    - right. rewrite list_lookup_insert_ne in Hj by done. by eapply list_elem_of_lookup_2. }
  assert (r ∈ io_requests p) as Hr by by eapply list_elem_of_lookup_2.
  split.
  - destruct Hp. split; simpl; rewrite ?length_insert; try done.
    intros x [->|Hx]%Hin; [|auto]. eapply updated_ok; eauto.
  - intros x [->|Hx]%Hin; [|eauto]. exists r. destruct Hu as (? & _ & ? & _). done.
Qed.

Lemma update_io_request_spec nb offset time type p : perf_ok seq open p ->
  (forall r, r ∈ io_requests p -> request_nb r = u32 nb -> 0 <= offset < request_size r) ->
  wp (UPDATE_IO_REQUEST cfg nb offset time type)
     (fun _ p' => perf_ok seq open p' /\ older p p') p.
Proof.
  intros Hp Hoff. unfold UPDATE_IO_REQUEST. apply wp_bind.
  eapply wp_mono; [apply get_usec_spec|]. intros start p0 [_ ->].
  set (p0 := set_clock_reads _ _). assert (perf_ok seq open p0) as Hp0 by by apply (perf_ok_same p).
  assert (older p p0) as Ho0 by by apply older_same. change (io_requests p) with (io_requests p0) in Hoff.
  destruct (nb =? -1); [by wp_go|]. unfold LOOKUP_IO_REQUEST. wp_go.
  destruct (lookup_loop _ _ _) as [i|] eqn:Hl; [|by wp_go].
  apply lookup_loop_spec in Hl as (r & Hi & Hnb). wp_go.
  assert (r ∈ io_requests p0) as Hr by by eapply list_elem_of_lookup_2.
  destruct (po_req _ _ _ Hp0 r Hr) as (Hs & H1 & H2 & _). pose proof (Hoff r Hr Hnb) as Ho.
  apply wp_mono with (P := fun r' p' => p' = p0 /\ updated r r').
  { destruct (aset_range (start_time r) offset time) as [t1 Ht1]; [lia|].
    destruct (aset_range (end_time r) offset time) as [t2 Ht2]; [lia|].
    apply aset_length in Ht1 as ?, Ht2 as ?. repeat case_match; wp_go; done. }
  intros r' ? [-> Hu]. wp_go. destruct (insert_request_ok p0 i r r' Hp0 Hi Hu) as [Hp1 Ho1].
  set (p1 := set_io_requests _ _ p0) in *.
  apply wp_mono with (P := fun _ p' => perf_ok seq open p' /\ older p0 p').
  { case_match; [|by wp_go].
    assert (open_request_ok seq open r') as (Hs' & H1' & H2' & _) by (eapply updated_ok; eauto using po_req).
    destruct (calc_latency_Some r') as [lat Hlat]; [lia|done|done|]. wp_go.
    eapply wp_mono; [apply send_spec|]. intros _ p2 (_ & E1 & E2 & E3 & _).
    assert (perf_ok seq open p2) as Hp2 by by apply (perf_ok_same p1).
    eapply wp_mono; [apply free_spec; [done|]|].
    - rewrite E3. simpl. rewrite length_insert. by eapply lookup_lt_Some.
    - intros _ p3 (Hp3 & Ho3 & _). split; [done|].
      eapply older_trans; [exact Ho1|]. eapply older_trans; [|exact Ho3]. by apply older_same. }
  intros _ p2 [Hp2 Ho2]. apply wp_bind. eapply wp_mono; [apply get_usec_spec|].
  intros e p3 [_ ->]. wp_go. split; [by apply (perf_ok_same p2)|].
  eapply older_trans; [exact Ho2|]. by apply older_same.
Qed.

End Perf.

(** ** Registers *)

Section Io.
Context (cfg : config) (Hok : cfg_ok cfg) {C : Clock} {CL : ClockLaws C}.

Local Abbreviation L := (PLANES_PER_FLASH cfg).
Local Abbreviation F := (FLASH_NB cfg).
Local Abbreviation K := (FLASH_NB cfg * PLANES_PER_FLASH cfg).

(** The arrays have an element for each register, and a register that works for
    a page of a request works for a page that the request has. *)
Record io_ok (seq : Z) (open : option Z) (p : perf) (s : io) : Prop := {
  io_cmd : zlen (reg_io_cmd s) = K;
  io_type : zlen (reg_io_type s) = K;
  io_time : zlen (reg_io_time s) = K;
  io_cell : zlen (cell_io_time s) = K;
  io_access : zlen (access_nb s) = K;
  io_over : zlen (io_overhead s) = K;
  io_page i a o : aget (access_nb s) i = Some (a, o) -> a = -1 \/
    (0 <= u32 a < issued seq open /\
     forall r, r ∈ io_requests p -> request_nb r = u32 a -> 0 <= o < request_size r)
}.

Definition mod_ok (seq : Z) (open : option Z) (w : module) : Prop :=
  perf_ok seq open (fst w) /\ io_ok seq open (fst w) (snd w).

Definition reg_ok (reg : Z) : Prop := 0 <= reg < K.

(** [m] returns and keeps the invariant; [clears l] also says which transfers
    end: those of the registers of [l]. *)
Definition keeps {A} (m : M module A) : Prop := forall seq open w,
  mod_ok seq open w -> wp m (fun _ w' => mod_ok seq open w') w.

Definition cleared (l : list Z) (t t' : list Z) : Prop :=
  length t' = length t /\
  forall i, aget t' i = if decide (i ∈ l) then (if decide (0 <= i < zlen t) then Some (-1) else None)
                        else aget t i.

Definition clears (l : list Z) {A} (m : M module A) : Prop := forall seq open w,
  mod_ok seq open w -> wp m (fun _ w' => mod_ok seq open w' /\
    cleared l (reg_io_time (snd w)) (reg_io_time (snd w'))) w.

Lemma cleared_nil t : cleared [] t t.
Proof. split; [done|]. intros i. rewrite decide_False; [done|]. by apply not_elem_of_nil. Qed.

Lemma cleared_app l l' t t' t'' : cleared l t t' -> cleared l' t' t'' -> cleared (l ++ l') t t''.
Proof.
  intros [H1 H2] [H3 H4]. split; [congruence|]. intros i. rewrite H4, H2, H1.
  destruct (decide (i ∈ l')), (decide (i ∈ l)), (decide (i ∈ l ++ l')) as [Hin|Hin]; try done;
    rewrite elem_of_app in Hin; tauto.
Qed.

Lemma clears_keeps l {A} (m : M module A) : clears l m -> keeps m.
Proof.
  intros H seq open w Hw. eapply wp_mono; [by apply H|]. by intros ? ? [? _].
Qed.

(** *** Composition *)

Lemma clears_ret {A} (a : A) : clears [] (mret a).
Proof. intros seq open w Hw. wp_go. split; [done|apply cleared_nil]. Qed.

Lemma clears_bind l l' {A B} (m : M module A) (k : A -> M module B) :
  clears l m -> (forall a, clears l' (k a)) -> clears (l ++ l') (m ≫= k).
Proof.
  intros Hm Hk seq open w Hw. apply wp_bind. eapply wp_mono; [by apply Hm|].
  intros a w' [Hw' Hc]. eapply wp_mono; [by apply Hk|]. intros b w'' [Hw'' Hc'].
  split; [done|]. by eapply cleared_app.
Qed.

(** A step that ends no transfer. *)
Lemma clears_then l {A B} (m : M module A) (k : A -> M module B) :
  clears [] m -> (forall a, clears l (k a)) -> clears l (m ≫= k).
Proof. intros. by apply (clears_bind [] l). Qed.

Lemma keeps_ret {A} (a : A) : keeps (mret a).
Proof. by intros seq open w Hw. Qed.

Lemma keeps_bind {A B} (m : M module A) (k : A -> M module B) :
  keeps m -> (forall a, keeps (k a)) -> keeps (m ≫= k).
Proof.
  intros Hm Hk seq open w Hw. apply wp_bind. eapply wp_mono; [by apply Hm|].
  intros a w' Hw'. by apply Hk.
Qed.

(** *** Primitive steps *)

Lemma io_ok_older seq open p p' s : older p p' -> io_ok seq open p s -> io_ok seq open p' s.
Proof.
  intros Ho []. split; try done. intros i a o Ha.
  destruct (io_page0 i a o Ha) as [?|[? Hr]]; [by left|right]. split; [done|].
  intros r' (r & Hin & -> & ->)%Ho Hnb. by apply Hr.
Qed.

Lemma mod_ok_fst seq open w p' : mod_ok seq open w -> perf_ok seq open p' -> older (fst w) p' ->
  mod_ok seq open (p', snd w).
Proof. intros [_ Hs] Hp Ho. split; [done|]. simpl. by eapply io_ok_older. Qed.

Lemma clears_now : clears [] (now).
Proof.
  intros seq open [p s] Hw. unfold now. apply wp_on_fst. eapply wp_mono; [apply get_usec_spec|].
  intros t p' [_ ->]. split; [|apply cleared_nil]. apply (mod_ok_fst _ _ (p, s)); [done| |].
  - eapply perf_ok_same; [..|apply Hw]; done.
  - by apply older_same.
Qed.

Lemma clears_send op d ty : clears [] (on_fst (SEND_TO_PERF_CHECKER cfg op d ty) : M module unit).
Proof.
  intros seq open [p s] Hw. apply wp_on_fst. eapply wp_mono; [apply send_spec|].
  intros [] p' (_ & E1 & E2 & E3 & _). split; [|apply cleared_nil]. apply (mod_ok_fst _ _ (p, s)); [done| |].
  - eapply perf_ok_same; [..|apply Hw]; done.
  - by apply older_same.
Qed.

Lemma clears_perf_gets {A} (f : perf -> A) : clears [] (on_fst (gets f) : M module A).
Proof. intros seq open [p s] Hw. wp_go. split; [done|apply cleared_nil]. Qed.

Lemma clears_io_gets {A} (f : io -> A) : clears [] (io_gets f).
Proof. intros seq open [p s] Hw. unfold io_gets. wp_go. split; [done|apply cleared_nil]. Qed.

Lemma io_rd_spec {A} (f : io -> list A) reg (w : module) : 0 <= reg < zlen (f (snd w)) ->
  wp (io_rd f reg) (fun a w' => w' = w /\ aget (f (snd w)) reg = Some a) w.
Proof.
  intros Hreg. destruct w as [p s]. destruct (aget_range _ _ Hreg) as [x Hx]. simpl in Hx.
  unfold io_rd, rd. by wp_go.
Qed.

(** Reading an array of the module at a register. *)
Lemma clears_io_rd {A} (f : io -> list A) reg : reg_ok reg ->
  (forall seq open p s, io_ok seq open p s -> zlen (f s) = K) -> clears [] (io_rd f reg).
Proof.
  intros Hreg Hf seq open [p s] Hw. unfold io_rd, rd. pose proof Hw as [_ Hs]. simpl in Hs.
  destruct (aget_range (f s) reg) as [x Hx]; [by rewrite (Hf _ _ _ _ Hs)|].
  wp_go. split; [done|apply cleared_nil].
Qed.

Lemma clears_io_modify f :
  (forall seq open p s, io_ok seq open p s -> io_ok seq open p (f s)) ->
  (forall s, reg_io_time (f s) = reg_io_time s) -> clears [] (io_modify f).
Proof.
  intros Hf Ht seq open [p s] [Hp Hs]. unfold io_modify. wp_go.
  split; [split; [done|by apply Hf]|]. simpl. rewrite Ht. apply cleared_nil.
Qed.

(** Writing one of the arrays that hold no page number and no transfer time. *)
Lemma clears_io_wr {A} (f : io -> list A) set reg x : reg_ok reg ->
  (forall seq open p s, io_ok seq open p s -> zlen (f s) = K) ->
  (forall seq open p s l, io_ok seq open p s -> length l = length (f s) -> io_ok seq open p (set l s)) ->
  (forall l s, reg_io_time (set l s) = reg_io_time s) -> clears [] (io_wr f set reg x).
Proof.
  intros Hreg Hf Hset Ht seq open [p s] [Hp Hs]. unfold io_wr, wr. simpl in Hp, Hs.
  destruct (aset_range (f s) reg x) as [l Hl]; [by rewrite (Hf _ _ _ _ Hs)|]. wp_go.
  split; [split; [done|]|]; simpl.
  - apply Hset; [done|]. by eapply aset_length.
  - rewrite Ht. apply cleared_nil.
Qed.

Lemma clears_wr_cmd reg x : reg_ok reg -> clears [] (io_wr reg_io_cmd set_reg_io_cmd reg x).
Proof.
  intros Hreg. apply clears_io_wr; [done|by intros ???? []| |done].
  intros seq open p s l [] E. split; try done. simpl. by rewrite E.
Qed.

Lemma clears_wr_type reg x : reg_ok reg -> clears [] (io_wr reg_io_type set_reg_io_type reg x).
Proof.
  intros Hreg. apply clears_io_wr; [done|by intros ???? []| |done].
  intros seq open p s l [] E. split; try done. simpl. by rewrite E.
Qed.

Lemma clears_wr_cell reg x : reg_ok reg -> clears [] (io_wr cell_io_time set_cell_io_time reg x).
Proof.
  intros Hreg. apply clears_io_wr; [done|by intros ???? []| |done].
  intros seq open p s l [] E. split; try done. simpl. by rewrite E.
Qed.

Lemma clears_wr_overhead reg x : reg_ok reg -> clears [] (io_wr io_overhead set_io_overhead reg x).
Proof.
  intros Hreg. apply clears_io_wr; [done|by intros ???? []| |done].
  intros seq open p s l [] E. split; try done. simpl. by rewrite E.
Qed.

(** The register works for no request any more. *)
Lemma clears_wr_access reg o : reg_ok reg -> clears [] (io_wr access_nb set_access_nb reg (-1, o)).
Proof.
  intros Hreg seq open [p s] [Hp Hs]. unfold io_wr, wr. simpl in Hp, Hs.
  destruct (aset_range (access_nb s) reg (-1, o)) as [l Hl]; [by rewrite (io_access _ _ _ _ Hs)|]. wp_go.
  split; [split; [done|]|apply cleared_nil]. simpl. destruct Hs. split; try done.
  - simpl. by rewrite (aset_length _ _ _ _ Hl).
  - intros i a o'. simpl. rewrite (aget_aset _ _ _ _ i Hl). case_decide; [|apply io_page0].
    intros [= <- <-]. by left.
Qed.

Lemma wr_time_keeps reg x : reg_ok reg -> keeps (io_wr reg_io_time set_reg_io_time reg x).
Proof.
  intros Hreg seq open [p s] [Hp Hs]. unfold io_wr, wr. simpl in Hp, Hs.
  destruct (aset_range (reg_io_time s) reg x) as [l Hl]; [by rewrite (io_time _ _ _ _ Hs)|]. wp_go.
  split; [done|]. simpl. destruct Hs. split; try done. simpl. by rewrite (aset_length _ _ _ _ Hl).
Qed.

Lemma clears_wr_time reg : reg_ok reg -> clears [reg] (io_wr reg_io_time set_reg_io_time reg (-1)).
Proof.
  intros Hreg seq open [p s] [Hp Hs]. unfold io_wr, wr. simpl in Hp, Hs.
  destruct (aset_range (reg_io_time s) reg (-1)) as [l Hl]; [by rewrite (io_time _ _ _ _ Hs)|]. wp_go.
  split; [split; [done|]|]; simpl.
  - destruct Hs. split; try done. simpl. by rewrite (aset_length _ _ _ _ Hl).
  - split; [by eapply aset_length|]. intros i. rewrite (aget_aset _ _ _ _ i Hl).
    destruct (decide (i = reg)) as [->|Hne].
    + rewrite decide_True by (apply list_elem_of_singleton; done).
      by rewrite decide_True by (rewrite (io_time _ _ _ _ Hs); done).
    + rewrite decide_False; [done|]. by rewrite list_elem_of_singleton.
Qed.

(** *** Waiting *)

(** The loop ends, and the last reading of the clock is past the delay. *)
Lemma busy_wait_spec base delay fuel : forall k p s, clock_reads p = S k ->
  (horizon (base + delay) < k + fuel)%nat ->
  wp (busy_wait fuel base delay (usec k - base)) (fun _ w' => exists k',
    w' = (set_clock_reads (S k') p, s) /\ (k <= k')%nat /\ base + delay <= usec k') (p, s)
  \/ (fuel = 0)%nat.
Proof using CL.
  induction fuel as [|fuel IH]; intros k p s Hk Hf; [by right|left]. simpl.
  destruct (Z.ltb_spec (usec k - base) delay) as [Hlt|Hge].
  - unfold now. apply wp_bind, wp_on_fst.
    eapply wp_mono; [apply get_usec_spec|]. intros t p' [-> ->]. rewrite Hk.
    destruct (IH (S k) (set_clock_reads (S (S k)) p) s) as [Hw|Hz]; [done|lia| |].
    + eapply wp_mono; [exact Hw|].
      intros [] w' (k' & -> & Hle & Ht). exists k'. split; [done|]. split; [lia|done].
    + subst fuel. pose proof (usec_horizon (base + delay) k). lia.
  - wp_go. exists k. split; [|split; [done|lia]]. f_equal. destruct p. simpl in Hk. by subst.
Qed.

Lemma wait_until_spec base delay k p s : clock_reads p = S k ->
  wp (wait_until base delay (usec k - base)) (fun _ w' => exists k',
    w' = (set_clock_reads (S k') p, s) /\ (k <= k')%nat /\ base + delay <= usec k') (p, s).
Proof using CL.
  intros Hk. unfold wait_until.
  destruct (busy_wait_spec base delay (S (S (horizon (base + delay)))) k p s Hk); [lia|done|lia].
Qed.

(** A delay from a reading of the clock on. *)
Lemma clears_wait base delay l {A} (f : Z -> Z) (k : Z -> M module A) :
  (forall t, f t = t - base) -> (forall t, clears l (k t)) ->
  clears l (start ← now; wait_until base delay (f start) ;; k start).
Proof using CL.
  intros Hf Hk seq open [p s] Hw. unfold now at 1. apply wp_bind, wp_on_fst.
  eapply wp_mono; [apply get_usec_spec|]. intros t p' [-> ->]. apply wp_bind. rewrite Hf.
  eapply wp_mono; [by apply (wait_until_spec base delay (clock_reads p))|].
  intros _ w' (k' & -> & _ & _). refine (Hk _ seq open _ _).
  apply (mod_ok_fst _ _ (p, s)); [done| |by apply older_same].
  destruct Hw as [Hp _]. by eapply perf_ok_same; [..|exact Hp].
Qed.

(** The same when the overhead of the register counts as part of the delay. *)
Lemma clears_wait_overhead ts delay reg l {A} (k : Z -> Z -> M module A) :
  reg_ok reg -> (forall t o, clears l (k t o)) ->
  clears l (start ← now;
            o ← io_rd io_overhead reg;
            (if start - ts + o <? delay then io_modify (set_init_diff_reg (start - ts + o)) else mret tt) ;;
            wait_until (ts - o) delay (start - ts + o) ;;
            k start o).
Proof using CL.
  intros Hreg Hk seq open [p s] Hw. unfold now at 1. apply wp_bind, wp_on_fst.
  eapply wp_mono; [apply get_usec_spec|]. intros t p' [-> ->]. unfold io_rd, rd.
  pose proof Hw as [Hp Hs]. simpl in Hp, Hs.
  destruct (aget_range (io_overhead s) reg) as [o Ho]; [by rewrite (io_over _ _ _ _ Hs)|]. wp_go.
  apply wp_mono with (P := fun _ w => exists d, w = (set_clock_reads (S (clock_reads p)) p,
    set_init_diff_reg d s)).
  { unfold io_modify. case_match; wp_go; [by eexists|]. exists (init_diff_reg s). by destruct s. }
  intros _ _ [d ->]. wp_go.
  replace (usec (clock_reads p) - ts + o) with (usec (clock_reads p) - (ts - o)) by lia.
  eapply wp_mono; [by apply (wait_until_spec (ts - o) delay (clock_reads p))|].
  intros _ w' (k' & -> & _ & _).
  eapply wp_mono; [refine (Hk _ _ seq open _ _)|done].
  split; simpl; [by eapply perf_ok_same; [..|exact Hp]|].
  eapply io_ok_older; [by apply older_same|]. by destruct Hs.
Qed.

(** *** Requests of the registers *)

Lemma clears_update_overhead reg v : reg_ok reg -> clears [] (SSD_UPDATE_IO_OVERHEAD reg v).
Proof.
  intros Hreg. unfold SSD_UPDATE_IO_OVERHEAD.
  apply clears_then; [apply clears_io_rd; [done|by intros ???? []]|intros o].
  apply clears_then; [by apply clears_wr_overhead|intros _].
  apply clears_io_modify; [|done]. by intros ???? [].
Qed.

Lemma clears_ssd_update_request reg : reg_ok reg -> clears [] (SSD_UPDATE_IO_REQUEST cfg reg).
Proof.
  intros Hreg. unfold SSD_UPDATE_IO_REQUEST.
  apply clears_then; [apply clears_now|intros curr_time].
  apply clears_then; [apply clears_io_gets|intros d]. intros seq open [p s] [Hp Hs]. simpl in Hp, Hs.
  apply wp_bind. eapply wp_mono; [apply io_rd_spec; simpl; by rewrite (io_access _ _ _ _ Hs)|].
  intros [a o] _ [-> Ha]. cbn [fst snd] in Ha |- *. apply wp_bind.
  unfold update_io_request. apply wp_bind, wp_on_fst.
  eapply wp_mono; [apply (update_io_request_spec cfg seq open); [done|]|].
  { intros r Hr Hnb. destruct (io_page _ _ _ _ Hs _ _ _ Ha) as [->|[_ Hpage]]; [|by apply Hpage].
    exfalso. destruct (po_req _ _ _ Hp r Hr) as (_ & _ & _ & Hrange & _).
    pose proof (po_range _ _ _ Hp). change (u32 (-1)) with (2 ^ 32 - 1) in Hnb. lia. }
  intros v p' [Hp' Ho]. apply wp_bind, wp_on_snd, wp_modify, wp_ret. cbv beta.
  match goal with |- wp ?m _ _ => assert (clears [] m) as Hc end.
  { apply clears_then; [by apply clears_update_overhead|intros _].
    apply clears_then; [apply clears_io_rd; [done|by intros ???? []]|intros b].
    by apply clears_wr_access. }
  eapply wp_mono; [refine (Hc seq open _ _)|done].
  split; [done|]. simpl. eapply io_ok_older; [exact Ho|]. by destruct Hs.
Qed.

(** *** The delays *)

(** A register whose transfer is over has nothing to wait for. *)
Lemma clears_transfer reg (body : Z -> M module Z) : reg_ok reg ->
  (forall ts, clears [reg] (body ts)) ->
  clears [reg] (ts ← io_rd reg_io_time reg; if ts =? -1 then mret 0 else body ts).
Proof.
  intros Hreg Hb seq open w Hw. pose proof Hw as [_ Hs]. apply wp_bind.
  eapply wp_mono; [apply io_rd_spec; by rewrite (io_time _ _ _ _ Hs)|].
  intros ts _ [-> Hts]. destruct (Z.eqb_spec ts (-1)) as [->|]; [|by apply Hb].
  wp_go. split; [done|]. split; [done|]. intros i. destruct (decide (i = reg)) as [->|Hne].
  - rewrite decide_True by (by apply list_elem_of_singleton).
    by rewrite decide_True by (by rewrite (io_time _ _ _ _ Hs)).
  - rewrite decide_False; [done|]. by rewrite list_elem_of_singleton.
Qed.

Lemma clears_if l {A} (b : bool) (m m' : M module A) : clears l m -> clears l m' ->
  clears l (if b then m else m').
Proof. by destruct b. Qed.

End Io.

(** The automation for straight-line code: each step has a lemma in [clears]. *)
Create HintDb clears.
#[export] Hint Resolve clears_ret clears_now clears_send clears_perf_gets clears_io_gets
  clears_wr_cmd clears_wr_type clears_wr_cell clears_wr_overhead clears_wr_access clears_wr_time
  clears_update_overhead clears_ssd_update_request : clears.
#[export] Hint Extern 1 (clears _ _ (io_rd _ _)) =>
  apply clears_io_rd; [done|by intros ???? []] : clears.
#[export] Hint Extern 1 (clears _ _ (io_modify _)) =>
  apply clears_io_modify; [by intros ???? []|done] : clears.

Ltac clears_go :=
  repeat first
    [ solve [eauto with clears]
    | apply clears_then; [solve [eauto with clears]|intros ?]
    | apply clears_if ].

Section Delays.
Context (cfg : config) (Hok : cfg_ok cfg) {C : Clock} {CL : ClockLaws C}.
Context (reg : Z) (Hreg : reg_ok cfg reg).

Lemma clears_reg_write : clears cfg [reg] (SSD_REG_WRITE_DELAY cfg reg).
Proof using CL Hreg.
  apply clears_transfer; [done|intros ts].
  apply (clears_wait cfg ts (REG_WRITE_DELAY cfg) [reg] (fun t => t - ts)); [done|intros start].
  clears_go. apply (clears_bind cfg [reg] []); [|intros _]; clears_go.
Qed.

Lemma clears_reg_read : clears cfg [reg] (SSD_REG_READ_DELAY cfg reg).
Proof using CL Hreg.
  apply clears_transfer; [done|intros ts].
  apply (clears_wait cfg ts (REG_READ_DELAY cfg) [reg] (fun t => t - ts)); [done|intros start].
  clears_go. apply (clears_bind cfg [reg] []); [|intros _]; clears_go.
Qed.

Lemma clears_cell_write : clears cfg [] (SSD_CELL_WRITE_DELAY cfg reg).
Proof using CL Hreg.
  apply clears_then; [clears_go|intros ts]. apply clears_if; [clears_go|].
  apply (clears_wait_overhead cfg ts (CELL_PROGRAM_DELAY cfg)); [done|intros start o]. clears_go.
Qed.

Lemma clears_cell_read : clears cfg [] (SSD_CELL_READ_DELAY cfg reg).
Proof using CL Hreg.
  apply clears_then; [clears_go|intros ts]. apply clears_if; [clears_go|].
  apply (clears_wait_overhead cfg ts (CELL_READ_DELAY cfg)); [done|intros start o]. clears_go.
Qed.

Lemma clears_erase : clears cfg [] (SSD_BLOCK_ERASE_DELAY cfg reg).
Proof using CL Hreg.
  apply clears_then; [clears_go|intros ts]. apply clears_if; [clears_go|].
  apply clears_then; [clears_go|intros start].
  apply (clears_wait cfg ts (BLOCK_ERASE_DELAY cfg) [] (fun t => t - ts)); [done|intros t]. clears_go.
Qed.

End Delays.

(** ** Access to registers, flashes and channels *)

Create HintDb keeps.
#[export] Hint Resolve keeps_ret : keeps.
#[export] Hint Extern 2 (keeps _ _) => eapply clears_keeps; solve [eauto with clears] : keeps.

Lemma keeps_if cfg {A} (b : bool) (m m' : M module A) : keeps cfg m -> keeps cfg m' ->
  keeps cfg (if b then m else m').
Proof. by destruct b. Qed.

Ltac keeps_go :=
  repeat first
    [ solve [eauto with keeps]
    | apply keeps_bind; [solve [eauto with keeps]|intros ?]
    | apply keeps_bind; [|intros ?]
    | apply keeps_if ].

Lemma cleared_nil_eq t t' : cleared [] t t' -> t' = t.
Proof.
  intros [_ Hc]. apply list_eq. intros i. rewrite <- !aget_nat, Hc, decide_False; [done|].
  apply not_elem_of_nil.
Qed.

(** The registers whose transfer is not over. *)
Definition pending (l t : list Z) : nat := length (filter (fun x => aget t x <> Some (-1)) l).

Lemma pending_decreases (l l' t t' : list Z) x : cleared l' t t' -> x ∈ l' -> x ∈ l ->
  0 <= x < zlen t -> aget t x <> Some (-1) -> (pending l t' < pending l t)%nat.
Proof.
  intros [Hlen Hc] Hx Hxl Hr Hp.
  assert (forall y, aget t' y <> Some (-1) -> aget t y <> Some (-1)) as Hmono.
  { intros y. rewrite Hc. repeat case_decide; try done. intros _ E.
    apply aget_Some_range in E. done. }
  assert (aget t' x = Some (-1)) as Hx' by (rewrite Hc; by rewrite !decide_True).
  assert (forall k, (pending k t' <= pending k t)%nat) as Hle.
  { induction k as [|y k IH]; [done|]. unfold pending in *. rewrite !filter_cons.
    repeat case_decide; simpl; try lia. exfalso. by eapply Hmono. }
  induction l as [|y l IH]; [by inversion Hxl|]. unfold pending in *. rewrite !filter_cons.
  apply elem_of_cons in Hxl as [->|Hxl].
  - specialize (Hle l). rewrite (decide_True (P := aget t y <> Some (-1))), decide_False by (tauto || done).
    simpl. lia.
  - specialize (IH Hxl). repeat case_decide; simpl; try lia. exfalso. by eapply Hmono.
Qed.

Section Access.
Context (cfg : config) (Hok : cfg_ok cfg) {C : Clock} {CL : ClockLaws C}.

Local Abbreviation L := (PLANES_PER_FLASH cfg).
Local Abbreviation F := (FLASH_NB cfg).

Lemma reg_access_keeps reg : reg_ok cfg reg -> keeps cfg (SSD_REG_ACCESS cfg reg).
Proof using CL.
  intros Hreg. unfold SSD_REG_ACCESS.
  assert (keeps cfg (SSD_CELL_READ_DELAY cfg reg)) by (eapply clears_keeps; by apply clears_cell_read).
  assert (keeps cfg (SSD_REG_READ_DELAY cfg reg)) by (eapply clears_keeps; by apply clears_reg_read).
  assert (keeps cfg (SSD_CELL_WRITE_DELAY cfg reg)) by (eapply clears_keeps; by apply clears_cell_write).
  assert (keeps cfg (SSD_REG_WRITE_DELAY cfg reg)) by (eapply clears_keeps; by apply clears_reg_write).
  assert (keeps cfg (SSD_BLOCK_ERASE_DELAY cfg reg)) by (eapply clears_keeps; by apply clears_erase).
  keeps_go.
Qed.

Lemma flash_access_loop_keeps n : forall r_num reg ret, 0 <= r_num ->
  r_num + Z.of_nat n <= F * L -> keeps cfg (flash_access_loop cfg n r_num reg ret).
Proof using CL.
  induction n as [|n IH]; intros r_num reg ret H0 Hn; simpl; [apply keeps_ret|].
  assert (reg_ok cfg r_num) by (unfold reg_ok; lia).
  apply keeps_bind; [keeps_go|intros skip]. apply keeps_bind; [|intros; apply IH; lia].
  apply keeps_if; [apply keeps_ret|by apply reg_access_keeps].
Qed.

Lemma flash_reg f : 0 <= f < F -> i32 (f * L) = f * L /\ 0 <= f * L /\ f * L + L <= F * L.
Proof using Hok.
  intros Hf. pose proof (ok_roots Hok). pose proof (ok_plane _ Hok).
  assert (0 <= f * L /\ f * L + L <= F * L) as Hr by nia. rewrite i32_id by lia. done.
Qed.

Lemma access_keeps f reg : 0 <= f < F -> reg_ok cfg reg -> keeps cfg (access cfg f reg).
Proof using Hok CL.
  intros Hf Hreg. unfold access, SSD_FLASH_ACCESS. destruct (flash_reg f Hf) as (-> & H1 & H2).
  pose proof (ok_plane _ Hok). apply keeps_if; [apply flash_access_loop_keeps; lia|by apply reg_access_keeps].
Qed.

Lemma ch_enable_keeps ch : keeps cfg (SSD_CH_ENABLE cfg ch).
Proof using CL.
  unfold SSD_CH_ENABLE. apply keeps_if; [apply keeps_ret|]. apply keeps_bind; [keeps_go|intros o].
  apply keeps_bind; [|intros; apply keeps_ret]. apply keeps_if; [|apply keeps_ret].
  apply keeps_bind; [|intros; apply keeps_ret]. unfold SSD_CH_SWITCH_DELAY.
  apply keeps_bind; [keeps_go|intros cmd]. apply keeps_if; [apply keeps_ret|].
  intros seq open [p s] Hw. apply wp_bind. unfold now at 1. apply wp_on_fst.
  eapply wp_mono; [apply get_usec_spec|]. intros t p' [-> ->].
  apply wp_bind. unfold io_gets. apply wp_on_snd, wp_gets, wp_bind.
  eapply wp_mono; [by apply (wait_until_spec _ _ (clock_reads p))|].
  intros _ w' (k' & -> & _). apply wp_bind.
  apply wp_mono with (P := fun _ w' => mod_ok cfg seq open w'); [|intros; by wp_go].
  refine (clears_keeps cfg [] now (clears_now cfg) seq open _ _).
  apply (mod_ok_fst _ _ _ (p, s)); [done| |by apply older_same].
  destruct Hw as [Hp _]. by eapply perf_ok_same; [..|exact Hp].
Qed.

(** *** Channels *)

Definition channel_ok (ch : Z) : Prop := 0 <= ch < CHANNEL_NB cfg.

Lemma channel_regs_ok ch r : channel_ok ch -> r ∈ channel_regs cfg ch -> reg_ok cfg r.
Proof using Hok.
  intros Hch. unfold channel_regs. intros (i & (j & -> & Hj%elem_of_seqZ)%list_elem_of_fmap & Hi%elem_of_seqZ)%list_elem_of_bind.
  unfold reg_ok, channel_ok in *. pose proof (ok_plane _ Hok). pose proof (ok_channel _ Hok) as HC.
  rewrite (ok_way _ Hok) in Hi. pose proof (Z.mul_div_le F (CHANNEL_NB cfg) ltac:(lia)) as HW.
  set (W := F / CHANNEL_NB cfg) in *. set (N := CHANNEL_NB cfg) in *.
  assert (0 <= ch + i * N < F) as Hf by nia. split; [nia|].
  assert ((ch + i * N) * L + j < F * L) by nia. lia.
Qed.

Lemma ch_access_loop_spec seq open l : forall ret w, (forall r, r ∈ l -> reg_ok cfg r) ->
  mod_ok cfg seq open w ->
  wp (ch_access_loop cfg l ret) (fun r w' => mod_ok cfg seq open w' /\
    let t := reg_io_time (snd w) in let t' := reg_io_time (snd w') in
    ((r = ret /\ t' = t) \/
     (r = FAIL /\ exists l' x, cleared l' t t' /\ (forall y, y ∈ l' -> y ∈ l) /\
        x ∈ l' /\ aget t x <> Some (-1)))) w.
Proof using CL.
  induction l as [|r l IH]; intros ret w Hl Hw; simpl; [wp_go; auto|].
  assert (reg_ok cfg r) as Hr by (apply Hl; left). pose proof Hw as [_ Hs].
  apply wp_bind. eapply wp_mono; [apply io_rd_spec; by rewrite (io_time _ _ _ _ _ Hs)|].
  intros t _ [-> Ht]. apply wp_bind. eapply wp_mono; [by apply (clears_now cfg)|].
  intros u w1 [Hw1 Hc1]. apply wp_bind.
  eapply wp_mono; [apply (clears_io_rd cfg reg_io_cmd r Hr); [by intros ???? []|exact Hw1]|].
  intros cmd w2 [Hw2 Hc2]. pose proof (cleared_app _ _ _ _ _ Hc1 Hc2) as Hc. clear Hc1 Hc2 Hw1. simpl in Hc.
  apply wp_bind.
  apply wp_mono with (P := fun ret' w3 => mod_ok cfg seq open w3 /\
    ((ret' = ret /\ cleared [] (reg_io_time (snd w)) (reg_io_time (snd w3))) \/
     (ret' = FAIL /\ t <> -1 /\ cleared [r] (reg_io_time (snd w)) (reg_io_time (snd w3))))).
  { destruct (t <=? u), (Z.eqb_spec t (-1)); cbn [andb negb]; try (wp_go; auto; fail).
    destruct (cmd =? READ); [|destruct (cmd =? WRITE); [|wp_go; auto]].
    - assert (clears cfg [r] (SSD_CELL_READ_DELAY cfg r ;; SSD_REG_READ_DELAY cfg r)) as Hcl.
      { apply (clears_then cfg [r]); [by apply clears_cell_read|intros; by apply clears_reg_read]. }
      specialize (Hcl _ _ _ Hw2). apply wp_bind_inv in Hcl. apply wp_bind.
      eapply wp_mono; [exact Hcl|]. intros x w3 Hw3. apply wp_bind. eapply wp_mono; [exact Hw3|].
      intros y w4 [Hw4 Hc4]. wp_go. split; [done|]. right. do 2 (split; [done|]). by eapply (cleared_app [] [r]).
    - apply wp_bind. eapply wp_mono; [by apply (clears_reg_write cfg r Hr)|].
      intros y w4 [Hw4 Hc4]. wp_go. split; [done|]. right. do 2 (split; [done|]). by eapply (cleared_app [] [r]). }
  intros ret' w3 [Hw3 Hcase].
  eapply wp_mono; [apply (IH ret' w3); [intros y Hy; apply Hl; by right|done]|].
  intros r' w4 [Hw4 Hcase4]. split; [done|]. simpl in Hcase4 |- *.
  destruct Hcase as [[-> Hc3]|(-> & Hne & Hc3)].
  - apply cleared_nil_eq in Hc3. rewrite Hc3 in Hcase4.
    destruct Hcase4 as [?|(-> & l' & x & Hc4 & Hsub & Hx & Hp)]; [by left|right].
    split; [done|]. exists l', x. split; [done|]. split; [|done]. intros y Hy. right. auto.
  - right. destruct Hcase4 as [[-> E4]|(-> & l' & x & Hc4 & Hsub & Hx & Hp)]; (split; [done|]).
    + exists [r], r. rewrite E4. split; [done|]. split; [intros y ->%list_elem_of_singleton; left|].
      split; [by apply list_elem_of_singleton|congruence].
    + exists ([r] ++ l'), r. split; [by eapply cleared_app|]. split.
      * intros y [E|Hy]%elem_of_app; [apply list_elem_of_singleton in E as ->; left|right; auto].
      * split; [left|congruence].
Qed.

(** Every round of the loop that fails ends a transfer; the loop ends. *)
Lemma ch_access_while_spec seq open ch fuel : forall ret w, channel_ok ch -> mod_ok cfg seq open w ->
  ret = SUCCESS \/ ret = FAIL -> (0 < fuel)%nat ->
  (ret = FAIL -> (pending (channel_regs cfg ch) (reg_io_time (snd w)) + 2 <= fuel)%nat) ->
  wp (ch_access_while cfg fuel ch ret) (fun r w' => r = SUCCESS /\ mod_ok cfg seq open w') w.
Proof using Hok CL.
  induction fuel as [|fuel IH]; intros ret w Hch Hw Hret Hpos Hf; [lia|]. simpl.
  destruct Hret as [-> | ->]; [by wp_go|]. specialize (Hf eq_refl). simpl.
  apply wp_bind. unfold SSD_CH_ACCESS.
  eapply wp_mono; [apply (ch_access_loop_spec seq open _ SUCCESS w); [|done]|].
  { intros r Hr. by apply (channel_regs_ok ch). }
  intros r w' [Hw' Hcase]. simpl in Hcase. apply IH; [done|done| |lia|].
  - destruct Hcase as [[-> _]|[-> _]]; auto.
  - destruct Hcase as [[-> _]|(-> & l' & x & Hc & Hsub & Hx & Hp)]; [done|]. intros _.
    pose proof (pending_decreases (channel_regs cfg ch) l' _ _ x Hc Hx (Hsub x Hx)) as Hd.
    destruct Hw as [_ Hs]. rewrite (io_time _ _ _ _ _ Hs) in Hd.
    specialize (Hd (channel_regs_ok ch x Hch (Hsub x Hx)) Hp). lia.
Qed.

Lemma check_channel_spec seq open ch ret w : channel_ok ch -> mod_ok cfg seq open w ->
  ret = SUCCESS \/ ret = FAIL ->
  wp (check_channel cfg ch ret) (fun r w' => r = SUCCESS /\ mod_ok cfg seq open w') w.
Proof using Hok CL.
  intros Hch Hw Hret. apply ch_access_while_spec; [done|done|done|lia|]. intros _.
  unfold pending. pose proof (length_filter (fun x => aget (reg_io_time (snd w)) x <> Some (-1))
    (channel_regs cfg ch)). lia.
Qed.

(** ** Time stamps *)

Lemma ch_record_keeps ch cmd o r : keeps cfg (SSD_CH_RECORD cfg ch cmd o r).
Proof. unfold SSD_CH_RECORD. keeps_go. Qed.

Lemma cell_record_keeps reg cmd : reg_ok cfg reg -> keeps cfg (SSD_CELL_RECORD cfg reg cmd).
Proof. intros Hreg. unfold SSD_CELL_RECORD. keeps_go. Qed.

Lemma update_ch_loop_keeps l t : (forall r, r ∈ l -> reg_ok cfg r) -> keeps cfg (update_ch_loop cfg l t).
Proof.
  induction l as [|r l IH]; intros Hl; simpl; [apply keeps_ret|].
  assert (reg_ok cfg r) as Hr by (apply Hl; left). pose proof (wr_time_keeps cfg r) as Ht.
  keeps_go; auto. apply IH. intros r' Hr'. apply Hl. by right.
Qed.

Lemma ch_time_loop_keeps l : forall t, (forall r, r ∈ l -> reg_ok cfg r) -> keeps cfg (ch_time_loop cfg l t).
Proof.
  induction l as [|r l IH]; intros t Hl; simpl; [apply keeps_ret|].
  assert (reg_ok cfg r) as Hr by (apply Hl; left).
  apply keeps_bind; [keeps_go|intros cmd]. apply keeps_bind; [keeps_go|intros u].
  apply IH. intros r' Hr'. apply Hl. by right.
Qed.

(** The start of a page of the open request is recorded. *)
Lemma record_start_spec seq k reg o w : mod_ok cfg seq (Some k) w -> reg_ok cfg reg -> 0 <= o < k ->
  wp (record_start cfg reg o) (fun _ w' => mod_ok cfg seq (Some k) w') w.
Proof.
  intros Hw Hreg Ho. destruct w as [p s]. pose proof Hw as [Hp Hs]. simpl in Hp, Hs.
  pose proof (po_seq _ _ _ Hp) as Hseq. pose proof (po_range _ _ _ Hp) as [Hr0 Hr1].
  unfold issued in Hr1. assert (u32 (i32 seq) = seq) as Hu by (rewrite u32_i32; apply u32_id; lia).
  assert (forall r, r ∈ io_requests p -> request_nb r = seq -> 0 <= o < request_size r) as Hpage.
  { intros r Hr Hnb. destruct (po_req _ _ _ Hp r Hr) as (_ & _ & _ & _ & Hk).
    by rewrite (Hk k eq_refl Hnb). }
  unfold record_start. apply wp_bind, wp_on_fst, wp_gets. rewrite Hseq. apply wp_bind.
  unfold io_wr, wr. apply wp_on_snd. apply wp_bind, wp_gets.
  destruct (aset_range (access_nb s) reg (i32 seq, o)) as [l Hl]; [by rewrite (io_access _ _ _ _ _ Hs)|].
  apply wp_bind. eapply wp_need; [exact Hl|]. apply wp_modify.
  set (s1 := set_access_nb l s).
  assert (io_ok cfg seq (Some k) p s1) as Hs1.
  { destruct Hs. split; try done; simpl; [by rewrite (aset_length _ _ _ _ Hl)|].
    intros i a o'. rewrite (aget_aset _ _ _ _ i Hl). case_decide; [|apply io_page0].
    intros [= <- <-]. right. rewrite Hu. split; [unfold issued; lia|done]. }
  apply wp_bind. unfold io_gets. apply wp_on_snd, wp_gets, wp_bind.
  unfold update_io_request. apply wp_bind, wp_on_fst.
  eapply wp_mono; [apply (update_io_request_spec cfg seq (Some k)); [done|by rewrite Hu]|].
  intros v p' [Hp' Holder]. apply wp_bind, wp_on_snd, wp_modify, wp_ret. cbv beta.
  refine (clears_keeps cfg [] _ (clears_update_overhead cfg reg v Hreg) seq (Some k) _ _).
  split; [done|]. simpl. eapply io_ok_older; [exact Holder|]. by destruct Hs1.
Qed.

(** A host command is for a page of the open request. *)
Definition host_page (open : option Z) (cmd type offset : Z) : Prop :=
  (cmd = WRITE /\ is_host_write type = true) \/ (cmd = READ /\ type = READ) ->
  exists k, open = Some k /\ 0 <= offset < k.

Lemma reg_record_spec seq open reg cmd type o ch w : mod_ok cfg seq open w -> reg_ok cfg reg ->
  channel_ok ch -> host_page open cmd type o ->
  wp (SSD_REG_RECORD cfg reg cmd type o ch) (fun _ w' => mod_ok cfg seq open w') w.
Proof using Hok.
  intros Hw Hreg Hch Hhost. pose proof (channel_regs_ok ch) as Hregs. unfold SSD_REG_RECORD.
  apply wp_bind. eapply wp_mono; [by apply (clears_wr_cmd cfg reg cmd Hreg)|]. intros _ w1 [Hw1 _].
  apply wp_bind. eapply wp_mono; [by apply (clears_wr_type cfg reg type Hreg)|]. intros _ w2 [Hw2 _].
  apply wp_bind. apply wp_mono with (P := fun _ w' => mod_ok cfg seq open w'); [|intros; by wp_go].
  destruct (Z.eqb_spec cmd WRITE) as [->|].
  - apply wp_bind. eapply wp_mono; [by apply (clears_io_gets cfg)|]. intros t w3 [Hw3 _].
    apply wp_bind. eapply wp_mono; [by apply (wr_time_keeps cfg reg)|]. intros ? w4 Hw4; cbv beta in Hw4.
    apply wp_bind. eapply wp_mono; [refine (update_ch_loop_keeps _ _ _ seq open _ Hw4); by eauto|]. intros ? w5 Hw5; cbv beta in Hw5.
    destruct (is_host_write type) eqn:Et.
    + destruct Hhost as (k & -> & Ho); [by left|]. by apply record_start_spec.
    + eapply wp_mono; [by apply (clears_wr_access cfg reg)|]. by intros _ w6 [? _].
  - destruct (Z.eqb_spec cmd READ) as [->|].
    + unfold SSD_GET_CH_ACCESS_TIME_FOR_READ. apply wp_bind, wp_bind.
      eapply wp_mono; [refine (clears_io_rd cfg cell_io_time reg Hreg _ seq open _ Hw2); by intros ???? []|].
      intros c w3 [Hw3 _]. eapply wp_mono; [refine (ch_time_loop_keeps _ _ _ seq open _ Hw3); by eauto|]. intros t w4 Hw4; cbv beta in Hw4.
      apply wp_bind. eapply wp_mono; [by apply (wr_time_keeps cfg reg)|]. intros ? w5 Hw5; cbv beta in Hw5.
      destruct (Z.eqb_spec type READ).
      * destruct Hhost as (k & -> & Ho); [by right|]. by apply record_start_spec.
      * eapply wp_mono; [by apply (clears_wr_access cfg reg)|]. by intros _ w6 [? _].
    + destruct (cmd =? ERASE); [|by wp_go].
      eapply wp_mono; [by apply (clears_wr_access cfg reg)|]. by intros _ w6 [? _].
Qed.

(** ** Commands *)

Lemma channel_of_ok f : 0 <= f < F -> channel_ok (channel_of cfg f).
Proof using Hok.
  intros Hf. unfold channel_of, channel_ok. pose proof (ok_channel _ Hok). pose proof (ok_page_lt Hok).
  rewrite (u32_id (CHANNEL_NB cfg)) by lia. pose proof (Z.mod_pos_bound f (CHANNEL_NB cfg)).
  rewrite i32_id; lia.
Qed.

Lemma reg_of_ok f b : 0 <= f < F -> reg_ok cfg (reg_of cfg f b).
Proof using Hok.
  intros Hf. unfold reg_of, reg_ok. pose proof (ok_roots Hok). pose proof (ok_plane _ Hok).
  pose proof (ok_plane_le Hok). pose proof (ok_page_lt Hok). rewrite (u32_id L) by lia.
  pose proof (Z.mod_pos_bound b L). assert (0 <= f * L + b mod L < F * L) by nia.
  rewrite i32_id; lia.
Qed.

End Access.

(** ** The laws *)

Section Laws.
Context (cfg : config) (Hok : cfg_ok cfg) {C : Clock} {CL : ClockLaws C}.

Local Abbreviation F := (FLASH_NB cfg).
Local Abbreviation B := (BLOCK_NB cfg).

(** The specification machine counts the requests as the module does. *)
Definition mod_rel (n : nand) (w : module) : Prop := mod_ok cfg (n_seq n) (n_request n) w.

Lemma i16_id z : 0 <= z < 2 ^ 15 -> i16 z = z.
Proof.
  intros Hz. unfold i16. rewrite Z.mod_small by lia. destruct (Z.ltb_spec z (2 ^ 15)); lia.
Qed.

Lemma alloc_refines s l t : refines mod_rel (alloc_request cfg s l t) (nand_alloc cfg s l t).
Proof.
  intros n [p io_s] a n' [Hp Hs]. unfold nand_alloc. simpl in Hp, Hs.
  destruct (n_request n) eqn:Hopen; [done|]. destruct (io_pages cfg s l) as [k| |] eqn:Hk; [|done..].
  destruct (Z.leb_spec 1 k); [|done]. destruct (Z.ltb_spec k (2 ^ 15)); [|done].
  destruct (Z.ltb_spec (n_seq n) (2 ^ 32 - 1)); [|done]. simpl. intros [= <- <-].
  pose proof (po_len _ _ _ Hp) as Hlen. pose proof (po_nb _ _ _ Hp) as Hnb.
  pose proof (po_seq _ _ _ Hp) as Hseq. pose proof (po_range _ _ _ Hp) as [Hr _]. unfold issued in *.
  unfold alloc_request, ALLOC_IO_REQUEST. apply wp_bind, wp_on_fst, wp_bind.
  eapply wp_mono; [apply get_usec_spec|]. intros start p0 [_ ->]. apply wp_bind.
  eapply run_wp; [by rewrite Hk|]. wp_go. simpl. rewrite Hseq.
  apply wp_mono with (P := fun _ p' => p' = set_clock_reads (S (clock_reads p)) p).
  { rewrite Hnb. destruct (io_requests p); simpl; by wp_go. }
  intros [] _ ->. wp_go. simpl. rewrite Hnb, u32_id, (i16_id k) by lia.
  eapply wp_mono; [apply get_usec_spec|]. intros e p1 [_ ->]. unfold io_modify. wp_go.
  split; [done|]. split; simpl.
  - destruct Hp. split; simpl; [done|rewrite zlen_app; simpl; lia|rewrite zlen_app; simpl; unfold issued; lia|unfold issued; lia|].
    intros r [Hr'|Hr']%elem_of_app.
    + destruct (po_req0 r Hr') as (A1 & A2 & A3 & A4 & _). unfold issued in A4. unfold open_request_ok, issued.
      do 3 (split; [done|]). split; [lia|]. lia.
    + apply list_elem_of_singleton in Hr' as ->. unfold open_request_ok, issued. simpl.
      rewrite length_replicate. split; [lia|]. split; [lia|]. split; [lia|]. split; [lia|]. by intros ? [= <-].
  - destruct Hs. split; try done. intros i a o Ha. simpl in Ha.
    destruct (io_page0 i a o Ha) as [->|[Hu Hpage]]; [by left|right]. unfold issued in *. split; [lia|].
    simpl. intros r [Hr'|Hr']%elem_of_app; [auto|].
    apply list_elem_of_singleton in Hr' as ->. simpl. lia.
Qed.

Lemma close_refines : refines mod_rel (on_fst INCREASE_IO_REQUEST_SEQ_NB : M module unit) nand_close.
Proof.
  intros n [p io_s] a n' [Hp Hs]. unfold nand_close. simpl in Hp, Hs.
  destruct (n_request n) as [k|] eqn:Hopen; [|done]. intros [= <- <-].
  pose proof (po_range _ _ _ Hp) as [Hr0 Hr1]. pose proof (po_seq _ _ _ Hp) as Hseq. unfold issued in Hr1.
  unfold INCREASE_IO_REQUEST_SEQ_NB. wp_go. split; [done|]. split; simpl.
  - rewrite Hseq. destruct (Z.eqb_spec (n_seq n) (2 ^ 32 - 1)); [lia|]. rewrite u32_id by lia.
    destruct Hp. unfold issued in *. split; unfold issued; simpl; [done|done|lia|lia|].
    intros r Hr. destruct (po_req0 r Hr) as (A1 & A2 & A3 & A4 & _). unfold open_request_ok, issued in *.
    do 3 (split; [done|]). split; [lia|done].
  - destruct Hs. split; try done. intros i a o Ha. destruct (io_page0 i a o Ha) as [->|[Hu Hpage]]; [by left|right].
    unfold issued in *. split; [lia|done].
Qed.

Lemma addr_ok_inv f b p : addr_ok cfg f b p = true -> 0 <= f < F /\ 0 <= b < B.
Proof. unfold addr_ok. rewrite !andb_true_iff, !Z.leb_le, !Z.ltb_lt. tauto. Qed.

(** A command that is not the collector's is for a page of the open request. *)
Lemma offset_ok_host n cmd type o : offset_ok n type o = true -> host_page (n_request n) cmd type o.
Proof.
  unfold offset_ok, host_page. intros H Hhost.
  assert ((type =? GC_READ) = false /\ (type =? GC_WRITE) = false) as [E1 E2].
  { destruct Hhost as [[_ Ht]|[_ ->]]; [|done]. unfold is_host_write in Ht.
    rewrite !orb_true_iff, !Z.eqb_eq in Ht. destruct Ht as [[[[->| ->]| ->]| ->]| ->]; done. }
  rewrite E1, E2, !orb_false_r in H. destruct (n_request n) as [k|]; [|done].
  exists k. split; [done|]. apply andb_true_iff in H as [?%Z.leb_le ?%Z.ltb_lt]. lia.
Qed.

(** One step of a command. *)
Lemma wp_keeps {A B} (m : M module A) (k : A -> M module B) Q seq open w :
  keeps cfg m -> mod_ok cfg seq open w -> (forall a w', mod_ok cfg seq open w' -> wp (k a) Q w') ->
  wp (m ≫= k) Q w.
Proof. intros Hm Hw Hk. apply wp_bind. eapply wp_mono; [by apply Hm|]. auto. Qed.

(** The part of a command after the access: the channel is free, the stamps are
    recorded. *)
Lemma program_spec seq open f b o type ret d w Q :
  0 <= f < F -> host_page open WRITE type o -> ret = SUCCESS \/ ret = FAIL -> mod_ok cfg seq open w ->
  (forall w', mod_ok cfg seq open w' -> Q SUCCESS w') ->
  wp (check_channel cfg (channel_of cfg f) ret ;;
      SSD_CH_RECORD cfg (channel_of cfg f) WRITE o d ;;
      SSD_REG_RECORD cfg (reg_of cfg f b) WRITE type o (channel_of cfg f) ;;
      SSD_CELL_RECORD cfg (reg_of cfg f b) WRITE ;;
      mret SUCCESS) Q w.
Proof using Hok CL.
  intros Hf Hhost Hret Hw HQ. pose proof (channel_of_ok cfg Hok f Hf) as Hch.
  pose proof (reg_of_ok cfg Hok f b Hf) as Hreg.
  apply wp_bind. eapply wp_mono; [by apply (check_channel_spec cfg Hok seq open)|]. intros _ w1 [_ Hw1].
  apply (wp_keeps _ _ _ seq open); [by apply ch_record_keeps|done|intros _ w2 Hw2].
  apply wp_bind. eapply wp_mono; [by apply (reg_record_spec cfg Hok seq open)|]. intros ? w3 Hw3.
  apply (wp_keeps _ _ _ seq open); [by apply cell_record_keeps|done|intros ? w4 Hw4]. apply wp_ret, HQ, Hw4.
Qed.

Lemma read_refines f b p o t k : refines mod_rel (SSD_PAGE_READ cfg f b p o t k) (nand_read cfg f b p o t k).
Proof using Hok CL.
  intros n w a n' Hw. unfold nand_read. destruct (addr_ok cfg f b p) eqn:Ha; [|done].
  destruct (offset_ok n t o) eqn:Ho; [|done]. simpl. case_match; [done|]. case_match; [|done].
  intros [= <- <-]. destruct (addr_ok_inv f b p Ha) as [Hf _].
  pose proof (channel_of_ok cfg Hok f Hf) as Hch. pose proof (reg_of_ok cfg Hok f b Hf) as Hreg.
  unfold SSD_PAGE_READ. apply (wp_keeps _ _ _ (n_seq n) (n_request n)); [by apply ch_enable_keeps|done|intros _ w1 Hw1].
  apply (wp_keeps _ _ _ (n_seq n) (n_request n)); [by apply access_keeps|done|intros d w2 Hw2].
  apply (wp_keeps _ _ _ (n_seq n) (n_request n)); [by apply ch_record_keeps|done|intros _ w3 Hw3].
  apply (wp_keeps _ _ _ (n_seq n) (n_request n)); [by apply cell_record_keeps|done|intros _ w4 Hw4].
  apply wp_bind. eapply wp_mono; [apply (reg_record_spec cfg Hok (n_seq n) (n_request n)); [done..|]|].
  { by apply offset_ok_host. }
  intros ? w5 Hw5. by apply wp_ret.
Qed.

Lemma write_refines f b p o t k : refines mod_rel (SSD_PAGE_WRITE cfg f b p o t k) (nand_write cfg f b p o t k).
Proof using Hok CL.
  intros n w a n' Hw. unfold nand_write. destruct (addr_ok cfg f b p) eqn:Ha; [|done].
  destruct (offset_ok n t o) eqn:Ho; [|done]. simpl. intros Hn'.
  assert (a = 1 /\ n_seq n' = n_seq n /\ n_request n' = n_request n) as (-> & E1 & E2).
  { repeat case_match; by simplify_eq. }
  destruct (addr_ok_inv f b p Ha) as [Hf _]. unfold mod_rel. rewrite E1, E2.
  pose proof (reg_of_ok cfg Hok f b Hf) as Hreg.
  unfold SSD_PAGE_WRITE. apply (wp_keeps _ _ _ (n_seq n) (n_request n)); [by apply ch_enable_keeps|done|intros _ w1 Hw1].
  apply (wp_keeps _ _ _ (n_seq n) (n_request n)); [by apply access_keeps|done|intros d w2 Hw2].
  eapply program_spec; eauto using offset_ok_host.
Qed.

Lemma partial_refines f b p f' b' p' o t k :
  refines mod_rel (SSD_PAGE_PARTIAL_WRITE cfg f b p f' b' p' o t k) (nand_partial_write cfg f b p f' b' p' o t k).
Proof using Hok CL.
  intros n w a n' Hw. unfold nand_partial_write. destruct (addr_ok cfg f b p) eqn:Ha; [|done].
  destruct (addr_ok cfg f' b' p') eqn:Ha'; [|done]. destruct (offset_ok n t o) eqn:Ho; [|done].
  simpl. intros Hn'.
  assert (a = 1 /\ n_seq n' = n_seq n /\ n_request n' = n_request n) as (-> & E1 & E2).
  { repeat case_match; by simplify_eq. }
  destruct (addr_ok_inv f b p Ha) as [Hf _]. destruct (addr_ok_inv f' b' p' Ha') as [Hf' _].
  unfold mod_rel. rewrite E1, E2.
  pose proof (channel_of_ok cfg Hok f Hf) as Hch. pose proof (reg_of_ok cfg Hok f b Hf) as Hreg.
  pose proof (reg_of_ok cfg Hok f' b' Hf') as Hreg'.
  unfold SSD_PAGE_PARTIAL_WRITE.
  apply (wp_keeps _ _ _ (n_seq n) (n_request n)); [by apply ch_enable_keeps|done|intros _ w1 Hw1].
  apply (wp_keeps _ _ _ (n_seq n) (n_request n)); [by apply access_keeps|done|intros d w2 Hw2].
  apply wp_bind. eapply wp_mono; [apply (check_channel_spec cfg Hok (n_seq n) (n_request n)); auto|].
  intros ret w3 [-> Hw3].
  apply (wp_keeps _ _ _ (n_seq n) (n_request n)); [by apply ch_record_keeps|done|intros _ w4 Hw4].
  apply wp_bind. eapply wp_mono; [apply (reg_record_spec cfg Hok (n_seq n) (n_request n)); [done..|]|].
  { by apply offset_ok_host. }
  intros ? w5 Hw5.
  apply (wp_keeps _ _ _ (n_seq n) (n_request n)); [by apply cell_record_keeps|done|intros _ w6 Hw6].
  apply (wp_keeps _ _ _ (n_seq n) (n_request n)); [|done|intros _ w7 Hw7].
  { apply keeps_bind; [by apply reg_access_keeps|intros; apply keeps_ret]. }
  apply (wp_keeps _ _ _ (n_seq n) (n_request n)); [by apply ch_enable_keeps|done|intros _ w8 Hw8].
  apply (wp_keeps _ _ _ (n_seq n) (n_request n)); [by apply access_keeps|done|intros d' w9 Hw9].
  eapply program_spec; eauto using offset_ok_host.
Qed.

Lemma erase_refines f b : refines mod_rel (SSD_BLOCK_ERASE cfg f b) (nand_erase cfg f b).
Proof using Hok CL.
  intros n w a n' Hw. unfold nand_erase. destruct (addr_ok cfg f b 0) eqn:Ha; [|done].
  simpl. intros [= <- <-]. destruct (addr_ok_inv f b 0 Ha) as [Hf _].
  pose proof (channel_of_ok cfg Hok f Hf) as Hch. pose proof (reg_of_ok cfg Hok f b Hf) as Hreg.
  unfold SSD_BLOCK_ERASE. apply (wp_keeps _ _ _ (n_seq n) (n_request n)); [by apply access_keeps|done|intros d w2 Hw2].
  apply wp_bind. eapply wp_mono; [apply (reg_record_spec cfg Hok (n_seq n) (n_request n)); [done..|]|].
  { intros [[? _]|[? _]]; done. }
  intros ? w3 Hw3.
  apply (wp_keeps _ _ _ (n_seq n) (n_request n)); [by apply cell_record_keeps|done|intros ? w4 Hw4].
  by apply wp_ret.
Qed.

(** After start-up nothing is under way. *)
Lemma init_mod_rel p s : wp (on_fst INIT_PERF_CHECKER ;; SSD_IO_INIT cfg)
  (fun _ w => mod_rel nand0 w) (p, s).
Proof using Hok.
  pose proof (ok_roots Hok). unfold INIT_PERF_CHECKER, SSD_IO_INIT, io_modify. wp_go.
  split; simpl.
  - split; simpl; unfold issued; try done; try lia. intros r Hr. by inversion Hr.
  - split; simpl; unfold regs; rewrite ?length_replicate; try lia.
    intros i a o [[= -> ->] _]%aget_elem%elem_of_replicate. by left.
Qed.

End Laws.
