(* ===== verification/Timing.v ===== *)
(** * When commands are done

    Partial correctness of the timing model of [SSD_MODULE/ssd_io_manager.c]:
    which stamps a command of another register leaves alone, and that the delays
    return only when the clock has reached the end of the command.  Together
    with [SsdLaws], which shows that the commands return, this gives the
    theorems of [ModuleProps]. *)

From stdpp Require Import prelude.
From S2P Require Import Prelude Config Blocks Device Perf SsdIo SsdLaws.

Local Open Scope Z_scope.

(** ** Partial correctness

    [wlp m Q s]: if [m] returns from [s], the value and the state satisfy [Q]. *)

Definition wlp {S A} (m : M S A) (Q : A -> S -> Prop) (s : S) : Prop :=
  match m s with Ret (a, s') => Q a s' | _ => True end.

Section WlpRules.
Context {S : Type}.

Lemma wlp_ret {A} (a : A) (Q : A -> S -> Prop) s : Q a s -> wlp (mret a) Q s.
Proof. done. Qed.

Lemma wlp_bind {A B} (m : M S A) (k : A -> M S B) Q s :
  wlp m (fun a s' => wlp (k a) Q s') s -> wlp (m ≫= k) Q s.
Proof. unfold wlp, mbind, M_bind. destruct (m s) as [[a s']| |]; done. Qed.

Lemma wlp_gets {A} (f : S -> A) (Q : A -> S -> Prop) s : Q (f s) s -> wlp (gets f) Q s.
Proof. done. Qed.

Lemma wlp_modify (f : S -> S) (Q : unit -> S -> Prop) s : Q tt (f s) -> wlp (modify f) Q s.
Proof. done. Qed.

Lemma wlp_need {A} (o : option A) (Q : A -> S -> Prop) s :
  (forall a, o = Some a -> Q a s) -> wlp (need o) Q s.
Proof. unfold wlp, need. destruct o; [|done]. intros H. by apply H. Qed.

Lemma wlp_mono {A} (m : M S A) (P Q : A -> S -> Prop) s :
  wlp m P s -> (forall a s', P a s' -> Q a s') -> wlp m Q s.
Proof. unfold wlp. destruct (m s) as [[a s']| |]; auto. Qed.

Lemma wp_wlp {A} (m : M S A) (P Q : A -> S -> Prop) s :
  wp m P s -> wlp m Q s -> wp m (fun a s' => P a s' /\ Q a s') s.
Proof. unfold wp, wlp. destruct (m s) as [[a s']| |]; auto. Qed.

Lemma wp_partial {A} (m : M S A) (Q : A -> S -> Prop) s : wp m Q s -> wlp m Q s.
Proof. unfold wp, wlp. destruct (m s) as [[a s']| |]; auto. Qed.

(** Every run of [m] goes along the preorder [R]. *)
Definition runs (R : relation S) {A} (m : M S A) : Prop := forall s, wlp m (fun _ s' => R s s') s.

Context (R : relation S) `{!PreOrder R}.

Lemma runs_ret {A} (a : A) : runs R (mret a).
Proof. intros s. by apply wlp_ret. Qed.

Lemma runs_bind {A B} (m : M S A) (k : A -> M S B) :
  runs R m -> (forall a, runs R (k a)) -> runs R (m ≫= k).
Proof.
  intros Hm Hk s. apply wlp_bind. eapply wlp_mono; [apply Hm|]. intros a s' Hs.
  eapply wlp_mono; [apply Hk|]. intros b s'' Hs'. by transitivity s'.
Qed.

Lemma runs_gets {A} (f : S -> A) : runs R (gets f).
Proof. intros s. by apply wlp_gets. Qed.

Lemma runs_need {A} (o : option A) : runs R (need o).
Proof. intros s. apply wlp_need. by intros. Qed.

Lemma runs_undef {A} : runs R (undef : M S A).
Proof. done. Qed.

Lemma runs_modify (f : S -> S) : (forall s, R s (f s)) -> runs R (modify f).
Proof. intros H s. apply wlp_modify, H. Qed.

Lemma wlp_runs {A} (m : M S A) Q s : runs R m -> (forall a s', R s s' -> Q a s') -> wlp m Q s.
Proof. intros Hm HQ. eapply wlp_mono; [apply Hm|done]. Qed.

End WlpRules.

(** ** The performance checker

    No operation sets the clock back, or logs what the translation layer logs. *)

Definition later : relation perf := fun p p' => (clock_reads p <= clock_reads p')%nat /\ ftl_log p' = ftl_log p.

#[export] Instance later_preorder : PreOrder later.
Proof. split; [by intros p; unfold later|]. intros p1 p2 p3 [? E1] [? E2]. split; [lia|by rewrite E2]. Qed.

Create HintDb runs.
#[export] Hint Resolve runs_ret runs_gets runs_need runs_undef : runs.

(** Straight-line code, conditionals and matches; [runs] has the primitives. *)
Ltac runs_go :=
  repeat first
    [ solve [eauto with runs typeclass_instances]
    | apply runs_bind; [eauto with typeclass_instances| |intros ?]
    | match goal with |- runs _ (match ?x with _ => _ end) => destruct x end ].

Section Perf.
Context (cfg : config) {C : Clock}.

Lemma later_usec : runs later get_usec.
Proof. intros p. unfold get_usec, wlp, later. simpl. split; [lia|done]. Qed.

Lemma later_modify f : (forall p, clock_reads (f p) = clock_reads p) -> (forall p, ftl_log (f p) = ftl_log p) ->
  runs later (modify f).
Proof. intros H1 H2. apply runs_modify. intros p. unfold later. by rewrite H1, H2. Qed.

Lemma later_send op d ty : runs later (SEND_TO_PERF_CHECKER cfg op d ty).
Proof.
  apply later_modify; intros p; by destruct (send_keeps cfg op (dbl_of_Z d) ty p) as (? & _ & _ & _ & ?).
Qed.

End Perf.

#[export] Hint Resolve later_usec later_send : runs.
#[export] Hint Extern 1 (runs later (modify _)) => apply later_modify; intros; reflexivity : runs.

Lemma later_free `{C : Clock} i : runs later (FREE_IO_REQUEST i).
Proof. unfold FREE_IO_REQUEST. runs_go. Qed.
#[export] Hint Resolve later_free : runs.

Lemma later_update cfg `{C : Clock} nb o t ty : runs later (UPDATE_IO_REQUEST cfg nb o t ty).
Proof. unfold UPDATE_IO_REQUEST, LOOKUP_IO_REQUEST. runs_go. Qed.
#[export] Hint Resolve later_update : runs.

(** ** Registers

    [frame π]: the clock does not go back and the part [π] of the registers
    stays. *)

Definition frame {X} (π : io -> X) : relation module := fun w w' =>
  later (fst w) (fst w') /\ π (snd w') = π (snd w).

#[export] Instance frame_preorder {X} (π : io -> X) : PreOrder (frame π).
Proof.
  split; [by intros w; split|]. intros w1 w2 w3 [H1 E1] [H2 E2].
  split; [by transitivity (fst w2)|congruence].
Qed.

(** The stamps of one register: the command, the end of the transfer, the cell
    and the overhead. *)
Definition stamps (reg : Z) (s : io) : option Z * option Z * option Z :=
  (aget (reg_io_cmd s) reg, aget (reg_io_time s) reg, aget (cell_io_time s) reg).
Definition view (reg : Z) (s : io) : option Z * option Z * option Z * option Z :=
  (stamps reg s, aget (io_overhead s) reg).
(** The commands and their types. *)
Definition commands (s : io) : list Z * list Z := (reg_io_cmd s, reg_io_type s).
(** Nothing: only the clock. *)
Definition nothing (_ : io) : unit := tt.

Section Frames.
Context (cfg : config) {C : Clock} {X : Type} (π : io -> X).

Lemma frame_now : runs (frame π) now.
Proof. intros [p s]. unfold now, wlp, frame, later. simpl. split; [split; [lia|done]|done]. Qed.

Lemma frame_perf {A} (m : M perf A) : runs later m -> runs (frame π) (on_fst m : M module A).
Proof.
  intros Hm [p s]. specialize (Hm p). unfold wlp, on_fst, frame in *. by destruct (m p) as [[a p']| |].
Qed.

Lemma frame_io_rd {A} (f : io -> list A) i : runs (frame π) (io_rd f i).
Proof.
  intros [p s]. unfold io_rd, rd, wlp, on_snd, mbind, M_bind, gets, need.
  destruct (aget (f s) i); [by split|done].
Qed.

Lemma frame_io_gets {A} (f : io -> A) : runs (frame π) (io_gets f).
Proof. intros [p s]. by split. Qed.

Lemma frame_io_modify f : (forall s, π (f s) = π s) -> runs (frame π) (io_modify f).
Proof. intros H [p s]. unfold io_modify, wlp, frame. simpl. by rewrite H. Qed.

Lemma frame_io_wr {A} (f : io -> list A) set i x :
  (forall s l, aset (f s) i x = Some l -> π (set l s) = π s) -> runs (frame π) (io_wr f set i x).
Proof.
  intros H [p s]. unfold io_wr, wr, wlp, on_snd, mbind, M_bind, gets, need.
  destruct (aset (f s) i x) as [l|] eqn:E; [|done].
  simpl. split; [by unfold later|]. by apply H.
Qed.

End Frames.

#[export] Hint Resolve frame_now frame_perf frame_io_rd frame_io_gets : runs.
#[export] Hint Extern 2 (runs (frame _) (io_modify _)) => apply frame_io_modify; intros; reflexivity : runs.
#[export] Hint Extern 2 (runs (frame _) (io_wr _ _ _ _)) => apply frame_io_wr; intros; reflexivity : runs.
#[export] Hint Extern 3 (runs (frame (stamps _)) (io_wr _ _ _ _)) =>
  apply frame_io_wr; intros ?? Hset; unfold stamps; simpl;
  rewrite ?(aget_aset_ne _ _ _ _ _ Hset) by congruence; reflexivity : runs.
#[export] Hint Extern 3 (runs (frame (view _)) (io_wr _ _ _ _)) =>
  apply frame_io_wr; intros ?? Hset; unfold view, stamps; simpl;
  rewrite ?(aget_aset_ne _ _ _ _ _ Hset) by congruence; reflexivity : runs.

Section Commands.
Context (cfg : config) {C : Clock} {X : Type} (π : io -> X).

Lemma frame_busy_wait fuel : forall base delay diff, runs (frame π) (busy_wait fuel base delay diff).
Proof.
  induction fuel as [|fuel IH]; intros base delay diff; [done|]. simpl. runs_go.
Qed.

Lemma frame_wait base delay diff : runs (frame π) (wait_until base delay diff).
Proof. apply frame_busy_wait. Qed.

End Commands.
#[export] Hint Resolve frame_wait : runs.

Section Accesses.
Context (cfg : config) {C : Clock}.

(** What the commands of other registers leave alone. *)
Section Other.
Context (reg r : Z) (Hr : reg <> r).

Lemma frame_update_request : runs (frame (view reg)) (SSD_UPDATE_IO_REQUEST cfg r).
Proof using Hr. unfold SSD_UPDATE_IO_REQUEST, SSD_UPDATE_IO_OVERHEAD, update_io_request. runs_go. Qed.
Hint Resolve frame_update_request : runs.

Lemma frame_reg_access : runs (frame (view reg)) (SSD_REG_ACCESS cfg r).
Proof using Hr.
  unfold SSD_REG_ACCESS, SSD_CELL_READ_DELAY, SSD_REG_READ_DELAY, SSD_REG_WRITE_DELAY,
    SSD_CELL_WRITE_DELAY, SSD_BLOCK_ERASE_DELAY. runs_go.
Qed.

End Other.

Lemma frame_own_request reg : runs (frame (stamps reg)) (SSD_UPDATE_IO_REQUEST cfg reg).
Proof. unfold SSD_UPDATE_IO_REQUEST, SSD_UPDATE_IO_OVERHEAD, update_io_request. runs_go. Qed.

Lemma frame_ch_enable reg ch : runs (frame (view reg)) (SSD_CH_ENABLE cfg ch).
Proof. unfold SSD_CH_ENABLE, SSD_CH_SWITCH_DELAY. runs_go. Qed.

End Accesses.

(** ** The delays wait *)

Section Waits.
Context (cfg : config) {C : Clock} {CL : ClockLaws C}.

(** The clock has reached [t]. *)
Definition past (w : module) (t : Z) : Prop := t <= usec (clock_reads (fst w)).

(** A command stamped [t], -1 for none, that takes [d] is over. *)
Definition waited (t d : Z) (w : module) : Prop := t = -1 \/ past w (t + d).

Lemma past_later w w' t : later (fst w) (fst w') -> past w t -> past w' t.
Proof using CL.
  intros [Hle _]. revert Hle. unfold past. induction 1 as [|k _ IH]; [done|]. intros H. specialize (IH H).
  pose proof (usec_mono k). lia.
Qed.

Lemma waited_frame {X} (π : io -> X) w w' t d : frame π w w' -> waited t d w -> waited t d w'.
Proof using CL. intros [Hl _] [->|H]; [by left|right]. by eapply past_later. Qed.

Lemma wlp_io_rd {A} (f : io -> list A) i Q (w : module) :
  (forall x, aget (f (snd w)) i = Some x -> Q x w) -> wlp (io_rd f i) Q w.
Proof.
  intros H. destruct w as [p s]. unfold io_rd, rd, wlp, on_snd, mbind, M_bind, gets, need.
  destruct (aget (f s) i) as [x|] eqn:E; [by apply H|done].
Qed.

Lemma wlp_io_wr {A} (f : io -> list A) set i x Q (w : module) :
  (forall l, aset (f (snd w)) i x = Some l -> Q tt (fst w, set l (snd w))) -> wlp (io_wr f set i x) Q w.
Proof.
  intros H. destruct w as [p s]. unfold io_wr, wr, wlp, on_snd, mbind, M_bind, gets, need.
  destruct (aset (f s) i x) as [l|] eqn:E; [by apply H|done].
Qed.

Lemma wlp_now Q (w : module) :
  (forall w', frame (fun s => s) w w' -> past w' (usec (clock_reads (fst w))) ->
     Q (usec (clock_reads (fst w))) w') -> wlp now Q w.
Proof using CL.
  intros H. destruct w as [p s]. unfold now, wlp. simpl. apply H.
  - split; [|done]. split; [simpl; lia|done].
  - apply (usec_mono (clock_reads p)).
Qed.

Lemma frame_any {X} (π : io -> X) w w' : frame (fun s => s) w w' -> frame π w w'.
Proof. intros [H E]. split; [done|]. by rewrite E. Qed.

Lemma busy_wait_past base delay fuel : forall diff (w : module), past w (base + diff) ->
  wlp (busy_wait fuel base delay diff)
    (fun _ w' => frame (fun s => s) w w' /\ past w' (base + delay)) w.
Proof using CL.
  induction fuel as [|fuel IH]; intros diff w Hd; [done|]. simpl.
  destruct (Z.ltb_spec diff delay).
  - apply wlp_bind, wlp_now. intros w' Hf Hp.
    eapply wlp_mono; [apply IH|]; [by replace (base + _) with (usec (clock_reads (fst w))) by lia|].
    intros _ w'' [Hf' Hp']. split; [by transitivity w'|done].
  - apply wlp_ret. split; [done|]. unfold past in *. lia.
Qed.

(** A delay that goes on after its loop. *)
Lemma wlp_wait {A} base delay (f : Z -> Z) (k : Z -> M module A) (w : module) :
  (forall t, f t = t - base) -> (forall t, runs (frame nothing) (k t)) ->
  wlp (start ← now; wait_until base delay (f start) ;; k start) (fun _ w' => past w' (base + delay)) w.
Proof using CL.
  intros Hf Hk. apply wlp_bind, wlp_now. intros w1 Hw1 Hp. apply wlp_bind. rewrite Hf.
  eapply wlp_mono; [apply busy_wait_past|].
  { by replace (base + _) with (usec (clock_reads (fst w))) by lia. }
  intros _ w2 [Hw2 Hp2]. eapply wlp_runs; [apply Hk|]. intros a w3 [Hl _]. by eapply past_later.
Qed.

(** The same when the overhead of the register counts as part of the delay. *)
Lemma wlp_wait_overhead {A} reg ts o delay (k : Z -> Z -> M module A) (w : module) :
  aget (io_overhead (snd w)) reg = Some o -> (forall t o, runs (frame nothing) (k t o)) ->
  wlp (start ← now;
       o ← io_rd io_overhead reg;
       (if start - ts + o <? delay then io_modify (set_init_diff_reg (start - ts + o)) else mret tt) ;;
       wait_until (ts - o) delay (start - ts + o) ;;
       k start o) (fun _ w' => past w' (ts - o + delay)) w.
Proof using CL.
  intros Ho Hk. apply wlp_bind, wlp_now. intros w1 [Hw1 E1] Hp. apply wlp_bind, wlp_io_rd.
  intros o' Ho'. rewrite E1 in Ho'. assert (o' = o) as -> by congruence. apply wlp_bind.
  eapply (wlp_runs (frame nothing)); [runs_go|]. intros _ w2 [Hl2 _]. apply wlp_bind.
  eapply wlp_mono; [apply busy_wait_past|].
  { replace (ts - o + _) with (usec (clock_reads (fst w))) by lia. by eapply past_later. }
  intros _ w3 [Hw3 Hp3]. eapply wlp_runs; [apply Hk|]. intros a w4 [Hl _]. by eapply past_later.
Qed.

End Waits.

(** Reads of the stamps, writes of the stamps and steps that leave [π] alone. *)
Ltac wlp_step :=
  lazymatch goal with
  | |- wlp (mret _) _ _ => apply wlp_ret
  | |- wlp (mbind _ _) _ _ => apply wlp_bind
  | |- wlp (io_wr _ _ _ _) _ _ => apply wlp_io_wr; intros ? ?
  end.

Ltac wlp_frame π :=
  apply wlp_bind; eapply (wlp_runs (frame π)); [solve [runs_go]|];
  let w := fresh "w" in let H := fresh "Hfr" in intros ? w H; cbv beta.

Section Delays.
Context (cfg : config) {C : Clock} {CL : ClockLaws C} (reg : Z).

Local Abbreviation at_reg w cmd tr tc :=
  (stamps reg (snd w) = (Some cmd, Some tr, Some tc)).

Lemma cmd_set cmd tr tc x (w : module) l : at_reg w cmd tr tc -> aset (reg_io_cmd (snd w)) reg x = Some l ->
  at_reg (fst w, set_reg_io_cmd l (snd w)) x tr tc.
Proof. intros H E. unfold stamps in *. simpl. rewrite (aget_aset_eq _ _ _ _ E). congruence. Qed.

Lemma time_set cmd tr tc x (w : module) l : at_reg w cmd tr tc -> aset (reg_io_time (snd w)) reg x = Some l ->
  at_reg (fst w, set_reg_io_time l (snd w)) cmd x tc.
Proof. intros H E. unfold stamps in *. simpl. rewrite (aget_aset_eq _ _ _ _ E). congruence. Qed.

Lemma cell_set cmd tr tc x (w : module) l : at_reg w cmd tr tc -> aset (cell_io_time (snd w)) reg x = Some l ->
  at_reg (fst w, set_cell_io_time l (snd w)) cmd tr x.
Proof. intros H E. unfold stamps in *. simpl. rewrite (aget_aset_eq _ _ _ _ E). congruence. Qed.

Lemma at_frame cmd tr tc (w w' : module) : frame (stamps reg) w w' -> at_reg w cmd tr tc -> at_reg w' cmd tr tc.
Proof. intros [_ E]. by rewrite E. Qed.

End Delays.

Ltac at_reg :=
  solve [repeat first [eassumption | eapply cmd_set; [|eassumption] | eapply time_set; [|eassumption]
                      | eapply cell_set; [|eassumption] | eapply at_frame; [eassumption|]]].

(** Runs a delay, collecting the stamps. *)
Ltac stamps_go reg :=
  repeat first [wlp_frame (stamps reg) | wlp_step].

Section Delays.
Context (cfg : config) {C : Clock} {CL : ClockLaws C} (reg : Z).
Hint Resolve frame_own_request : runs.

Local Abbreviation at_reg w cmd tr tc :=
  (stamps reg (snd w) = (Some cmd, Some tr, Some tc)).

(** The stamp that a delay starts from. *)
Lemma wlp_time cmd tr tc w (body : Z -> M module Z) Q : at_reg w cmd tr tc ->
  (tr = -1 -> Q 0 w) -> (tr <> -1 -> wlp (body tr) Q w) ->
  wlp (ts ← io_rd reg_io_time reg; if ts =? -1 then mret 0 else body ts) Q w.
Proof.
  intros Hw H1 H2. apply wlp_bind, wlp_io_rd. intros ts Hts.
  assert (ts = tr) as -> by (unfold stamps in Hw; congruence).
  destruct (Z.eqb_spec tr (-1)); [by apply wlp_ret, H1|by apply H2].
Qed.

Lemma wlp_cell cmd tr tc w (body : Z -> M module Z) Q : at_reg w cmd tr tc ->
  (tc = -1 -> Q 0 w) -> (tc <> -1 -> wlp (body tc) Q w) ->
  wlp (ts ← io_rd cell_io_time reg; if ts =? -1 then mret 0 else body ts) Q w.
Proof.
  intros Hw H1 H2. apply wlp_bind, wlp_io_rd. intros ts Hts.
  assert (ts = tc) as -> by (unfold stamps in Hw; congruence).
  destruct (Z.eqb_spec tc (-1)); [by apply wlp_ret, H1|by apply H2].
Qed.

Context (cmd tr tc : Z) (w : module) (Hw : at_reg w cmd tr tc).

Lemma reg_write_waits : wlp (SSD_REG_WRITE_DELAY cfg reg) (fun _ w' => waited tr (REG_WRITE_DELAY cfg) w') w.
Proof using CL Hw.
  eapply wlp_time; [exact Hw|by left|intros _].
  eapply wlp_mono; [apply (wlp_wait tr (REG_WRITE_DELAY cfg) (fun t => t - tr)); [done|]|by right].
  intros t. runs_go.
Qed.

Lemma reg_write_stamps : wlp (SSD_REG_WRITE_DELAY cfg reg) (fun _ w' => at_reg w' cmd (-1) tc) w.
Proof using Hw.
  eapply wlp_time; [exact Hw|by intros <-|intros _]. stamps_go reg. at_reg.
Qed.

Lemma reg_read_waits : wlp (SSD_REG_READ_DELAY cfg reg) (fun _ w' => waited tr (REG_READ_DELAY cfg) w') w.
Proof using CL Hw.
  eapply wlp_time; [exact Hw|by left|intros _].
  eapply wlp_mono; [apply (wlp_wait tr (REG_READ_DELAY cfg) (fun t => t - tr)); [done|]|by right].
  intros t. unfold SSD_UPDATE_IO_REQUEST, SSD_UPDATE_IO_OVERHEAD, update_io_request. runs_go.
Qed.

Lemma reg_read_stamps : wlp (SSD_REG_READ_DELAY cfg reg)
  (fun _ w' => at_reg w' (if tr =? -1 then cmd else NOOP) (-1) tc) w.
Proof using Hw.
  eapply wlp_time; [exact Hw|intros E; by rewrite E in *|intros Hne]. rewrite (proj2 (Z.eqb_neq _ _) Hne).
  stamps_go reg. at_reg.
Qed.

Lemma cell_write_stamps : wlp (SSD_CELL_WRITE_DELAY cfg reg)
  (fun _ w' => at_reg w' (if tc =? -1 then cmd else NOOP) tr (-1)) w.
Proof using Hw.
  eapply wlp_cell; [exact Hw|intros E; by rewrite E in *|intros Hne]. rewrite (proj2 (Z.eqb_neq _ _) Hne).
  stamps_go reg. at_reg.
Qed.

Lemma cell_read_stamps : wlp (SSD_CELL_READ_DELAY cfg reg) (fun _ w' => at_reg w' cmd tr (-1)) w.
Proof using Hw.
  eapply wlp_cell; [exact Hw|intros E; by rewrite E in *|intros Hne]. stamps_go reg. at_reg.
Qed.

Lemma erase_waits : wlp (SSD_BLOCK_ERASE_DELAY cfg reg) (fun _ w' => waited tc (BLOCK_ERASE_DELAY cfg) w') w.
Proof using CL Hw.
  eapply wlp_cell; [exact Hw|by left|intros _]. wlp_frame (fun s : io => s).
  eapply wlp_mono; [apply (wlp_wait tc (BLOCK_ERASE_DELAY cfg) (fun t => t - tc)); [done|]|by right].
  intros t. runs_go.
Qed.

Lemma erase_stamps : wlp (SSD_BLOCK_ERASE_DELAY cfg reg)
  (fun _ w' => at_reg w' (if tc =? -1 then cmd else NOOP) tr (-1)) w.
Proof using Hw.
  eapply wlp_cell; [exact Hw|intros E; by rewrite E in *|intros Hne]. rewrite (proj2 (Z.eqb_neq _ _) Hne).
  stamps_go reg. at_reg.
Qed.

Context (o : Z) (Ho : aget (io_overhead (snd w)) reg = Some o).

Lemma cell_write_waits : wlp (SSD_CELL_WRITE_DELAY cfg reg)
  (fun _ w' => waited tc (CELL_PROGRAM_DELAY cfg - o) w') w.
Proof using CL Hw Ho.
  eapply wlp_cell; [exact Hw|by left|intros _].
  eapply wlp_mono; [apply (wlp_wait_overhead reg tc o (CELL_PROGRAM_DELAY cfg)); [done|]|].
  - intros t o'. unfold SSD_UPDATE_IO_REQUEST, SSD_UPDATE_IO_OVERHEAD, update_io_request. runs_go.
  - intros ? w' H. right. by replace (tc + _) with (tc - o + CELL_PROGRAM_DELAY cfg) by lia.
Qed.

Lemma cell_read_waits : wlp (SSD_CELL_READ_DELAY cfg reg)
  (fun _ w' => waited tc (CELL_READ_DELAY cfg - o) w') w.
Proof using CL Hw Ho.
  eapply wlp_cell; [exact Hw|by left|intros _].
  eapply wlp_mono; [apply (wlp_wait_overhead reg tc o (CELL_READ_DELAY cfg)); [done|]|].
  - intros t o'. runs_go.
  - intros ? w' H. right. by replace (tc + _) with (tc - o + CELL_READ_DELAY cfg) by lia.
Qed.

End Delays.

(** ** A register access waits for the command of the register *)

Section Access.
Context (cfg : config) {C : Clock} {CL : ClockLaws C} (reg : Z).

(** The command recorded in [s] for [reg] is over when the clock of [w] has
    reached its end. *)
Definition finished (s : io) (w : module) : Prop :=
  match view reg s with
  | (Some cmd, Some tr, Some tc, Some o) =>
      if cmd =? READ then waited tc (CELL_READ_DELAY cfg - o) w /\ waited tr (REG_READ_DELAY cfg) w
      else if cmd =? WRITE then waited tr (REG_WRITE_DELAY cfg) w /\ waited tc (CELL_PROGRAM_DELAY cfg - o) w
      else if cmd =? ERASE then waited tc (BLOCK_ERASE_DELAY cfg) w
      else True
  | _ => True
  end.

(** The stamps of a command that is over: no command is left, unless the last
    of its stamps was missing. *)
Definition freed (s s' : io) : Prop :=
  match stamps reg s with
  | (Some cmd, Some tr, Some tc) =>
      if cmd =? READ then stamps reg s' = (Some (if tr =? -1 then READ else NOOP), Some (-1), Some (-1))
      else if cmd =? WRITE then stamps reg s' = (Some (if tc =? -1 then WRITE else NOOP), Some (-1), Some (-1))
      else if cmd =? ERASE then stamps reg s' = (Some (if tc =? -1 then ERASE else NOOP), Some tr, Some (-1))
      else stamps reg s' = stamps reg s
  | _ => True
  end.

Lemma wlp_conj {S A} (m : M S A) (P Q : A -> S -> Prop) s :
  wlp m P s -> wlp m Q s -> wlp m (fun a s' => P a s' /\ Q a s') s.
Proof. unfold wlp. by destruct (m s) as [[a s']| |]. Qed.

(** Two delays in a row. *)
Lemma wlp_seq {S A B} (m : M S A) (k : M S B) (P : A -> S -> Prop) (Q : B -> S -> Prop) s :
  wlp m P s -> (forall a s', P a s' -> wlp k Q s') -> wlp (m ;; k) Q s.
Proof. intros H1 H2. apply wlp_bind. eapply wlp_mono; [exact H1|]. intros a s' H. by eapply H2. Qed.

Hint Resolve frame_own_request : runs.

Lemma runs_delays : runs (frame nothing) (SSD_REG_READ_DELAY cfg reg) /\
  runs (frame nothing) (SSD_CELL_WRITE_DELAY cfg reg) /\
  runs (frame io_overhead) (SSD_REG_WRITE_DELAY cfg reg).
Proof.
  unfold SSD_REG_READ_DELAY, SSD_CELL_WRITE_DELAY, SSD_REG_WRITE_DELAY, SSD_UPDATE_IO_REQUEST,
    SSD_UPDATE_IO_OVERHEAD, update_io_request.
  split; [|split]; runs_go.
Qed.

Lemma view_stamps s cmd tr tc o : view reg s = (Some cmd, Some tr, Some tc, Some o) ->
  stamps reg s = (Some cmd, Some tr, Some tc) /\ aget (io_overhead s) reg = Some o.
Proof. unfold view. intros [= H1 H2 H3 H4]. split; [|done]. unfold stamps. congruence. Qed.

Lemma view_cmd s cmd tr tc o : view reg s = (Some cmd, Some tr, Some tc, Some o) ->
  aget (reg_io_cmd s) reg = Some cmd.
Proof. by intros [= H1 H2 H3 H4]. Qed.

Lemma read_access tr tc o w : view reg (snd w) = (Some READ, Some tr, Some tc, Some o) ->
  wlp (SSD_CELL_READ_DELAY cfg reg ;; SSD_REG_READ_DELAY cfg reg) (fun _ w' =>
    (waited tc (CELL_READ_DELAY cfg - o) w' /\ waited tr (REG_READ_DELAY cfg) w') /\
    stamps reg (snd w') = (Some (if tr =? -1 then READ else NOOP), Some (-1), Some (-1))) w.
Proof using CL.
  intros [Hw Ho]%view_stamps. destruct runs_delays as (HR & _).
  eapply wlp_seq; [apply wlp_conj; [by eapply cell_read_waits|by eapply cell_read_stamps]|].
  intros ? w1 [H1 Hs1]. apply wlp_conj; [|by eapply reg_read_stamps].
  apply wlp_conj; [|by eapply reg_read_waits].
  eapply wlp_runs; [exact HR|]. intros ? w2 Hf. by eapply waited_frame.
Qed.

Lemma write_access tr tc o w : view reg (snd w) = (Some WRITE, Some tr, Some tc, Some o) ->
  wlp (SSD_REG_WRITE_DELAY cfg reg ;; SSD_CELL_WRITE_DELAY cfg reg) (fun _ w' =>
    (waited tr (REG_WRITE_DELAY cfg) w' /\ waited tc (CELL_PROGRAM_DELAY cfg - o) w') /\
    stamps reg (snd w') = (Some (if tc =? -1 then WRITE else NOOP), Some (-1), Some (-1))) w.
Proof using CL.
  intros [Hw Ho]%view_stamps. destruct runs_delays as (_ & HR & HF).
  eapply wlp_seq; [apply wlp_conj; [apply wlp_conj; [by eapply reg_write_waits|by eapply reg_write_stamps]|
    by apply (HF w)]|].
  intros ? w1 [[H1 Hs1] [_ E]]. rewrite <- E in Ho. apply wlp_conj; [|by eapply cell_write_stamps].
  apply wlp_conj; [|by eapply cell_write_waits].
  eapply wlp_runs; [exact HR|]. intros ? w2 Hf. by eapply waited_frame.
Qed.

Lemma reg_access_partial w : (exists cmd tr tc o, view reg (snd w) = (Some cmd, Some tr, Some tc, Some o)) ->
  wlp (SSD_REG_ACCESS cfg reg) (fun _ w' => finished (snd w) w' /\ freed (snd w) (snd w')) w.
Proof using CL.
  intros (c & tr & tc & o & Hv). unfold SSD_REG_ACCESS. apply wlp_bind, wlp_io_rd. intros c' Hc'.
  assert (c' = c) as -> by (apply view_cmd in Hv; congruence).
  destruct (view_stamps _ _ _ _ _ Hv) as [Hs _]. unfold finished, freed. rewrite Hv, Hs.
  destruct (Z.eqb_spec c NOOP) as [->|N0]; [by apply wlp_ret|].
  destruct (Z.eqb_spec c READ) as [->|N1]; [by eapply read_access|].
  destruct (Z.eqb_spec c WRITE) as [->|N2]; [by eapply write_access|].
  destruct (Z.eqb_spec c ERASE) as [->|N3]; [|by apply wlp_ret].
  apply wlp_conj; [by eapply erase_waits|by eapply erase_stamps].
Qed.

End Access.

(** ** The commands wait for the register *)

Section Issue.
Context (cfg : config) {C : Clock} {CL : ClockLaws C}.

Definition full (reg : Z) (s : io) : Prop :=
  exists cmd tr tc o, view reg s = (Some cmd, Some tr, Some tc, Some o).

Lemma io_ok_full seq open p s reg : io_ok cfg seq open p s -> reg_ok cfg reg -> full reg s.
Proof.
  intros Hs Hreg. unfold reg_ok in Hreg.
  destruct (aget_range (reg_io_cmd s) reg) as [cmd H1]; [by rewrite (io_cmd _ _ _ _ _ Hs)|].
  destruct (aget_range (reg_io_time s) reg) as [tr H2]; [by rewrite (io_time _ _ _ _ _ Hs)|].
  destruct (aget_range (cell_io_time s) reg) as [tc H3]; [by rewrite (io_cell _ _ _ _ _ Hs)|].
  destruct (aget_range (io_overhead s) reg) as [o H4]; [by rewrite (io_over _ _ _ _ _ Hs)|].
  exists cmd, tr, tc, o. unfold view, stamps. by rewrite H1, H2, H3, H4.
Qed.

Lemma finished_view reg (w1 w2 w : module) : view reg (snd w2) = view reg (snd w1) ->
  finished cfg reg (snd w2) w -> finished cfg reg (snd w1) w.
Proof. unfold finished. by intros ->. Qed.

Lemma finished_frame {X} (π : io -> X) reg s w w' : frame π w w' -> finished cfg reg s w -> finished cfg reg s w'.
Proof using CL.
  intros Hf. unfold finished. pose proof (waited_frame π w w') as Hm.
  repeat case_match; try done; intros Hd; try destruct Hd as [Hd1 Hd2];
    try split; by apply Hm.
Qed.

Lemma ticks_reg_access reg : runs (frame nothing) (SSD_REG_ACCESS cfg reg).
Proof.
  unfold SSD_REG_ACCESS, SSD_CELL_READ_DELAY, SSD_REG_READ_DELAY, SSD_REG_WRITE_DELAY,
    SSD_CELL_WRITE_DELAY, SSD_BLOCK_ERASE_DELAY, SSD_UPDATE_IO_REQUEST, SSD_UPDATE_IO_OVERHEAD,
    update_io_request. runs_go.
Qed.
Hint Resolve ticks_reg_access : runs.

Lemma ticks_flash_access n : forall r reg ret, runs (frame nothing) (flash_access_loop cfg n r reg ret).
Proof. induction n as [|n IH]; intros r reg ret; simpl; runs_go. Qed.

Lemma flash_access_waits n : forall r reg ret w, full reg (snd w) -> r <= reg < r + Z.of_nat n ->
  wlp (flash_access_loop cfg n r reg ret) (fun _ w' => finished cfg reg (snd w) w') w.
Proof using CL.
  induction n as [|n IH]; intros r reg ret w Hw Hr; [lia|]. simpl.
  destruct (Z.eqb_spec r reg) as [->|Hne].
  - apply wlp_bind, wlp_ret, wlp_bind. eapply wlp_mono; [by apply reg_access_partial|].
    intros ret' w1 [H1 _]. eapply wlp_runs; [apply ticks_flash_access|].
    intros ? w2 Hf. by eapply finished_frame.
  - pose proof (frame_reg_access cfg reg r (not_eq_sym Hne)) as Hacc.
    wlp_frame (view reg). wlp_frame (view reg). destruct Hfr as [_ E1], Hfr0 as [_ E2]. rewrite E1 in E2.
    eapply wlp_mono; [apply IH; [|lia]|].
    + unfold full in *. by rewrite E2.
    + intros ? w' H. by eapply finished_view.
Qed.

Lemma access_waits f reg w : full reg (snd w) -> i32 (f * PLANES_PER_FLASH cfg) <= reg <
    i32 (f * PLANES_PER_FLASH cfg) + PLANES_PER_FLASH cfg ->
  wlp (access cfg f reg) (fun _ w' => finished cfg reg (snd w) w') w.
Proof using CL.
  intros Hw Hr. unfold access, SSD_FLASH_ACCESS. case_match.
  - apply flash_access_waits; [done|lia].
  - eapply wlp_mono; [by apply reg_access_partial|]. by intros ? ? [? _].
Qed.

(** *** The rest of the commands *)

Lemma frame_ch_access_loop l : forall ret, runs (frame nothing) (ch_access_loop cfg l ret).
Proof.
  induction l as [|r l IH]; intros ret; simpl; [runs_go|].
  unfold SSD_CELL_READ_DELAY, SSD_REG_READ_DELAY, SSD_REG_WRITE_DELAY, SSD_UPDATE_IO_REQUEST,
    SSD_UPDATE_IO_OVERHEAD, update_io_request. runs_go.
Qed.
Hint Resolve frame_ch_access_loop : runs.

Lemma frame_check_channel ch ret : runs (frame nothing) (check_channel cfg ch ret).
Proof.
  unfold check_channel. generalize (S (S (length (channel_regs cfg ch)))) as fuel. revert ret.
  intros ret fuel. revert ret. induction fuel as [|fuel IH]; intros ret; simpl; [done|].
  unfold SSD_CH_ACCESS. runs_go.
Qed.

Section Records.
Context {X : Type} (π : io -> X) (Ht : forall l s, π (set_reg_io_time l s) = π s)
  (Hc : forall l s, π (set_cell_io_time l s) = π s) (Ha : forall l s, π (set_access_nb l s) = π s)
  (Ho : forall l s, π (set_io_overhead l s) = π s) (Hv : forall a u s, π (set_overheads a u s) = π s)
  (Hch : forall a b c s, π (set_old_channel a b c s) = π s).

Lemma frame_ch_record ch cmd o ret : runs (frame π) (SSD_CH_RECORD cfg ch cmd o ret).
Proof using Hch. unfold SSD_CH_RECORD. runs_go; apply frame_io_modify; auto. Qed.

Lemma frame_cell_record reg cmd : runs (frame π) (SSD_CELL_RECORD cfg reg cmd).
Proof using Hc. unfold SSD_CELL_RECORD. runs_go; apply frame_io_wr; auto. Qed.

Lemma frame_update_ch l t : runs (frame π) (update_ch_loop cfg l t).
Proof using Ht.
  induction l as [|r l IH]; simpl; runs_go. apply frame_io_wr; auto.
Qed.

Lemma frame_ch_time l : forall t, runs (frame π) (ch_time_loop cfg l t).
Proof. induction l as [|r l IH]; intros t; simpl; runs_go. Qed.

Lemma frame_record_start reg o : runs (frame π) (record_start cfg reg o).
Proof using Ha Ho Hv.
  unfold record_start, update_io_request, SSD_UPDATE_IO_OVERHEAD.
  runs_go; first [apply frame_io_wr; auto | apply frame_io_modify; auto].
Qed.

End Records.

(** The command and its type are recorded. *)
Definition recorded (reg cmd type : Z) (w : module) : Prop :=
  aget (reg_io_cmd (snd w)) reg = Some cmd /\ aget (reg_io_type (snd w)) reg = Some type.

Lemma recorded_frame reg cmd type (w w' : module) : frame commands w w' -> recorded reg cmd type w -> recorded reg cmd type w'.
Proof. unfold recorded. intros [_ [= -> ->]]. done. Qed.

Lemma reg_record_records reg cmd type o ch w :
  wlp (SSD_REG_RECORD cfg reg cmd type o ch) (fun _ w' => recorded reg cmd type w') w.
Proof.
  unfold SSD_REG_RECORD. wlp_step. wlp_step. wlp_step. wlp_step.
  eapply (wlp_runs (frame commands)).
  - pose proof (frame_record_start commands ltac:(done) ltac:(done) ltac:(done) reg o).
    pose proof (frame_update_ch commands ltac:(done)). pose proof (frame_ch_time commands).
    unfold SSD_UPDATE_CH_ACCESS_TIME, SSD_GET_CH_ACCESS_TIME_FOR_READ. runs_go.
  - intros _ w' Hf. eapply recorded_frame; [exact Hf|]. split; by eapply aget_aset_eq.
Qed.

Lemma ticks_reg_record reg cmd type o ch : runs (frame nothing) (SSD_REG_RECORD cfg reg cmd type o ch).
Proof.
  pose proof (frame_record_start nothing ltac:(done) ltac:(done) ltac:(done) reg o).
  pose proof (frame_update_ch nothing ltac:(done)). pose proof (frame_ch_time nothing).
  unfold SSD_REG_RECORD, SSD_UPDATE_CH_ACCESS_TIME, SSD_GET_CH_ACCESS_TIME_FOR_READ. runs_go.
Qed.

Lemma ticks_ch_enable ch : runs (frame nothing) (SSD_CH_ENABLE cfg ch).
Proof. unfold SSD_CH_ENABLE, SSD_CH_SWITCH_DELAY. runs_go. Qed.

Lemma ticks_access f reg : runs (frame nothing) (access cfg f reg).
Proof. pose proof ticks_flash_access. unfold access, SSD_FLASH_ACCESS. runs_go. Qed.

Lemma ticks_ch_record ch cmd o ret : runs (frame nothing) (SSD_CH_RECORD cfg ch cmd o ret).
Proof. by apply frame_ch_record. Qed.

Lemma ticks_cell_record reg cmd : runs (frame nothing) (SSD_CELL_RECORD cfg reg cmd).
Proof. by apply frame_cell_record. Qed.

Lemma commands_cell_record reg cmd : runs (frame commands) (SSD_CELL_RECORD cfg reg cmd).
Proof. by apply frame_cell_record. Qed.

Hint Resolve ticks_reg_record ticks_ch_enable ticks_access ticks_ch_record ticks_cell_record
  commands_cell_record frame_check_channel frame_ch_enable : runs.

Section Command.
Context (f b : Z) (Hreg : i32 (f * PLANES_PER_FLASH cfg) <= reg_of cfg f b <
  i32 (f * PLANES_PER_FLASH cfg) + PLANES_PER_FLASH cfg).

Local Abbreviation reg := (reg_of cfg f b).

(** The access at the start of a command, whatever follows. *)
Lemma command_waits {A} (k : Z -> M module A) w : full reg (snd w) -> (forall d, runs (frame nothing) (k d)) ->
  wlp (d ← access cfg f reg; k d) (fun _ w' => finished cfg reg (snd w) w') w.
Proof using CL Hreg.
  intros Hw Hk. apply wlp_bind. eapply wlp_mono; [by apply access_waits|]. intros d w2 H2.
  eapply wlp_runs; [apply Hk|]. intros ? w3 Hf. by eapply finished_frame.
Qed.

Lemma enabled_waits {A} ch (k : Z -> M module A) w : full reg (snd w) -> (forall d, runs (frame nothing) (k d)) ->
  wlp (SSD_CH_ENABLE cfg ch ;; d ← access cfg f reg; k d) (fun _ w' => finished cfg reg (snd w) w') w.
Proof using CL Hreg.
  intros Hw Hk. wlp_frame (view reg). destruct Hfr as [_ E].
  eapply wlp_mono; [apply command_waits; [|done]|]; [unfold full in *; by rewrite E|].
  intros ? w' H. by eapply finished_view.
Qed.

(** Recording a command, and the stamp of the cell after it. *)
Lemma records {A} (k : M module A) cmd type o ch w : runs (frame commands) k ->
  wlp (SSD_REG_RECORD cfg reg cmd type o ch ;; k) (fun _ w' => recorded reg cmd type w') w.
Proof.
  intros Hk. apply wlp_bind. eapply wlp_mono; [apply reg_record_records|]. intros ? w1 H1.
  eapply wlp_runs; [exact Hk|]. intros ? w2 Hf. by eapply recorded_frame.
Qed.

Lemma page_write_partial p o type k w : full reg (snd w) ->
  wlp (SSD_PAGE_WRITE cfg f b p o type k)
    (fun _ w' => finished cfg reg (snd w) w' /\ recorded reg WRITE type w') w.
Proof using CL Hreg.
  intros Hw. unfold SSD_PAGE_WRITE. apply wlp_conj; [apply enabled_waits; [done|]; intros d; runs_go|].
  do 4 wlp_frame nothing. apply records. runs_go.
Qed.

Lemma page_read_partial p o type k w : full reg (snd w) ->
  wlp (SSD_PAGE_READ cfg f b p o type k)
    (fun _ w' => finished cfg reg (snd w) w' /\ recorded reg READ type w') w.
Proof using CL Hreg.
  intros Hw. unfold SSD_PAGE_READ. apply wlp_conj; [apply enabled_waits; [done|]; intros d; runs_go|].
  do 4 wlp_frame nothing. apply records. runs_go.
Qed.

Lemma block_erase_partial w : full reg (snd w) ->
  wlp (SSD_BLOCK_ERASE cfg f b)
    (fun _ w' => finished cfg reg (snd w) w' /\ recorded reg ERASE ERASE w') w.
Proof using CL Hreg.
  intros Hw. unfold SSD_BLOCK_ERASE. apply wlp_conj; [apply command_waits; [done|]; intros d; runs_go|].
  wlp_frame nothing. apply records. runs_go.
Qed.

End Command.

(** *** What the commands leave alone *)

Lemma ticks_page_read f b p o type k : runs (frame nothing) (SSD_PAGE_READ cfg f b p o type k).
Proof. unfold SSD_PAGE_READ. runs_go. Qed.

Lemma ticks_page_write f b p o type k : runs (frame nothing) (SSD_PAGE_WRITE cfg f b p o type k).
Proof. unfold SSD_PAGE_WRITE. runs_go. Qed.

Lemma ticks_partial_write f b p f' b' p' o type k :
  runs (frame nothing) (SSD_PAGE_PARTIAL_WRITE cfg f b p f' b' p' o type k).
Proof. unfold SSD_PAGE_PARTIAL_WRITE, SSD_REMAIN_IO_DELAY. runs_go. Qed.

Lemma ticks_block_erase f b : runs (frame nothing) (SSD_BLOCK_ERASE cfg f b).
Proof. unfold SSD_BLOCK_ERASE. runs_go. Qed.

Lemma ticks_alloc s l t : runs (frame nothing) (alloc_request cfg s l t).
Proof.
  unfold alloc_request. apply runs_bind; [apply _| |intros; runs_go]. apply frame_perf.
  unfold ALLOC_IO_REQUEST. runs_go. intros p. unfold wlp. destruct (io_pages cfg s l); done.
Qed.

Lemma ticks_close : runs (frame nothing) (on_fst INCREASE_IO_REQUEST_SEQ_NB : M module unit).
Proof. apply frame_perf. unfold INCREASE_IO_REQUEST_SEQ_NB. runs_go. Qed.

Lemma reg_of_bounds (Hok : cfg_ok cfg) f b : 0 <= f < FLASH_NB cfg ->
  i32 (f * PLANES_PER_FLASH cfg) <= reg_of cfg f b <
  i32 (f * PLANES_PER_FLASH cfg) + PLANES_PER_FLASH cfg.
Proof.
  intros Hf. destruct (flash_reg cfg Hok f Hf) as (E & H1 & H2). rewrite E. unfold reg_of.
  pose proof (ok_plane _ Hok). pose proof (ok_roots Hok). pose proof (ok_page_lt Hok).
  pose proof (ok_plane_le Hok). rewrite (u32_id (PLANES_PER_FLASH cfg)) by lia.
  pose proof (Z.mod_pos_bound b (PLANES_PER_FLASH cfg)). rewrite i32_id; lia.
Qed.

End Issue.
