(* ===== verification/SsdSim.v ===== *)
(** * The flash module implements the device

    [SsdLaws] shows that the commands of the module run and answer what the
    specification machine answers; [Timing] that they leave the log of the
    translation layer alone.  Together they are the law of [Device]. *)

From stdpp Require Import prelude.
From S2P Require Import Prelude Config Blocks Device Perf SsdIo SsdLaws Timing.

Local Open Scope Z_scope.

Section Laws.
Context (cfg : config) (Hok : cfg_ok cfg) {C : Clock} {CL : ClockLaws C}.

(** The module has the requests of the machine, and has logged what it has
    logged among what the performance checker logs. *)
Definition sim_rel (n : nand) (w : module) : Prop := mod_rel cfg n w /\ ftl_log (fst w) = n_log n.

(** A command that answers as the specification does, and logs nothing. *)
Lemma refines_log {A} (m : M module A) (spec : M nand A) : refines (mod_rel cfg) m spec ->
  runs (frame nothing) m -> (forall n a n', spec n = Ret (a, n') -> n_log n' = n_log n) -> refines sim_rel m spec.
Proof.
  intros Hm Hr Hs n w a n' [Hw Hl] E. eapply wp_mono; [apply wp_wlp; [by apply (Hm n)|apply Hr]|].
  intros a' w' [[-> Hw'] [[_ El] _]]. split; [done|]. split; [done|]. by rewrite El, Hl, (Hs n a n' E).
Qed.

Lemma log_refines e : ftl_event e = true ->
  refines sim_rel (on_fst (modify (log_event e)) : M module unit) (nand_log e).
Proof.
  intros He n [p s] a n' [[Hp Hs] Hl] [= <- <-]. apply wp_on_fst, wp_modify. split; [done|]. split.
  - apply (mod_ok_fst cfg _ _ (p, s)); [by split| |by apply older_same]. by eapply perf_ok_same; [..|exact Hp].
  - simpl in *. unfold ftl_log in *. simpl. by rewrite filter_app, Hl, filter_cons_True.
Qed.

Ltac same_log := intros n a n'; unfold nand_alloc, nand_close, nand_read, nand_write, nand_partial_write, nand_erase;
  repeat case_match; intros E; simplify_eq; done.

#[export] Instance SsdLaws : DeviceLaws cfg (SsdDevice cfg).
Proof using Hok CL.
  refine {| dev_rel := sim_rel : nand -> @dev (SsdDevice cfg) -> Prop; log_law := log_refines |}.
  - intros. apply refines_log; [by apply alloc_refines|apply ticks_alloc|same_log].
  - apply refines_log; [by apply close_refines|apply ticks_close|same_log].
  - intros. apply refines_log; [by apply read_refines|apply ticks_page_read|same_log].
  - intros. apply refines_log; [by apply write_refines|apply ticks_page_write|same_log].
  - intros. apply refines_log; [by apply partial_refines|apply ticks_partial_write|same_log].
  - intros. apply refines_log; [by apply erase_refines|apply ticks_block_erase|same_log].
Defined.

(** After start-up nothing is under way. *)
Lemma init_sim_rel p s : ftl_log p = [] ->
  wp (on_fst INIT_PERF_CHECKER ;; SSD_IO_INIT cfg) (fun _ w => sim_rel nand0 w) (p, s).
Proof using Hok.
  intros Hl. pose proof (init_mod_rel cfg Hok p s) as Hm.
  assert (runs (fun w w' : module => ftl_log (fst w') = ftl_log (fst w)) (on_fst INIT_PERF_CHECKER ;; SSD_IO_INIT cfg)) as Hr.
  { intros [p1 s1]. reflexivity. }
  eapply wp_mono; [apply wp_wlp; [exact Hm|apply Hr]|]. intros ? w [H1 H2]. split; [done|]. by rewrite H2.
Qed.

End Laws.
