(* ===== verification/Space.v ===== *)
(** * A drive whose data fits never runs out of pages

    Accounting of free and valid pages.  The collector takes the victim with the
    fewest valid pages; when few logical pages are in use that is few, so a
    round has room to copy them and gains a part of a block.  As long as the
    data and the request fit, every write succeeds. *)

From stdpp Require Import prelude gmap.
From Stdlib Require Import Ascii.
From S2P Require Import Prelude Config Blocks Mapping Device Gc Ftl Tables Lists Victims Inv Collect Host Boot.

Local Open Scope Z_scope.

(** ** Lists *)

(** Lists with different keys have no element in common. *)
Lemma NoDup_mjoin_key {A B C} (f : A -> list B) (g : A -> C) (key : B -> C) (l : list A) :
  NoDup (g <$> l) -> (forall a, a ∈ l -> NoDup (f a)) ->
  (forall a x, a ∈ l -> x ∈ f a -> key x = g a) -> NoDup (mjoin (f <$> l)).
Proof.
  induction l as [|a l IH]; intros Hg Hf Hk; [constructor|]. simpl in Hg.
  apply NoDup_cons in Hg as [Ha Hg].
  change (mjoin (f <$> a :: l)) with (f a ++ mjoin (f <$> l)). apply NoDup_app. split; [|split].
  - apply Hf. left.
  - intros x Hx (i & b & Hb & Hxb)%elem_mjoin_aget. apply aget_elem in Hb. apply Ha.
    rewrite <- (Hk a x ltac:(left) Hx), (Hk b x (list_elem_of_further _ _ _ Hb) Hxb).
    by apply list_elem_of_fmap_2.
  - apply IH; [done| |]; intros; [apply Hf|eapply Hk]; try done; by right.
Qed.

Lemma zlen_mjoin {A B} (f : A -> list B) (l : list A) :
  zlen (mjoin (f <$> l)) = sum_with (fun a => zlen (f a)) l.
Proof.
  induction l as [|a l IH]; [done|].
  change (mjoin (f <$> a :: l)) with (f a ++ mjoin (f <$> l)). rewrite zlen_app, IH. done.
Qed.

Lemma sum_with_ext {A} (f g : A -> Z) l : (forall a, a ∈ l -> f a = g a) -> sum_with f l = sum_with g l.
Proof.
  induction l as [|a l IH]; intros H; simpl; [done|]. rewrite (H a) by left.
  rewrite IH; [done|]. intros. apply H. by right.
Qed.

Lemma sum_with_mjoin {A B} (g : B -> Z) (f : A -> list B) (l : list A) :
  sum_with g (mjoin (f <$> l)) = sum_with (fun a => sum_with g (f a)) l.
Proof.
  induction l as [|a l IH]; [done|].
  change (mjoin (f <$> a :: l)) with (f a ++ mjoin (f <$> l)). rewrite sum_with_app, IH. done.
Qed.

Lemma sum_with_le {A} (f g : A -> Z) l : (forall a, a ∈ l -> f a <= g a) -> sum_with f l <= sum_with g l.
Proof.
  induction l as [|a l IH]; intros H; simpl; [lia|]. pose proof (H a ltac:(left)).
  specialize (IH (fun b Hb => H b (list_elem_of_further _ _ _ Hb))). lia.
Qed.

Lemma filter_ext_in {A} (Q R : A -> Prop) `{forall x, Decision (Q x)} `{forall x, Decision (R x)} (l : list A) :
  (forall x, x ∈ l -> Q x <-> R x) -> filter Q l = filter R l.
Proof.
  induction l as [|x l IH]; intros HQ; [done|]. rewrite !filter_cons.
  rewrite IH by (intros y Hy; apply HQ; by right). pose proof (HQ x ltac:(left)).
  repeat case_decide; tauto.
Qed.

Lemma filter_fmap {A C} (f : A -> C) (Q : C -> Prop) `{forall x, Decision (Q x)} (l : list A) :
  filter Q (f <$> l) = f <$> filter (fun x => Q (f x)) l.
Proof.
  induction l as [|x l IH]; [done|]. rewrite fmap_cons, !filter_cons, IH. by case_decide.
Qed.

(** The positions of the valid pages. *)
Lemma count_valid_positions va :
  zlen (filter (fun i => aget va i = Some chV) (seqZ 0 (zlen va))) = count_valid va.
Proof.
  induction va as [|c va IH] using rev_ind; [done|]. rewrite zlen_app. simpl length.
  rewrite seqZ_app by lia. rewrite filter_app, zlen_app.
  assert (count_valid (va ++ [c]) = count_valid va + (if Ascii.eqb c chV then 1 else 0)) as ->.
  { clear. induction va as [|x va IH]; simpl; [lia|]. rewrite IH. lia. }
  rewrite <- IH. f_equal.
  - f_equal. f_equal. apply filter_ext_in. intros i Hi%elem_of_seqZ.
    unfold aget. destruct (Z.leb_spec 0 i); [|lia]. by rewrite lookup_app_l by lia.
  - rewrite Z.add_0_l. change (Z.of_nat 1) with 1. change (seqZ (zlen va) 1) with [zlen va].
    rewrite filter_cons, filter_nil. rewrite aget_nat, list_lookup_middle by done.
    destruct (Ascii.eqb_spec c chV) as [->|]; case_decide; simpl; (done || congruence).
Qed.

(** ** Accounting *)

Section Space.
Context (cfg : config) (Hok : cfg_ok cfg).

Local Abbreviation P := (PAGE_NB cfg).
Local Abbreviation B := (BLOCK_NB cfg).
Local Abbreviation F := (FLASH_NB cfg).
Local Abbreviation L := (PLANES_PER_FLASH cfg).
Local Abbreviation K := (FLASH_NB cfg * PLANES_PER_FLASH cfg).
Local Abbreviation chars s := (page_char cfg (block_state_table s)).

(** Every block of the drive is in a list. *)
Definition all_listed (s : ftl) : Prop := listed cfg s ≡ₚ seqZ 0 (B * F).

Lemma victims_count s : lists_ok cfg s -> all_listed s ->
  zlen (victims s) = B * F - total_empty_block_nb s.
Proof using Hok.
  intros Hs Hall. apply Permutation_length in Hall. unfold listed in Hall.
  rewrite length_app, !length_fmap, length_seqZ in Hall. rewrite (lo_te _ s Hs).
  pose proof (ok_blocks Hok). lia.
Qed.

(** A list of empty blocks has at most one block that is partly written. *)
Lemma free_pages_blocks s : lists_ok cfg s -> (total_empty_block_nb s - K) * P <= free_pages cfg s.
Proof using Hok.
  intros Hs. pose proof (ok_page _ Hok). rewrite (lo_te _ s Hs), <- (lo_elen _ s Hs).
  unfold free_pages, empties. rewrite zlen_mjoin, sum_with_mjoin.
  assert (forall r, r ∈ empty_block_list s ->
    (zlen (eb_list r) - 1) * P <= sum_with (fun e => P - curr_phy_page_nb e) (eb_list r)) as Hr.
  { intros r [i Hi]%elem_aget. destruct (lo_empty _ s Hs i r Hi) as [_ Hel].
    pose proof (fun e => lo_heads _ s Hs i r e Hi) as Htl.
    destruct (eb_list r) as [|e l]; simpl; [lia|]. simpl in Htl.
    destruct (Hel e ltac:(left)) as [(_ & _ & Hc) _].
    pose proof (sum_with_lower (fun e => P - curr_phy_page_nb e) l P) as Hl.
    assert (P * zlen l <= sum_with (fun e => P - curr_phy_page_nb e) l).
    { apply Hl. intros a Ha. rewrite (Htl a Ha). lia. }
    lia. }
  pose proof (sum_with_le _ _ _ Hr) as Hle. clear Hr.
  enough (sum_with (fun r => (zlen (eb_list r) - 1) * P) (empty_block_list s) =
    (sum_with (fun r => zlen (eb_list r)) (empty_block_list s) - zlen (empty_block_list s)) * P) by lia.
  clear. induction (empty_block_list s) as [|r l IH]; simpl; [lia|]. rewrite IH. lia.
Qed.

(** The valid pages of a block. *)
Definition valid_pages (s : ftl) (v : victim_block_entry) : list Z :=
  filter (fun q => chars s q = Some chV) ((fun i => v_id cfg v * P + i) <$> seqZ 0 P).

Lemma valid_pages_count s v : tables_ok cfg s -> victim_ok cfg v ->
  valid_of cfg s v = Some (zlen (valid_pages s v)).
Proof using Hok.
  intros Ht Hv. pose proof (ok_page _ Hok).
  destruct (aget_range (block_state_table s) (v_id cfg v)) as [e He].
  { rewrite (t_blocks _ s Ht). destruct Hv. by apply block_id_range. }
  destruct (t_entry _ s Ht _ _ He) as [Hl Hc]. unfold valid_of. rewrite He. simpl. f_equal.
  rewrite Hc, <- count_valid_positions, Hl. unfold valid_pages. rewrite filter_fmap, length_fmap.
  f_equal. f_equal. apply filter_ext_in. intros i Hi%elem_of_seqZ. simpl.
  change (v_id cfg v * P + i) with (page_id cfg (v_phy_flash_nb v) (v_phy_block_nb v) i).
  unfold page_char. rewrite page_id_block, page_id_page by (done || lia).
  unfold v_id in He. by rewrite He.
Qed.

(** The valid pages of the victims belong to different logical pages. *)
Lemma valid_pages_bound R s n disk : inv cfg R s n disk ->
  sum_with (fun v => zlen (valid_pages s v)) (victims s) <= Z.of_nat (size disk).
Proof using Hok.
  intros Hi. pose proof (ok_page _ Hok). rewrite <- zlen_mjoin.
  set (Q := mjoin (valid_pages s <$> victims s)).
  assert (forall v q, q ∈ valid_pages s v -> chars s q = Some chV /\ q / P = v_id cfg v) as Hin.
  { intros v q [HV (i & -> & Hi'%elem_of_seqZ)%list_elem_of_fmap]%list_elem_of_filter.
    split; [done|]. rewrite Z.div_add_l, Z.div_small by lia. lia. }
  assert (NoDup Q) as Hnd.
  { apply (NoDup_mjoin_key _ (v_id cfg) (fun q => q / P)).
    - pose proof (lo_nodup _ s (i_lists _ _ _ _ _ Hi)) as Hnd. unfold listed in Hnd.
      by apply NoDup_app in Hnd as (_ & _ & ?).
    - intros v _. apply NoDup_filter, NoDup_fmap_2; [intros x y ?; lia|apply NoDup_seqZ].
    - intros v q _ Hq. by apply Hin. }
  set (target := fun lpn => default (-1) (aget (mapping_table s) lpn)).
  assert (Q ⊆ target <$> (map_to_list disk).*1) as Hsub.
  { intros q (i & v & Hv & Hq)%elem_mjoin_aget. apply aget_elem in Hv. destruct (Hin v q Hq) as [HV Hd].
    destruct (i_inv _ _ _ _ _ Hi q HV) as (lpn & _ & Hm).
    { left. rewrite Hd. unfold listed. apply elem_of_app. right. by apply list_elem_of_fmap_2. }
    apply list_elem_of_fmap. exists lpn. unfold target. rewrite Hm. split; [done|].
    pose proof (chars_range cfg Hok s q chV (i_tables _ _ _ _ _ Hi) HV) as Hr.
    pose proof (i_data _ _ _ _ _ Hi _ _ Hm) as Hdata. destruct (Z.eqb_spec q (-1)); [lia|].
    destruct (i_valid _ _ _ _ _ Hi q HV) as [c Hc].
    apply list_elem_of_fmap. exists (lpn, c). split; [done|]. apply elem_of_map_to_list. congruence. }
  pose proof (submseteq_length _ _ (NoDup_submseteq _ _ Hnd Hsub)) as Hlen.
  rewrite !length_fmap in Hlen. rewrite length_map_to_list in Hlen. lia.
Qed.

(** The fewest valid pages are at most the average. *)
Lemma least_bound R s n disk m : inv cfg R s n disk -> all_listed s -> least cfg s m ->
  m * (B * F - total_empty_block_nb s) <= Z.of_nat (size disk).
Proof using Hok.
  intros Hi Hall [_ Hmin]. pose proof (i_lists _ _ _ _ _ Hi) as Hs.
  rewrite <- (victims_count s Hs Hall). etrans; [|by eapply valid_pages_bound].
  apply sum_with_lower. intros v Hv. eapply Hmin; [done|].
  apply valid_pages_count; [apply (i_tables _ _ _ _ _ Hi)|by eapply elem_victims].
Qed.

End Space.

(** ** The collector makes room *)

Section Live.
Context (cfg : config) (Hok : cfg_ok cfg) (HL : PLANES_PER_FLASH cfg = 1).
Context {D : Device} {DL : DeviceLaws cfg D}.

Local Abbreviation P := (PAGE_NB cfg).
Local Abbreviation B := (BLOCK_NB cfg).
Local Abbreviation F := (FLASH_NB cfg).
Local Abbreviation K := (FLASH_NB cfg * PLANES_PER_FLASH cfg).
Local Abbreviation none := (fun _ : Z => False).

(** A bound on the logical pages in use.  The blocks outside the lists of empty
    blocks can hold more; [share] is what each of them holds on average. *)
Context (M : Z) (HM : 0 <= M < (B * F - K) * P).

Definition share : Z := M / (B * F - K).

Lemma share_range : 0 < B * F - K /\ 0 <= share < P.
Proof using Hok HL HM.
  pose proof (ok_page _ Hok). assert (0 < B * F - K) as Hk by nia. split; [done|].
  unfold share. split; [apply Z.div_pos; lia|]. apply Z.div_lt_upper_bound; lia.
Qed.

Lemma least_share R s n disk m : inv cfg R s n disk -> all_listed cfg s -> least cfg s m ->
  Z.of_nat (size disk) <= M -> total_empty_block_nb s <= K -> m <= share.
Proof using Hok HL HM.
  intros Hi Hall Hm Hd Ht. pose proof (least_bound cfg Hok _ _ _ _ _ Hi Hall Hm) as Hb.
  destruct share_range as [Hk _]. destruct (decide (m <= 0)); [unfold share; apply Z.div_le_lower_bound; nia|].
  unfold share. apply Z.div_le_lower_bound; nia.
Qed.

Lemma least_page s n disk R m : inv cfg R s n disk -> least cfg s m -> 0 <= m <= P.
Proof using Hok.
  intros Hi [(v & Hv & Hm) _]. pose proof (i_lists _ _ _ _ _ Hi) as Hs. pose proof (ok_page _ Hok).
  rewrite (valid_pages_count cfg Hok s v (i_tables _ _ _ _ _ Hi) (elem_victims cfg s v Hs Hv)) in Hm.
  injection Hm as <-. unfold valid_pages.
  pose proof (length_filter (fun q => page_char cfg (block_state_table s) q = Some chV)
    ((fun i => v_id cfg v * P + i) <$> seqZ 0 P)) as Hle.
  rewrite length_fmap, length_seqZ in Hle. lia.
Qed.

(** While the lists of empty blocks are short, there is a victim with room. *)
Lemma not_all_valid R s n disk : inv cfg R s n disk -> all_listed cfg s ->
  Z.of_nat (size disk) <= M -> total_empty_block_nb s <= K ->
  ~ (forall v m, v ∈ victims s -> valid_of cfg s v = Some m -> P <= m).
Proof using Hok HL HM.
  intros Hi Hall Hd Ht H. pose proof (i_lists _ _ _ _ _ Hi) as Hs.
  pose proof (valid_pages_bound cfg Hok _ _ _ _ Hi) as Hb.
  assert (P * zlen (victims s) <= sum_with (fun v => zlen (valid_pages cfg s v)) (victims s)) as Hl.
  { apply sum_with_lower. intros v Hv. eapply H; [done|].
    apply valid_pages_count; [done|apply (i_tables _ _ _ _ _ Hi)|by eapply elem_victims]. }
  rewrite (victims_count cfg Hok s Hs Hall) in Hl. pose proof (ok_page _ Hok). nia.
Qed.

(** A round does not fail while the lists of empty blocks are short, and gains
    the part of a block that is not in use on average. *)
Definition gained (s s' : ftl) (r : Z) : Prop :=
  all_listed cfg s' /\ free_pages cfg s <= free_pages cfg s' /\
  (total_empty_block_nb s <= K -> r = SUCCESS /\ free_pages cfg s + P - share <= free_pages cfg s').

(** Rounds of the collector, each by the number of pages it copies: a round
    gains the rest of a block. *)
Definition rounds (ms : list Z) (s s' : ftl) : Prop :=
  Forall (fun m => 0 <= m < P) ms /\ free_pages cfg s' = free_pages cfg s + sum_with (fun m => P - m) ms.

Lemma rounds_nil s : rounds [] s s.
Proof. split; [done|simpl; lia]. Qed.

Lemma rounds_app ms ms' s1 s2 s3 : rounds ms s1 s2 -> rounds ms' s2 s3 -> rounds (ms ++ ms') s1 s3.
Proof. intros [H1 E1] [H2 E2]. split; [by apply Forall_app|]. rewrite sum_with_app. lia. Qed.

Lemma garbage_collection_live s d n disk : inv cfg none s n disk -> dev_rel n d ->
  all_listed cfg s -> Z.of_nat (size disk) <= M -> share <= free_pages cfg s ->
  wp (GARBAGE_COLLECTION cfg) (fun r w => exists ms, collected cfg (Collected <$> ms) n disk w /\
    gained s (fst w) r /\ rounds ms s (fst w) /\ (length ms <= 1)%nat) (s, d).
Proof using Hok HL HM.
  intros Hi HR Hall Hd Hfr. eapply wp_mono; [by apply (garbage_collection cfg Hok HL)|].
  intros r w (es & Hc & Hsp). pose proof (free_pages_blocks cfg Hok s (i_lists _ _ _ _ _ Hi)) as Hblk.
  destruct share_range as [Hk Hsh]. pose proof (ok_page _ Hok).
  destruct Hsp as [(-> & HP & m & Hm & Hne & Hf & ->)|[(-> & -> & HP & Hf & Hv)|(-> & -> & m & Hm & Hne & Hlt)]].
  - pose proof (least_page _ _ _ _ _ Hi Hm). exists [m]. split; [done|]. split.
    + split; [by unfold all_listed; rewrite HP|].
      split; [lia|]. intros Ht. pose proof (least_share _ _ _ _ _ Hi Hall Hm Hd Ht). split; [done|lia].
    + split; [|done]. split; [repeat constructor; lia|simpl; lia].
  - exists []. split; [done|]. split; [|split; [split; [done|simpl; lia]|simpl; lia]].
    split; [by unfold all_listed; rewrite HP|]. split; [lia|]. intros Ht.
    by destruct (not_all_valid _ _ _ _ Hi Hall Hd Ht).
  - exfalso. pose proof (least_page _ _ _ _ _ Hi Hm).
    destruct (decide (total_empty_block_nb s <= K)) as [Ht|Ht]; [|nia].
    pose proof (least_share _ _ _ _ _ Hi Hall Hm Hd Ht). lia.
Qed.

Lemma gc_rounds_live k : forall s d n disk, inv cfg none s n disk -> dev_rel n d ->
  all_listed cfg s -> Z.of_nat (size disk) <= M -> share <= free_pages cfg s ->
  wp (gc_rounds cfg k) (fun _ w => exists ms, collected cfg (Collected <$> ms) n disk w /\ all_listed cfg (fst w) /\
    free_pages cfg s <= free_pages cfg (fst w) /\
    ((0 < k)%nat -> total_empty_block_nb s <= K ->
     free_pages cfg s + P - share <= free_pages cfg (fst w)) /\ rounds ms s (fst w) /\ (length ms <= k)%nat) (s, d).
Proof using Hok HL HM.
  induction k as [|k IH]; intros s d n disk Hi HR Hall Hd Hfr; simpl.
  { wp_go. exists []. split; [exists n; split; [done|]; split; [apply logged_refl|done]|]. split; [done|].
    split; [simpl; lia|]. split; [lia|]. split; [apply rounds_nil|done]. }
  apply wp_bind. eapply wp_mono; [by apply garbage_collection_live|].
  intros r [s1 d1] (ms1 & (n1 & HR1 & Hh1 & Hi1) & (Hall1 & Hle1 & Hg1) & Hr1 & Hk1). simpl in *.
  destruct (Z.eqb_spec r FAIL) as [->|Hr].
  - wp_go. exists ms1. split; [by exists n1|]. split; [done|]. split; [done|]. split; [|split; [done|lia]].
    intros _ Ht. by destruct (Hg1 Ht).
  - eapply wp_mono; [apply (IH s1 d1 n1 disk); try done; lia|].
    intros _ w (ms2 & (n2 & HR2 & Hh2 & Hi2) & Hall2 & Hle2 & _ & Hr2 & Hk2). exists (ms1 ++ ms2). split.
    { exists n2. split; [done|]. rewrite fmap_app. split; [by eapply logged_trans|done]. }
    split; [done|]. split; [lia|]. split; [intros _ Ht; destruct (Hg1 Ht); lia|].
    split; [by eapply rounds_app|]. rewrite length_app. lia.
Qed.

(** After the check there is a block's worth of free pages. *)
Lemma gc_check_live f b s d n disk : inv cfg none s n disk -> dev_rel n d ->
  all_listed cfg s -> Z.of_nat (size disk) <= M -> share <= free_pages cfg s -> 1 <= GC_VICTIM_NB cfg ->
  wp (GC_CHECK cfg f b) (fun _ w => exists ms, collected cfg (Collected <$> ms) n disk w /\ all_listed cfg (fst w) /\
    P <= free_pages cfg (fst w) /\ rounds ms s (fst w) /\ zlen ms <= GC_VICTIM_NB cfg) (s, d).
Proof using Hok HL HM.
  intros Hi HR Hall Hd Hfr HV. unfold GC_CHECK. wp_go. simpl.
  pose proof (ok_roots Hok) as HK. pose proof (ok_page _ Hok). rewrite i32_id by lia.
  destruct (Z.leb_spec (total_empty_block_nb s) K) as [Ht|Ht].
  - eapply wp_mono; [by apply gc_rounds_live|]. intros [] w (ms & Hc & Hall' & _ & Hg & Hr & Hk). exists ms.
    split; [done|]. split; [done|]. specialize (Hg ltac:(lia) Ht). split; [lia|]. split; [done|lia].
  - wp_go. exists []. split; [exists n; split; [done|]; split; [apply logged_refl|done]|]. split; [done|]. simpl.
    pose proof (free_pages_blocks cfg Hok s (i_lists _ _ _ _ _ Hi)). split; [nia|]. split; [apply rounds_nil|lia].
Qed.

(** ** Every write succeeds *)

Definition roomy (s : ftl) : Prop := all_listed cfg s /\ P <= free_pages cfg s.

(** What a write logs: the rounds of the collector, and the write itself with the
    number of its pages; the free pages are what the log says. *)
Definition write_logged (sector_nb len : Z) (s s' : ftl) (l l' : list event) : Prop :=
  exists ms, Forall (fun m => 0 <= m < P) ms /\ zlen ms <= GC_VICTIM_NB cfg /\
    free_pages cfg s' = free_pages cfg s - zlen (touched cfg sector_nb len) + sum_with (fun m => P - m) ms /\
    l' = l ++ (Collected <$> ms) ++ [WriteDone len (zlen (touched cfg sector_nb len))].

Lemma ftl_write_live sector_nb len s d n h :
  request_ok cfg sector_nb len -> represents cfg s n h -> idle n -> dev_rel n d -> roomy s ->
  Z.of_nat (size (h_pages (host_write cfg sector_nb len h))) <= M ->
  zlen (touched cfg sector_nb len) + share <= P -> 1 <= GC_VICTIM_NB cfg ->
  wp (_FTL_WRITE cfg sector_nb len) (fun r w => r = SUCCESS /\ roomy (fst w) /\
    exists n', dev_rel n' (snd w) /\ represents cfg (fst w) n' (host_write cfg sector_nb len h) /\
      n_request n' = None /\ n_seq n' = n_seq n + 1 /\
      write_logged sector_nb len s (fst w) (n_log n) (n_log n')) (s, d).
Proof using Hok HL HM.
  intros Hreq Hrep Hidle HR [Hall Hroom] Hd Hk HV.
  apply (ftl_write_loop cfg Hok _ _ _ _ n h); try done.
  - intros f b s2 d2 n2 [Hi2 Hv2] HR2 Hreq2 [Hseq2 Hlog2] HP2 Hfr2.
    eapply wp_mono; [apply (gc_check_live f b s2 d2 n2); try done; [by unfold all_listed; rewrite HP2|lia]|].
    intros [] w (ms & (n3 & HR3 & (Hv3 & Hreq3 & Hseq3 & _ & Hlog3) & Hi3) & Hall3 & Hroom3 & [Hms Hfr3] & Hlen).
    exists n3. split; [done|]. intros d4 HR4. split; [done|]. split; [done|]. eexists. split; [exact HR4|]. simpl.
    split; [split; [by apply (inv_blocks cfg none (fst w) n3)|by simpl; rewrite Hv3]|].
    rewrite Hreq3, Hseq3, Hlog3, Hlog2. split; [done|]. split; [done|]. exists ms. rewrite <- (assoc_L app).
    split; [done|]. split; [done|]. split; [lia|done].
  - intros s2 d2 n2 j Hj Hrep2 HR2 Hopen H0 Hlt. destruct share_range. lia.
Qed.

End Live.
