(* ===== verification/Session.v ===== *)
(** * The drive from start-up to shutdown

    [SSD_INIT], any requests and [SSD_TERM] on the real flash module: the drive
    serves the disk of [Host] all along, no write fails while the logical pages
    in use leave the collector room, and the benchmark of [LOCAL/tests.c] runs
    to its end. *)

From stdpp Require Import prelude gmap.
From Stdlib Require Import Ascii.
From S2P Require Import Prelude Config Blocks Mapping Device Perf SsdIo Gc Ftl Persist Ssd.
From S2P Require Import Tables Lists Victims Inv Collect Host Boot Reload SsdLaws Timing SsdSim Space.

Local Open Scope Z_scope.

(** ** Sessions *)

(** A request of the host: first sector and number of sectors. *)
Inductive request :=
| Write (sector_nb length : Z)
| Read (sector_nb length : Z).

Definition submit `{Clock} (r : request) : M drive unit :=
  match r with
  | Write s l => SSD_WRITE l s
  | Read s l => SSD_READ l s
  end.

Fixpoint submit_all `{Clock} (rs : list request) : M drive unit :=
  match rs with
  | [] => mret tt
  | r :: rs' => submit r ;; submit_all rs'
  end.

(** What the requests mean for the disk. *)
Definition host_submit (cfg : config) (h : host) (r : request) : host :=
  match r with
  | Write s l => host_write cfg s l h
  | Read _ _ => h
  end.

(** A process starts with its globals at zero and the files of the last one, at
    some reading of the clock. *)
Definition start (t : nat) (fs : files) : drive :=
  Drive (config_of globals0 derived0) 0 (ftl0, module0 t) fs.

(** ** The steps of the drive *)

Lemma wp_on_state {A} (m : M (ftl * module) A) Q d :
  wp m (fun a w => Q a (Drive (d_config d) (g_init d) w (d_files d))) (d_state d) -> wp (on_state m) Q d.
Proof. unfold wp, on_state. by destruct (m (d_state d)) as [[a w]| |]. Qed.

Lemma wp_on_tables {A} (m : M (ftl * files) A) Q d :
  wp m (fun a w => Q a (Drive (d_config d) (g_init d) (fst w, snd (d_state d)) (snd w)))
     (fst (d_state d), d_files d) -> wp (on_tables m) Q d.
Proof. unfold wp, on_tables. by destruct (m _) as [[a [s fs]]| |]. Qed.

(** ** Bounded disks *)

Definition within (M : Z) (h : host) : Prop :=
  forall lpn c, h_pages h !! lpn = Some c -> 0 <= lpn < M.

Lemma within_size M h : 0 <= M -> within M h -> Z.of_nat (size (h_pages h)) <= M.
Proof.
  intros HM Hw. assert ((map_to_list (h_pages h)).*1 ⊆+ seqZ 0 M) as Hs.
  { apply NoDup_submseteq; [apply NoDup_fst_map_to_list|].
    intros k ([k' c] & -> & Hc%elem_of_map_to_list)%list_elem_of_fmap. apply elem_of_seqZ.
    pose proof (Hw _ _ Hc). simpl. lia. }
  apply submseteq_length in Hs. rewrite length_fmap, length_map_to_list, length_seqZ in Hs. lia.
Qed.

Section Session.
Context (cfg : config) (Hok : cfg_ok cfg) (HL : PLANES_PER_FLASH cfg = 1) {C : Clock} {CL : ClockLaws C}.

Local Abbreviation P := (PAGE_NB cfg).
Local Abbreviation B := (BLOCK_NB cfg).
Local Abbreviation F := (FLASH_NB cfg).
Local Abbreviation SPP := (SECTORS_PER_PAGE cfg).

(** [M] logical pages are in use at most. *)
Context (M : Z) (HM : 0 <= M < (B * F - F * PLANES_PER_FLASH cfg) * P) (HV : 1 <= GC_VICTIM_NB cfg).

Lemma within_write s l h : request_ok cfg s l -> s + l <= M * SPP -> within M h ->
  within M (host_write cfg s l h).
Proof using Hok.
  intros Hreq Hend Hw. destruct Hreq as (H1 & H2 & _). pose proof (ok_spp _ Hok).
  assert (forall lpn, lpn ∈ touched cfg s l -> 0 <= lpn < M) as Ht.
  { intros lpn Hl. unfold touched in Hl. destruct (Z.leb_spec l 0); [lia|]. apply elem_of_seqZ in Hl.
    assert (0 <= s / SPP) by (apply Z.div_pos; lia).
    assert ((s + l - 1) / SPP < M) by (apply Z.div_lt_upper_bound; lia). lia. }
  unfold host_write. revert h Hw. induction (touched cfg s l) as [|lpn t IH]; intros h Hw; [done|].
  simpl. apply IH; [intros k Hk; apply Ht; by right|]. intros k c. simpl. rewrite lookup_insert_Some.
  intros [[<- _]|[_ Hk]]; [apply Ht; left|by eapply Hw].
Qed.

(** A write fits: it is inside the pages in use, and the pages it needs and the
    pages a round of the collector needs are not more than a block. *)
Definition fits (r : request) : Prop :=
  match r with
  | Write s l => request_ok cfg s l /\ s + l <= M * SPP /\ zlen (touched cfg s l) + share cfg M <= P
  | Read s l => request_ok cfg s l
  end.

(** The drive serves disk [h] after at most [k] requests. *)
Definition serves (h : host) (k : Z) (d : drive) : Prop :=
  d_config d = cfg /\ g_init d = 1 /\ roomy cfg (fst (d_state d)) /\ within M h /\
  exists n, sim_rel cfg n (snd (d_state d)) /\ represents cfg (fst (d_state d)) n h /\
    n_request n = None /\ n_seq n <= k.

(** What a request logs. *)
Definition drive_log (d : drive) : list event := ftl_log (fst (snd (d_state d))).

Definition submit_logged (h : host) (r : request) (d d' : drive) : Prop :=
  match r with
  | Write s l => write_logged cfg s l (fst (d_state d)) (fst (d_state d')) (drive_log d) (drive_log d')
  | Read s l => fst (d_state d') = fst (d_state d) /\
      drive_log d' = drive_log d ++ match host_read cfg s l h with Some _ => [ReadDone l] | None => [] end
  end.

Lemma submit_logs r h k d : fits r -> serves h k d -> k < 2 ^ 32 - 1 ->
  wp (submit r) (fun _ d' => serves (host_submit cfg h r) (k + 1) d' /\ submit_logged h r d d') d.
Proof using Hok HL HM HV CL.
  intros Hr (Hc & Hg & Hroom & Hw & n & HR & Hrep & Hreq & Hseq) Hk. destruct d as [c g [s m] fs].
  simpl in *. subst c g. assert (idle n) as Hidle by (split; [done|lia]).
  pose proof (SsdLaws cfg Hok) as DL.
  destruct r as [sec l|sec l]; simpl in *.
  - destruct Hr as (Hr & Hend & Hfit). unfold SSD_WRITE. wp_go. apply wp_on_state. simpl.
    unfold FTL_WRITE. apply wp_bind.
    eapply wp_mono; [apply (ftl_write_live cfg Hok HL (DL := SsdLaws cfg Hok) M HM sec l s m n h); try done|].
    { apply within_size; [lia|by apply within_write]. }
    intros r [s' m'] (_ & Hroom' & n' & HR' & Hrep' & Hreq' & Hseq' & Hlog'). simpl in HR', Hlog'. wp_go. split.
    + split; [done|]. split; [done|]. split; [done|]. split; [by apply within_write|].
      exists n'. split; [done|]. split; [done|]. split; [done|lia].
    + unfold drive_log. simpl. destruct HR as [_ ->], HR' as [_ ->]. exact Hlog'.
  - unfold SSD_READ. wp_go. apply wp_on_state. simpl. unfold FTL_READ. apply wp_bind.
    eapply wp_mono; [by apply (ftl_read cfg Hok (DL := SsdLaws cfg Hok) sec l s m n h)|].
    intros r [s' m'] (Hs' & n' & HR' & Hrep' & Hreq' & Hres). simpl in Hs'. subst s'. wp_go.
    assert (n_seq n' <= k + 1 /\ n_log n' = n_log n ++ match host_read cfg sec l h with Some _ => [ReadDone l] | None => [] end) as [? Hlog].
    { destruct (host_read cfg sec l h); [destruct Hres as (_ & _ & ? & ->); split; [lia|done]|].
      destruct Hres as [_ ->]. rewrite app_nil_r. split; [lia|done]. }
    split.
    + split; [done|]. split; [done|]. split; [done|]. split; [done|]. exists n'. by split_and!.
    + split; [done|]. unfold drive_log. simpl in *. destruct HR as [_ ->], HR' as [_ ->]. exact Hlog.
Qed.

Lemma submit_serves r h k d : fits r -> serves h k d -> k < 2 ^ 32 - 1 ->
  wp (submit r) (fun _ d' => serves (host_submit cfg h r) (k + 1) d') d.
Proof using Hok HL HM HV CL. intros. eapply wp_mono; [by apply submit_logs|]. by intros ? ? [? _]. Qed.

Lemma submit_all_serves rs : forall h k d, Forall fits rs -> serves h k d -> k + zlen rs < 2 ^ 32 ->
  wp (submit_all rs) (fun _ d' => serves (foldl (host_submit cfg) h rs) (k + zlen rs) d') d.
Proof using Hok HL HM HV CL.
  induction rs as [|r rs IH]; intros h k d Hrs Hd Hk; simpl in *.
  { wp_go. by rewrite Z.add_0_r. }
  apply Forall_cons in Hrs as [Hr Hrs]. apply wp_bind.
  eapply wp_mono; [apply submit_serves; try done; lia|]. intros ? d1 Hd1. cbv beta in Hd1.
  eapply wp_mono; [apply (IH (host_submit cfg h r) (k + 1)); (done || lia)|]. intros ? d2 Hd2. cbv beta in Hd2.
  by replace (k + Z.of_nat (S (length rs))) with (k + 1 + zlen rs) by lia.
Qed.

(** *** Start-up *)

(** What [FTL_INIT] leaves: the tables it has built, and an idle module. *)
Lemma ftl_init_run conf t fs T Q : INIT_SSD_CONFIG conf = Ret cfg ->
  wp (INIT_TABLES cfg fs) (fun _ s => T s) ftl0 ->
  (forall s w, T s -> sim_rel cfg nand0 w -> Q tt (Drive cfg 1 (s, w) fs)) ->
  wp (SSD_INIT conf) Q (start t fs).
Proof using Hok.
  intros Hconf Ht HQ. unfold SSD_INIT, FTL_INIT. wp_go. simpl negb. cbv iota. wp_go.
  unfold wp at 1. simpl. rewrite Hconf. apply wp_bind, wp_on_state, wp_on_fst. simpl.
  eapply wp_mono; [exact Ht|]. intros ? s Hs. cbv beta in Hs. simpl.
  apply wp_bind, wp_on_state, wp_on_snd, wp_on_fst, wp_modify. simpl. wp_go. apply wp_on_state, wp_on_snd. simpl.
  pose proof (init_sim_rel cfg Hok (perf0 t) io0 eq_refl) as Hinit.
  change (wp (SSD_IO_INIT cfg) (fun _ w => sim_rel cfg nand0 w) (perf0 t, io0)) in Hinit.
  eapply wp_mono; [exact Hinit|]. intros ? w Hw. cbv beta in Hw.
  wp_go. by apply HQ.
Qed.

(** A new drive serves the empty disk. *)
Lemma init_serves conf t : INIT_SSD_CONFIG conf = Ret cfg ->
  wp (SSD_INIT conf) (fun _ d => serves (Host ∅ 0) 0 d) (start t no_files).
Proof using Hok.
  intros Hconf. eapply ftl_init_run; [done|by apply init_tables_spec|].
  intros s w (Hrep & Hall & Hfree) Hw. split; [done|]. split; [done|]. split; [|split; [done|]].
  - split; [done|]. simpl. rewrite Hfree. pose proof (ok_blocks Hok). pose proof (ok_page _ Hok). nia.
  - exists nand0. done.
Qed.

(** *** Restart *)

(** [SSD_TERM] saves the drive; a process that starts on the files serves the
    same disk. *)
Lemma restart_serves conf h k d : INIT_SSD_CONFIG conf = Ret cfg -> serves h k d ->
  wp (SSD_TERM true) (fun _ d' => forall t,
    wp (SSD_INIT conf) (fun _ d'' => serves h 0 d'') (start t (d_files d'))) d.
Proof using Hok.
  intros Hconf (Hc & Hg & Hroom & Hw & n & HR & Hrep & Hreq & Hseq). destruct d as [c g [s [m io]] fs].
  simpl in *. subst c g. unfold SSD_TERM, FTL_TERM. wp_go. apply wp_on_tables. simpl.
  pose proof (i_tables _ _ _ _ _ (proj1 Hrep)) as Ht. pose proof (i_lists _ _ _ _ _ (proj1 Hrep)) as Hl.
  eapply wp_mono; [by apply (term_tables_spec cfg Hok s Ht Hl)|]. intros ? w Hfs. cbv beta in Hfs.
  apply wp_bind, wp_on_state, wp_on_snd, wp_on_fst. unfold TERM_PERF_CHECKER. wp_go. intros t. simpl. rewrite Hfs.
  eapply ftl_init_run; [done|by apply (init_image_spec cfg Hok s Ht Hl)|].
  intros s' w' Hs' Hw'. cbv beta in Hs'. split; [done|]. split; [done|]. split; [by subst s'|]. split; [done|].
  exists (Nand (n_blocks n) (n_buffer n) (n_version n) None 0 (n_out n) []). split; [done|].
  split; [|done]. eapply reload_represents; [done| |exact Hs'].
  destruct Hrep as [Hi Hv]. split; [by apply (inv_blocks cfg _ s n)|done].
Qed.

(** *** The benchmark *)

Lemma touched_bound s l : 0 <= s -> 0 < l -> zlen (touched cfg s l) <= (l - 1) / SPP + 2.
Proof using Hok.
  intros Hs Hl. pose proof (ok_spp _ Hok). unfold touched. destruct (Z.leb_spec l 0); [lia|].
  rewrite length_seqZ. replace (s + l - 1) with (l - 1 + s) by lia.
  pose proof (Z.div_mod s SPP ltac:(lia)) as D1. pose proof (Z.mod_pos_bound s SPP ltac:(lia)).
  pose proof (Z.div_mod (l - 1) SPP ltac:(lia)) as D2. pose proof (Z.mod_pos_bound (l - 1) SPP ltac:(lia)).
  assert ((l - 1 + s) / SPP < (l - 1) / SPP + s / SPP + 2) by (apply Z.div_lt_upper_bound; nia).
  assert (0 <= (l - 1) / SPP) by (apply Z.div_pos; lia). lia.
Qed.

(** The benchmark writes [req] sectors at a time from the sectors below [max]:
    the drive has room for that. *)
Definition bench_ok (req max : Z) : Prop :=
  0 < req /\ 0 <= max /\ max + req - 1 <= M * SPP /\ max + req - 1 <= SECTOR_NB cfg /\
  (req - 1) / SPP + 2 + share cfg M <= P /\ (req - 1) / SPP + 2 < 2 ^ 15.

Lemma bench_fits req max lba : bench_ok req max -> 0 <= lba < max -> fits (Write lba req).
Proof using Hok.
  intros (Hreq & _ & Hm & Hn & Hp & Hb) Hl. pose proof (touched_bound lba req ltac:(lia) Hreq).
  repeat split; lia.
Qed.

Lemma u64_id z : 0 <= z < 2 ^ 64 -> u64 z = z.
Proof. intros. by apply Z.mod_small. Qed.

Lemma next_lba_range random a n i req max lba : a = ACCESS_SEQUENTIAL \/ a = ACCESS_RANDOM ->
  0 < max < 2 ^ 31 -> 0 <= next_lba random a n i req max lba < max.
Proof.
  intros Ha Hm. unfold next_lba. destruct Ha as [-> | ->]; simpl.
  - pose proof (Z.mod_pos_bound (u64 i) max). rewrite i32_id; lia.
  - pose proof (Z.mod_pos_bound (u64 (u64 (random n) / req * req)) max). rewrite i32_id; lia.
Qed.

Lemma test_loop_runs random a req max : bench_ok req max -> max + req <= 2 ^ 31 ->
  a = ACCESS_SEQUENTIAL \/ a = ACCESS_RANDOM ->
  forall fuel n i lba h k d, 0 <= i < max + req -> Z.max 0 (max - i) < Z.of_nat fuel -> serves h k d -> k <= i ->
  wp (test_loop random fuel a n i req max lba) (fun _ d' => exists h' k', serves h' k' d') d.
Proof using Hok HL HM HV CL.
  intros Hb Hlt Ha. pose proof Hb as (Hreq & Hmax & _).
  induction fuel as [|fuel IH]; intros n i lba h k d Hi Hf Hd Hk; [lia|].
  cbn [test_loop]. rewrite u64_id by lia. destruct (Z.ltb_spec i max) as [Him|Him]; last first.
  { wp_go. by exists h, k. }
  destruct (Z.eqb_spec req 0); [lia|].
  pose proof (next_lba_range random a n i req max lba Ha ltac:(lia)) as Hl. cbv zeta.
  set (lba' := next_lba _ _ _ _ _ _ _) in *. rewrite u32_id by lia. apply wp_bind.
  eapply wp_mono; [apply (submit_serves (Write lba' req) h k d); [by eapply bench_fits|done|lia]|].
  intros ? d1 Hd1. cbv beta in Hd1. rewrite i32_id by lia. eapply IH; [lia|lia|exact Hd1|lia].
Qed.

Lemma test_access_runs random size access h d : serves h 0 d ->
  access = ACCESS_SEQUENTIAL \/ access = ACCESS_RANDOM -> 0 < SECTOR_SIZE cfg < 2 ^ 31 ->
  bench_ok (size / SECTOR_SIZE cfg) (SECTOR_NB cfg * 7 / 10) ->
  wp (test_access random size access) (fun _ d' => exists h' k, serves h' k d') d.
Proof using Hok HL HM HV CL.
  intros Hd Ha HS Hb. pose proof (ok_sectors _ Hok) as Hsec. pose proof (ok_sector_nb _ Hok) as Hnb.
  pose proof Hb as (Hreq & Hmax & _ & Hle & _). pose proof Hd as (Hc & _).
  unfold test_access. wp_go. rewrite Hc. destruct (Z.eqb_spec (SECTOR_SIZE cfg) 0); [lia|].
  cbv zeta. rewrite (u64_id (SECTOR_SIZE cfg)) by lia.
  assert (0 <= SECTOR_NB cfg) by (destruct Hok; nia).
  rewrite Z.quot_div_nonneg by lia. rewrite (u64_id (_ / 10)) by lia. apply wp_bind.
  eapply wp_mono; [apply (test_loop_runs random access _ _ Hb ltac:(lia) Ha _ 0 0 0 h 0); (done || lia)|].
  intros ? d' Hd'. by wp_go.
Qed.

(** [main] with arguments it accepts, on a drive with room: it writes the whole
    area and returns 0, and what it leaves in the files can be started again. *)
Lemma main_runs random conf t a1 a2 size access :
  INIT_SSD_CONFIG conf = Ret cfg -> main_args a1 a2 = Some (size, access) -> 0 < SECTOR_SIZE cfg < 2 ^ 31 ->
  bench_ok (size / SECTOR_SIZE cfg) (SECTOR_NB cfg * 7 / 10) ->
  wp (main random conf true 3 a1 a2) (fun r d => r = 0 /\
    exists h, forall t', wp (SSD_INIT conf) (fun _ d' => serves h 0 d') (start t' (d_files d)))
     (start t no_files).
Proof using Hok HL HM HV CL.
  intros Hconf Hargs HS Hb. unfold main. simpl negb. cbv iota. rewrite Hargs. apply wp_bind.
  eapply wp_mono; [by apply init_serves|]. intros ? d Hd. cbv beta in Hd. apply wp_bind.
  eapply wp_mono; [eapply test_access_runs; [exact Hd| |done..]|].
  { unfold main_args in Hargs. repeat case_match; simplify_eq; auto. }
  intros ? d1 (h & k & Hd1). cbv beta. apply wp_bind.
  eapply wp_mono; [by apply (restart_serves conf h k)|]. intros ? d2 Hd2. cbv beta in Hd2. wp_go. eauto.
Qed.

End Session.
