(* ===== verification/Example.v ===== *)
(** * A small drive

    A configuration file for two flashes of eight blocks of eight pages, the
    drive it gives, a clock that advances by 100 microseconds per reading, and
    drives that have served requests: the concrete inputs at which the theorems
    of the development are applied. *)

From stdpp Require Import prelude gmap strings.
From Stdlib Require Import Ascii.
From Stdlib Require String.
From S2P Require Import Prelude Config Blocks Mapping Device Perf SsdIo Gc Ftl Persist Ssd.
From S2P Require Import Tables Lists Victims Inv Collect Host Boot SsdLaws Timing SsdSim Space Session.

Local Open Scope Z_scope.

(** ** The configuration *)

Definition small_conf : list ascii := String.list_ascii_of_string
  "FILE_NAME_HDA ./ssd_hda.img
FILE_NAME_HDB ./ssd_hdb.img
FLASH_NB 2
BLOCK_NB 8
PLANES_PER_FLASH 1
PAGE_SIZE 4096
SECTOR_SIZE 1024
PAGE_NB 8
REG_WRITE_DELAY 82
CELL_PROGRAM_DELAY 900
REG_READ_DELAY 82
CELL_READ_DELAY 50
BLOCK_ERASE_DELAY 2000
CHANNEL_SWITCH_DELAY_R 16
CHANNEL_SWITCH_DELAY_W 33
CHANNEL_NB 2
DSM_TRIM_ENABLE 1
IO_PARALLELISM 1
"%string.

Definition small : config := Eval vm_compute in
  match INIT_SSD_CONFIG (Some small_conf) with
  | Ret c => c
  | _ => config_of globals0 derived0
  end.

Lemma small_init : INIT_SSD_CONFIG (Some small_conf) = Ret small.
Proof. vm_compute. reflexivity. Qed.

Lemma small_ok : cfg_ok small.
Proof. split; vm_compute; try done. by exists 8. Qed.

(** The configuration file of the repository, [CONFIG/ssd.conf]. *)
Definition shipped_conf : list ascii := String.list_ascii_of_string
  "PAGE_SIZE			4096
PAGE_NB				256
SECTOR_SIZE			512
FLASH_NB			20
BLOCK_NB			128
PLANES_PER_FLASH		1

LOG_RAND_BLOCK_NB		0
LOG_SEQ_BLOCK_NB		0

REG_WRITE_DELAY			82
CELL_PROGRAM_DELAY		940
REG_READ_DELAY			82
CELL_READ_DELAY			140	
BLOCK_ERASE_DELAY		2000

CHANNEL_SWITCH_DELAY_R		16
CHANNEL_SWITCH_DELAY_W		33

IO_PARALLELISM			0

WRITE_BUFFER_FRAME_NB           2048
READ_BUFFER_FRAME_NB            2048
CACHE_IDX_SIZE			10

CHANNEL_NB			10
OVP				0
"%string.

Definition shipped : config := Eval vm_compute in
  match INIT_SSD_CONFIG (Some shipped_conf) with
  | Ret c => c
  | _ => config_of globals0 derived0
  end.

Lemma shipped_init : INIT_SSD_CONFIG (Some shipped_conf) = Ret shipped.
Proof. vm_compute. reflexivity. Qed.

Lemma shipped_ok : cfg_ok shipped.
Proof. split; vm_compute; try done. by exists 128. Qed.

(** Decides whether the small drive accepts a request. *)
Definition small_accepts (sector_nb length : Z) : bool :=
  (0 <=? sector_nb) && (0 <? length) && (sector_nb + length <=? SECTOR_NB small)
  && (zlen (touched small sector_nb length) <? 2 ^ 15).

Lemma small_request s l : small_accepts s l = true -> request_ok small s l.
Proof. unfold small_accepts, request_ok. rewrite !andb_true_iff. lia. Qed.

(** ** The clock *)

#[export] Instance tick : Clock := {|
  usec k := 100 * Z.of_nat k + 1;
  horizon t := Z.to_nat (t / 100 + 1)
|}.

#[export] Instance tick_laws : ClockLaws tick.
Proof.
  split; simpl; intros; [lia..|]. pose proof (Z.div_mod t 100). pose proof (Z.mod_pos_bound t 100). lia.
Qed.

(** ** Drives at work *)

Definition result {S A} (m : M S A) (s : S) : S := match m s with Ret (_, s') => s' | _ => s end.

Lemma wp_result {S A} (m : M S A) (Q : S -> Prop) s : wp m (fun _ s' => Q s') s -> Q (result m s).
Proof. unfold wp, result. by destruct (m s) as [[a s']| |]. Qed.

(** The requests of the examples use 91 logical pages at most. *)
Definition small_use : Z := 91.

Lemma small_room : 0 <= small_use <
  (BLOCK_NB small * FLASH_NB small - FLASH_NB small * PLANES_PER_FLASH small) * PAGE_NB small.
Proof. by vm_compute. Qed.

(** A new drive, and a drive that has written page 0 over and over: twelve of
    its sixteen blocks are full, and the next write starts the collector. *)
Definition small_new : drive := result (SSD_INIT (Some small_conf)) (start 0 no_files).

Definition small_load : list request :=
  Write 0 8 :: Write 3 2 :: replicate 108 (Write 0 4).

Definition small_busy : drive := result (submit_all small_load) small_new.

Lemma small_new_serves : serves small small_use (Host ∅ 0) 0 small_new.
Proof.
  apply (wp_result _ (serves small small_use (Host ∅ 0) 0)). apply (init_serves small small_ok). exact small_init.
Qed.

Lemma small_load_fits : Forall (fits small small_use) small_load.
Proof.
  assert (forall s l, 0 <= s -> 0 < l -> s + l <= 12 -> zlen (touched small s l) <= 2 ->
    fits small small_use (Write s l)) as H.
  { intros s l H1 H2 H3 H4. repeat split; try lia.
    - change (SECTOR_NB small) with 512. lia.
    - change (small_use * SECTORS_PER_PAGE small) with 364. lia.
    - change (share small small_use) with 6. change (PAGE_NB small) with 8. lia. }
  unfold small_load. apply Forall_cons; split; [by apply H|]. apply Forall_cons; split; [by apply H|].
  apply Forall_forall. intros r [-> _]%elem_of_replicate. by apply H.
Qed.

Definition small_disk : host := foldl (host_submit small) (Host ∅ 0) small_load.

Lemma small_busy_serves : serves small small_use small_disk 110 small_busy.
Proof.
  apply (wp_result _ (serves small small_use small_disk 110)).
  apply (submit_all_serves small small_ok eq_refl small_use small_room ltac:(done) small_load (Host ∅ 0) 0);
    [apply small_load_fits|apply small_new_serves|done].
Qed.

Lemma small_busy_victims : total_victim_block_nb (fst (d_state small_busy)) = 12.
Proof. vm_compute. reflexivity. Qed.

(** The state of [small_busy] with the specification machine it simulates. *)
Lemma small_busy_represents : exists s d n, d_state small_busy = (s, d) /\ sim_rel small n d /\
  represents small s n small_disk /\ idle n /\ roomy small s.
Proof.
  destruct small_busy_serves as (_ & _ & Hroom & _ & n & HR & Hrep & Hreq & Hseq).
  destruct (d_state small_busy) as [s d]. exists s, d, n. repeat (split; [done|]). split; [|done]. split; [done|lia].
Qed.
