(* ===== verification/FtlProps.v ===== *)
(** * The translation layer: theorems

    The host requests, the collector and the physical pages, on every device
    that obeys the laws of [Device], each applied to the small drive. *)

From stdpp Require Import prelude gmap.
From S2P Require Import Prelude Config Blocks Mapping Device Perf SsdIo Gc Ftl Persist Ssd.
From S2P Require Import Tables Lists Victims Inv Collect Host Boot SsdLaws Timing SsdSim Space Session Example.

Local Open Scope Z_scope.

Section Theorems.
Context (cfg : config) (Hok : cfg_ok cfg) {D : Device} {DL : DeviceLaws cfg D}.

Local Abbreviation none := (fun _ : Z => False).

(** C3.  A write request refines the disk of logical pages.  On every device
    that obeys the laws, in a state that represents disk [h], [_FTL_WRITE] runs
    without undefined behaviour and returns.  Either it answers [SUCCESS] and
    the state represents [host_write], with the request closed, or no empty
    block is left, it answers [FAIL], and the state represents the disk with a
    proper prefix of the pages written.  Runs of the collector are included.
    A write that succeeds logs the rounds of the collector and then itself, with
    the number of its pages; one that fails logs nothing. *)
Theorem host_write_refined (HL : PLANES_PER_FLASH cfg = 1) sector_nb len s d n h :
  request_ok cfg sector_nb len -> represents cfg s n h -> idle n -> dev_rel n d ->
  wp (_FTL_WRITE cfg sector_nb len) (write_result cfg sector_nb len n h) (s, d).
Proof using Hok. by apply ftl_write. Qed.

(** C4.  A read request delivers the disk.  [_FTL_READ] answers [SUCCESS] and
    the pages the device delivers are those of [host_read], in order; when a
    page was never written it answers [FAIL] and neither the tables nor the
    device change.  Only a read that succeeds is logged. *)
Theorem host_read_refined sector_nb len s d n h :
  request_ok cfg sector_nb len -> represents cfg s n h -> idle n -> dev_rel n d ->
  wp (_FTL_READ cfg sector_nb len) (read_result cfg sector_nb len s n h) (s, d).
Proof using Hok. by apply ftl_read. Qed.

(** C5.  A round of the collector loses nothing.  [GARBAGE_COLLECTION] runs
    without undefined behaviour on every state that satisfies the invariant,
    whether it finds a victim, finds none or runs out of pages while copying;
    every logical page keeps its data, no request is opened or closed, and the
    free pages grow by the pages of the victim that were not valid.  A round that
    succeeds logs the number of pages it has copied; others log nothing. *)
Theorem collector_keeps_data (HL : PLANES_PER_FLASH cfg = 1) s d n disk :
  inv cfg none s n disk -> dev_rel n d ->
  wp (GARBAGE_COLLECTION cfg)
     (fun r w => exists es, collected cfg es n disk w /\ gc_space cfg es s (fst w) r) (s, d).
Proof using Hok. by apply garbage_collection. Qed.

(** C6.  Writes do not fail while the collector has room.  Let at most [M]
    logical pages be in use, fewer than the pages outside one block per list.
    In a state where all blocks are in the lists and a block's worth of pages is
    free, a write of [k] pages with [k + M / (blocks - lists)] at most a block
    answers [SUCCESS], and the collector it may start leaves a state of the same
    kind, so the next write succeeds too.  The free pages change by what is
    logged: the pages of the write are used, and each round gains the pages of a
    block that it does not copy. *)
Theorem write_succeeds (HL : PLANES_PER_FLASH cfg = 1) M sector_nb len s d n h :
  0 <= M < (BLOCK_NB cfg * FLASH_NB cfg - FLASH_NB cfg * PLANES_PER_FLASH cfg) * PAGE_NB cfg ->
  request_ok cfg sector_nb len -> represents cfg s n h -> idle n -> dev_rel n d -> roomy cfg s ->
  Z.of_nat (size (h_pages (host_write cfg sector_nb len h))) <= M ->
  zlen (touched cfg sector_nb len) + share cfg M <= PAGE_NB cfg -> 1 <= GC_VICTIM_NB cfg ->
  wp (_FTL_WRITE cfg sector_nb len) (fun r w => r = SUCCESS /\ roomy cfg (fst w) /\
    exists n', dev_rel n' (snd w) /\ represents cfg (fst w) n' (host_write cfg sector_nb len h) /\
      n_request n' = None /\ n_seq n' = n_seq n + 1 /\
      write_logged cfg sector_nb len s (fst w) (n_log n) (n_log n')) (s, d).
Proof using Hok. intros HM. by apply ftl_write_live. Qed.

End Theorems.

Lemma write_succeeds_witness : exists s d n, d_state small_busy = (s, d) /\
  wp (@_FTL_WRITE small (SsdDevice small) 0 8)
     (fun r w => r = SUCCESS /\ roomy small (fst w) /\
        exists n', sim_rel small n' (snd w) /\ represents small (fst w) n' (host_write small 0 8 small_disk) /\
          n_request n' = None /\ n_seq n' = n_seq n + 1 /\
          write_logged small 0 8 s (fst w) (n_log n) (n_log n')) (s, d).
Proof.
  destruct small_busy_represents as (s & d & n & Hsd & HR & Hrep & Hidle & Hroom). exists s, d, n.
  split; [exact Hsd|].
  apply (write_succeeds small small_ok (DL := SsdLaws small small_ok) eq_refl small_use 0 8 s d n small_disk);
    [exact small_room|apply small_request; reflexivity|exact Hrep|exact Hidle|exact HR|exact Hroom|
     apply Z.leb_le; vm_compute; reflexivity..].
Defined.

Lemma host_write_refined_witness : exists s d n, d_state small_busy = (s, d) /\
  wp (@_FTL_WRITE small (SsdDevice small) 3 2)
     (write_result small (DL := SsdLaws small small_ok) 3 2 n small_disk) (s, d).
Proof.
  destruct small_busy_represents as (s & d & n & Hsd & HR & Hrep & Hidle & _). exists s, d, n.
  split; [exact Hsd|].
  apply (host_write_refined small small_ok (DL := SsdLaws small small_ok) eq_refl 3 2 s d n small_disk);
    [apply small_request; reflexivity|exact Hrep|exact Hidle|exact HR].
Defined.

Lemma host_read_refined_witness : exists s d n, d_state small_busy = (s, d) /\
  wp (@_FTL_READ small (SsdDevice small) 2 5)
     (read_result small (DL := SsdLaws small small_ok) 2 5 s n small_disk) (s, d).
Proof.
  destruct small_busy_represents as (s & d & n & Hsd & HR & Hrep & Hidle & _). exists s, d, n.
  split; [exact Hsd|].
  apply (host_read_refined small small_ok (DL := SsdLaws small small_ok) 2 5 s d n small_disk);
    [apply small_request; reflexivity|exact Hrep|exact Hidle|exact HR].
Defined.

Lemma collector_keeps_data_witness : exists s d n, d_state small_busy = (s, d) /\
  wp (@GARBAGE_COLLECTION small (SsdDevice small))
     (fun r w => exists es, collected small (DL := SsdLaws small small_ok) es n (h_pages small_disk) w /\
                 gc_space small es s (fst w) r) (s, d).
Proof.
  destruct small_busy_represents as (s & d & n & Hsd & HR & [Hi _] & _). exists s, d, n.
  split; [exact Hsd|].
  apply (collector_keeps_data small small_ok (DL := SsdLaws small small_ok) eq_refl s d n (h_pages small_disk));
    [exact Hi|exact HR].
Defined.
