(* ===== verification/DriveProps.v ===== *)
(** * The drive: theorems

    From start-up to shutdown, with the real flash module and any clock that
    does not run backwards. *)

From stdpp Require Import prelude gmap.
From Stdlib Require Import Ascii.
From S2P Require Import Prelude Config Blocks Mapping Device Perf SsdIo Gc Ftl Persist Ssd.
From S2P Require Import Tables Lists Victims Inv Collect Host Boot SsdLaws Timing SsdSim Space Session Example.

Local Open Scope Z_scope.

Section Theorems.
Context (cfg : config) (Hok : cfg_ok cfg) {C : Clock} {CL : ClockLaws C}.
Context (conf : option (list ascii)) (Hconf : INIT_SSD_CONFIG conf = Ret cfg).

(** C1.  The drive serves a disk.  After [SSD_INIT] on a drive without saved
    files, any sequence of reads and writes that fit runs without undefined
    behaviour and returns, and the drive then represents the empty disk after
    these requests: the mapping, the blocks, the lists, the collector and the
    timing model of the flash module together implement [host_write] and
    [host_read]. *)
Theorem session_refines M t rs : PLANES_PER_FLASH cfg = 1 ->
  0 <= M < (BLOCK_NB cfg * FLASH_NB cfg - FLASH_NB cfg * PLANES_PER_FLASH cfg) * PAGE_NB cfg ->
  1 <= GC_VICTIM_NB cfg -> Forall (fits cfg M) rs -> zlen rs < 2 ^ 32 ->
  wp (SSD_INIT conf ;; submit_all rs)
     (fun _ d => serves cfg M (foldl (host_submit cfg) (Host ∅ 0) rs) (zlen rs) d) (start t no_files).
Proof using Hok Hconf CL.
  intros HL HM HV Hrs Hlen. apply wp_bind. eapply wp_mono; [by apply (init_serves cfg Hok M)|].
  intros ? d Hd. cbv beta in Hd. by apply (submit_all_serves cfg Hok HL M HM HV rs _ 0).
Qed.

(** C7.  Shutdown and start-up are inverse.  When the files can be written,
    [SSD_TERM] saves a drive so that a process that starts on the files serves
    the same disk. *)
Theorem restart_keeps_disk M h k d : serves cfg M h k d ->
  wp (SSD_TERM true) (fun _ d' => forall t,
    wp (SSD_INIT conf) (fun _ d'' => serves cfg M h 0 d'') (start t (d_files d'))) d.
Proof using Hok Hconf. by apply restart_serves. Qed.

(** C8.  The benchmark finishes.  [main] with arguments it accepts, on a drive
    with room for 70% of its sectors (the configuration of the repository has
    it), writes them in any order [random] gives,
    returns 0, and leaves files a new process can start from. *)
Theorem benchmark_returns M random t a1 a2 size access :
  PLANES_PER_FLASH cfg = 1 ->
  0 <= M < (BLOCK_NB cfg * FLASH_NB cfg - FLASH_NB cfg * PLANES_PER_FLASH cfg) * PAGE_NB cfg ->
  1 <= GC_VICTIM_NB cfg -> main_args a1 a2 = Some (size, access) -> 0 < SECTOR_SIZE cfg < 2 ^ 31 ->
  bench_ok cfg M (size / SECTOR_SIZE cfg) (SECTOR_NB cfg * 7 / 10) ->
  wp (main random conf true 3 a1 a2) (fun r d => r = 0 /\
    exists h, forall t', wp (SSD_INIT conf) (fun _ d' => serves cfg M h 0 d') (start t' (d_files d)))
     (start t no_files).
Proof using Hok Hconf CL. intros HL HM HV. by apply main_runs. Qed.

End Theorems.

Lemma session_refines_witness : wp (SSD_INIT (Some small_conf) ;; submit_all (Read 0 4 :: small_load))
  (fun _ d => serves small small_use small_disk 111 d) (start 0 no_files).
Proof.
  apply (session_refines small small_ok (Some small_conf) small_init small_use 0 (Read 0 4 :: small_load));
    [reflexivity|exact small_room|by vm_compute| |by vm_compute].
  apply Forall_cons. split; [apply small_request; reflexivity|exact small_load_fits].
Defined.

Lemma restart_keeps_disk_witness : wp (SSD_TERM true) (fun _ d' => forall t,
    wp (SSD_INIT (Some small_conf)) (fun _ d'' => serves small small_use small_disk 0 d'')
       (start t (d_files d'))) small_busy.
Proof.
  apply (restart_keeps_disk small small_ok (Some small_conf) small_init small_use small_disk 110 small_busy).
  exact small_busy_serves.
Defined.

(** The benchmark on the configuration of the repository, with requests of 32 KB:
    at most 458759 of its 655360 pages are in use. *)
Lemma benchmark_returns_witness : wp (main (fun n => Z.of_nat n * 7919) (Some shipped_conf) true 3 "8" "r")
  (fun r d => r = 0 /\ exists h, forall t',
     wp (SSD_INIT (Some shipped_conf)) (fun _ d' => serves shipped 458760 h 0 d') (start t' (d_files d)))
  (start 0 no_files).
Proof.
  apply (benchmark_returns shipped shipped_ok (Some shipped_conf) shipped_init 458760
    (fun n => Z.of_nat n * 7919) 0 "8" "r" 32768 ACCESS_RANDOM);
    [reflexivity|by vm_compute|by vm_compute|reflexivity|by vm_compute|].
  unfold bench_ok. change (32768 / SECTOR_SIZE shipped) with 64.
  change (SECTOR_NB shipped * 7 / 10) with 3670016. change (share shipped 458760) with 180.
  change (SECTORS_PER_PAGE shipped) with 8. change (PAGE_NB shipped) with 256.
  change (SECTOR_NB shipped) with 5242880. change ((64 - 1) / 8) with 7. lia.
Defined.
