(* ===== verification/BlockProps.v ===== *)
(** * Blocks and pages: theorems

    The lists of blocks, the block state table, the allocation of pages and the
    page numbers, each theorem applied to the small drive at work. *)

From stdpp Require Import prelude gmap.
From Stdlib Require Import Ascii.
From S2P Require Import Prelude Config Blocks Mapping Device Perf SsdIo Gc Ftl Persist Ssd.
From S2P Require Import Tables Lists Victims Inv Collect Host Boot SsdLaws Timing SsdSim Space Session Example.

Local Open Scope Z_scope.

Section Theorems.
Context (cfg : config) (Hok : cfg_ok cfg).

Local Abbreviation P := (PAGE_NB cfg).

(** C25.  [GET_EMPTY_BLOCK] finds a block with a free page.  In every mode the
    search returns: over all lists, in the list of one chip (one plane per
    flash), and without parallelism from the current list on.  The answer is a
    list whose head has a free page, and [NULL] is answered only when no block
    is left in the part searched.  Full blocks it meets become victims: no block
    is lost or listed twice, and the number of free pages stays. *)
Theorem empty_block_found s mode mi : lists_ok cfg s -> search_ok cfg s mode mi ->
  wp (GET_EMPTY_BLOCK cfg mode mi) (fun r s' => found cfg s s' mode mi r) s.
Proof using Hok. by apply get_empty_block. Qed.

(** C26.  A page handed out is fresh.  [GET_NEW_PAGE] answers a page of the drive
    that is the next one to program in its block, that is not valid and to which
    no logical page is mapped; one page fewer is free.  It fails only when no
    page is free.  The tables do not change. *)
Theorem new_page_fresh R s n disk mode mi : inv cfg R s n disk -> search_ok cfg s mode mi ->
  wp (GET_NEW_PAGE cfg mode mi) (fun r s' => lists_ok cfg s' /\ same_tables s s' /\
    match r with
    | Some ppn => 0 <= ppn < npages cfg /\
        CALC_PAGE cfg ppn = zlen (n_block n (CALC_FLASH cfg ppn) (CALC_BLOCK cfg ppn)) /\
        page_char cfg (block_state_table s') ppn <> Some chV /\
        (forall lpn, aget (mapping_table s') lpn <> Some ppn) /\
        free_pages cfg s' = free_pages cfg s - 1
    | None => free_pages cfg s = 0
    end) s.
Proof using Hok.
  intros Hi Hm. eapply wp_mono; [by apply (get_new_page cfg Hok); [apply (i_lists _ _ _ _ _ Hi)|]|].
  intros r s' Hn. split; [apply Hn|]. split; [apply Hn|]. destruct r as [ppn|]; [|apply Hn].
  destruct (new_page_addr cfg Hok _ _ _ _ _ _ Hi Hn) as (Hr & Hp & _ & Hv).
  do 3 (split; [done|]). split; [|apply Hn]. intros lpn Hl.
  destruct Hn as (_ & (Em & _ & Eb & _) & _). rewrite Em in Hl. rewrite Eb in Hv.
  apply Hv. apply (i_map _ _ _ _ _ Hi lpn); [done|lia].
Qed.

(** C27.  The collector's choice is greedy.  [SELECT_VICTIM_BLOCK] takes a block
    with the least number of valid pages out of the lists of victims; it fails,
    and leaves the lists alone, only when all victims are full of valid pages. *)
Theorem victim_is_least s : tables_ok cfg s -> lists_ok cfg s ->
  wp (SELECT_VICTIM_BLOCK cfg) (fun a s' => selected cfg s s' a) s.
Proof using Hok. by apply select_victim_block. Qed.

(** A victim that is unlinked and inserted as an empty block is neither
    lost nor listed twice, wherever it was in its list; it is empty, its pages
    are free again, and the two counters move by one. *)
Theorem victim_recycled s p v : lists_ok cfg s -> points s p v ->
  wp (EJECT_VICTIM_BLOCK cfg p ;; INSERT_EMPTY_BLOCK cfg (v_phy_flash_nb v) (v_phy_block_nb v))
     (fun _ s' => lists_ok cfg s' /\ same_tables s s' /\ listed cfg s' ≡ₚ listed cfg s /\
        EBE (v_phy_flash_nb v) (v_phy_block_nb v) 0 ∈ empties s' /\
        free_pages cfg s' = free_pages cfg s + P /\
        total_empty_block_nb s' = total_empty_block_nb s + 1 /\
        total_victim_block_nb s' = total_victim_block_nb s - 1) s.
Proof using Hok.
  intros Hs Hp. assert (v ∈ victims s) as Hv.
  { destruct Hp as (r & Hr & Hj). apply elem_mjoin_aget. exists (fst p), r.
    split; [done|]. by eapply list_elem_of_lookup_2. }
  destruct (elem_victims cfg s v Hs Hv) as [Hf Hb]. apply wp_bind.
  eapply wp_mono; [by apply (eject_victim_block cfg Hok s p v)|].
  intros _ s1 (Hs1 & HT1 & He1 & Hv1).
  assert (listed cfg s ≡ₚ v_id cfg v :: listed cfg s1) as HL.
  { unfold listed. rewrite He1, Hv1. simpl. by rewrite Permutation_middle. }
  eapply wp_mono; [apply (insert_empty_block cfg Hok s1); [done..|]|].
  { pose proof (lo_nodup cfg s Hs) as Hnd. rewrite HL in Hnd. by apply NoDup_cons in Hnd as [? _]. }
  intros _ s2 (Hs2 & HT2 & He2 & Hv2). split; [done|]. split; [by eapply same_tables_trans|].
  split. { rewrite HL. unfold listed. by rewrite He2, Hv2. }
  split. { rewrite He2. left. }
  rewrite (lo_te _ _ Hs2), (lo_te _ _ Hs), (lo_tv _ _ Hs2), (lo_tv _ _ Hs), Hv2, Hv1, He2, He1.
  split; [|simpl; lia]. unfold free_pages. rewrite He2, He1. simpl. lia.
Qed.

(** Page numbers are a bijection.  [CALC_FLASH], [CALC_BLOCK] and
    [CALC_PAGE] take every page number of the drive apart into an address inside
    the drive, from which the number is computed back, and every address is the
    one of its number. *)
Theorem page_number_roundtrip :
  (forall q, 0 <= q < npages cfg ->
     (0 <= CALC_FLASH cfg q < FLASH_NB cfg /\ 0 <= CALC_BLOCK cfg q < BLOCK_NB cfg /\ 0 <= CALC_PAGE cfg q < P) /\
     page_id cfg (CALC_FLASH cfg q) (CALC_BLOCK cfg q) (CALC_PAGE cfg q) = q) /\
  (forall f b p, 0 <= f < FLASH_NB cfg -> 0 <= b < BLOCK_NB cfg -> 0 <= p < P ->
     0 <= page_id cfg f b p < npages cfg /\ CALC_FLASH cfg (page_id cfg f b p) = f /\
     CALC_BLOCK cfg (page_id cfg f b p) = b /\ CALC_PAGE cfg (page_id cfg f b p) = p).
Proof using Hok.
  split.
  - intros q Hq. split; [by apply calc_ranges|by apply calc_page_id].
  - intros f b p Hf Hb Hp. split; [by apply page_id_range|]. by apply calc_of_page_id.
Qed.

(** [UPDATE_BLOCK_STATE_ENTRY] sets the state of one page, leaves all other
    pages alone, and recounts the valid pages of the block ([tables_ok] says that
    every count is the number of pages marked valid); an address outside the
    drive is refused with [FAIL] and nothing changes. *)
Theorem page_state_update f b p v s : tables_ok cfg s -> 0 <= f -> 0 <= b -> 0 <= p ->
  v = VALID \/ v = INVALID \/ v = 0 ->
  wp (UPDATE_BLOCK_STATE_ENTRY cfg f b p v) (fun r s' =>
    if decide (f < FLASH_NB cfg /\ b < BLOCK_NB cfg /\ p < P)
    then r = SUCCESS /\ tables_ok cfg s' /\ mapping_table s' = mapping_table s /\
         inverse_mapping_table s' = inverse_mapping_table s /\
         forall q, page_char cfg (block_state_table s') q =
           if decide (q = page_id cfg f b p) then Some (valid_code v) else page_char cfg (block_state_table s) q
    else r = FAIL /\ s' = s) s.
Proof using Hok.
  intros Ht Hf Hb Hp Hv. case_decide as Hin.
  - eapply wp_mono; [apply (update_block_state_entry cfg Hok); [done|lia..|done]|].
    intros r s' (-> & t & -> & Ht' & Hq). done.
  - unfold UPDATE_BLOCK_STATE_ENTRY. pose proof (ok_page_lt Hok) as (? & ? & ?).
    pose proof (ok_flash _ Hok). pose proof (ok_block _ Hok). pose proof (ok_page _ Hok).
    rewrite !u32_id by lia. rewrite (proj2 (orb_true_iff _ _)); [by wp_go|].
    rewrite orb_true_iff, !Z.leb_le. lia.
Qed.


(** The loop of [ALLOC_IO_REQUEST] counts the pages of a request.  For every
    request below [2^31] it ends, and the count is the number of pages between
    the first and the last sector. *)
Theorem request_page_count s l : 0 <= s -> 0 < l -> s + l < 2 ^ 31 ->
  io_pages cfg s l =
    Ret ((s + l - 1) / SECTORS_PER_PAGE cfg - s / SECTORS_PER_PAGE cfg + 1).
Proof using Hok.
  intros Hs Hl He. rewrite (io_pages_val cfg Hok) by lia. f_equal. unfold touched.
  destruct (Z.leb_spec l 0); [lia|]. rewrite length_seqZ. pose proof (ok_spp _ Hok).
  pose proof (Z.div_le_mono s (s + l - 1) (SECTORS_PER_PAGE cfg)). lia.
Qed.

(** C29.  A request that ends after the last sector is refused.  [_FTL_READ] and
    [_FTL_WRITE] answer [FAIL] and neither the tables nor the device change, as
    long as the sum of the arguments fits an [unsigned int]. *)
Theorem out_of_range_refused {D : Device} sector_nb len (w : ftl * dev) :
  0 <= sector_nb -> 0 <= len -> SECTOR_NB cfg < sector_nb + len < 2 ^ 32 ->
  wp (_FTL_READ cfg sector_nb len) (fun r w' => r = FAIL /\ w' = w) w /\
  wp (_FTL_WRITE cfg sector_nb len) (fun r w' => r = FAIL /\ w' = w) w.
Proof.
  intros Hs Hl He. assert (exceeds cfg sector_nb len = true) as E.
  { unfold exceeds. rewrite u32_id by lia. lia. }
  unfold _FTL_READ, _FTL_WRITE. rewrite E. split; by wp_go.
Qed.

(** Marking a block empty makes each of its pages free and leaves the pages
    of the other blocks alone. *)
Theorem empty_block_clean f b s : tables_ok cfg s -> 0 <= f < FLASH_NB cfg -> 0 <= b < BLOCK_NB cfg ->
  wp (UPDATE_BLOCK_STATE cfg f b EMPTY_BLOCK) (fun _ s' => tables_ok cfg s' /\
    mapping_table s' = mapping_table s /\ inverse_mapping_table s' = inverse_mapping_table s /\
    forall q, page_char cfg (block_state_table s') q =
      if decide (q / P = block_id cfg f b) then Some ch0 else page_char cfg (block_state_table s) q) s.
Proof using Hok.
  intros Ht Hf Hb. eapply wp_mono; [by apply (update_block_empty cfg Hok)|].
  intros _ s' (t & -> & Ht' & Hq). done.
Qed.

End Theorems.

(** ** The small drive at work *)

Lemma empty_block_found_witness : exists s d, d_state small_busy = (s, d) /\
  wp (GET_EMPTY_BLOCK small VICTIM_INCHIP 1) (fun r s' => found small s s' VICTIM_INCHIP 1 r) s /\
  wp (GET_EMPTY_BLOCK small VICTIM_NOPARAL (empty_block_table_index s))
     (fun r s' => found small s s' VICTIM_NOPARAL (empty_block_table_index s) r) s.
Proof.
  destruct small_busy_represents as (s & d & n & Hsd & _ & [Hi _] & _). exists s, d.
  split; [exact Hsd|]. split; apply (empty_block_found small small_ok s); try exact (i_lists _ _ _ _ _ Hi).
  - right. left. repeat split; vm_compute; congruence.
  - right. right. by split.
Defined.

Lemma new_page_fresh_witness : exists s d n, d_state small_busy = (s, d) /\
  wp (GET_NEW_PAGE small VICTIM_OVERALL 2) (fun r s' => lists_ok small s' /\ same_tables s s' /\
    match r with
    | Some ppn => 0 <= ppn < npages small /\
        CALC_PAGE small ppn = zlen (n_block n (CALC_FLASH small ppn) (CALC_BLOCK small ppn)) /\
        page_char small (block_state_table s') ppn <> Some chV /\
        (forall lpn, aget (mapping_table s') lpn <> Some ppn) /\
        free_pages small s' = free_pages small s - 1
    | None => free_pages small s = 0
    end) s.
Proof.
  destruct small_busy_represents as (s & d & n & Hsd & _ & [Hi _] & _). exists s, d, n.
  split; [exact Hsd|].
  apply (new_page_fresh small small_ok _ s n (h_pages small_disk) VICTIM_OVERALL 2 Hi). by left.
Defined.

Lemma victim_is_least_witness : exists s d, d_state small_busy = (s, d) /\
  wp (SELECT_VICTIM_BLOCK small) (fun a s' => selected small s s' a) s.
Proof.
  destruct small_busy_represents as (s & d & n & Hsd & _ & [Hi _] & _). exists s, d.
  split; [exact Hsd|].
  apply (victim_is_least small small_ok s (i_tables _ _ _ _ _ Hi) (i_lists _ _ _ _ _ Hi)).
Defined.

(** The third victim of flash 0. *)
Lemma small_busy_third : exists v, points (fst (d_state small_busy)) (0, 2%nat) v.
Proof.
  assert (exists v, (r ← aget (victim_block_list (fst (d_state small_busy))) 0; vb_list r !! 2%nat) = Some v)
    as [v Hv] by (eexists; vm_compute; reflexivity).
  exists v. apply bind_Some in Hv as (r & Hr & Hj). exists r. split; [exact Hr|exact Hj].
Qed.

Lemma victim_recycled_witness : exists s d v, d_state small_busy = (s, d) /\
  wp (EJECT_VICTIM_BLOCK small (0, 2%nat) ;; INSERT_EMPTY_BLOCK small (v_phy_flash_nb v) (v_phy_block_nb v))
     (fun _ s' => lists_ok small s' /\ same_tables s s' /\ listed small s' ≡ₚ listed small s /\
        EBE (v_phy_flash_nb v) (v_phy_block_nb v) 0 ∈ empties s' /\
        free_pages small s' = free_pages small s + PAGE_NB small /\
        total_empty_block_nb s' = total_empty_block_nb s + 1 /\
        total_victim_block_nb s' = total_victim_block_nb s - 1) s.
Proof.
  destruct small_busy_represents as (s & d & n & Hsd & _ & [Hi _] & _).
  destruct small_busy_third as [v Hv]. rewrite Hsd in Hv. exists s, d, v. split; [exact Hsd|].
  exact (victim_recycled small small_ok s (0, 2%nat) v (i_lists _ _ _ _ _ Hi) Hv).
Defined.

Lemma page_number_roundtrip_witness :
  page_id small (CALC_FLASH small 77) (CALC_BLOCK small 77) (CALC_PAGE small 77) = 77.
Proof. apply (proj1 (page_number_roundtrip small small_ok) 77). vm_compute. split; congruence. Defined.

Lemma page_state_update_witness : exists s d, d_state small_busy = (s, d) /\
  wp (UPDATE_BLOCK_STATE_ENTRY small 1 3 5 INVALID) (fun r s' =>
    if decide (1 < FLASH_NB small /\ 3 < BLOCK_NB small /\ 5 < PAGE_NB small)
    then r = SUCCESS /\ tables_ok small s' /\ mapping_table s' = mapping_table s /\
         inverse_mapping_table s' = inverse_mapping_table s /\
         forall q, page_char small (block_state_table s') q =
           if decide (q = page_id small 1 3 5) then Some (valid_code INVALID)
           else page_char small (block_state_table s) q
    else r = FAIL /\ s' = s) s.
Proof.
  destruct small_busy_represents as (s & d & n & Hsd & _ & [Hi _] & _). exists s, d.
  split; [exact Hsd|].
  apply (page_state_update small small_ok 1 3 5 INVALID s (i_tables _ _ _ _ _ Hi)); [lia..|]. by right; left.
Defined.


Lemma request_page_count_witness : io_pages small 3 10 = Ret 4.
Proof.
  rewrite (request_page_count small small_ok 3 10) by lia. reflexivity.
Defined.

Lemma out_of_range_refused_witness :
  wp (@_FTL_READ small (SsdDevice small) 510 4) (fun r w' => r = FAIL /\ w' = d_state small_busy) (d_state small_busy) /\
  wp (@_FTL_WRITE small (SsdDevice small) 510 4) (fun r w' => r = FAIL /\ w' = d_state small_busy) (d_state small_busy).
Proof.
  apply (out_of_range_refused small (D := SsdDevice small) 510 4 (d_state small_busy)); [lia..|].
  vm_compute. split; congruence.
Defined.

Lemma empty_block_clean_witness : exists s d, d_state small_busy = (s, d) /\
  wp (UPDATE_BLOCK_STATE small 1 3 EMPTY_BLOCK) (fun _ s' => tables_ok small s' /\
    mapping_table s' = mapping_table s /\ inverse_mapping_table s' = inverse_mapping_table s /\
    forall q, page_char small (block_state_table s') q =
      if decide (q / PAGE_NB small = block_id small 1 3) then Some ch0
      else page_char small (block_state_table s) q) s.
Proof.
  destruct small_busy_represents as (s & d & n & Hsd & _ & [Hi _] & _). exists s, d.
  split; [exact Hsd|].
  apply (empty_block_clean small small_ok 1 3 s (i_tables _ _ _ _ _ Hi)); vm_compute; split; congruence.
Defined.
