(* ===== verification/ModuleProps.v ===== *)
(** * The flash module: theorems

    The timing of the commands, the check of a channel, and the accounting of
    requests and pages, for every clock that obeys [ClockLaws]. *)

From stdpp Require Import prelude gmap.
From S2P Require Import Prelude Config Blocks Mapping Device Perf SsdIo Gc Ftl Persist Ssd.
From S2P Require Import Tables Lists Victims Inv Collect Host Boot SsdLaws Timing SsdSim Space Session Example.

Local Open Scope Z_scope.

(** ** The life of a request *)

Lemma aset_middle {A} (l k : list A) x y : aset (l ++ x :: k) (zlen l) y = Some (l ++ y :: k).
Proof.
  unfold aset. rewrite length_app. simpl length.
  destruct (Z.leb_spec 0 (zlen l)); [|lia]. destruct (Z.ltb_spec (zlen l) (Z.of_nat (length l + S (length k)))); [|lia].
  simpl. rewrite Nat2Z.id, insert_app_r_alt by lia. by rewrite Nat.sub_diag.
Qed.

(** The times recorded for the first [j] of [k] pages. *)
Definition first_times (f : Z -> Z) (j k : Z) : list Z :=
  (f <$> seqZ 0 j) ++ replicate (Z.to_nat (k - j)) 0.

Lemma first_times_step f j k : 0 <= j < k -> aset (first_times f j k) j (f j) = Some (first_times f (j + 1) k).
Proof.
  intros Hj. unfold first_times. replace (Z.to_nat (k - j)) with (S (Z.to_nat (k - (j + 1)))) by lia. simpl.
  replace (seqZ 0 (j + 1)) with (seqZ 0 j ++ [j]); last first.
  { rewrite (seqZ_app 0 j 1) by lia. f_equal. }
  rewrite fmap_app, <- (assoc_L app). simpl. pose proof (aset_middle (f <$> seqZ 0 j) (replicate (Z.to_nat (k - (j + 1))) 0) 0 (f j)) as H.
  rewrite length_fmap, length_seqZ in H. by replace (Z.of_nat (Z.to_nat j)) with j in H by lia.
Qed.

Lemma first_times_0 f k : first_times f 0 k = replicate (Z.to_nat k) 0.
Proof. unfold first_times. by rewrite Z.sub_0_r. Qed.

Lemma first_times_all f k : first_times f k k = f <$> seqZ 0 k.
Proof. unfold first_times. rewrite Z.sub_diag. simpl. by rewrite app_nil_r. Qed.

Section Requests.
Context (cfg : config) {C : Clock}.

(** A request of [k] pages: the start of each page is recorded, then the end of
    each page. *)
Definition record_times (nb k : Z) (times : Z -> Z) (type : Z) : M perf unit :=
  for_loop (Z.to_nat k) 0 (fun o => UPDATE_IO_REQUEST cfg nb o (times o) type ;; mret tt).

(** The state with one more request than [p0]. *)
Record one_more (p0 : perf) (r : io_request) (p : perf) : Prop := {
  om_list : io_requests p = io_requests p0 ++ [r];
  om_nb : io_request_nb p = io_request_nb p0 + 1;
  om_seq : io_request_seq_nb p = io_request_seq_nb p0;
  om_lat : (read_latency_count p, write_latency_count p, avg_read_latency p, avg_write_latency p) =
           (read_latency_count p0, write_latency_count p0, avg_read_latency p0, avg_write_latency p0)
}.

Lemma lookup_last n nb l r : (forall x, x ∈ l -> request_nb x <> nb) -> request_nb r = nb ->
  (length l < n)%nat -> lookup_loop n nb (l ++ [r]) = Some (length l).
Proof.
  revert n. induction l as [|x l IH]; intros [|n] Hl Hr Hn; simpl in *; try lia.
  - by rewrite (proj2 (Z.eqb_eq _ _) Hr).
  - rewrite (proj2 (Z.eqb_neq _ _) (Hl x ltac:(left))). rewrite IH; [done| |done|lia].
    intros y Hy. apply Hl. by right.
Qed.

Context (p0 : perf) (seq : Z).
Hypothesis Hseq : 0 <= seq < 2 ^ 32 - 1.
Hypothesis Hnb : io_request_nb p0 = zlen (io_requests p0).
Hypothesis Hlen : zlen (io_requests p0) < 2 ^ 31 - 1.
Hypothesis Hother : forall x, x ∈ io_requests p0 -> request_nb x <> seq.

Lemma lookup_seq r p : one_more p0 r p -> request_nb r = seq ->
  wp (LOOKUP_IO_REQUEST (i32 seq)) (fun o p' => o = Some (length (io_requests p0)) /\ p' = p) p.
Proof using Hseq Hnb Hlen Hother.
  intros Hp Hr. unfold LOOKUP_IO_REQUEST. wp_go. split; [|done].
  rewrite (om_list _ _ _ Hp), u32_i32, u32_id by lia. apply lookup_last; [done|done|].
  rewrite (om_nb _ _ _ Hp), Hnb, i32_id; lia.
Qed.

Lemma free_last r p : io_requests p = io_requests p0 ++ [r] -> io_request_nb p = io_request_nb p0 + 1 ->
  wp (FREE_IO_REQUEST (length (io_requests p0))) (fun _ p' => p' = set_io_requests (io_requests p0) (io_request_nb p0) p) p.
Proof using Hnb Hlen.
  clear Hother. intros E1 E2. unfold FREE_IO_REQUEST. wp_go. rewrite E1, E2.
  replace (u32 (io_request_nb p0 + 1 - 1)) with (io_request_nb p0) by (rewrite u32_id; lia).
  destruct (Z.eqb_spec (io_request_nb p0 + 1) 1) as [E|E].
  { wp_go. destruct (io_requests p0); [done|simpl in *; lia]. }
  destruct (io_requests p0) as [|x l] eqn:El; [simpl in *; lia|]. simpl Nat.eqb. cbv iota.
  destruct (Z.leb_spec (zlen (x :: l)) (io_request_nb p0)); [|lia]. wp_go. f_equal.
  rewrite delete_middle. apply app_nil_r.
Qed.

(** Recording a time of the last request. *)
Definition is_done (r : io_request) : bool := (start_count r =? request_size r) && (end_count r =? request_size r).

Lemma update_core r r' o time ty p (Q : perf -> Prop) : one_more p0 r p -> request_nb r = seq ->
  (ty = UPDATE_START_TIME /\ (set_start r <$> aset (start_time r) o time) = Some r' \/
   ty = UPDATE_END_TIME /\ (set_end r <$> aset (end_time r) o time) = Some r') ->
  (forall k p', Q p' -> Q (set_clock_reads k p')) ->
  (forall p1, one_more p0 r' p1 ->
     wp (if is_done r' then
           latency ← need (CALC_IO_LATENCY cfg r');
           SEND_TO_PERF_CHECKER cfg (request_type r') latency LATENCY_OP ;;
           FREE_IO_REQUEST (length (io_requests p0))
         else mret tt) (fun _ p2 => Q p2) p1) ->
  wp (UPDATE_IO_REQUEST cfg (i32 seq) o time ty) (fun _ p' => Q p') p.
Proof using Hseq Hnb Hlen Hother.
  intros Hp Hr Hty HQ Hk. unfold UPDATE_IO_REQUEST, get_usec. wp_go.
  destruct (Z.eqb_spec (i32 seq) (-1)) as [E|_].
  { pose proof (u32_i32 seq) as E'. rewrite E, (u32_id seq) in E' by lia. vm_compute in E'. lia. }
  apply wp_bind. eapply wp_mono; [apply (lookup_seq r); [by destruct Hp|done]|]. intros ? ? [-> ->]. wp_go. simpl.
  apply (wp_need _ _ r). { rewrite (om_list _ _ _ Hp), lookup_app_r, Nat.sub_diag by lia. done. }
  apply wp_bind. apply wp_mono with (P := fun x p' => x = r' /\ p' = set_clock_reads (S (clock_reads p)) p).
  { destruct Hty as [[-> H]|[-> H]]; apply fmap_Some in H as (t & Ht & ->); simpl; wp_go; done. }
  intros ? ? [-> ->]. wp_go. eapply wp_mono; [apply Hk|intros; wp_go; by apply HQ].
  destruct Hp as [E1 E2 E3 E4]. split; simpl; [|done..].
  rewrite E1, insert_app_r_alt, Nat.sub_diag by lia. done.
Qed.

(** The request stays until all its pages are done. *)
Lemma update_open r r' o time ty p : one_more p0 r p -> request_nb r = seq ->
  (ty = UPDATE_START_TIME /\ (set_start r <$> aset (start_time r) o time) = Some r' \/
   ty = UPDATE_END_TIME /\ (set_end r <$> aset (end_time r) o time) = Some r') ->
  is_done r' = false ->
  wp (UPDATE_IO_REQUEST cfg (i32 seq) o time ty) (fun _ p' => one_more p0 r' p') p.
Proof using Hseq Hnb Hlen Hother.
  intros Hp Hr Hty Hd. eapply (update_core r r'); [done..| |].
  - by intros k p' [].
  - intros p1 Hp1. rewrite Hd. by wp_go.
Qed.

(** What is left of a request: its latency in the averages. *)
Definition accounted (type lat : Z) (p : perf) : Prop :=
  io_requests p = io_requests p0 /\ io_request_nb p = io_request_nb p0 /\
  io_request_seq_nb p = io_request_seq_nb p0 /\
  if type =? READ then
    avg_read_latency p = next_avg (avg_read_latency p0) (read_latency_count p0) (dbl_of_Z lat) /\
    read_latency_count p = dbl_add (read_latency_count p0) dbl1
  else if type =? WRITE then
    avg_write_latency p = next_avg (avg_write_latency p0) (write_latency_count p0) (dbl_of_Z lat) /\
    write_latency_count p = dbl_add (write_latency_count p0) dbl1
  else True.

Lemma update_close r r' o time p lat : one_more p0 r p -> request_nb r = seq ->
  (set_end r <$> aset (end_time r) o time) = Some r' ->
  is_done r' = true -> CALC_IO_LATENCY cfg r' = Some lat ->
  wp (UPDATE_IO_REQUEST cfg (i32 seq) o time UPDATE_END_TIME) (fun _ p' => accounted (request_type r') lat p') p.
Proof using Hseq Hnb Hlen Hother.
  intros Hp Hr Hty Hd Hlat. eapply (update_core r r'); [done|done|by right| |].
  { done. }
  intros p1 [E1 E2 E3 E4]. rewrite Hd, Hlat. wp_go. unfold SEND_TO_PERF_CHECKER. wp_go. simpl.
  injection E4 as L1 L2 L3 L4. unfold accounted.
  eapply wp_mono; [apply (free_last r')|intros _ p2 ->]; unfold send_latency_op; repeat case_match; simpl; try done;
    by rewrite ?L1, ?L2, ?L3, ?L4.
Qed.

Context (k type : Z) (Hk : 1 <= k < 2 ^ 15) (starts ends : Z -> Z).

(** The request after [j] starts and [i] ends. *)
Definition partial_request (j i : Z) : io_request :=
  IoRequest seq type k j i (first_times starts j k) (first_times ends i k).

Lemma record_starts p : one_more p0 (partial_request 0 0) p ->
  wp (record_times (i32 seq) k starts UPDATE_START_TIME) (fun _ p' => one_more p0 (partial_request k 0) p') p.
Proof using Hseq Hnb Hlen Hother Hk.
  intros Hp. apply wp_for with (I := fun j p' => one_more p0 (partial_request j 0) p'); [done| |].
  - intros j p' Hj Hp'. apply wp_bind. eapply wp_mono; [|intros ? ? H; wp_go; exact H].
    eapply (update_open (partial_request j 0)); [done|done|left; split; [done|]|].
    + simpl. rewrite first_times_step by lia. unfold partial_request, set_start. simpl. by rewrite i16_id by lia.
    + apply andb_false_iff. right. apply Z.eqb_neq. simpl. lia.
  - intros p' H. by replace (0 + Z.of_nat (Z.to_nat k)) with k in H by lia.
Qed.

Lemma latency_total : is_Some (CALC_IO_LATENCY cfg (partial_request k k)).
Proof using Hk.
  clear Hnb Hlen Hother. apply calc_latency_Some; simpl; [lia|..]; rewrite first_times_all, length_fmap, length_seqZ; lia.
Qed.

Lemma record_ends p lat : one_more p0 (partial_request k 0) p ->
  CALC_IO_LATENCY cfg (partial_request k k) = Some lat ->
  wp (record_times (i32 seq) k ends UPDATE_END_TIME) (fun _ p' => accounted type lat p') p.
Proof using Hseq Hnb Hlen Hother Hk.
  intros Hp Hlat. assert (forall j, 0 <= j < k ->
    (set_end (partial_request k j) <$> aset (end_time (partial_request k j)) j (ends j)) = Some (partial_request k (j + 1))) as Hset.
  { intros j Hj. simpl. rewrite first_times_step by lia. unfold partial_request, set_end. simpl. by rewrite i16_id by lia. }
  apply wp_for with (I := fun j p' => if decide (j < k) then one_more p0 (partial_request k j) p' else accounted type lat p').
  - by rewrite decide_True by lia.
  - intros j p' Hj. rewrite decide_True by lia. intros Hp'. apply wp_bind.
    eapply wp_mono; [|intros ? ? H; wp_go; exact H]. case_decide as Hlt.
    + eapply (update_open (partial_request k j)); [done|done|right; split; [done|apply Hset; lia]|].
      apply andb_false_iff. right. apply Z.eqb_neq. simpl. lia.
    + assert (j + 1 = k) as Ej by lia. eapply (update_close (partial_request k j) (partial_request k (j + 1)));
        [done|done|apply Hset; lia|by rewrite Ej; unfold is_done; simpl; rewrite Z.eqb_refl|by rewrite Ej].
  - intros p' H. rewrite decide_False in H by lia. exact H.
Qed.

End Requests.

(** ** The latency *)

(** The ends of the pages of a request: those that were not recorded get the
    nominal delay. *)
Definition page_ends (cfg : config) (r : io_request) : list Z :=
  zip_with (fill_end cfg (request_type r)) (start_time r) (end_time r).

Lemma foldl_min_least a l : foldl Z.min a l ∈ a :: l /\ forall x, x ∈ a :: l -> foldl Z.min a l <= x.
Proof.
  revert a. induction l as [|b l IH]; intros a; simpl.
  - split; [left|]. by intros x ->%list_elem_of_singleton.
  - destruct (IH (Z.min a b)) as [H1 H2]. split.
    + apply elem_of_cons in H1 as [->|H1]; [|by do 2 right].
      destruct (Z.min_spec a b) as [[_ ->]|[_ ->]]; [left|right; left].
    + intros x Hx. apply elem_of_cons in Hx as [->|[->|Hx]%elem_of_cons].
      1, 2: specialize (H2 _ (list_elem_of_here _ _)); lia.
      apply H2. by right.
Qed.

Lemma foldl_max_greatest a l : foldl Z.max a l ∈ a :: l /\ forall x, x ∈ a :: l -> x <= foldl Z.max a l.
Proof.
  revert a. induction l as [|b l IH]; intros a; simpl.
  - split; [left|]. by intros x ->%list_elem_of_singleton.
  - destruct (IH (Z.max a b)) as [H1 H2]. split.
    + apply elem_of_cons in H1 as [->|H1]; [|by do 2 right].
      destruct (Z.max_spec a b) as [[_ ->]|[_ ->]]; [right; left|left].
    + intros x Hx. apply elem_of_cons in Hx as [->|[->|Hx]%elem_of_cons].
      1, 2: specialize (H2 _ (list_elem_of_here _ _)); lia.
      apply H2. by right.
Qed.

Section Theorems.
Context (cfg : config) (Hok : cfg_ok cfg) {C : Clock} {CL : ClockLaws C}.

Local Abbreviation cmd_done := (finished cfg).

(** C30.  Programming a page waits for the register.  Whenever the specification
    device allows the command, [SSD_PAGE_WRITE] returns [SUCCESS] in a state that
    simulates the specification; at that time the clock has reached the end of
    the command that the register had before, and the register holds the new
    command and its type.  So commands of one register never overlap. *)
Theorem page_write_serialised f b p o t k n w a n' : sim_rel cfg n w ->
  nand_write cfg f b p o t k n = Ret (a, n') ->
  wp (SSD_PAGE_WRITE cfg f b p o t k) (fun r w' => (r = a /\ sim_rel cfg n' w') /\
    cmd_done (reg_of cfg f b) (snd w) w' /\ recorded (reg_of cfg f b) WRITE t w') w.
Proof using Hok CL.
  intros Hw Hn. apply wp_wlp; [by eapply (write_law (DeviceLaws := SsdLaws cfg Hok))|].
  assert (0 <= f < FLASH_NB cfg) as Hf.
  { unfold nand_write in Hn. destruct (addr_ok cfg f b p) eqn:E; [|done]. by apply addr_ok_inv in E as [? _]. }
  apply (page_write_partial cfg); [by apply reg_of_bounds|]. eapply io_ok_full; [apply (proj1 Hw)|by apply reg_of_ok].
Qed.

(** Reading a page waits for the register in the same way. *)
Theorem page_read_serialised f b p o t k n w a n' : sim_rel cfg n w ->
  nand_read cfg f b p o t k n = Ret (a, n') ->
  wp (SSD_PAGE_READ cfg f b p o t k) (fun r w' => (r = a /\ sim_rel cfg n' w') /\
    cmd_done (reg_of cfg f b) (snd w) w' /\ recorded (reg_of cfg f b) READ t w') w.
Proof using Hok CL.
  intros Hw Hn. apply wp_wlp; [by eapply (read_law (DeviceLaws := SsdLaws cfg Hok))|].
  assert (0 <= f < FLASH_NB cfg) as Hf.
  { unfold nand_read in Hn. destruct (addr_ok cfg f b p) eqn:E; [|done]. by apply addr_ok_inv in E as [? _]. }
  apply (page_read_partial cfg); [by apply reg_of_bounds|]. eapply io_ok_full; [apply (proj1 Hw)|by apply reg_of_ok].
Qed.

(** Erasing a block waits for the register in the same way. *)
Theorem block_erase_serialised f b n w a n' : sim_rel cfg n w ->
  nand_erase cfg f b n = Ret (a, n') ->
  wp (SSD_BLOCK_ERASE cfg f b) (fun r w' => (r = a /\ sim_rel cfg n' w') /\
    cmd_done (reg_of cfg f b) (snd w) w' /\ recorded (reg_of cfg f b) ERASE ERASE w') w.
Proof using Hok CL.
  intros Hw Hn. apply wp_wlp; [by eapply (erase_law (DeviceLaws := SsdLaws cfg Hok))|].
  assert (0 <= f < FLASH_NB cfg) as Hf.
  { unfold nand_erase in Hn. destruct (addr_ok cfg f b 0) eqn:E; [|done]. by apply addr_ok_inv in E as [? _]. }
  apply (block_erase_partial cfg); [by apply reg_of_bounds|]. eapply io_ok_full; [apply (proj1 Hw)|by apply reg_of_ok].
Qed.

(** [SSD_REG_ACCESS] returns, the clock is past the end of the register's
    command, and the register is free: no command is left, unless the last of
    its stamps was missing. *)
Theorem register_access_frees seq open reg w : mod_ok cfg seq open w -> reg_ok cfg reg ->
  wp (SSD_REG_ACCESS cfg reg) (fun _ w' => mod_ok cfg seq open w' /\
    cmd_done reg (snd w) w' /\ freed reg (snd w) (snd w')) w.
Proof using CL.
  intros Hw Hreg. apply wp_wlp; [by apply (reg_access_keeps cfg reg Hreg)|].
  apply (reg_access_partial cfg). eapply io_ok_full; [apply Hw|done].
Qed.

(** C31.  The loop that waits for a channel ends.  From a failed or a successful
    check [while (ret == FAIL)] ends with [SUCCESS]: every round that fails
    finishes the transfer of a register, so the number of rounds is bounded by
    the number of registers of the channel. *)
Theorem channel_check_ends seq open ch ret w : channel_ok cfg ch -> mod_ok cfg seq open w ->
  ret = SUCCESS \/ ret = FAIL ->
  wp (check_channel cfg ch ret) (fun r w' => r = SUCCESS /\ mod_ok cfg seq open w') w.
Proof using Hok CL. by apply check_channel_spec. Qed.

(** C32.  A request is accounted for once and leaves the list.  For a request of
    [k] pages, [ALLOC_IO_REQUEST] and the recording of a start and an end for
    each page leave the list of requests as it was before; the average latency
    of its kind is updated once, with the latency of the times recorded. *)
Theorem request_lifecycle s l type p seq k starts ends :
  perf_ok seq None p -> seq < 2 ^ 32 - 1 -> zlen (io_requests p) < 2 ^ 31 - 1 ->
  io_pages cfg s l = Ret k -> 1 <= k < 2 ^ 15 -> 0 <= type < 2 ^ 15 ->
  exists lat, CALC_IO_LATENCY cfg (partial_request seq k type starts ends k k) = Some lat /\
  wp (r ← ALLOC_IO_REQUEST cfg s l type;
      record_times cfg (i32 seq) (fst r) starts UPDATE_START_TIME ;;
      record_times cfg (i32 seq) (fst r) ends UPDATE_END_TIME)
     (fun _ p' => accounted p type lat p') p.
Proof.
  intros Hp Hseq Hlen Hpages Hk Hty. destruct (latency_total cfg seq k type Hk starts ends) as [lat Hlat].
  exists lat. split; [done|]. destruct Hp as [E1 E2 E3 E4 E5].
  assert (forall x, x ∈ io_requests p -> request_nb x <> seq) as Hother.
  { intros x Hx. destruct (E5 x Hx) as (_ & _ & _ & H & _). unfold issued in H. lia. }
  unfold ALLOC_IO_REQUEST, get_usec. wp_go. unfold wp at 1. rewrite Hpages. wp_go. simpl.
  set (p1 := set_clock_reads (S (clock_reads p)) p).
  apply wp_mono with (P := fun _ p' => p' = p1).
  { destruct (io_requests p); [|by wp_go]. simpl in E2. rewrite E2. by wp_go. }
  intros _ _ ->. wp_go. rewrite E1, E2, !i16_id, u32_id by lia. simpl.
  eapply wp_mono; [apply (record_starts cfg p seq) with (type := type) (ends := ends); try done|].
  { lia. }
  { split; simpl; [|lia|done|done]. f_equal. unfold partial_request. by rewrite !first_times_0. }
  intros ? p2 Hp2. apply (record_ends cfg p seq) with (starts := starts); try done. lia.
Qed.

(** The latency of a request of [n] pages is the time from the earliest
    start to the latest end, divided by [n]; the end of a page that was not
    recorded is its start and the nominal delays of the command. *)
Theorem latency_value r : 1 <= request_size r -> zlen (start_time r) = request_size r ->
  zlen (end_time r) = request_size r ->
  exists lo hi, CALC_IO_LATENCY cfg r = Some (Z.quot (hi - lo) (request_size r)) /\
    (lo ∈ start_time r /\ forall t, t ∈ start_time r -> lo <= t) /\
    (hi ∈ page_ends cfg r /\ forall t, t ∈ page_ends cfg r -> t <= hi).
Proof.
  intros Hs H1 H2. unfold CALC_IO_LATENCY, page_ends.
  destruct (Z.eqb_spec (request_size r) 0); [lia|]. destruct (Z.ltb_spec (zlen (start_time r)) (request_size r)); [lia|].
  destruct (Z.ltb_spec (zlen (end_time r)) (request_size r)); [lia|]. simpl orb. cbv iota.
  rewrite !(take_ge (start_time r)), !(take_ge (end_time r)), (drop_ge (end_time r)), app_nil_r by lia.
  destruct (start_time r) as [|s0 ss] eqn:Es; [simpl in *; lia|].
  destruct (end_time r) as [|e0 es] eqn:Ee; [simpl in *; lia|]. simpl head. cbn [zip_with head mbind option_bind tail].
  exists (foldl Z.min s0 ss), (foldl Z.max (fill_end cfg (request_type r) s0 e0) (zip_with (fill_end cfg (request_type r)) ss es)).
  split; [|split; [apply foldl_min_least|apply foldl_max_greatest]].
  do 4 f_equal. rewrite take_ge; [done|]. simpl in *. rewrite length_zip_with. lia.
Qed.

(** The count of written pages.  The end of a cell operation adds one page
    for every kind of program, takes the pages of a block away for an erase,
    counts nothing for a read of the collector or of the host, and the
    utilisation is the count over the pages of the drive, in per cent. *)
Theorem written_pages op delay p :
  wp (SEND_TO_PERF_CHECKER cfg op delay REG_OP) (fun _ p' =>
    written_page_nb p' = written_page_nb p +
      (if op =? ERASE then - PAGE_NB cfg
       else if bool_decide (op ∈ [WRITE; GC_WRITE; SEQ_WRITE; RAN_WRITE; RAN_COLD_WRITE; RAN_HOT_WRITE;
              SEQ_MERGE_WRITE; RAN_MERGE_WRITE; RAN_COLD_MERGE_WRITE; RAN_HOT_MERGE_WRITE]) then 1 else 0) /\
    ssd_util p' = dbl_mul (dbl_div (dbl_of_Z (written_page_nb p')) (dbl_of_Z (PAGES_IN_SSD cfg))) (dbl_of_Z 100)) p.
Proof.
  unfold SEND_TO_PERF_CHECKER. wp_go. simpl. split; [|done]. unfold send_reg_op, stat_of.
  assert (forall x l, bool_decide (op ∈ x :: l) = (op =? x) || bool_decide (op ∈ l)) as Hc.
  { intros x l. destruct (Z.eqb_spec op x) as [->|]; simpl; [apply bool_decide_true; left|].
    apply bool_decide_ext. rewrite elem_of_cons. tauto. }
  rewrite !Hc, (bool_decide_false (op ∈ [])) by (by intros ?%elem_of_nil).
  repeat match goal with
  | |- context [op =? ?c] => destruct (Z.eqb_spec op c) as [->|]
  end; simpl; lia.
Qed.

End Theorems.

(** ** A module at work

    The module of the small drive after the collector has programmed page 0 of
    block 0 of flash 0: its register is busy. *)

Definition fresh_module : module := result (on_fst INIT_PERF_CHECKER ;; SSD_IO_INIT small) (module0 0).

Lemma fresh_module_sim : sim_rel small nand0 fresh_module.
Proof. apply (wp_result _ (sim_rel small nand0)). by apply (init_sim_rel small small_ok). Qed.

Definition busy_nand : nand := nand_append nand0 0 0 [] 0.
Definition busy_module : module := result (SSD_PAGE_WRITE small 0 0 0 0 GC_WRITE (-1)) fresh_module.

Lemma busy_module_sim : sim_rel small busy_nand busy_module.
Proof.
  apply (wp_result _ (sim_rel small busy_nand)).
  eapply wp_mono; [apply (write_law (DeviceLaws := SsdLaws small small_ok) 0 0 0 0 GC_WRITE (-1) nand0 _ 1 busy_nand); [apply fresh_module_sim|]|].
  - vm_compute. reflexivity.
  - by intros ? ? [_ ?].
Qed.

Lemma busy_module_busy : view 0 (snd busy_module) = (Some WRITE, Some 134, Some 216, Some 0).
Proof. vm_compute. reflexivity. Qed.

Lemma page_write_serialised_witness :
  wp (SSD_PAGE_WRITE small 0 0 1 0 GC_WRITE (-1)) (fun r w' =>
    (r = 1 /\ sim_rel small (nand_append busy_nand 0 0 [] 0) w') /\
    finished small (reg_of small 0 0) (snd busy_module) w' /\ recorded (reg_of small 0 0) WRITE GC_WRITE w') busy_module.
Proof.
  apply (page_write_serialised small small_ok 0 0 1 0 GC_WRITE (-1) busy_nand busy_module 1 _ busy_module_sim).
  vm_compute. reflexivity.
Defined.

Lemma page_read_serialised_witness :
  wp (SSD_PAGE_READ small 0 0 0 0 GC_READ (-1)) (fun r w' =>
    (r = 1 /\ sim_rel small busy_nand w') /\
    finished small (reg_of small 0 0) (snd busy_module) w' /\ recorded (reg_of small 0 0) READ GC_READ w') busy_module.
Proof.
  apply (page_read_serialised small small_ok 0 0 0 0 GC_READ (-1) busy_nand busy_module 1 _ busy_module_sim).
  vm_compute. reflexivity.
Defined.

Lemma block_erase_serialised_witness :
  wp (SSD_BLOCK_ERASE small 0 0) (fun r w' =>
    (r = 1 /\ sim_rel small (Nand (<[(0, 0) := []]> (n_blocks busy_nand)) [] 0 None 0 [] []) w') /\
    finished small (reg_of small 0 0) (snd busy_module) w' /\ recorded (reg_of small 0 0) ERASE ERASE w') busy_module.
Proof.
  apply (block_erase_serialised small small_ok 0 0 busy_nand busy_module 1 _ busy_module_sim).
  vm_compute. reflexivity.
Defined.

Lemma register_access_frees_witness :
  wp (SSD_REG_ACCESS small 0) (fun _ w' => mod_ok small 0 None w' /\
    finished small 0 (snd busy_module) w' /\ freed 0 (snd busy_module) (snd w')) busy_module.
Proof.
  apply (register_access_frees small 0 None 0 busy_module (proj1 busy_module_sim)). vm_compute. split; congruence.
Defined.

Lemma channel_check_ends_witness :
  wp (check_channel small 0 FAIL) (fun r w' => r = SUCCESS /\ mod_ok small 0 None w') busy_module.
Proof.
  apply (channel_check_ends small small_ok 0 None 0 FAIL busy_module); [vm_compute; split; congruence|exact (proj1 busy_module_sim)|by right].
Defined.

Lemma request_lifecycle_witness :
  exists lat, CALC_IO_LATENCY small (partial_request 0 4 WRITE (fun o => 100 + o) (fun o => 1200 + 10 * o) 4 4) = Some lat /\
  wp (r ← ALLOC_IO_REQUEST small 3 10 WRITE;
      record_times small (i32 0) (fst r) (fun o => 100 + o) UPDATE_START_TIME ;;
      record_times small (i32 0) (fst r) (fun o => 1200 + 10 * o) UPDATE_END_TIME)
     (fun _ p' => accounted (fst fresh_module) WRITE lat p') (fst fresh_module).
Proof.
  apply (request_lifecycle small 3 10 WRITE (fst fresh_module) 0 4);
    [apply fresh_module_sim|lia|vm_compute; reflexivity|vm_compute; reflexivity|lia|vm_compute; split; congruence].
Defined.

(** Four pages, from 100 to 1230: a quarter of 1130. *)
Lemma latency_value_witness : exists lo hi,
  CALC_IO_LATENCY small (partial_request 0 4 WRITE (fun o => 100 + o) (fun o => 1200 + 10 * o) 4 4)
    = Some (Z.quot (hi - lo) 4) /\ lo = 100 /\ hi = 1230.
Proof.
  destruct (latency_value small (partial_request 0 4 WRITE (fun o => 100 + o) (fun o => 1200 + 10 * o) 4 4))
    as (lo & hi & E & [Hl1 Hl2] & [Hh1 Hh2]); [vm_compute; congruence|reflexivity|reflexivity|].
  exists lo, hi. split; [exact E|].
  assert (lo <= 100) by (apply Hl2; vm_compute; left).
  assert (1230 <= hi) by (apply Hh2; vm_compute; do 3 right; left).
  vm_compute in Hl1, Hh1. split.
  - repeat (apply elem_of_cons in Hl1 as [->|Hl1]; [lia|]). by apply elem_of_nil in Hl1.
  - repeat (apply elem_of_cons in Hh1 as [->|Hh1]; [lia|]). by apply elem_of_nil in Hh1.
Defined.
