(* ===== verification/Cache.v ===== *)
(** * The mapping cache

    [FTL/PAGE_MAP/ftl_cache.c], compiled with [FTL_MAP_CACHE].  A pointer to an
    entry of [cache_idx_table] is its index.  [CELL_READ] and [CELL_WRITE], which
    the file calls and no file of the repository defines, are arguments, over a
    state [X] of their own; [inverse_page_mapping_table], which no file declares,
    is an array of the cache. *)

From stdpp Require Import prelude.
From S2P Require Import Prelude Config Blocks Mapping.

Local Open Scope Z_scope.

Definition MAP : Z := 0.
Definition INV_MAP : Z := 1.
Definition MAP_READ : Z := 818.
Definition MAP_WRITE : Z := 819.

Record cache_idx_entry := CacheIdx {
  map_num : Z;
  clock_bit : Z;
  map_type : Z;
  update_bit : Z;
  cached : list Z
}.

Record map_state_entry := MapState {
  map_ppn : Z;
  is_cached : Z;
  cache_entry : option Z
}.

Record map_data := MapData {
  md_ppn : Z;
  md_data : list Z
}.

Record cache := Cache {
  cache_idx_table : list cache_idx_entry;
  map_state_table : list map_state_entry;
  clock_hand : Z;
  cache_map_data : list map_data;
  cache_map_data_nb : Z;
  inverse_page_mapping_table : list Z
}.

Definition set_idx_table v c := Cache v (map_state_table c) (clock_hand c) (cache_map_data c)
  (cache_map_data_nb c) (inverse_page_mapping_table c).
Definition set_map_state_table v c := Cache (cache_idx_table c) v (clock_hand c) (cache_map_data c)
  (cache_map_data_nb c) (inverse_page_mapping_table c).
Definition set_clock_hand v c := Cache (cache_idx_table c) (map_state_table c) v (cache_map_data c)
  (cache_map_data_nb c) (inverse_page_mapping_table c).
Definition set_map_data v n c := Cache (cache_idx_table c) (map_state_table c) (clock_hand c) v n
  (inverse_page_mapping_table c).
Definition set_inverse_page v c := Cache (cache_idx_table c) (map_state_table c) (clock_hand c)
  (cache_map_data c) (cache_map_data_nb c) v.

(** ** The map pages written to flash *)

(** [calloc], [REARRANGE_MAP_DATA_ENTRY]: the new entry is the last one. *)
Definition REARRANGE_MAP_DATA_ENTRY (e : map_data) (l : list map_data) : list map_data := l ++ [e].

(** The loop reads [cache_map_data_nb] entries; it would follow a null pointer
    on a shorter list. *)
Fixpoint lookup_map_data (n : nat) (l : list map_data) (page_nb : Z) : outcome (option map_data) :=
  match n, l with
  | O, _ => Ret None
  | S _, [] => Undef
  | S n', e :: l' => if md_ppn e =? page_nb then Ret (Some e) else lookup_map_data n' l' page_nb
  end.

Definition LOOKUP_MAP_DATA_ENTRY (page_nb : Z) : M cache (option map_data) := fun c =>
  match lookup_map_data (Z.to_nat (cache_map_data_nb c)) (cache_map_data c) page_nb with
  | Ret r => Ret (r, c)
  | Undef => Undef
  | OutOfFuel => OutOfFuel
  end.

Definition READ_MAP (page_nb : Z) : M cache (option (list Z)) :=
  e ← LOOKUP_MAP_DATA_ENTRY page_nb;
  mret (md_data <$> e).

Section Cache.
Context (cfg : config) (CACHE_IDX_SIZE : Z).
Context {X : Type} (CELL_READ CELL_WRITE : Z -> Z -> Z -> Z -> Z -> M X Z).

Abbreviation cache_world := (cache * (ftl * X))%type.

(** [PAGE_SIZE / sizeof(int32_t)] and the number of map pages. *)
Definition MAP_ENTRIES_PER_PAGE : Z := u32 (PAGE_SIZE cfg) / 4.
Definition MAP_ENTRY_NB : Z := u32 (PAGE_MAPPING_ENTRY_NB cfg) / MAP_ENTRIES_PER_PAGE.

Definition on_cache {A} (m : M cache A) : M cache_world A := on_fst m.
Definition on_maps {A} (m : M ftl A) : M cache_world A := on_snd (on_fst m).
Definition on_flash {A} (m : M X A) : M cache_world A := on_snd (on_snd m).

(** ** [INIT_CACHE] *)

(** [new_ppn] keeps its value when [GET_NEW_PAGE] fails. *)
Fixpoint init_maps (n : nat) (new_ppn : option Z) : M ftl (list map_state_entry) :=
  match n with
  | O => mret []
  | S n' =>
      r ← GET_NEW_PAGE cfg VICTIM_OVERALL (EMPTY_TABLE_ENTRY_NB cfg);
      let new_ppn := match r with Some p => Some p | None => new_ppn end in
      p ← need new_ppn;
      l ← init_maps n' new_ppn;
      mret (MapState p 0 None :: l)
  end.

Definition INIT_CACHE (fp : bool) : M cache_world unit :=
  if fp then mret tt else
  on_cache (modify (fun c => set_clock_hand 0
    (set_idx_table (replicate (Z.to_nat CACHE_IDX_SIZE) (CacheIdx 0 0 0 0 (replicate (Z.to_nat MAP_ENTRIES_PER_PAGE) 0))) c))) ;;
  l ← on_maps (init_maps (Z.to_nat MAP_ENTRY_NB) None);
  on_cache (modify (fun c => set_map_data [] 0 (set_map_state_table l c))).

(** ** The victim *)

Definition with_clock (v : Z) (e : cache_idx_entry) : cache_idx_entry :=
  CacheIdx (map_num e) v (map_type e) (update_bit e) (cached e).

Fixpoint select_loop (fuel : nat) : M cache Z :=
  match fuel with
  | O => out_of_fuel
  | S fuel' =>
      h ← gets clock_hand;
      let idx := if h =? u32 CACHE_IDX_SIZE then 0 else h in
      modify (set_clock_hand (if u32 (h + 1) =? u32 CACHE_IDX_SIZE then 0 else u32 (h + 1))) ;;
      e ← rd cache_idx_table idx;
      if negb (clock_bit e =? 0) then
        wr cache_idx_table set_idx_table idx (with_clock 0 e) ;;
        select_loop fuel'
      else
        wr cache_idx_table set_idx_table idx (with_clock 1 e) ;;
        mret idx
  end.

(** One turn clears every bit, the next step finds a clear one. *)
Definition CACHE_SELECT_VICTIM : M cache Z := select_loop (S (Z.to_nat CACHE_IDX_SIZE)).

(** ** Writing back *)

Definition WRITE_MAP (page_nb : Z) (buf : list Z) : M cache_world Z :=
  on_cache (modify (fun c => set_map_data (REARRANGE_MAP_DATA_ENTRY (MapData page_nb buf) (cache_map_data c))
    (u32 (cache_map_data_nb c + 1)) c)) ;;
  on_flash (CELL_WRITE (CALC_FLASH cfg page_nb) (CALC_BLOCK cfg page_nb) (CALC_PAGE cfg page_nb) 0 MAP_WRITE) ;;
  mret SUCCESS.

Definition CACHE_EVICT_MAP : M cache_world Z :=
  victim_index ← on_cache CACHE_SELECT_VICTIM;
  e ← on_cache (rd cache_idx_table victim_index);
  let map_index := map_num e in
  (if negb (update_bit e =? 0) then
     r ← on_maps (GET_NEW_PAGE cfg VICTIM_OVERALL (EMPTY_TABLE_ENTRY_NB cfg));
     new_ppn ← on_cache (need r);
     WRITE_MAP new_ppn (cached e) ;;
     m ← on_cache (rd map_state_table map_index);
     on_cache (wr map_state_table set_map_state_table map_index (MapState new_ppn (is_cached m) (cache_entry m)))
   else mret tt) ;;
  m ← on_cache (rd map_state_table map_index);
  on_cache (wr map_state_table set_map_state_table map_index (MapState (map_ppn m) 0 None)) ;;
  on_cache (wr cache_idx_table set_idx_table victim_index (CacheIdx 0 0 (map_type e) 0 (cached e))) ;;
  mret victim_index.

(** ** Looking up and loading *)

(** The index of the entry, if the map page is in the cache. *)
Definition LOOKUP_CACHE (map_index type : Z) : M cache (option Z) :=
  m ← rd map_state_table map_index;
  if negb (is_cached m =? 0) then
    i ← need (cache_entry m);
    e ← rd cache_idx_table i;
    if type =? MAP then mret (if (map_type e =? MAP) && (map_num e =? map_index) then Some i else None)
    else if type =? INV_MAP then mret (if (map_type e =? INV_MAP) && (map_num e =? map_index) then Some i else None)
    else mret None
  else mret None.

(** [memcpy] of the entries of a map page. *)
Definition map_page (index : Z) (table : list Z) : option (list Z) :=
  if (0 <=? index) && (index + MAP_ENTRIES_PER_PAGE <=? zlen table)
  then Some (take (Z.to_nat MAP_ENTRIES_PER_PAGE) (drop (Z.to_nat index) table)) else None.

(** [map_num] has 29 bits. *)
Definition CACHE_INSERT_MAP (map_index type victim_index : Z) : M cache_world Z :=
  let index := i32 (map_index * MAP_ENTRIES_PER_PAGE) in
  e ← on_cache (rd cache_idx_table victim_index);
  m ← on_cache (rd map_state_table map_index);
  e ← (if type =? MAP then
         t ← on_maps (gets mapping_table);
         d ← on_cache (need (map_page index t));
         mret (CacheIdx (map_num e) (clock_bit e) MAP (update_bit e) d)
       else if type =? INV_MAP then
         t ← on_cache (gets inverse_page_mapping_table);
         d ← on_cache (need (map_page index t));
         mret (CacheIdx (map_num e) (clock_bit e) INV_MAP (update_bit e) d)
       else mret e);
  on_flash (CELL_READ (CALC_FLASH cfg (map_ppn m)) (CALC_BLOCK cfg (map_ppn m)) (CALC_PAGE cfg (map_ppn m)) 0 MAP_READ) ;;
  on_cache (wr cache_idx_table set_idx_table victim_index (CacheIdx (map_index mod 2 ^ 29) 1 (map_type e) 0 (cached e))) ;;
  on_cache (wr map_state_table set_map_state_table map_index (MapState (map_ppn m) 1 (Some victim_index))) ;;
  mret victim_index.

Definition CACHE_GET_MAP (map_index type : Z) : M cache_world Z :=
  r ← on_cache (LOOKUP_CACHE map_index type);
  match r with
  | Some i =>
      e ← on_cache (rd cache_idx_table i);
      on_cache (wr cache_idx_table set_idx_table i (with_clock 1 e)) ;;
      mret i
  | None =>
      victim_index ← CACHE_EVICT_MAP;
      CACHE_INSERT_MAP map_index type victim_index
  end.

(** ** The calls of the translation layer *)

Definition mark_updated (i : Z) : M cache unit :=
  e ← rd cache_idx_table i;
  wr cache_idx_table set_idx_table i (CacheIdx (map_num e) (clock_bit e) (map_type e) 1 (cached e)).

Definition CACHE_GET_PPN (lpn : Z) : M cache_world Z :=
  CACHE_GET_MAP (u32 lpn / MAP_ENTRIES_PER_PAGE) MAP ;;
  on_maps (GET_MAPPING_INFO lpn).

Definition CACHE_GET_LPN (ppn : Z) : M cache_world Z :=
  CACHE_GET_MAP (u32 ppn / MAP_ENTRIES_PER_PAGE) INV_MAP ;;
  on_maps (GET_INVERSE_MAPPING_INFO ppn).

Definition CACHE_UPDATE_PPN (lpn ppn : Z) : M cache_world Z :=
  i ← CACHE_GET_MAP (u32 lpn / MAP_ENTRIES_PER_PAGE) MAP;
  on_cache (mark_updated i) ;;
  on_maps (wr mapping_table set_mapping_table lpn ppn) ;;
  mret SUCCESS.

Definition CACHE_UPDATE_LPN (lpn ppn : Z) : M cache_world Z :=
  i ← CACHE_GET_MAP (u32 ppn / MAP_ENTRIES_PER_PAGE) INV_MAP;
  on_cache (mark_updated i) ;;
  on_cache (wr inverse_page_mapping_table set_inverse_page ppn lpn) ;;
  mret SUCCESS.

End Cache.
