(* ===== verification/Firm.v ===== *)
(** * The firmware's buffers and event queue

    [FIRMWARE/firm_buffer_manager.c] and the variants of [FIRMWARE/ssd.c] and
    [FTL/PAGE_MAP/ftl.c] that call it, with [FIRM_IO_BUFFER] defined and
    [SSD_THREAD] not.

    A buffer is an array of frames of one sector; a pointer into it is the index
    of its frame, and the end of the buffer is the number of frames.  The queues
    are lists from [head] to [tail], with the counter the source keeps beside
    them; a pointer to an entry of the event queue is its position. *)

From stdpp Require Import prelude.
From Stdlib Require Import Ascii.
From S2P Require Import Prelude Config Blocks Mapping Device Gc Ftl.

Local Open Scope Z_scope.

(** A frame of the write buffer that the translation layer has taken. *)
Definition chF : ascii := "F"%char.

Record event_queue_entry := Event {
  io_type : Z;
  valid : Z;
  sector_nb : Z;
  ev_length : Z;
  buf : option Z
}.

Record firm := Firm {
  e_queue : list event_queue_entry;
  e_entry_nb : Z;
  c_e_queue : list event_queue_entry;
  c_entry_nb : Z;
  last_read_entry : option nat;
  write_buffer : list Z;
  read_buffer : list Z;
  wb_valid_array : list ascii;
  ftl_write_ptr : Z;
  sata_write_ptr : Z;
  write_limit_ptr : Z;
  ftl_read_ptr : Z;
  sata_read_ptr : Z;
  read_limit_ptr : Z;
  empty_write_buffer_frame : Z;
  empty_read_buffer_frame : Z
}.

Definition set_queue q n r b := Firm q n (c_e_queue b) (c_entry_nb b) r (write_buffer b) (read_buffer b)
  (wb_valid_array b) (ftl_write_ptr b) (sata_write_ptr b) (write_limit_ptr b) (ftl_read_ptr b)
  (sata_read_ptr b) (read_limit_ptr b) (empty_write_buffer_frame b) (empty_read_buffer_frame b).
Definition set_completed q n b := Firm (e_queue b) (e_entry_nb b) q n (last_read_entry b) (write_buffer b) (read_buffer b)
  (wb_valid_array b) (ftl_write_ptr b) (sata_write_ptr b) (write_limit_ptr b) (ftl_read_ptr b)
  (sata_read_ptr b) (read_limit_ptr b) (empty_write_buffer_frame b) (empty_read_buffer_frame b).
Definition set_read_buffer v b := Firm (e_queue b) (e_entry_nb b) (c_e_queue b) (c_entry_nb b) (last_read_entry b)
  (write_buffer b) v (wb_valid_array b) (ftl_write_ptr b) (sata_write_ptr b) (write_limit_ptr b) (ftl_read_ptr b)
  (sata_read_ptr b) (read_limit_ptr b) (empty_write_buffer_frame b) (empty_read_buffer_frame b).
Definition set_wb_valid_array v b := Firm (e_queue b) (e_entry_nb b) (c_e_queue b) (c_entry_nb b) (last_read_entry b)
  (write_buffer b) (read_buffer b) v (ftl_write_ptr b) (sata_write_ptr b) (write_limit_ptr b) (ftl_read_ptr b)
  (sata_read_ptr b) (read_limit_ptr b) (empty_write_buffer_frame b) (empty_read_buffer_frame b).
Definition set_ftl_write_ptr v b := Firm (e_queue b) (e_entry_nb b) (c_e_queue b) (c_entry_nb b) (last_read_entry b)
  (write_buffer b) (read_buffer b) (wb_valid_array b) v (sata_write_ptr b) (write_limit_ptr b) (ftl_read_ptr b)
  (sata_read_ptr b) (read_limit_ptr b) (empty_write_buffer_frame b) (empty_read_buffer_frame b).
Definition set_sata_write v e b := Firm (e_queue b) (e_entry_nb b) (c_e_queue b) (c_entry_nb b) (last_read_entry b)
  (write_buffer b) (read_buffer b) (wb_valid_array b) (ftl_write_ptr b) v (write_limit_ptr b) (ftl_read_ptr b)
  (sata_read_ptr b) (read_limit_ptr b) e (empty_read_buffer_frame b).
Definition set_write_limit v e b := Firm (e_queue b) (e_entry_nb b) (c_e_queue b) (c_entry_nb b) (last_read_entry b)
  (write_buffer b) (read_buffer b) (wb_valid_array b) (ftl_write_ptr b) (sata_write_ptr b) v (ftl_read_ptr b)
  (sata_read_ptr b) (read_limit_ptr b) e (empty_read_buffer_frame b).
Definition set_ftl_read_ptr v b := Firm (e_queue b) (e_entry_nb b) (c_e_queue b) (c_entry_nb b) (last_read_entry b)
  (write_buffer b) (read_buffer b) (wb_valid_array b) (ftl_write_ptr b) (sata_write_ptr b) (write_limit_ptr b) v
  (sata_read_ptr b) (read_limit_ptr b) (empty_write_buffer_frame b) (empty_read_buffer_frame b).
Definition set_sata_read v e b := Firm (e_queue b) (e_entry_nb b) (c_e_queue b) (c_entry_nb b) (last_read_entry b)
  (write_buffer b) (read_buffer b) (wb_valid_array b) (ftl_write_ptr b) (sata_write_ptr b) (write_limit_ptr b)
  (ftl_read_ptr b) v (read_limit_ptr b) (empty_write_buffer_frame b) e.
Definition set_read_limit_ptr v b := Firm (e_queue b) (e_entry_nb b) (c_e_queue b) (c_entry_nb b) (last_read_entry b)
  (write_buffer b) (read_buffer b) (wb_valid_array b) (ftl_write_ptr b) (sata_write_ptr b) (write_limit_ptr b)
  (ftl_read_ptr b) (sata_read_ptr b) v (empty_write_buffer_frame b) (empty_read_buffer_frame b).
Definition set_empty_read v b := Firm (e_queue b) (e_entry_nb b) (c_e_queue b) (c_entry_nb b) (last_read_entry b)
  (write_buffer b) (read_buffer b) (wb_valid_array b) (ftl_write_ptr b) (sata_write_ptr b) (write_limit_ptr b)
  (ftl_read_ptr b) (sata_read_ptr b) (read_limit_ptr b) (empty_write_buffer_frame b) v.

Section Buffers.
Context (WRITE_BUFFER_FRAME_NB READ_BUFFER_FRAME_NB : Z).

(** [INIT_WB_VALID_ARRAY] and the rest of [INIT_IO_BUFFER]. *)
Definition INIT_WB_VALID_ARRAY : list ascii := replicate (Z.to_nat WRITE_BUFFER_FRAME_NB) ch0.

Definition INIT_IO_BUFFER : firm :=
  Firm [] 0 [] 0 None (replicate (Z.to_nat WRITE_BUFFER_FRAME_NB) 0) (replicate (Z.to_nat READ_BUFFER_FRAME_NB) 0)
    INIT_WB_VALID_ARRAY 0 0 0 0 0 0 WRITE_BUFFER_FRAME_NB READ_BUFFER_FRAME_NB.

(** The next frame: [ptr += SECTOR_SIZE; if (ptr == end) ptr = start]. *)
Definition next_frame (frames p : Z) : Z := if p + 1 =? frames then 0 else p + 1.

(** One turn around the write buffer. *)
Definition wb_turn : nat := S (Z.to_nat WRITE_BUFFER_FRAME_NB).

(** ** The valid array of the write buffer *)

Definition GET_WB_VALID_ARRAY_ENTRY (p : Z) : M firm ascii := rd wb_valid_array p.

Definition UPDATE_WB_VALID_ARRAY_ENTRY (p : Z) (new_value : ascii) : M firm unit :=
  if WRITE_BUFFER_FRAME_NB <=? p then mret tt else wr wb_valid_array set_wb_valid_array p new_value.

(** [while (count != n)]: frames with [test] are counted and set to [new_value];
    the answer is the frame after the last one. *)
Fixpoint mark_frames (fuel : nat) (test : ascii -> bool) (new_value : option ascii) (p count n : Z) : M firm Z :=
  match fuel with
  | O => out_of_fuel
  | S fuel' =>
      if count =? n then mret p else
      c ← GET_WB_VALID_ARRAY_ENTRY p;
      (match new_value with
       | Some v => if test c then UPDATE_WB_VALID_ARRAY_ENTRY p v else mret tt
       | None => mret tt
       end) ;;
      mark_frames fuel' test new_value (next_frame WRITE_BUFFER_FRAME_NB p) (if test c then count + 1 else count) n
  end.

Definition is_V (c : ascii) : bool := Ascii.eqb c chV.
Definition not_I (c : ascii) : bool := negb (Ascii.eqb c chI).

Definition UPDATE_WB_VALID_ARRAY (e_q_entry : event_queue_entry) (new_value : ascii) : M firm unit :=
  match buf e_q_entry with
  | None => mret tt
  | Some p_buf => mark_frames wb_turn is_V (Some new_value) p_buf 0 (i32 (ev_length e_q_entry)) ;; mret tt
  end.

(** A null [buf] would be dereferenced. *)
Definition UPDATE_WB_VALID_ARRAY_PARTIAL (e_q_entry : event_queue_entry) (new_value : ascii) (length mode : Z) : M firm unit :=
  p_buf ← need (buf e_q_entry);
  p_buf ← (if mode =? 1
           then mark_frames wb_turn not_I None p_buf 0 (i32 (ev_length e_q_entry - length))
           else mret p_buf);
  mark_frames wb_turn not_I (Some new_value) p_buf 0 length ;;
  mret tt.

(** ** The pointers *)

Definition INCREASE_WB_SATA_POINTER (entry_nb : Z) : M firm unit :=
  for_loop (Z.to_nat entry_nb) 0 (fun _ =>
    p ← gets sata_write_ptr;
    modify (fun b => set_sata_write (sata_write_ptr b) (empty_write_buffer_frame b - 1) b) ;;
    UPDATE_WB_VALID_ARRAY_ENTRY p chV ;;
    modify (fun b => set_sata_write (next_frame WRITE_BUFFER_FRAME_NB (sata_write_ptr b)) (empty_write_buffer_frame b) b)).

Definition INCREASE_RB_SATA_POINTER (entry_nb : Z) : M firm unit :=
  for_loop (Z.to_nat entry_nb) 0 (fun _ =>
    modify (fun b => set_sata_read (next_frame READ_BUFFER_FRAME_NB (sata_read_ptr b)) (empty_read_buffer_frame b + 1) b)).

Definition INCREASE_WB_FTL_POINTER (entry_nb : Z) : M firm unit :=
  p ← gets ftl_write_ptr;
  p ← mark_frames wb_turn is_V (Some chF) p 0 entry_nb;
  modify (set_ftl_write_ptr p).

Definition INCREASE_RB_FTL_POINTER (entry_nb : Z) : M firm unit :=
  for_loop (Z.to_nat entry_nb) 0 (fun _ =>
    modify (fun b => set_ftl_read_ptr (next_frame READ_BUFFER_FRAME_NB (ftl_read_ptr b)) b)).

(** The [do]-loops up to the pointer of the translation layer. *)
Fixpoint wb_limit_loop (fuel : nat) : M firm unit :=
  match fuel with
  | O => out_of_fuel
  | S fuel' =>
      p ← gets write_limit_ptr;
      UPDATE_WB_VALID_ARRAY_ENTRY p ch0 ;;
      modify (fun b => set_write_limit (next_frame WRITE_BUFFER_FRAME_NB p) (empty_write_buffer_frame b + 1) b) ;;
      p ← gets write_limit_ptr;
      q ← gets ftl_write_ptr;
      if p =? q then mret tt else wb_limit_loop fuel'
  end.

Definition INCREASE_WB_LIMIT_POINTER : M firm unit := wb_limit_loop wb_turn.

Fixpoint rb_limit_loop (fuel : nat) : M firm unit :=
  match fuel with
  | O => out_of_fuel
  | S fuel' =>
      modify (fun b => set_read_limit_ptr (next_frame READ_BUFFER_FRAME_NB (read_limit_ptr b)) b) ;;
      p ← gets read_limit_ptr;
      q ← gets ftl_read_ptr;
      if p =? q then mret tt else rb_limit_loop fuel'
  end.

Definition INCREASE_RB_LIMIT_POINTER : M firm unit := rb_limit_loop (S (Z.to_nat READ_BUFFER_FRAME_NB)).

(** ** Checks *)

(** The sums of a sector and a length are computed in [unsigned int]; the last
    sectors are converted to [int32_t]. *)
Definition CHECK_OVERWRITE (e : event_queue_entry) (s length : Z) : bool :=
  (io_type e =? WRITE) && (s <=? sector_nb e) && (u32 (sector_nb e + ev_length e) <=? u32 (s + length)).

Definition CHECK_SEQUENTIALITY (e : option event_queue_entry) (s : Z) : bool :=
  match e with
  | None => false
  | Some e => (io_type e =? WRITE) && (valid e =? VALID) && (u32 (sector_nb e + ev_length e) =? u32 s)
  end.

Definition last_sector (s length : Z) : Z := i32 (s + length - 1).

Definition CHECK_IO_DEPENDENCY_FOR_WRITE (e : option event_queue_entry) (s length : Z) : bool :=
  match e with
  | None => false
  | Some e =>
      (io_type e =? WRITE) && (valid e =? VALID)
      && (sector_nb e <? s) && (s <? last_sector (sector_nb e) (ev_length e))
      && (last_sector (sector_nb e) (ev_length e) <? last_sector s length)
  end.

(** The last of the entries from position [i] on that overlaps the sectors. *)
Fixpoint last_overlap (l : list event_queue_entry) (i : nat) (s length : Z) (ret : option nat) : option nat :=
  match l with
  | [] => ret
  | e :: l' =>
      last_overlap l' (S i) s length
        (if (valid e =? VALID) && (sector_nb e <=? last_sector s length)
            && (s <=? last_sector (sector_nb e) (ev_length e)) then Some i else ret)
  end.

(** The entries after the reads: after [last_read_entry], or all of them. *)
Definition first_write (b : firm) : nat :=
  match last_read_entry b with Some i => S i | None => O end.

Definition CHECK_IO_DEPENDENCY_FOR_READ (s length : Z) : M firm (option nat) :=
  gets (fun b => last_overlap (drop (first_write b) (e_queue b)) (first_write b) s length None).

(** The [int] is converted to [unsigned int] for the comparison. *)
Definition EVENT_QUEUE_IS_FULL (type length : Z) : M firm bool :=
  gets (fun b => if type =? WRITE then u32 (empty_write_buffer_frame b) <? length
                 else if type =? READ then u32 (empty_read_buffer_frame b) <? length
                 else false).

(** The search stops at the last read. *)
Definition COUNT_READ_EVENT : M firm Z :=
  gets (fun b => match last_read_entry b with None => 0 | Some i => Z.of_nat i + 1 end).

(** ** Data of the host *)

Definition WRITE_DATA_TO_BUFFER (length : Z) : M firm unit := INCREASE_WB_SATA_POINTER (i32 length).

(** The answer is whether the pointer of the entry is the expected one; the
    source prints an error when it is not. *)
Definition READ_DATA_FROM_BUFFER_TO_HOST (e : event_queue_entry) : M firm bool :=
  p ← gets sata_read_ptr;
  INCREASE_RB_SATA_POINTER (i32 (ev_length e)) ;;
  mret (bool_decide (buf e = Some p)).

(** The loop over the completed reads; the answer is whether all pointers were
    the expected ones. *)
Fixpoint completed_loop (l : list event_queue_entry) (ok : bool) : M firm bool :=
  match l with
  | [] => mret ok
  | e :: l' =>
      r ← READ_DATA_FROM_BUFFER_TO_HOST e;
      modify (fun b => set_completed l' (c_entry_nb b - 1) b) ;;
      completed_loop l' (ok && r)
  end.

Definition DEQUEUE_COMPLETED_READ : M firm bool :=
  n ← gets c_entry_nb;
  l ← gets c_e_queue;
  if (n =? 0) || (match l with [] => true | _ => false end) then mret true
  else completed_loop l true.

(** The copy loop: frames marked invalid are skipped. *)
Fixpoint copy_frames (fuel : nat) (dst src count n : Z) : M firm unit :=
  match fuel with
  | O => out_of_fuel
  | S fuel' =>
      if count =? n then mret tt else
      c ← GET_WB_VALID_ARRAY_ENTRY src;
      if Ascii.eqb c chI then copy_frames fuel' dst (next_frame WRITE_BUFFER_FRAME_NB src) count n
      else
        x ← rd write_buffer src;
        wr read_buffer set_read_buffer dst x ;;
        modify (fun b => set_ftl_read_ptr
          (if dst + 1 =? READ_BUFFER_FRAME_NB then 0 else ftl_read_ptr b + 1) b) ;;
        copy_frames fuel' (next_frame READ_BUFFER_FRAME_NB dst) (next_frame WRITE_BUFFER_FRAME_NB src) (count + 1) n
  end.

(** A turn of the write buffer per frame is enough when a frame is not marked
    invalid. *)
Definition copy_fuel (n : Z) : nat := S (S (Z.to_nat n) * wb_turn).

Definition COPY_DATA_TO_READ_BUFFER (dst_entry src_entry : event_queue_entry) : M firm unit :=
  dst_buf ← need (buf dst_entry);
  src_buf ← need (buf src_entry);
  let offset := i32 (sector_nb dst_entry - sector_nb src_entry) in
  src_buf ← mark_frames (copy_fuel offset) not_I None src_buf 0 offset;
  copy_frames (copy_fuel (ev_length dst_entry)) dst_buf src_buf 0 (ev_length dst_entry) ;;
  INCREASE_RB_LIMIT_POINTER.

End Buffers.

Section Operations.
Context (cfg : config) {D : Device} (WRITE_BUFFER_FRAME_NB READ_BUFFER_FRAME_NB : Z).

Abbreviation world := (firm * (ftl * dev))%type.

Definition on_firm {A} (m : M firm A) : M world A := on_fst m.
Definition on_ftl {A} (m : M (ftl * dev) A) : M world A := on_snd m.

(** ** The translation layer with the buffers *)

Definition firm_FTL_READ (s length : Z) : M world Z :=
  if exceeds cfg s length then mret FAIL else
  on_firm (INCREASE_RB_FTL_POINTER READ_BUFFER_FRAME_NB (i32 length)) ;;
  ok ← on_ftl (read_check cfg (S (Z.to_nat length)) s length (first_skip cfg s));
  if negb ok then on_firm (INCREASE_RB_LIMIT_POINTER READ_BUFFER_FRAME_NB) ;; mret FAIL else
  io_page_nb ← on_ftl (on_snd (alloc_io_request s length READ));
  ret ← on_ftl (read_pages cfg (S (Z.to_nat length)) s length (first_skip cfg s) 0 io_page_nb FAIL);
  on_ftl (on_snd increase_io_request_seq_nb) ;;
  on_firm (INCREASE_RB_LIMIT_POINTER READ_BUFFER_FRAME_NB) ;;
  on_ftl (on_snd (write_log (ReadDone length))) ;;
  mret ret.

(** The loop of [_FTL_WRITE]: the sectors of a page are taken from the write
    buffer before the page is written. *)
Fixpoint firm_write_pages (fuel : nat) (lba remain left_skip write_page_nb io_page_nb ret : Z)
    (new_ppn : option Z) : M world (option (Z * option Z * Z)) :=
  match fuel with
  | O => out_of_fuel
  | S fuel' =>
      if remain <=? 0 then mret (Some (ret, new_ppn, write_page_nb)) else
      let '(right_skip, write_sects) := page_skips cfg remain left_skip in
      on_firm (INCREASE_WB_FTL_POINTER WRITE_BUFFER_FRAME_NB (i32 write_sects)) ;;
      np ← on_ftl (on_fst (GET_NEW_PAGE cfg VICTIM_OVERALL (EMPTY_TABLE_ENTRY_NB cfg)));
      match np with
      | None => mret None
      | Some new_ppn =>
          let lpn := Z.quot lba (i32 (SECTORS_PER_PAGE cfg)) in
          old_ppn ← on_ftl (on_fst (GET_MAPPING_INFO lpn));
          ret ← on_ftl (if (negb (left_skip =? 0) || negb (right_skip =? 0)) && negb (old_ppn =? -1)
                 then on_snd (ssd_page_partial_write
                        (CALC_FLASH cfg old_ppn) (CALC_BLOCK cfg old_ppn) (CALC_PAGE cfg old_ppn)
                        (CALC_FLASH cfg new_ppn) (CALC_BLOCK cfg new_ppn) (CALC_PAGE cfg new_ppn)
                        write_page_nb WRITE io_page_nb)
                 else on_snd (ssd_page_write
                        (CALC_FLASH cfg new_ppn) (CALC_BLOCK cfg new_ppn) (CALC_PAGE cfg new_ppn)
                        write_page_nb WRITE io_page_nb));
          on_ftl (on_fst (UPDATE_OLD_PAGE_MAPPING cfg lpn)) ;;
          on_ftl (on_fst (UPDATE_NEW_PAGE_MAPPING cfg lpn new_ppn)) ;;
          firm_write_pages fuel' (i32 (lba + write_sects)) (u32 (remain - write_sects)) 0
            (i32 (write_page_nb + 1)) io_page_nb ret (Some new_ppn)
      end
  end.

Definition firm_FTL_WRITE (s length : Z) : M world Z :=
  if exceeds cfg s length then mret FAIL else
  io_page_nb ← on_ftl (on_snd (alloc_io_request s length WRITE));
  r ← firm_write_pages (S (Z.to_nat length)) s length (first_skip cfg s) 0 io_page_nb FAIL None;
  match r with
  | None => mret FAIL
  | Some (ret, new_ppn, write_page_nb) =>
      on_ftl (on_snd increase_io_request_seq_nb) ;;
      new_ppn ← need new_ppn;
      on_ftl (GC_CHECK cfg (CALC_FLASH cfg new_ppn) (CALC_BLOCK cfg new_ppn)) ;;
      on_firm (INCREASE_WB_LIMIT_POINTER WRITE_BUFFER_FRAME_NB) ;;
      on_ftl (on_snd (write_log (WriteDone length write_page_nb))) ;;
      mret ret
  end.

(** ** Taking events out of the queue *)

(** [last_read_entry] after the head [e] has left: a write that is freed while
    the pointer points to it would leave it dangling. *)
Definition pop_last_read (e : event_queue_entry) (r : option nat) : M firm (option nat) :=
  match r with
  | None => mret None
  | Some O => if io_type e =? WRITE then undef else mret None
  | Some (S i) => mret (Some i)
  end.

(** A completed read joins the other queue. *)
Definition complete_read (e : event_queue_entry) : M firm unit :=
  n ← gets c_entry_nb;
  l ← gets c_e_queue;
  if n =? 0 then modify (set_completed [e] (n + 1))
  else match l with [] => undef | _ => modify (set_completed (l ++ [e]) (n + 1)) end.

Definition DEQUEUE_IO : M world unit :=
  n ← on_firm (gets e_entry_nb);
  l ← on_firm (gets e_queue);
  if n =? 0 then mret tt else
  match l with
  | [] => mret tt
  | e :: l' =>
      r ← on_firm (gets last_read_entry);
      r' ← on_firm (pop_last_read e r);
      on_firm (modify (set_queue (if n - 1 =? 0 then [] else l') (n - 1) r')) ;;
      e' ← (if valid e =? VALID then
              if io_type e =? READ then
                match buf e with
                | Some _ => mret e
                | None =>
                    p ← on_firm (gets ftl_read_ptr);
                    firm_FTL_READ (sector_nb e) (ev_length e) ;;
                    mret (Event (io_type e) (valid e) (sector_nb e) (ev_length e) (Some p))
                end
              else if io_type e =? WRITE then firm_FTL_WRITE (sector_nb e) (ev_length e) ;; mret e
              else mret e
            else mret e);
      if io_type e =? READ then on_firm (complete_read e') else mret tt
  end.

(** The position of [e_queue->tail]. *)
Definition tail_pos (l : list event_queue_entry) : option nat :=
  match l with [] => None | _ => Some (length l - 1)%nat end.

Fixpoint dequeue_times (n : nat) : M world unit :=
  match n with
  | O => mret tt
  | S n' => DEQUEUE_IO ;; dequeue_times n'
  end.

(** The walk from the head to an entry that is not in the queue would run into
    a null pointer. *)
Definition FLUSH_EVENT_QUEUE_UNTIL (e_q_entry : option nat) : M world unit :=
  l ← on_firm (gets e_queue);
  n ← on_firm (gets e_entry_nb);
  match e_q_entry, l with
  | Some i, _ :: _ =>
      if bool_decide (tail_pos l = Some i) then dequeue_times (Z.to_nat n)
      else if (i <? length l)%nat then dequeue_times (S i) else undef
  | _, _ => mret tt
  end.

Definition SECURE_WRITE_BUFFER : M world unit :=
  l ← on_firm (gets e_queue);
  FLUSH_EVENT_QUEUE_UNTIL (tail_pos l).

(** The answer is that of the checks of the completed reads. *)
Definition SECURE_READ_BUFFER : M world bool :=
  n ← on_firm (gets c_entry_nb);
  ok ← (if negb (n =? 0) then on_firm (DEQUEUE_COMPLETED_READ READ_BUFFER_FRAME_NB) else mret true);
  r ← on_firm (gets last_read_entry);
  match r with
  | None => mret ok
  | Some i =>
      FLUSH_EVENT_QUEUE_UNTIL (Some i) ;;
      ok' ← on_firm (DEQUEUE_COMPLETED_READ READ_BUFFER_FRAME_NB);
      mret (ok && ok')
  end.

(** ** Putting events into the queue *)

Definition ALLOC_NEW_EVENT (type s length : Z) (p : option Z) : event_queue_entry := Event type VALID s length p.

(** The new read goes behind the last read, or to the head. *)
Definition insert_read (e : event_queue_entry) : M firm unit :=
  r ← gets last_read_entry;
  l ← gets e_queue;
  n ← gets e_entry_nb;
  match r with
  | None => modify (set_queue (if n =? 0 then [e] else e :: l) (n + 1) (Some O))
  | Some i =>
      if (i <? length l)%nat
      then modify (set_queue (take (S i) l ++ e :: drop (S i) l) (n + 1) (Some (S i)))
      else undef
  end.

Definition ENQUEUE_READ (s length : Z) : M world unit :=
  let new_e := ALLOC_NEW_EVENT READ s length None in
  n ← on_firm (gets e_entry_nb);
  (if n =? 0 then on_firm (modify (set_queue [new_e] (n + 1) (Some O)))
   else
     ret ← on_firm (CHECK_IO_DEPENDENCY_FOR_READ s length);
     new_e ← (match ret with
              | None => mret new_e
              | Some i =>
                  l ← on_firm (gets e_queue);
                  temp ← on_firm (need (l !! i));
                  FLUSH_EVENT_QUEUE_UNTIL (Some i) ;;
                  if (sector_nb temp <=? s) && (u32 (s + length) <=? u32 (sector_nb temp + ev_length temp)) then
                    p ← on_firm (gets ftl_read_ptr);
                    let new_e := Event READ VALID s length (Some p) in
                    on_firm (COPY_DATA_TO_READ_BUFFER WRITE_BUFFER_FRAME_NB READ_BUFFER_FRAME_NB new_e temp) ;;
                    mret new_e
                  else mret new_e
              end);
     on_firm (insert_read new_e)) ;;
  on_firm (modify (fun b => set_empty_read (empty_read_buffer_frame b - length) b)).

(** The pending writes that the new write covers become invalid. *)
Fixpoint invalidate (s length : Z) (l : list event_queue_entry) : M firm (list event_queue_entry) :=
  match l with
  | [] => mret []
  | e :: l' =>
      e ← (if (valid e =? VALID) && CHECK_OVERWRITE e s length then
             let e' := Event (io_type e) INVALID (sector_nb e) (ev_length e) (buf e) in
             UPDATE_WB_VALID_ARRAY WRITE_BUFFER_FRAME_NB e' chI ;; mret e'
           else mret e);
      l' ← invalidate s length l';
      mret (e :: l')
  end.

(** The last event with another length. *)
Definition set_tail_length (n : Z) (l : list event_queue_entry) : list event_queue_entry :=
  match last l with
  | None => l
  | Some e => removelast l ++ [Event (io_type e) (valid e) (sector_nb e) n (buf e)]
  end.

Definition ENQUEUE_WRITE (s length : Z) : M firm unit :=
  p_buf ← gets sata_write_ptr;
  WRITE_DATA_TO_BUFFER WRITE_BUFFER_FRAME_NB length ;;
  i ← gets first_write;
  l ← gets e_queue;
  ws ← invalidate s length (drop i l);
  n ← gets e_entry_nb;
  r ← gets last_read_entry;
  let l := take i l ++ ws in
  modify (set_queue l n r) ;;
  match last l with
  | Some t =>
      if CHECK_SEQUENTIALITY (Some t) s then
        modify (set_queue (set_tail_length (u32 (ev_length t + length)) l) n r)
      else if CHECK_IO_DEPENDENCY_FOR_WRITE (Some t) s length then
        let invalid_len := i32 (sector_nb t + ev_length t - s) in
        UPDATE_WB_VALID_ARRAY_PARTIAL WRITE_BUFFER_FRAME_NB t chI invalid_len 1 ;;
        modify (set_queue (set_tail_length (u32 (ev_length t + (length - invalid_len))) l) n r)
      else modify (set_queue (l ++ [ALLOC_NEW_EVENT WRITE s length (Some p_buf)]) (n + 1) r)
  | None => modify (set_queue (l ++ [ALLOC_NEW_EVENT WRITE s length (Some p_buf)]) (n + 1) r)
  end.

Definition ENQUEUE_IO (type s length : Z) : M world unit :=
  if type =? READ then ENQUEUE_READ s length
  else if type =? WRITE then on_firm (ENQUEUE_WRITE s length)
  else mret tt.

(** ** The entry points of [FIRMWARE/ssd.c] *)

Definition firm_SSD_WRITE (length s : Z) : M world unit :=
  on_firm (DEQUEUE_COMPLETED_READ READ_BUFFER_FRAME_NB) ;;
  full ← on_firm (EVENT_QUEUE_IS_FULL WRITE length);
  (if (full : bool) then SECURE_WRITE_BUFFER else mret tt) ;;
  ENQUEUE_IO WRITE s length.

Definition firm_SSD_READ (length s : Z) : M world unit :=
  on_firm (DEQUEUE_COMPLETED_READ READ_BUFFER_FRAME_NB) ;;
  full ← on_firm (EVENT_QUEUE_IS_FULL READ length);
  (if (full : bool) then SECURE_READ_BUFFER ;; mret tt else mret tt) ;;
  ENQUEUE_IO READ s length.

(** [TERM_IO_BUFFER] up to the calls of [free]. *)
Definition TERM_IO_BUFFER : M world unit := SECURE_WRITE_BUFFER.

End Operations.
