(* ===== verification/FirmRing.v ===== *)
(** * Frames in a ring

    The valid array of the write buffer, read from a frame on around the end of
    the buffer, and the loops that walk over it. *)

From stdpp Require Import prelude.
From Stdlib Require Import Ascii.
From S2P Require Import Prelude Config Blocks Device Firm.

Local Open Scope Z_scope.

(** [n] frames on from frame [p] of a buffer of [N] frames. *)
Definition adv (N p n : Z) : Z := (p + n) mod N.

(** The array, read from [p] on, is [l]. *)
Definition ring {A} (N : Z) (arr : list A) (p : Z) (l : list A) : Prop :=
  zlen arr = N /\ 0 <= p < N /\ drop (Z.to_nat p) arr ++ take (Z.to_nat p) arr = l.

Section Ring.
Context {A : Type} (N : Z).
Implicit Types (arr l k : list A) (p : Z).

Lemma next_adv p : 0 <= p < N -> next_frame N p = adv N p 1.
Proof.
  intros Hp. unfold next_frame, adv. destruct (Z.eqb_spec (p + 1) N) as [->|].
  - by rewrite Z.mod_same by lia.
  - by rewrite Z.mod_small by lia.
Qed.

Lemma adv_adv p a b : adv N (adv N p a) b = adv N p (a + b).
Proof. unfold adv. rewrite Zplus_mod_idemp_l. f_equal. lia. Qed.

Lemma adv_range p a : 0 < N -> 0 <= adv N p a < N.
Proof. intros. unfold adv. by apply Z.mod_pos_bound. Qed.

Lemma adv_0 p : 0 <= p < N -> adv N p 0 = p.
Proof. intros. unfold adv. rewrite Z.add_0_r. by apply Z.mod_small. Qed.

Lemma adv_N p : 0 <= p < N -> adv N p N = p.
Proof.
  intros. unfold adv. replace (p + N) with (p + 1 * N) by lia. rewrite Z.mod_add by lia. by apply Z.mod_small.
Qed.

Lemma adv_inj p a b : 0 <= a < N -> 0 <= b < N -> adv N p a = adv N p b -> a = b.
Proof.
  intros Ha Hb E. unfold adv in E.
  assert ((p + a - (p + b)) mod N = 0) as H.
  { rewrite Zminus_mod, E, Z.sub_diag. by apply Zmod_0_l. }
  assert (N <> 0) as HN by lia. apply (Z.mod_divide _ _ HN) in H as [q Hq].
  destruct (Z.lt_trichotomy q 0) as [|[->|]]; [|lia|]; exfalso; nia.
Qed.

Lemma ring_length arr p l : ring N arr p l -> zlen l = N.
Proof.
  intros (Hl & Hp & <-). rewrite length_app, length_drop, length_take. lia.
Qed.

Lemma ring_ptr arr p l : ring N arr p l -> 0 <= p < N.
Proof. by intros (_ & ? & _). Qed.

Lemma ring_unique arr p l k : ring N arr p l -> ring N arr p k -> l = k.
Proof. intros (_ & _ & <-) (_ & _ & <-). done. Qed.

Lemma ring_get arr p x l : ring N arr p (x :: l) -> aget arr p = Some x.
Proof.
  intros (Hl & Hp & E). replace p with (Z.of_nat (Z.to_nat p)) by lia. rewrite aget_nat.
  replace (Z.to_nat p) with (Z.to_nat p + 0)%nat by lia. rewrite <- lookup_drop.
  destruct (drop (Z.to_nat p) arr) as [|y k] eqn:Ed; [|by simplify_eq/=].
  apply (f_equal length) in Ed. rewrite length_drop in Ed. simpl in Ed. lia.
Qed.

Lemma ring_set arr p x y l : ring N arr p (x :: l) ->
  exists arr', aset arr p y = Some arr' /\ ring N arr' p (y :: l).
Proof.
  intros (Hl & Hp & E). destruct (aset_range arr p y) as [arr' Ha]; [lia|].
  exists arr'. split; [done|]. apply aset_inv in Ha as [_ ->].
  split; [by rewrite length_insert|]. split; [done|].
  assert (length (take (Z.to_nat p) arr) = Z.to_nat p) as Ht by (rewrite length_take; lia).
  rewrite insert_take_drop, drop_app_length', take_app_length' by lia.
  simpl. f_equal. apply (f_equal tail) in E. simpl in E. rewrite <- E.
  destruct (lookup_lt_is_Some_2 arr (Z.to_nat p)) as [z Hz]; [lia|]. by rewrite (drop_S _ _ _ Hz).
Qed.

Lemma ring_next arr p x l : ring N arr p (x :: l) -> ring N arr (adv N p 1) (l ++ [x]).
Proof.
  intros H. pose proof (ring_get _ _ _ _ H) as Hg. destruct H as (Hl & Hp & E).
  split; [done|]. split; [apply adv_range; lia|].
  replace p with (Z.of_nat (Z.to_nat p)) in Hg by lia. rewrite aget_nat in Hg.
  assert (drop (Z.to_nat p) arr = x :: drop (S (Z.to_nat p)) arr) as Ed by by apply drop_S.
  rewrite Ed in E. simpl in E. injection E as E. unfold adv.
  destruct (decide (p + 1 = N)) as [EN|].
  - rewrite EN, Z.mod_same by lia. change (Z.to_nat 0) with 0%nat. rewrite drop_0, app_nil_r.
    rewrite drop_ge in E by lia. simpl in E. rewrite <- E.
    rewrite <- (take_drop (Z.to_nat p) arr) at 1. rewrite Ed, drop_ge by lia. done.
  - rewrite Z.mod_small by lia. replace (Z.to_nat (p + 1)) with (S (Z.to_nat p)) by lia.
    rewrite <- E, <- (assoc_L app). f_equal. by apply take_S_r.
Qed.

Lemma ring_adv arr p l k : ring N arr p (l ++ k) -> ring N arr (adv N p (zlen l)) (k ++ l).
Proof.
  revert p k. induction l as [|x l IH]; intros p k H; simpl length.
  - rewrite adv_0 by by eapply ring_ptr. by rewrite app_nil_r.
  - simpl in H. apply ring_next in H as H'. rewrite <- (assoc_L app) in H'. apply IH in H'.
    rewrite adv_adv in H'. rewrite <- (assoc_L app) in H'.
    by replace (Z.of_nat (S (length l))) with (1 + zlen l) by lia.
Qed.

Lemma ring_back arr p l k : 0 <= p < N -> ring N arr (adv N p (zlen l)) (k ++ l) -> ring N arr p (l ++ k).
Proof.
  intros Hp H. apply ring_length in H as Hl. rewrite zlen_app in Hl. apply ring_adv in H.
  rewrite adv_adv in H. replace (zlen l + zlen k) with N in H by lia. by rewrite adv_N in H.
Qed.

End Ring.

(** ** The loop over frames *)

Section Loop.
Context (N : Z).

Definition count_if (test : ascii -> bool) (l : list ascii) : Z :=
  sum_with (fun c => if test c then 1 else 0) l.

(** The last frame, if any, is counted: the loop does not stop before it. *)
Definition ends (test : ascii -> bool) (l : list ascii) : Prop :=
  match last l with None => True | Some c => test c = true end.

Definition stamp (test : ascii -> bool) (v : option ascii) (c : ascii) : ascii :=
  if test c then default c v else c.

Lemma count_if_nonneg test l : 0 <= count_if test l.
Proof. unfold count_if. induction l; simpl; [lia|]. case_match; lia. Qed.

Lemma count_if_app test l k : count_if test (l ++ k) = count_if test l + count_if test k.
Proof. apply sum_with_app. Qed.

Lemma count_if_le test l : count_if test l <= zlen l.
Proof. unfold count_if. induction l; simpl; [lia|]. case_match; lia. Qed.

Lemma ends_pos test l : l <> [] -> ends test l -> 0 < count_if test l.
Proof.
  intros Hl He. destruct (exists_last Hl) as (k & c & ->). unfold ends in He.
  rewrite last_snoc in He. rewrite count_if_app. unfold count_if at 2. simpl. rewrite He.
  pose proof (count_if_nonneg test k). lia.
Qed.

Lemma ends_tail test c l : ends test (c :: l) -> ends test l.
Proof. unfold ends. destruct l; [done|]. by rewrite last_cons_cons. Qed.

Lemma mark_frames_spec test v pre : forall post p (b : firm) fuel count n,
  ring N (wb_valid_array b) p (pre ++ post) -> n = count + count_if test pre -> ends test pre ->
  (length pre < fuel)%nat ->
  wp (mark_frames N fuel test v p count n) (fun p' b' => p' = adv N p (zlen pre) /\
    exists arr', b' = set_wb_valid_array arr' b /\ ring N arr' p ((stamp test v <$> pre) ++ post)) b.
Proof.
  induction pre as [|c pre IH]; intros post p b [|fuel] count n Hr Hn He Hf; simpl in Hf; try lia; simpl mark_frames.
  - unfold count_if in Hn. simpl in Hn. rewrite (proj2 (Z.eqb_eq count n)) by lia. wp_go.
    simpl length. rewrite adv_0 by by eapply ring_ptr. split; [done|].
    exists (wb_valid_array b). split; [by destruct b|done].
  - pose proof (ends_pos test (c :: pre) ltac:(done) He) as Hpos.
    rewrite (proj2 (Z.eqb_neq count n)) by lia. simpl in Hr.
    unfold GET_WB_VALID_ARRAY_ENTRY, rd. apply wp_bind, wp_bind, wp_gets.
    eapply wp_need; [by eapply ring_get|]. apply wp_bind.
    set (c' := stamp test v c).
    apply wp_mono with (P := fun _ b' => exists arr', b' = set_wb_valid_array arr' b /\ ring N arr' p (c' :: pre ++ post)).
    { assert (wp (mret tt) (fun _ b' => exists arr', b' = set_wb_valid_array arr' b /\ ring N arr' p (c :: pre ++ post)) b) as Hsame.
      { wp_go. exists (wb_valid_array b). split; [by destruct b|done]. }
      unfold c', stamp. destruct v as [v|]; [|by destruct (test c)].
      destruct (test c); [|done]. destruct (ring_set N _ _ _ v _ Hr) as (arr' & Ha & Hr').
      unfold UPDATE_WB_VALID_ARRAY_ENTRY. destruct (Z.leb_spec N p); [apply ring_ptr in Hr; lia|].
      unfold wr. wp_go. by exists arr'. }
    intros _ b1 (arr1 & -> & Hr1). apply ring_next in Hr1 as Hr1'. rewrite <- (assoc_L app) in Hr1'.
    rewrite next_adv by by eapply ring_ptr.
    eapply wp_mono; [apply (IH (post ++ [c'])); [exact Hr1'| |by eapply ends_tail|lia]|].
    { rewrite Hn. unfold count_if. simpl. destruct (test c); lia. }
    intros p' b' [-> (arr2 & -> & Hr2)]. split.
    { rewrite adv_adv. f_equal. simpl length. lia. }
    exists arr2. split; [done|]. rewrite (assoc_L app) in Hr2.
    exact (ring_back N arr2 p [c'] _ (ring_ptr _ _ _ _ Hr1) Hr2).
Qed.

(** Splitting frames after a number of counted ones. *)
Lemma split_frames test l n : 0 <= n <= count_if test l ->
  exists pre post, l = pre ++ post /\ count_if test pre = n /\ ends test pre.
Proof.
  revert n. induction l as [|c l IH]; intros n Hn; simpl in *.
  - exists [], []. split; [done|]. unfold count_if in *. simpl in *. split; [lia|done].
  - destruct (decide (n = 0)) as [->|Hn0]; [by exists [], (c :: l)|].
    unfold count_if in Hn. simpl in Hn. fold (count_if test l) in Hn.
    destruct (IH (n - if test c then 1 else 0)) as (pre & post & -> & Hc & He).
    { destruct (test c); lia. }
    exists (c :: pre), post. split; [done|]. split.
    + unfold count_if in *. simpl. destruct (test c); lia.
    + destruct pre as [|d pre].
      * unfold count_if in Hc. simpl in Hc. unfold ends. simpl. destruct (test c); [done|lia].
      * unfold ends in *. by rewrite last_cons_cons.
Qed.

End Loop.

#[global] Arguments mark_frames : simpl never.
