(* ===== verification/FirmWrite.v ===== *)
(** * The write buffer

    The frames between the pointers belong to the pending writes, in order:
    behind some invalid frames, a segment of frames for each write of the queue.
    [ENQUEUE_WRITE] keeps this, and the data it leaves for each sector is that
    of the last write. *)

From stdpp Require Import prelude gmap.
From Stdlib Require Import Ascii.
From S2P Require Import Prelude Config Blocks Device Firm FirmRing.

Local Open Scope Z_scope.

(** ** The data of the pending writes

    A frame stands for its data: the writes give each sector a frame. *)

Definition effect (kvs : list (Z * Z)) : gmap Z Z := list_to_map (reverse kvs).

Lemma effect_app a b : effect (a ++ b) = effect b ∪ effect a.
Proof. unfold effect. by rewrite reverse_app, list_to_map_app. Qed.

Lemma effect_Some kvs k : k ∈ kvs.*1 <-> is_Some (effect kvs !! k).
Proof.
  unfold effect. split.
  - intros Hk. destruct (_ !! k) eqn:E; [done|]. apply not_elem_of_list_to_map in E.
    by rewrite fmap_reverse, elem_of_reverse in E.
  - intros [v Hv]. apply elem_of_list_to_map_2 in Hv. rewrite elem_of_reverse in Hv.
    apply list_elem_of_fmap. by exists (k, v).
Qed.

(** Writes to sectors that a later write covers do not matter. *)
Lemma effect_hide a d b new : (forall k, k ∈ d.*1 -> k ∈ new.*1) ->
  effect new ∪ effect (a ++ d ++ b) = effect new ∪ effect (a ++ b).
Proof.
  intros Hd. rewrite !effect_app. apply map_eq. intros k. rewrite !lookup_union.
  destruct (effect new !! k) as [v|] eqn:En; [by destruct (effect b !! k), (effect d !! k), (effect a !! k)|].
  destruct (effect d !! k) as [w|] eqn:Ed; [|by destruct (effect b !! k), (effect a !! k)].
  exfalso. assert (is_Some (effect new !! k)) as [? ?]; [|congruence].
  apply effect_Some, Hd, effect_Some. by exists w.
Qed.

Section Frames.
Context (N : Z) (HN : 0 < N).

(** The valid frames of a segment that starts at [p]. *)
Fixpoint vframes (p : Z) (g : list ascii) : list Z :=
  match g with
  | [] => []
  | c :: g' => (if is_V c then [p] else []) ++ vframes (adv N p 1) g'
  end.

(** [n] frames from [p] on. *)
Definition frames_at (p n : Z) : list Z := (fun i => adv N p i) <$> seqZ 0 n.

Lemma vframes_app p g h : 0 <= p < N -> vframes p (g ++ h) = vframes p g ++ vframes (adv N p (zlen g)) h.
Proof using HN.
  revert p. induction g as [|c g IH]; intros p Hp; simpl.
  - by rewrite adv_0.
  - rewrite IH by by apply adv_range. rewrite adv_adv, (assoc_L app).
    by replace (Z.of_nat (S (length g))) with (1 + zlen g) by lia.
Qed.

Lemma vframes_length p g : zlen (vframes p g) = count_if is_V g.
Proof.
  revert p. induction g as [|c g IH]; intros p; simpl; [done|]. rewrite zlen_app, IH.
  unfold count_if. simpl. by destruct (is_V c).
Qed.

Lemma vframes_none p g : count_if is_V g = 0 -> vframes p g = [].
Proof. intros H. pose proof (vframes_length p g). destruct (vframes p g); [done|simpl in *; lia]. Qed.

Lemma vframes_all p n : 0 <= p < N -> vframes p (replicate n chV) = frames_at p (Z.of_nat n).
Proof using HN.
  revert p. induction n as [|n IH]; intros p Hp; [done|]. simpl replicate. cbn [vframes]. simpl is_V. cbv iota.
  unfold frames_at. replace (Z.of_nat (S n)) with (1 + Z.of_nat n) by lia. rewrite seqZ_app by lia.
  rewrite fmap_app. simpl. rewrite adv_0 by done. f_equal. rewrite IH by by apply adv_range.
  unfold frames_at. change (seqZ 1 (Z.of_nat n)) with (seqZ (1 + 0) (Z.of_nat n)). rewrite <- (fmap_add_seqZ 1 0), <- list_fmap_compose.
  apply list_fmap_ext. intros i x _. simpl. by rewrite adv_adv.
Qed.

Lemma zip_seqZ_app s m n (x y : list Z) : 0 <= m -> 0 <= n -> zlen x = m ->
  zip (seqZ s (m + n)) (x ++ y) = zip (seqZ s m) x ++ zip (seqZ (s + m) n) y.
Proof.
  intros Hm Hn Hx. rewrite seqZ_app by lia. apply zip_with_app. rewrite length_seqZ. lia.
Qed.

Lemma zip_seqZ_keys s n (x : list Z) : zlen x = n -> (zip (seqZ s n) x).*1 = seqZ s n.
Proof. intros Hx. apply fst_zip. rewrite length_seqZ. lia. Qed.

(** ** Segments *)

(** The frames of a write: as many valid ones as sectors, the last one valid. *)
Record seg_ok (e : event_queue_entry) (g : list ascii) : Prop := {
  sg_type : io_type e = WRITE;
  sg_length : 0 < ev_length e;
  sg_chars : Forall (fun c => c = chV \/ c = chI) g;
  sg_valid : valid e = VALID -> count_if is_V g = ev_length e /\ ends is_V g;
  sg_invalid : valid e <> VALID -> count_if is_V g = 0
}.

(** The writes [es] have the segments [segs], one after the other from [p] on. *)
Fixpoint placed (p : Z) (es : list event_queue_entry) (segs : list (list ascii)) : Prop :=
  match es, segs with
  | [], [] => True
  | e :: es', g :: segs' => buf e = Some p /\ seg_ok e g /\ placed (adv N p (zlen g)) es' segs'
  | _, _ => False
  end.

(** The sectors of the pending writes with their frames. *)
Fixpoint pending_data (p : Z) (es : list event_queue_entry) (segs : list (list ascii)) : list (Z * Z) :=
  match es, segs with
  | e :: es', g :: segs' =>
      (if valid e =? VALID then zip (seqZ (sector_nb e) (ev_length e)) (vframes p g) else [])
      ++ pending_data (adv N p (zlen g)) es' segs'
  | _, _ => []
  end.

Lemma placed_app p es1 s1 es2 s2 : 0 <= p < N -> placed p es1 s1 ->
  placed p (es1 ++ es2) (s1 ++ s2) <-> placed (adv N p (zlen (mjoin s1))) es2 s2.
Proof using HN.
  revert p s1. induction es1 as [|e es1 IH]; intros p [|g s1] Hp H; try done; simpl.
  - by rewrite adv_0.
  - destruct H as (Hb & Hg & H). rewrite (IH (adv N p (zlen g))) by (done || by apply adv_range).
    rewrite zlen_app, adv_adv. tauto.
Qed.

Lemma placed_split p es1 es2 segs : 0 <= p < N -> placed p (es1 ++ es2) segs ->
  exists s1 s2, segs = s1 ++ s2 /\ placed p es1 s1 /\ placed (adv N p (zlen (mjoin s1))) es2 s2.
Proof using HN.
  revert p segs. induction es1 as [|e es1 IH]; intros p segs Hp H; simpl in H.
  - exists [], segs. simpl. by rewrite adv_0.
  - destruct segs as [|g segs]; [done|]. destruct H as (Hb & Hg & H).
    destruct (IH _ _ (adv_range N p (zlen g) HN) H) as (s1 & s2 & -> & H1 & H2).
    exists (g :: s1), s2. split; [done|]. split; [done|]. simpl. by rewrite zlen_app, <- adv_adv.
Qed.

Lemma pending_app p es1 s1 es2 s2 : 0 <= p < N -> placed p es1 s1 ->
  pending_data p (es1 ++ es2) (s1 ++ s2) =
  pending_data p es1 s1 ++ pending_data (adv N p (zlen (mjoin s1))) es2 s2.
Proof using HN.
  revert p s1. induction es1 as [|e es1 IH]; intros p [|g s1] Hp H; try done; simpl.
  - by rewrite adv_0.
  - destruct H as (Hb & Hg & H). rewrite IH by (done || by apply adv_range).
    by rewrite <- (assoc_L app), zlen_app, adv_adv.
Qed.

(** ** The write buffer of a state *)

Record wb_ok (es : list event_queue_entry) (junk : list ascii) (segs : list (list ascii)) (b : firm) : Prop := {
  wb_ring : ring N (wb_valid_array b) (ftl_write_ptr b)
    (junk ++ mjoin segs ++ replicate (Z.to_nat (empty_write_buffer_frame b)) ch0);
  wb_empty : 0 <= empty_write_buffer_frame b;
  wb_junk : Forall (eq chI) junk;
  wb_placed : placed (adv N (ftl_write_ptr b) (zlen junk)) es segs;
  wb_sata : sata_write_ptr b = adv N (ftl_write_ptr b) (zlen (junk ++ mjoin segs));
  wb_limit : write_limit_ptr b = ftl_write_ptr b;
  wb_last : match last es with None => junk = [] | Some e => valid e = VALID end
}.

(** ** Frames filled by the host *)

Lemma ring_update (arr : list ascii) p l x y k : ring N arr p (l ++ x :: k) ->
  exists arr', aset arr (adv N p (zlen l)) y = Some arr' /\ ring N arr' p (l ++ y :: k).
Proof.
  intros H. apply ring_ptr in H as Hp. apply ring_adv in H. simpl in H.
  destruct (ring_set N _ _ _ y _ H) as (arr' & Ha & Hr). exists arr'. split; [done|].
  apply ring_back; [done|]. exact Hr.
Qed.

Lemma replicate_snoc_middle (l : list ascii) (j e : nat) c d : (j < e)%nat ->
  l ++ replicate j c ++ replicate (e - j) d = (l ++ replicate j c) ++ d :: replicate (e - S j) d.
Proof. intros. rewrite <- (assoc_L app). replace (e - j)%nat with (S (e - S j)) by lia. done. Qed.

Lemma sata_pointer_spec n l (b : firm) : 0 <= n <= empty_write_buffer_frame b ->
  ring N (wb_valid_array b) (ftl_write_ptr b) (l ++ replicate (Z.to_nat (empty_write_buffer_frame b)) ch0) ->
  sata_write_ptr b = adv N (ftl_write_ptr b) (zlen l) ->
  wp (INCREASE_WB_SATA_POINTER N n) (fun _ b' => exists arr',
    b' = set_sata_write (adv N (sata_write_ptr b) n) (empty_write_buffer_frame b - n) (set_wb_valid_array arr' b) /\
    ring N arr' (ftl_write_ptr b) (l ++ replicate (Z.to_nat n) chV ++
      replicate (Z.to_nat (empty_write_buffer_frame b - n)) ch0)) b.
Proof using HN.
  intros Hn Hr Hs. set (e := empty_write_buffer_frame b) in *.
  apply wp_for with (I := fun j b' => exists arr',
    b' = set_sata_write (adv N (sata_write_ptr b) j) (e - j) (set_wb_valid_array arr' b) /\
    ring N arr' (ftl_write_ptr b) (l ++ replicate (Z.to_nat j) chV ++ replicate (Z.to_nat e - Z.to_nat j) ch0)).
  - exists (wb_valid_array b). rewrite adv_0 by (rewrite Hs; by apply adv_range). split; [|by rewrite Nat.sub_0_r].
    rewrite Z.sub_0_r. by destruct b.
  - intros j b' Hj (arr & -> & Hra). wp_go. simpl. rewrite replicate_snoc_middle in Hra by lia.
    apply (ring_update _ _ _ _ chV) in Hra as (arr' & Ha & Hra). rewrite zlen_app, length_replicate in Ha.
    replace (adv N (ftl_write_ptr b) _) with (adv N (sata_write_ptr b) j) in Ha
      by (rewrite Hs, adv_adv; f_equal; lia).
    pose proof (adv_range N (sata_write_ptr b) j HN) as Hp.
    unfold UPDATE_WB_VALID_ARRAY_ENTRY. destruct (Z.leb_spec N (adv N (sata_write_ptr b) j)); [lia|].
    unfold wr. wp_go. simpl. exists arr'. rewrite next_adv, adv_adv by done. split.
    + unfold set_sata_write, set_wb_valid_array. simpl. f_equal. lia.
    + replace (Z.to_nat (j + 1)) with (S (Z.to_nat j)) by lia. rewrite replicate_S_end.
      by rewrite <- !(assoc_L app) in Hra |- *.
  - intros b' (arr & -> & Hra). exists arr. rewrite Z.add_0_l, Z2Nat.id in * by lia. split; [done|].
    by replace (Z.to_nat (e - n)) with (Z.to_nat e - Z.to_nat n)%nat by lia.
Qed.

(** ** Marking the frames of a write *)

Lemma mark_at test v A pre B p (b : firm) n : ring N (wb_valid_array b) p (A ++ pre ++ B) ->
  n = count_if test pre -> ends test pre ->
  wp (mark_frames N (wb_turn N) test v (adv N p (zlen A)) 0 n) (fun p' b' => p' = adv N p (zlen (A ++ pre)) /\
    exists arr', b' = set_wb_valid_array arr' b /\ ring N arr' p (A ++ (stamp test v <$> pre) ++ B)) b.
Proof using HN.
  intros Hr Hn He. apply ring_ptr in Hr as Hp. apply ring_length in Hr as Hl. rewrite !zlen_app in Hl.
  apply ring_adv in Hr. rewrite <- (assoc_L app) in Hr.
  eapply wp_mono; [eapply mark_frames_spec; [exact Hr|lia|done|unfold wb_turn; lia]|].
  intros p' b' [-> (arr' & -> & Hr')]. rewrite adv_adv, zlen_app. split; [done|].
  exists arr'. split; [done|]. apply ring_back; [done|]. by rewrite <- (assoc_L app).
Qed.

(** *** The writes that a new write covers *)

Section New.
Context (s n : Z).

Definition covered (e : event_queue_entry) : bool := (valid e =? VALID) && CHECK_OVERWRITE e s n.

Definition drop_event (e : event_queue_entry) : event_queue_entry :=
  if covered e then Event (io_type e) INVALID (sector_nb e) (ev_length e) (buf e) else e.

Definition drop_seg (e : event_queue_entry) (g : list ascii) : list ascii :=
  if covered e then stamp is_V (Some chI) <$> g else g.

Lemma drop_seg_length e g : zlen (drop_seg e g) = zlen g.
Proof. unfold drop_seg. destruct (covered e); [|done]. by rewrite length_fmap. Qed.

Lemma stamp_none g : count_if is_V (stamp is_V (Some chI) <$> g) = 0.
Proof.
  unfold count_if. induction g as [|c g IH]; [done|]. rewrite fmap_cons. cbn [sum_with foldr].
  unfold sum_with in IH. rewrite IH. unfold stamp. destruct (is_V c) eqn:E; [done|]. by rewrite E.
Qed.

Lemma stamp_chars g : Forall (fun c => c = chV \/ c = chI) g ->
  Forall (fun c => c = chV \/ c = chI) (stamp is_V (Some chI) <$> g).
Proof.
  induction 1 as [|c g Hc _ IH]; [done|]. simpl. constructor; [|done].
  unfold stamp. destruct (is_V c); [by right|done].
Qed.

Lemma drop_seg_ok e g : seg_ok e g -> seg_ok (drop_event e) (drop_seg e g).
Proof.
  intros []. unfold drop_event, drop_seg. destruct (covered e) eqn:E; [|done].
  split; simpl; [done|done|by apply stamp_chars|done|intros _; apply stamp_none].
Qed.

Lemma drop_placed p es segs : placed p es segs -> placed p (drop_event <$> es) (zip_with drop_seg es segs).
Proof.
  revert p segs. induction es as [|e es IH]; intros p [|g segs] H; try done.
  destruct H as (Hb & Hg & H). simpl. rewrite drop_seg_length. split; [|split; [by apply drop_seg_ok|by apply IH]].
  unfold drop_event. by destruct (covered e).
Qed.

Lemma drop_join_length p es segs : placed p es segs -> zlen (mjoin (zip_with drop_seg es segs)) = zlen (mjoin segs).
Proof.
  revert p segs. induction es as [|e es IH]; intros p [|g segs] H; try done.
  destruct H as (Hb & Hg & H). simpl. rewrite !zlen_app, drop_seg_length. by rewrite (IH _ _ H).
Qed.

Lemma invalidate_spec A es : forall B segs q p (b : firm), q = adv N p (zlen A) -> placed q es segs ->
  Forall (fun e => ev_length e < 2 ^ 31) es ->
  ring N (wb_valid_array b) p (A ++ mjoin segs ++ B) ->
  wp (invalidate N s n es) (fun es' b' => es' = drop_event <$> es /\
    exists arr', b' = set_wb_valid_array arr' b /\
      ring N arr' p (A ++ mjoin (zip_with drop_seg es segs) ++ B)) b.
Proof using HN.
  revert A. induction es as [|e es IH]; intros A B [|g segs] q p b Hq H HF Hr; try done; simpl invalidate.
  { wp_go. split; [done|]. exists (wb_valid_array b). split; [by destruct b|done]. }
  destruct H as (Hb & Hg & H). apply Forall_cons in HF as [HF1 HF]. apply wp_bind.
  simpl in Hr. rewrite <- (assoc_L app) in Hr.
  apply wp_mono with (P := fun e' b' => e' = drop_event e /\ exists arr', b' = set_wb_valid_array arr' b /\
    ring N arr' p (A ++ drop_seg e g ++ mjoin segs ++ B)).
  { unfold drop_event, drop_seg. fold (covered e). destruct (covered e) eqn:Ec; last first.
    { wp_go. split; [done|]. exists (wb_valid_array b). split; [by destruct b|done]. }
    unfold covered in Ec. apply andb_true_iff in Ec as [Ev%Z.eqb_eq _].
    destruct (sg_valid _ _ Hg Ev) as [Hc He]. pose proof (sg_length _ _ Hg).
    unfold UPDATE_WB_VALID_ARRAY. simpl. rewrite Hb, Hq, i32_id by lia. apply wp_bind, wp_bind.
    eapply wp_mono; [by apply mark_at; [exact Hr|symmetry|]|]. intros p' b' [_ (arr' & -> & Hr')].
    wp_go. split; [done|]. by exists arr'. }
  intros e' b' [-> (arr' & -> & Hr')]. apply wp_bind. rewrite (assoc_L app) in Hr'.
  eapply wp_mono; [apply (IH (A ++ drop_seg e g) B segs (adv N q (zlen g)) p); [|done|done|exact Hr']|].
  { rewrite Hq, zlen_app, drop_seg_length, adv_adv. f_equal. }
  intros es' b' [-> (arr2 & -> & Hr2)]. wp_go. split; [done|]. exists arr2. split; [done|].
  simpl. by rewrite <- !(assoc_L app) in Hr2 |- *.
Qed.

(** The data that is dropped is for sectors that the new write gives data. *)
Lemma drop_effect p es segs new : 0 <= p < N -> placed p es segs -> new.*1 = seqZ s n ->
  0 <= s -> 0 < n -> s + n < 2 ^ 31 ->
  Forall (fun e => 0 <= sector_nb e /\ sector_nb e + ev_length e < 2 ^ 31) es ->
  forall a, effect new ∪ effect (a ++ pending_data p (drop_event <$> es) (zip_with drop_seg es segs)) =
    effect new ∪ effect (a ++ pending_data p es segs).
Proof using HN.
  intros Hp H Hk H0 Hn Hs HF. revert p segs Hp H.
  induction es as [|e es IH]; intros p [|g segs] Hp H a; try done.
  destruct H as (Hb & Hg & H). apply Forall_cons in HF as [HF1 HF]. simpl.
  rewrite drop_seg_length, !(assoc_L app).
  rewrite (IH HF _ _ (adv_range N p (zlen g) HN) H). rewrite <- !(assoc_L app).
  unfold drop_event, drop_seg. destruct (covered e) eqn:Ec; [|done]. simpl.
  unfold covered, CHECK_OVERWRITE in Ec. rewrite !andb_true_iff in Ec. destruct Ec as [Ev [[_ Hlo] Hhi]].
  rewrite Ev. simpl. symmetry. apply effect_hide. apply Z.eqb_eq in Ev.
  destruct (sg_valid _ _ Hg Ev) as [Hc _]. pose proof (sg_length _ _ Hg).
  rewrite zip_seqZ_keys by by rewrite vframes_length. rewrite Hk.
  apply Z.leb_le in Hlo, Hhi. rewrite !u32_id in Hhi by lia.
  intros k. rewrite !elem_of_seqZ. lia.
Qed.

End New.
End Frames.

(** ** The queue *)

(** The reads come before the writes. *)
Record queue_ok (reads writes : list event_queue_entry) (b : firm) : Prop := {
  q_list : e_queue b = reads ++ writes;
  q_nb : e_entry_nb b = zlen (reads ++ writes);
  q_last : last_read_entry b = tail_pos reads;
  q_reads : Forall (fun e => io_type e = READ /\ valid e = VALID) reads
}.

Lemma first_write_val reads writes b : queue_ok reads writes b -> first_write b = length reads.
Proof.
  intros []. unfold first_write. rewrite q_last0. unfold tail_pos. destruct reads; [done|]. simpl. lia.
Qed.

Section Enqueue.
Context (N T : Z) (HN : 0 < N < 2 ^ 31) (HT : T < 2 ^ 31).

(** A request inside the disk of [T] sectors. *)
Definition inside (s n : Z) : Prop := 0 <= s /\ 0 < n /\ s + n <= T.
Definition event_inside (e : event_queue_entry) : Prop := inside (sector_nb e) (ev_length e).

(** The state that [ENQUEUE_WRITE] leaves. *)
Definition appended (b : firm) (arr : list ascii) (q : list event_queue_entry) (n : Z) : firm :=
  set_queue q (zlen q) (last_read_entry b)
    (set_sata_write (adv N (sata_write_ptr b) n) (empty_write_buffer_frame b - n) (set_wb_valid_array arr b)).

Section Last.
Context (b : firm) (n : Z) (reads es0 : list event_queue_entry) (junk : list ascii) (segs0 : list (list ascii))
  (e' : event_queue_entry) (g' : list ascii) (arr : list ascii).
Context (Hf : 0 <= ftl_write_ptr b < N) (Hjunk : Forall (eq chI) junk).
Context (Hes : placed N (adv N (ftl_write_ptr b) (zlen junk)) es0 segs0).
Context (Hr : ring N arr (ftl_write_ptr b)
  (junk ++ mjoin segs0 ++ g' ++ replicate (Z.to_nat (empty_write_buffer_frame b - n)) ch0)).
Context (He : buf e' = Some (adv N (adv N (ftl_write_ptr b) (zlen junk)) (zlen (mjoin segs0)))).
Context (Hg : seg_ok e' g') (Hv : valid e' = VALID).

(** The last write is new, or a longer version of the last one. *)
Lemma wb_extend : 0 <= empty_write_buffer_frame b - n -> write_limit_ptr b = ftl_write_ptr b ->
  adv N (sata_write_ptr b) n = adv N (ftl_write_ptr b) (zlen (junk ++ mjoin segs0 ++ g')) ->
  wb_ok N (es0 ++ [e']) junk (segs0 ++ [g']) (appended b arr (reads ++ es0 ++ [e']) n).
Proof using HN Hf Hjunk Hes Hr He Hg Hv.
  intros He0 Hl Hs. assert (mjoin (segs0 ++ [g']) = mjoin segs0 ++ g') as Ej.
  { rewrite join_app. simpl. by rewrite app_nil_r. }
  split; simpl; rewrite ?Ej; try done.
  - by rewrite <- !(assoc_L app).
  - apply placed_app; [lia|by apply adv_range; lia|done|]. simpl. done.
  - by rewrite last_snoc.
Qed.

Lemma pending_extend p : 0 <= p < N -> placed N p es0 segs0 ->
  pending_data N p (es0 ++ [e']) (segs0 ++ [g']) = pending_data N p es0 segs0 ++
    zip (seqZ (sector_nb e') (ev_length e')) (vframes N (adv N p (zlen (mjoin segs0))) g').
Proof using HN Hv.
  intros Hp H. rewrite pending_app by (done || lia). simpl. rewrite Hv. simpl. by rewrite app_nil_r.
Qed.

End Last.

Lemma all_valid_count n : count_if is_V (replicate n chV) = Z.of_nat n.
Proof. unfold count_if. induction n as [|n IH]; [done|]. simpl in *. rewrite IH. lia. Qed.

Lemma all_valid_chars n : Forall (fun c => c = chV \/ c = chI) (replicate n chV).
Proof. apply Forall_replicate. by left. Qed.

Lemma ends_replicate l n : ends is_V (l ++ replicate (S n) chV).
Proof. unfold ends. rewrite replicate_S_end, (assoc_L app), last_snoc. done. Qed.

(** The last write grows by the new frames. *)
Lemma grown_seg e g l n : seg_ok e g -> valid e = VALID -> 0 < n -> 0 <= l ->
  forall k, Forall (fun c => c = chV \/ c = chI) k -> count_if is_V k = l -> 
  seg_ok (Event (io_type e) (valid e) (sector_nb e) (l + n) (buf e)) (k ++ replicate (Z.to_nat n) chV).
Proof.
  intros [] Hv Hn Hl k Hk Hc. destruct (Z.to_nat n) as [|m] eqn:Em; [lia|]. split; simpl; try done; [lia| |].
  - apply Forall_app. split; [done|]. apply (all_valid_chars (S m)).
  - intros _. split; [|apply (ends_replicate k m)]. rewrite count_if_app. change (chV :: replicate m chV) with (replicate (S m) chV).
    rewrite all_valid_count. lia.
Qed.

Lemma sata_after (b : firm) (l k : list ascii) n : sata_write_ptr b = adv N (ftl_write_ptr b) (zlen l) ->
  zlen k = zlen l + n -> adv N (sata_write_ptr b) n = adv N (ftl_write_ptr b) (zlen k).
Proof. intros Hs Hk. rewrite Hs, adv_adv. f_equal. lia. Qed.

(** *** The last step of [ENQUEUE_WRITE] *)

Section Finish.
Context (b : firm) (s n : Z) (reads es : list event_queue_entry) (junk : list ascii) (segs : list (list ascii))
  (arr : list ascii).
Context (Hin : inside s n) (Hnle : n <= empty_write_buffer_frame b) (Hf : 0 <= ftl_write_ptr b < N)
  (Hl : write_limit_ptr b = ftl_write_ptr b) (Hjunk : Forall (eq chI) junk).

Local Abbreviation q := (adv N (ftl_write_ptr b) (zlen junk)).
Local Abbreviation free := (replicate (Z.to_nat (empty_write_buffer_frame b - n)) ch0).
Local Abbreviation filled := (replicate (Z.to_nat n) chV).

Context (Hpl : placed N q es segs) (Hes : Forall event_inside es).
Context (Hr : ring N arr (ftl_write_ptr b) (junk ++ mjoin segs ++ filled ++ free)).
Context (Hs : sata_write_ptr b = adv N (ftl_write_ptr b) (zlen (junk ++ mjoin segs))).

Local Abbreviation new_data := (zip (seqZ s n) (frames_at N (sata_write_ptr b) n)).

Definition enqueued (b' : firm) : Prop := exists arr' es' segs',
  b' = appended b arr' (reads ++ es') n /\ (length es' <= S (length es))%nat /\ wb_ok N es' junk segs' b' /\ Forall event_inside es' /\
  effect (pending_data N q es' segs') = effect new_data ∪ effect (pending_data N q es segs).

Lemma q_range : 0 <= q < N.
Proof using HN. apply adv_range. lia. Qed.

Lemma finish_new : enqueued (appended b arr (reads ++ es ++ [ALLOC_NEW_EVENT WRITE s n (Some (sata_write_ptr b))]) n).
Proof using HN Hin Hnle Hf Hl Hjunk Hpl Hes Hr Hs.
  pose proof Hin as (? & ? & ?). set (e' := ALLOC_NEW_EVENT _ _ _ _).
  assert (seg_ok e' filled) as Hg.
  { destruct (Z.to_nat n) as [|m] eqn:Em; [lia|]. split; simpl; try done; [apply (all_valid_chars (S m))|].
    intros _. split; [|apply (ends_replicate [] m)]. change (chV :: replicate m chV) with (replicate (S m) chV).
    rewrite all_valid_count. lia. }
  assert (buf e' = Some (adv N q (zlen (mjoin segs)))) as He by (simpl; rewrite Hs, adv_adv, zlen_app; done).
  exists arr, (es ++ [e']), (segs ++ [filled]). split; [done|]. split; [rewrite length_app; simpl; lia|]. split; [|split].
  - apply wb_extend; try done; [lia|]. apply (sata_after _ _ _ _ Hs). rewrite !zlen_app, length_replicate. lia.
  - apply Forall_app. split; [done|]. by apply Forall_singleton.
  - rewrite pending_extend by (done || apply q_range). rewrite effect_app. f_equal. f_equal. simpl.
    rewrite vframes_all by (lia || by apply adv_range; lia). rewrite Hs, adv_adv, zlen_app, Z2Nat.id by lia. done.
Qed.

(** The last write [t] with segment [g] grows: its first [m] sectors keep their
    frames [k], the new write gives the others. *)
Lemma finish_grown es0 segs0 t g m k h arr' : es = es0 ++ [t] -> segs = segs0 ++ [g] -> valid t = VALID ->
  seg_ok t g -> placed N q es0 segs0 -> buf t = Some (adv N q (zlen (mjoin segs0))) ->
  0 <= m <= ev_length t -> sector_nb t + m = s -> ev_length t <= m + n ->
  g = k ++ h -> count_if is_V k = m -> zlen h = zlen (stamp is_V (Some chI) <$> h) ->
  ring N arr' (ftl_write_ptr b) (junk ++ mjoin segs0 ++ ((k ++ (stamp is_V (Some chI) <$> h)) ++ filled) ++ free) ->
  enqueued (appended b arr' (reads ++ es0 ++ [Event (io_type t) (valid t) (sector_nb t) (m + n) (buf t)]) n).
Proof using HN Hin Hnle Hf Hl Hjunk Hpl Hes Hr Hs.
  intros Ees Esg Hv Hg H0 Hb Hm Hsm Hlen -> Hk Hh Hr'. pose proof Hin as (? & ? & ?).
  set (h' := stamp is_V (Some chI) <$> h) in *. set (t' := Event _ _ _ _ _).
  pose proof (sg_chars _ _ Hg) as [Hck Hch]%Forall_app.
  assert (seg_ok t' ((k ++ h') ++ filled)) as Hg'.
  { apply grown_seg with (g := k ++ h); try done; try lia; [apply Forall_app; split; [done|by apply stamp_chars]|].
    rewrite count_if_app, Hk. unfold h'. rewrite stamp_none. lia. }
  pose proof Hes as Hes'. rewrite Ees in Hes'. apply Forall_app in Hes' as [Hes0 Ht]. apply Forall_singleton in Ht as (? & ? & ?).
  exists arr', (es0 ++ [t']), (segs0 ++ [(k ++ h') ++ filled]). split; [done|]. split; [rewrite Ees, !length_app; simpl; lia|]. split; [|split].
  - apply wb_extend; try done; [lia|]. apply (sata_after _ _ _ _ Hs). rewrite Esg, join_app. simpl. rewrite app_nil_r, !zlen_app, length_replicate. lia.
  - apply Forall_app. split; [done|]. apply Forall_singleton. split; simpl; [done|lia].
  - pose proof (adv_range N q (zlen (mjoin segs0)) ltac:(lia)) as Hq0. pose proof q_range as Hq.
    pose proof (vframes_length N (adv N q (zlen (mjoin segs0))) k) as Hvk.
    rewrite Ees, Esg, !pending_extend by (done || lia). simpl sector_nb. simpl ev_length.
    rewrite !vframes_app by (lia || done || by apply adv_range; lia).
    rewrite (vframes_none N _ h') by apply stamp_none. rewrite app_nil_r, zip_seqZ_app by lia.
    rewrite vframes_all by (lia || by apply adv_range; lia).
    replace (ev_length t) with (m + (ev_length t - m)) by lia. rewrite zip_seqZ_app by lia.
    rewrite Hsm, Z2Nat.id by lia. rewrite (assoc_L app), effect_app.
    assert (adv N (adv N q (zlen (mjoin segs0))) (zlen (k ++ h')) = sata_write_ptr b) as ->.
    { rewrite Hs, !adv_adv, Esg. f_equal. rewrite join_app. simpl. rewrite app_nil_r, !zlen_app. lia. }
    set (K := zip (seqZ _ m) _). set (H' := zip (seqZ s (ev_length t - m)) _).
    rewrite (assoc_L app), <- (app_nil_r H'), effect_hide, app_nil_r; [done|].
    intros x. unfold H'. rewrite (zip_seqZ_keys s n) by (unfold frames_at; rewrite length_fmap, length_seqZ; lia).
    intros ([y z] & -> & Hy)%list_elem_of_fmap. apply elem_of_zip_l in Hy. simpl.
    rewrite elem_of_seqZ in Hy |- *. lia.
Qed.

End Finish.
(** On the frames of a segment, not invalid is valid. *)
Lemma chars_not_I l : Forall (fun c => c = chV \/ c = chI) l ->
  count_if not_I l = count_if is_V l /\ (ends is_V l -> ends not_I l) /\
  stamp not_I (Some chI) <$> l = stamp is_V (Some chI) <$> l.
Proof.
  intros H. assert (forall c, c ∈ l -> not_I c = is_V c) as Hc.
  { intros c Hin. rewrite Forall_forall in H. by destruct (H c Hin) as [->| ->]. }
  split; [|split].
  - unfold count_if. clear H. induction l as [|c l IH]; [done|]. simpl. rewrite Hc by left. f_equal.
    apply IH. intros c' Hc'. apply Hc. by right.
  - unfold ends. destruct (last l) as [c|] eqn:E; [|done]. rewrite Hc; [done|].
    apply last_Some in E as [l' ->]. apply elem_of_app. right. by apply list_elem_of_singleton.
  - apply list_fmap_ext. intros i c Hi%list_elem_of_lookup_2. unfold stamp. by rewrite Hc.
Qed.

Lemma ends_suffix k h : h <> [] -> ends is_V (k ++ h) -> ends is_V h.
Proof. intros Hh. destruct (exists_last Hh) as (h' & c & ->). unfold ends. by rewrite (assoc_L app), !last_snoc. Qed.

Lemma partial_spec (b : firm) (t : event_queue_entry) A k h B m : 
  ring N (wb_valid_array b) (ftl_write_ptr b) (A ++ (k ++ h) ++ B) ->
  Forall (fun c => c = chV \/ c = chI) (k ++ h) -> buf t = Some (adv N (ftl_write_ptr b) (zlen A)) ->
  count_if is_V k = m -> ends is_V k -> ends is_V h -> count_if is_V h = ev_length t - m -> 0 <= m -> ev_length t < 2 ^ 31 ->
  wp (UPDATE_WB_VALID_ARRAY_PARTIAL N t chI (ev_length t - m) 1) (fun _ b' => exists arr', b' = set_wb_valid_array arr' b /\
    ring N arr' (ftl_write_ptr b) (A ++ (k ++ (stamp is_V (Some chI) <$> h)) ++ B)) b.
Proof using HN.
  intros Hr [Hck Hch]%Forall_app Hb Hk Hek Heh Hh Hm Hlt.
  destruct (chars_not_I k Hck) as (Ck & Ek & _). destruct (chars_not_I h Hch) as (Ch & Eh & Sh).
  pose proof (count_if_nonneg is_V h).
  unfold UPDATE_WB_VALID_ARRAY_PARTIAL. rewrite Hb. wp_go. simpl Z.eqb. cbv iota.
  replace (ev_length t - (ev_length t - m)) with m by lia. rewrite i32_id by lia.
  rewrite <- (assoc_L app) in Hr.
  eapply wp_mono; [eapply (mark_at N ltac:(lia) not_I None A k); [exact Hr|lia|auto]|].
  intros p' b' [-> (arr1 & -> & Hr1)]. apply wp_bind. cbv beta.
  assert (stamp not_I None <$> k = k) as Ens.
  { rewrite <- (list_fmap_id k) at 2. apply list_fmap_ext. intros i c _. unfold stamp. by destruct (not_I c). }
  rewrite Ens, (assoc_L app) in Hr1.
  eapply wp_mono; [eapply (mark_at N ltac:(lia) not_I (Some chI) (A ++ k) h); [exact Hr1|lia|auto]|].
  intros p' b' [-> (arr2 & -> & Hr2)]. wp_go. exists arr2. split; [done|]. rewrite Sh in Hr2.
  by rewrite <- !(assoc_L app) in Hr2 |- *.
Qed.

Lemma drop_inside s n es : Forall event_inside es -> Forall event_inside (drop_event s n <$> es).
Proof.
  intros H. apply Forall_fmap. eapply Forall_impl; [exact H|]. intros e He. unfold compose, drop_event.
  by destruct (covered s n e).
Qed.

Lemma set_tail_length_last es l t k : es = l ++ [t] -> set_tail_length k es =
  l ++ [Event (io_type t) (valid t) (sector_nb t) k (buf t)].
Proof. intros ->. unfold set_tail_length. by rewrite last_snoc, removelast_last. Qed.

Section Step.
Context (b : firm) (s n : Z) (reads es : list event_queue_entry) (junk : list ascii) (segs : list (list ascii))
  (arr : list ascii).
Context (Hin : inside s n) (Hnle : n <= empty_write_buffer_frame b) (Hf : 0 <= ftl_write_ptr b < N)
  (Hl : write_limit_ptr b = ftl_write_ptr b) (Hjunk : Forall (eq chI) junk).
Context (Hrd : Forall (fun e => io_type e = READ /\ valid e = VALID) reads).
Context (Hpl : placed N (adv N (ftl_write_ptr b) (zlen junk)) es segs) (Hes : Forall event_inside es).
Context (Hr : ring N arr (ftl_write_ptr b) (junk ++ mjoin segs ++ replicate (Z.to_nat n) chV ++
  replicate (Z.to_nat (empty_write_buffer_frame b - n)) ch0)).
Context (Hs : sata_write_ptr b = adv N (ftl_write_ptr b) (zlen (junk ++ mjoin segs))).

Local Abbreviation done_ok := (enqueued b s n reads es junk segs).

(** The last write, if there is one, with its segment. *)
Lemma last_write es0 t : es = es0 ++ [t] -> exists segs0 g, segs = segs0 ++ [g] /\
  placed N (adv N (ftl_write_ptr b) (zlen junk)) es0 segs0 /\ seg_ok t g /\
  buf t = Some (adv N (adv N (ftl_write_ptr b) (zlen junk)) (zlen (mjoin segs0))) /\ event_inside t.
Proof using HN Hpl Hes.
  intros Ees. pose proof Hpl as H. pose proof Hes as H'. rewrite Ees in H, H'.
  destruct (placed_split N ltac:(lia) _ _ _ _ ltac:(by apply adv_range; lia) H) as (segs0 & [|g [|g' s2]] & E & H0 & H1);
    try done.
  - destruct H1 as (Hb & Hg & _). exists segs0, g. apply Forall_app in H' as [_ Ht]. rewrite Forall_singleton in Ht.
    split; [done|]. split; [done|]. split; [done|]. split; [exact Hb|exact Ht].
  - destruct H1 as (_ & _ & []).
Qed.

Lemma enqueue_sequential es0 t : es = es0 ++ [t] -> CHECK_SEQUENTIALITY (Some t) s = true ->
  done_ok (appended b arr (reads ++ set_tail_length (u32 (ev_length t + n)) es) n).
Proof using HN HT Hin Hnle Hf Hl Hjunk Hpl Hes Hr Hs.
  intros Ees Hc. destruct (last_write es0 t Ees) as (segs0 & g & Esg & H0 & Hg & Hb & Hti).
  destruct Hin as (? & ? & ?). destruct Hti as (? & ? & ?).
  unfold CHECK_SEQUENTIALITY in Hc. rewrite !andb_true_iff, !Z.eqb_eq in Hc. destruct Hc as [[_ Hv] Hu].
  rewrite !u32_id in Hu by lia. rewrite (set_tail_length_last es es0 t) by done. rewrite u32_id by lia.
  eapply (finish_grown b s n reads es junk segs arr Hin Hnle Hf Hl Hjunk Hpl Hes Hr Hs es0 segs0 t g (ev_length t) g []);
    try done; [lia|lia|by rewrite app_nil_r|by apply (sg_valid _ _ Hg)|].
  simpl. rewrite app_nil_r. rewrite Esg, join_app in Hr. simpl in Hr. rewrite app_nil_r in Hr.
  by rewrite <- !(assoc_L app) in Hr |- *.
Qed.

Lemma enqueue_overlap es0 t : es = es0 ++ [t] -> CHECK_IO_DEPENDENCY_FOR_WRITE (Some t) s n = true ->
  wp (UPDATE_WB_VALID_ARRAY_PARTIAL N t chI (i32 (sector_nb t + ev_length t - s)) 1 ;;
      modify (set_queue (reads ++ set_tail_length (u32 (ev_length t + (n - i32 (sector_nb t + ev_length t - s)))) es)
        (zlen (reads ++ es)) (last_read_entry b)))
     (fun _ b' => done_ok b') (appended b arr (reads ++ es) n).
Proof using HN HT Hin Hnle Hf Hl Hjunk Hpl Hes Hr Hs.
  intros Ees Hc. destruct (last_write es0 t Ees) as (segs0 & g & Esg & H0 & Hg & Hb & Hti).
  destruct Hin as (? & ? & ?). destruct Hti as (? & ? & ?).
  unfold CHECK_IO_DEPENDENCY_FOR_WRITE, last_sector in Hc. rewrite !andb_true_iff, !Z.eqb_eq, !Z.ltb_lt in Hc.
  destruct Hc as [[[[_ Hv] Hlo] Hmid] Hhi]. rewrite !i32_id in * by lia.
  destruct (sg_valid _ _ Hg Hv) as [Hcnt Hend]. set (m := s - sector_nb t).
  destruct (split_frames is_V g m) as (k & h & Eg & Hk & Hek); [lia|].
  assert (count_if is_V h = ev_length t - m) as Hh by (rewrite Eg, count_if_app in Hcnt; lia).
  assert (h <> []) as Hne by (intros ->; unfold count_if in Hh; simpl in Hh; lia).
  pose proof Hr as Hr0. rewrite Esg, join_app in Hr0. simpl in Hr0. rewrite app_nil_r, Eg in Hr0.
  replace (sector_nb t + ev_length t - s) with (ev_length t - m) by lia. apply wp_bind.
  eapply wp_mono; [apply (partial_spec (appended b arr (reads ++ es) n) t (junk ++ mjoin segs0) k h); try done|].
  - rewrite <- !(assoc_L app) in Hr0 |- *. exact Hr0.
  - rewrite <- Eg. by apply (sg_chars _ _ Hg).
  - simpl. rewrite Hb, adv_adv, zlen_app. done.
  - eapply ends_suffix; [done|]. by rewrite <- Eg.
  - lia.
  - lia.
  - intros _ b' (arr' & -> & Hr'). wp_go. cbn [appended set_wb_valid_array ftl_write_ptr set_queue set_sata_write] in Hr'.
    replace (ev_length t + (n - (ev_length t - m))) with (m + n) by lia. rewrite u32_id by lia.
    rewrite (set_tail_length_last es es0 t) by done.
    assert (zlen (reads ++ es) = zlen (reads ++ es0 ++ [Event (io_type t) (valid t) (sector_nb t) (m + n) (buf t)])) as ->
      by by rewrite Ees, !length_app.
    eapply (finish_grown b s n reads es junk segs arr Hin Hnle Hf Hl Hjunk Hpl Hes Hr Hs es0 segs0 t g m k h arr');
      try done; try lia; [by rewrite length_fmap|]. by rewrite <- !(assoc_L app) in Hr' |- *.
Qed.

Lemma enqueue_last : wp
  (let l := reads ++ es in
   match last l with
   | Some t =>
       if CHECK_SEQUENTIALITY (Some t) s then
         modify (set_queue (set_tail_length (u32 (ev_length t + n)) l) (zlen l) (last_read_entry b))
       else if CHECK_IO_DEPENDENCY_FOR_WRITE (Some t) s n then
         let invalid_len := i32 (sector_nb t + ev_length t - s) in
         UPDATE_WB_VALID_ARRAY_PARTIAL N t chI invalid_len 1 ;;
         modify (set_queue (set_tail_length (u32 (ev_length t + (n - invalid_len))) l) (zlen l) (last_read_entry b))
       else modify (set_queue (l ++ [ALLOC_NEW_EVENT WRITE s n (Some (sata_write_ptr b))]) (zlen l + 1) (last_read_entry b))
   | None => modify (set_queue (l ++ [ALLOC_NEW_EVENT WRITE s n (Some (sata_write_ptr b))]) (zlen l + 1) (last_read_entry b))
   end) (fun _ b' => done_ok b') (appended b arr (reads ++ es) n).
Proof using HN HT Hin Hnle Hf Hl Hjunk Hrd Hpl Hes Hr Hs.
  assert (done_ok (appended b arr (reads ++ es ++ [ALLOC_NEW_EVENT WRITE s n (Some (sata_write_ptr b))]) n)) as Hnew
    by by apply finish_new.
  assert (wp (modify (set_queue ((reads ++ es) ++ [ALLOC_NEW_EVENT WRITE s n (Some (sata_write_ptr b))])
    (zlen (reads ++ es) + 1) (last_read_entry b))) (fun _ b' => done_ok b') (appended b arr (reads ++ es) n)) as Hdef.
  { wp_go. rewrite (assoc_L app) in Hnew. unfold appended in Hnew at 1. rewrite (zlen_app (reads ++ es)) in Hnew. exact Hnew. }
  cbv zeta. destruct (decide (es = [])) as [E|E].
  - destruct (last (reads ++ es)) as [t|] eqn:Et; [|done]. rewrite E, app_nil_r in Et.
    assert (io_type t = READ) as Ht.
    { apply last_Some_elem_of in Et. rewrite Forall_forall in Hrd. by apply Hrd. }
    unfold CHECK_SEQUENTIALITY, CHECK_IO_DEPENDENCY_FOR_WRITE. rewrite Ht. exact Hdef.
  - destruct (exists_last E) as (es0 & t & Ees).
    assert (last (reads ++ es) = Some t) as -> by by rewrite Ees, (assoc_L app), last_snoc.
    assert (forall k, set_tail_length k (reads ++ es) = reads ++ set_tail_length k es) as Htl.
    { intros k. rewrite (set_tail_length_last (reads ++ es) (reads ++ es0) t) by by rewrite Ees, (assoc_L app).
      rewrite (set_tail_length_last es es0 t) by done. by rewrite (assoc_L app). }
    destruct (CHECK_SEQUENTIALITY (Some t) s) eqn:E1.
    + wp_go. rewrite Htl. pose proof (enqueue_sequential es0 t Ees E1) as H.
      unfold appended in H at 1. rewrite (set_tail_length_last es es0 t) in H |- * by done.
      assert (zlen (reads ++ es) = zlen (reads ++ es0 ++ [Event (io_type t) (valid t) (sector_nb t) (u32 (ev_length t + n)) (buf t)])) as ->
        by by rewrite Ees, !length_app.
      exact H.
    + destruct (CHECK_IO_DEPENDENCY_FOR_WRITE (Some t) s n) eqn:E2; [|exact Hdef].
      rewrite Htl. by apply (enqueue_overlap es0 t).
Qed.

End Step.
(** *** [ENQUEUE_WRITE] *)

(** The pending data of a state. *)
Definition data_of (b : firm) (writes : list event_queue_entry) (junk : list ascii) (segs : list (list ascii)) : gmap Z Z :=
  effect (pending_data N (adv N (ftl_write_ptr b) (zlen junk)) writes segs).

Definition write_enqueued (b : firm) (s n : Z) (reads writes : list event_queue_entry) (junk : list ascii)
    (segs : list (list ascii)) (b' : firm) : Prop := exists arr' writes' segs',
  b' = appended b arr' (reads ++ writes') n /\ (length writes' <= S (length writes))%nat /\
  wb_ok N writes' junk segs' b' /\ Forall event_inside writes' /\
  data_of b' writes' junk segs' =
    effect (zip (seqZ s n) (frames_at N (sata_write_ptr b) n)) ∪ data_of b writes junk segs.

Lemma enqueue_write_spec reads writes junk segs b s n : queue_ok reads writes b -> wb_ok N writes junk segs b ->
  Forall event_inside writes -> inside s n -> n <= empty_write_buffer_frame b ->
  wp (ENQUEUE_WRITE N s n) (fun _ b' => write_enqueued b s n reads writes junk segs b') b.
Proof using HN HT.
  intros Hq Hwb Hws Hin Hn. pose proof Hin as (Hs0 & Hn0 & HsT). pose proof (first_write_val _ _ _ Hq) as Hfw.
  destruct Hq as [Eq Enb Elr Hrd]. destruct Hwb as [Wr We Wj Wp Ws Wl Wlast].
  apply ring_ptr in Wr as Hf. apply ring_length in Wr as HlenN. rewrite !zlen_app, length_replicate in HlenN.
  unfold ENQUEUE_WRITE. wp_go. unfold WRITE_DATA_TO_BUFFER. rewrite i32_id by lia.
  rewrite (assoc_L app) in Wr.
  eapply wp_mono; [apply (sata_pointer_spec N ltac:(lia) n (junk ++ mjoin segs)); [lia|exact Wr|exact Ws]|].
  intros ? b1 (arr1 & -> & Hr1). wp_go. cbv beta.
  change (first_write (set_sata_write _ _ _)) with (first_write b). rewrite Hfw.
  change (e_queue (set_sata_write _ _ _)) with (e_queue b). rewrite Eq, drop_app_length, take_app_length.
  rewrite <- (assoc_L app) in Hr1.
  eapply wp_mono; [eapply (invalidate_spec N ltac:(lia) s n junk writes _ segs); [reflexivity|exact Wp| |exact Hr1]|].
  { eapply Forall_impl; [exact Hws|]. intros e (? & ? & ?). lia. }
  intros ? b2 [-> (arr2 & -> & Hr2)]. wp_go. cbv beta.
  set (es := drop_event s n <$> writes) in *. set (sg := zip_with (drop_seg s n) writes segs) in *.
  pose proof (drop_placed N s n _ _ _ Wp) as Hpl. fold es sg in Hpl.
  pose proof (drop_join_length N s n _ _ _ Wp) as Hjl. fold sg in Hjl.
  pose proof (drop_inside s n _ Hws) as Hes. fold es in Hes.
  assert (sata_write_ptr b = adv N (ftl_write_ptr b) (zlen (junk ++ mjoin sg))) as Hsata.
  { rewrite Ws, !zlen_app, Hjl. done. }
  assert (forall b', enqueued b s n reads es junk sg b' -> write_enqueued b s n reads writes junk segs b') as Hdone.
  { intros b' (arr' & es' & segs' & -> & Hlen' & Hwb' & Hin' & Heff). exists arr', es', segs'. split; [done|].
    split; [unfold es in Hlen'; by rewrite length_fmap in Hlen'|]. split; [done|]. split; [done|]. unfold data_of. cbn [appended set_wb_valid_array ftl_write_ptr set_queue set_sata_write].
    rewrite Heff. apply (drop_effect N ltac:(lia) s n _ _ _ _ ltac:(by apply adv_range; lia) Wp) with (a := []); try done; try lia.
    - apply zip_seqZ_keys. unfold frames_at. rewrite length_fmap, length_seqZ. lia.
    - eapply Forall_impl; [exact Hws|]. intros e (? & ? & ?). lia. }
  assert (e_entry_nb b = zlen (reads ++ es)) as Hnb.
  { rewrite Enb, !zlen_app. unfold es. by rewrite length_fmap. }
  eapply wp_mono; [|intros ? b'; apply Hdone].
  pose proof (enqueue_last b s n reads es junk sg arr2 Hin Hn Hf Wl Wj Hrd Hpl Hes Hr2 Hsata) as H.
  cbv zeta in H. unfold appended in H. rewrite <- Hnb in H. exact H.
Qed.

End Enqueue.
