(* ===== verification/FirmFlush.v ===== *)
(** * The translation layer behind the buffers

    The pointer loops, and the requests of the translation layer with the calls
    into the buffer manager: they do what the requests without the buffers do,
    and the frames of the request become free. *)

From stdpp Require Import prelude gmap.
From Stdlib Require Import Ascii.
From S2P Require Import Prelude Config Blocks Mapping Device Gc Ftl Host Firm FirmRing FirmWrite.

Local Open Scope Z_scope.

(** ** The pointers *)

Section Pointers.
Context (N R : Z) (HN : 0 < N < 2 ^ 31) (HR : 0 < R).

(** Frames taken by the translation layer go behind the rest. *)
Lemma ftl_pointer_spec (b : firm) pre tl n : ring N (wb_valid_array b) (ftl_write_ptr b) (pre ++ tl) ->
  n = count_if is_V pre -> ends is_V pre ->
  wp (INCREASE_WB_FTL_POINTER N n) (fun _ b' => exists arr' dn,
    b' = set_ftl_write_ptr (adv N (ftl_write_ptr b) (zlen pre)) (set_wb_valid_array arr' b) /\
    ring N arr' (adv N (ftl_write_ptr b) (zlen pre)) (tl ++ dn) /\ length dn = length pre) b.
Proof using HN.
  intros Hr Hn He. unfold INCREASE_WB_FTL_POINTER. wp_go. apply ring_ptr in Hr as Hp.
  pose proof (mark_at N ltac:(lia) is_V (Some chF) [] pre tl _ b n Hr Hn He) as H.
  simpl in H. rewrite adv_0 in H by done.
  eapply wp_mono; [exact H|]. intros p' b' [-> (arr' & -> & Hr')]. wp_go.
  exists arr', (stamp is_V (Some chF) <$> pre). split; [done|]. split; [|apply length_fmap].
  apply ring_adv in Hr'. by rewrite length_fmap in Hr'.
Qed.

Lemma wb_limit_spec dn : forall k (b : firm) fuel, dn <> [] ->
  ring N (wb_valid_array b) (write_limit_ptr b) (dn ++ k) ->
  ftl_write_ptr b = adv N (write_limit_ptr b) (zlen dn) -> (length dn < fuel)%nat ->
  wp (wb_limit_loop N fuel) (fun _ b' => exists arr',
    b' = set_write_limit (ftl_write_ptr b) (empty_write_buffer_frame b + zlen dn) (set_wb_valid_array arr' b) /\
    ring N arr' (write_limit_ptr b) (replicate (length dn) ch0 ++ k)) b.
Proof using HN.
  induction dn as [|c dn IH]; intros k b [|fuel] Hne Hr Hf Hfuel; simpl in Hfuel; try lia; [done|].
  simpl in Hr. apply ring_ptr in Hr as Hp. destruct (ring_set N _ _ _ ch0 _ Hr) as (arr1 & Ha & Hr1).
  cbn [wb_limit_loop]. apply wp_bind, wp_gets. apply wp_bind. unfold UPDATE_WB_VALID_ARRAY_ENTRY.
  destruct (Z.leb_spec N (write_limit_ptr b)); [lia|]. unfold wr. wp_go. simpl.
  rewrite next_adv by done. apply ring_length in Hr as HlN. simpl length in HlN. rewrite length_app in HlN.
  destruct dn as [|d dn'].
  - rewrite Hf. simpl. rewrite Z.eqb_refl. wp_go. exists arr1. split; [done|]. exact Hr1.
  - set (dn := d :: dn') in *.
    assert ((adv N (write_limit_ptr b) 1 =? ftl_write_ptr b) = false) as ->.
    { apply Z.eqb_neq. rewrite Hf. intros E. pose proof (adv_range N (write_limit_ptr b) 1 ltac:(lia)) as H1.
      replace (zlen (c :: dn)) with (1 + zlen dn) in E by (simpl length; lia).
      rewrite <- adv_adv, <- (adv_0 N _ H1) in E at 1. assert (0 < zlen dn) by (unfold dn; simpl length; lia).
      apply adv_inj in E; lia. }
    apply ring_next in Hr1 as Hr1'. rewrite <- (assoc_L app) in Hr1'.
    eapply wp_mono; [apply (IH (k ++ [ch0])); simpl; [done|exact Hr1'| |change (length dn < fuel)%nat; lia]|].
    + rewrite adv_adv, Hf. f_equal. simpl length. lia.
    + intros ? b' (arr2 & -> & Hr2). exists arr2. split.
      * unfold set_write_limit, set_wb_valid_array. simpl. f_equal. lia.
      * rewrite (assoc_L app) in Hr2. exact (ring_back N arr2 (write_limit_ptr b) [ch0] _ Hp Hr2).
Qed.

Lemma rb_pointer_spec n (b : firm) : 0 <= n -> 0 <= ftl_read_ptr b < R ->
  wp (INCREASE_RB_FTL_POINTER R n) (fun _ b' => b' = set_ftl_read_ptr (adv R (ftl_read_ptr b) n) b) b.
Proof using HR.
  intros Hn Hp. apply wp_for with (I := fun j b' => b' = set_ftl_read_ptr (adv R (ftl_read_ptr b) j) b).
  - rewrite adv_0 by done. by destruct b.
  - intros j b' _ ->. wp_go. simpl. rewrite next_adv by (apply adv_range; lia). by rewrite adv_adv.
  - intros b' ->. by rewrite Z.add_0_l, Z2Nat.id by lia.
Qed.

Lemma sata_read_spec n (b : firm) : 0 <= n -> 0 <= sata_read_ptr b < R ->
  wp (INCREASE_RB_SATA_POINTER R n) (fun _ b' =>
    b' = set_sata_read (adv R (sata_read_ptr b) n) (empty_read_buffer_frame b + n) b) b.
Proof using HR.
  intros Hn Hp. apply wp_for with (I := fun j b' =>
    b' = set_sata_read (adv R (sata_read_ptr b) j) (empty_read_buffer_frame b + j) b).
  - rewrite adv_0, Z.add_0_r by done. by destruct b.
  - intros j b' _ ->. wp_go. unfold set_sata_read. simpl. rewrite next_adv by (apply adv_range; lia).
    rewrite adv_adv. f_equal. lia.
  - intros b' ->. by rewrite Z.add_0_l, Z2Nat.id by lia.
Qed.

Lemma rb_limit_loop_spec fuel : forall d (b : firm), 0 <= read_limit_ptr b < R -> 1 <= d <= R ->
  ftl_read_ptr b = adv R (read_limit_ptr b) d -> d <= Z.of_nat fuel ->
  wp (rb_limit_loop R fuel) (fun _ b' => b' = set_read_limit_ptr (ftl_read_ptr b) b) b.
Proof using HR.
  induction fuel as [|fuel IH]; intros d b Hp Hd Hf Hfu; [lia|]. cbn [rb_limit_loop]. wp_go. simpl.
  rewrite next_adv by done. destruct (Z.eqb_spec (adv R (read_limit_ptr b) 1) (ftl_read_ptr b)) as [E|E].
  - wp_go. by rewrite E.
  - assert (d <> 1) by (intros ->; congruence).
    eapply wp_mono; [apply (IH (d - 1)); simpl; [apply adv_range; lia|lia| |lia]|].
    + rewrite adv_adv. replace (1 + (d - 1)) with d by lia. done.
    + by intros ? b' ->.
Qed.

Lemma rb_limit_spec (b : firm) : 0 <= read_limit_ptr b < R -> 0 <= ftl_read_ptr b < R ->
  wp (INCREASE_RB_LIMIT_POINTER R) (fun _ b' => b' = set_read_limit_ptr (ftl_read_ptr b) b) b.
Proof using HR.
  intros Hl Hf. set (d := (ftl_read_ptr b - read_limit_ptr b) mod R).
  assert (0 <= d < R) by (apply Z.mod_pos_bound; lia).
  assert (adv R (read_limit_ptr b) d = ftl_read_ptr b) as Hd.
  { unfold adv, d. rewrite Zplus_mod_idemp_r. replace (_ + _) with (ftl_read_ptr b) by lia. by apply Z.mod_small. }
  destruct (decide (d = 0)) as [E|].
  - apply (rb_limit_loop_spec _ R); [done|lia| |lia]. rewrite E, adv_0 in Hd by done. by rewrite adv_N, Hd.
  - apply (rb_limit_loop_spec _ d); [done|lia|done|lia].
Qed.

End Pointers.

(** ** Writing behind the buffer *)

Section Requests.
Context (cfg : config) (Hok : cfg_ok cfg) {D : Device} (N R : Z) (HN : 0 < N < 2 ^ 31) (HR : 0 < R).

(** The frames [todo] in front of [tl] have been taken. *)
Definition taken (b : firm) (todo tl : list ascii) (b' : firm) : Prop := exists arr' dn,
  b' = set_ftl_write_ptr (adv N (ftl_write_ptr b) (zlen todo)) (set_wb_valid_array arr' b) /\
  ring N arr' (adv N (ftl_write_ptr b) (zlen todo)) (tl ++ dn) /\ length dn = length todo.

Lemma firm_write_pages_spec fuel : forall lba remain ls wpn io ret np (w : ftl * dev) (b : firm) todo tl
    (Q : Z * option Z * Z -> ftl * dev -> Prop),
  wp (write_pages cfg fuel lba remain ls wpn io ret np) (fun r w' => exists x, r = Some x /\ Q x w') w ->
  0 <= ls < SECTORS_PER_PAGE cfg -> 0 <= remain < 2 ^ 31 ->
  ring N (wb_valid_array b) (ftl_write_ptr b) (todo ++ tl) -> count_if is_V todo = remain -> ends is_V todo ->
  wp (firm_write_pages cfg N fuel lba remain ls wpn io ret np) (fun r v => exists x, r = Some x /\
    Q x (snd v) /\ taken b todo tl (fst v)) (b, w).
Proof using Hok HN.
  induction fuel as [|fuel IH]; intros lba remain ls wpn io ret np w b todo tl Q Hw Hls Hrem Hr Hc He; [done|].
  cbn [write_pages firm_write_pages] in *. destruct (Z.leb_spec remain 0) as [Hle|Hgt].
  { destruct Hw as (x & -> & HQ). wp_go. exists x. split; [done|]. split; [done|].
    destruct todo as [|c todo]; [|pose proof (ends_pos is_V (c :: todo) ltac:(done) He); lia].
    exists (wb_valid_array b), []. simpl. apply ring_ptr in Hr as Hp. rewrite adv_0 by done.
    split; [by destruct b|]. by rewrite app_nil_r. }
  rewrite page_skips_val in * by (done || lia). cbv iota beta zeta in *.
  set (sects := Z.min (SECTORS_PER_PAGE cfg - ls) remain) in *. rewrite (i32_id sects) by lia.
  destruct (split_frames is_V todo sects) as (pre & post & -> & Hpre & Hepre); [lia|].
  rewrite <- (assoc_L app) in Hr. apply wp_bind. unfold on_firm at 1. apply wp_on_fst.
  eapply wp_mono; [apply (ftl_pointer_spec N HN b pre (post ++ tl)); done|].
  intros ? b1 (arr1 & d1 & Eb1 & Hr1 & Hd1). cbv beta.
  apply wp_bind_inv in Hw. apply wp_bind. unfold on_ftl at 1. apply wp_on_snd.
  eapply wp_mono; [exact Hw|]. clear Hw. intros [ppn|] w1 Hw; cbv beta iota in Hw; [|by destruct Hw as (x & ? & _)].
  apply wp_bind_inv in Hw. apply wp_bind. unfold on_ftl at 1. apply wp_on_snd.
  eapply wp_mono; [exact Hw|]. clear Hw. intros old w2 Hw; cbv beta iota in Hw.
  apply wp_bind_inv in Hw. apply wp_bind. unfold on_ftl at 1. apply wp_on_snd.
  eapply wp_mono; [exact Hw|]. clear Hw. intros ret' w3 Hw; cbv beta iota in Hw.
  apply wp_bind_inv in Hw. apply wp_bind. unfold on_ftl at 1. apply wp_on_snd.
  eapply wp_mono; [exact Hw|]. clear Hw. intros ? w4 Hw; cbv beta iota in Hw.
  apply wp_bind_inv in Hw. apply wp_bind. unfold on_ftl at 1. apply wp_on_snd.
  eapply wp_mono; [exact Hw|]. clear Hw. intros ? w5 Hw; cbv beta iota in Hw.
  rewrite count_if_app in Hc. rewrite <- (assoc_L app) in Hr1. rewrite (u32_id (remain - sects)) in * by lia.
  eapply wp_mono; [eapply (IH _ _ _ _ _ _ _ w5 b1 post (tl ++ d1) Q); [exact Hw|lia|lia| |lia|]|].
  - rewrite Eb1. simpl. exact Hr1.
  - destruct post as [|c post]; [done|]. by eapply ends_suffix.
  - intros r v (x & -> & HQ & Ht). exists x. split; [done|]. split; [done|].
    destruct Ht as (arr2 & d2 & -> & Hr2 & Hd2). rewrite Eb1 in Hr2 |- *. simpl in Hr2.
    exists arr2, (d1 ++ d2). rewrite zlen_app, <- adv_adv. split; [done|].
    split; [by rewrite (assoc_L app)|]. rewrite !length_app. lia.
Qed.

(** The first [k] frames have been written and are free again. *)
Definition released (b : firm) (arr : list ascii) (k : Z) : firm :=
  set_write_limit (adv N (ftl_write_ptr b) k) (empty_write_buffer_frame b + k)
    (set_ftl_write_ptr (adv N (ftl_write_ptr b) k) (set_wb_valid_array arr b)).

(** A step of the translation layer under the buffers. *)
Ltac ftl_step Hw :=
  apply wp_bind_inv in Hw; apply wp_bind; unfold on_ftl at 1; apply wp_on_snd;
  eapply wp_mono; [exact Hw|]; clear Hw; intros ? ? Hw; cbv beta iota in Hw.

Lemma firm_write_spec s n (w : ftl * dev) (b : firm) todo tl (Q : ftl * dev -> Prop) :
  wp (_FTL_WRITE cfg s n) (fun r w' => r = SUCCESS /\ Q w') w -> 0 <= s -> 0 < n -> s + n < 2 ^ 31 ->
  ring N (wb_valid_array b) (ftl_write_ptr b) (todo ++ tl) -> count_if is_V todo = n -> ends is_V todo ->
  write_limit_ptr b = ftl_write_ptr b ->
  wp (firm_FTL_WRITE cfg N s n) (fun r v => r = SUCCESS /\ Q (snd v) /\ exists arr',
    fst v = released b arr' (zlen todo) /\
    ring N arr' (adv N (ftl_write_ptr b) (zlen todo)) (tl ++ replicate (length todo) ch0)) (b, w).
Proof using Hok HN.
  intros Hw Hs Hn Hsn Hr Hc He Hl. unfold _FTL_WRITE in Hw. unfold firm_FTL_WRITE.
  destruct (exceeds cfg s n); [by destruct Hw|]. ftl_step Hw.
  apply wp_bind_inv in Hw. apply wp_bind.
  assert (wp (write_pages cfg (S (Z.to_nat n)) s n (first_skip cfg s) 0 a FAIL None) (fun r w' => exists x, r = Some x /\
    wp (on_snd increase_io_request_seq_nb ;; new_ppn ← need (snd (fst x));
        GC_CHECK cfg (CALC_FLASH cfg new_ppn) (CALC_BLOCK cfg new_ppn) ;;
        on_snd (write_log (WriteDone n (snd x))) ;; mret (fst (fst x))) (fun r w' => r = SUCCESS /\ Q w') w') s') as Hp.
  { eapply wp_mono; [exact Hw|]. intros [[[ret np] k]|] w1 H1; cbv beta iota in H1; [by eexists|by destruct H1]. }
  pose proof (rest_init cfg Hok s n ltac:(lia) ltac:(lia) ltac:(lia)) as Hrest.
  eapply wp_mono; [eapply (firm_write_pages_spec _ _ _ _ _ _ _ _ _ _ _ _ _ Hp); [by eapply rest_skip|lia|exact Hr|done|done]|].
  intros r [b1 w1] (x & -> & HQ & arr1 & dn & Eb & Hr1 & Hd). destruct x as [[ret np] k]. simpl in HQ, Eb. clear Hw Hp.
  ftl_step HQ. apply wp_bind_inv in HQ. apply wp_bind. destruct np as [ppn|]; [|done]. simpl in HQ |- *. wp_go.
  cbv beta. apply wp_bind_inv in HQ. unfold on_ftl at 1. apply wp_on_snd.
  eapply wp_mono; [exact HQ|]. clear HQ. intros ? w2 HQ. cbv beta in HQ |- *. wp_go. unfold on_firm. apply wp_on_fst.
  apply ring_ptr in Hr as Hp. apply ring_length in Hr as HlN. rewrite length_app in HlN.
  apply ring_adv in Hr1 as Hr2. rewrite adv_adv in Hr2. replace (zlen todo + zlen tl) with N in Hr2 by lia.
  rewrite adv_N in Hr2 by done.
  assert (todo <> []) as Hne by (intros ->; unfold count_if in Hc; simpl in Hc; lia).
  eapply wp_mono; [apply (wb_limit_spec N HN dn tl)|].
  - intros ->. by destruct todo.
  - rewrite Eb. simpl. rewrite Hl. exact Hr2.
  - rewrite Eb. simpl. by rewrite Hl, Hd.
  - unfold wb_turn. rewrite Hd. lia.
  - intros ? b2 (arr2 & -> & Hr3). ftl_step HQ. wp_go. destruct HQ as [-> HQ]. split; [done|]. split; [done|].
    exists arr2. rewrite Eb, Hd in *. split; [done|]. simpl in Hr3. rewrite Hl in Hr3.
    apply ring_back; [apply adv_range; lia|]. rewrite adv_adv.
    replace (zlen todo + zlen tl) with N by lia. by rewrite adv_N.
Qed.

Lemma firm_read_spec s n (w : ftl * dev) (b : firm) (Q : ftl * dev -> Prop) :
  wp (_FTL_READ cfg s n) (fun _ w' => Q w') w -> exceeds cfg s n = false -> 0 <= n < 2 ^ 31 ->
  0 <= ftl_read_ptr b < R -> 0 <= read_limit_ptr b < R ->
  wp (firm_FTL_READ cfg R s n) (fun _ v => Q (snd v) /\
    fst v = set_read_limit_ptr (adv R (ftl_read_ptr b) n) (set_ftl_read_ptr (adv R (ftl_read_ptr b) n) b)) (b, w).
Proof using HR.
  intros Hw He Hn Hp Hl. unfold _FTL_READ in Hw. unfold firm_FTL_READ. rewrite He in *.
  pose proof (adv_range R (ftl_read_ptr b) n HR) as Hp'. rewrite i32_id by lia.
  apply wp_bind. unfold on_firm at 1. apply wp_on_fst.
  eapply wp_mono; [apply (rb_pointer_spec R HR n b); [lia|done]|]. intros ? b1 ->. cbv beta.
  ftl_step Hw. destruct a0; simpl negb in Hw |- *; cbv iota in Hw |- *.
  - do 3 ftl_step Hw. apply wp_bind. unfold on_firm. apply wp_on_fst.
    eapply wp_mono; [apply (rb_limit_spec R HR); done|]. intros ? b2 ->. ftl_step Hw. wp_go. done.
  - apply wp_bind. unfold on_firm. apply wp_on_fst.
    eapply wp_mono; [apply (rb_limit_spec R HR); done|]. intros ? b2 ->. wp_go. done.
Qed.

End Requests.
