(* ===== verification/FirmQueue.v ===== *)
(** * The event queue

    The invariant of the buffer manager and its operations on the queues, over a
    translation layer that serves requests. *)

From stdpp Require Import prelude gmap.
From Stdlib Require Import Ascii.
From S2P Require Import Prelude Config Blocks Mapping Device Gc Ftl Host Firm FirmRing FirmWrite FirmFlush.

Local Open Scope Z_scope.

(** ** What the buffer manager needs of the translation layer

    [G h k w]: in state [w] the disk is [h] and [k] more requests can be served.
    Requests are inside the first [T] sectors, a write has at most [N] sectors
    and a read at most [R]. *)

Class Backend (cfg : config) (D : Device) (T N R : Z) (G : host -> nat -> ftl * dev -> Prop) := {
  backend_mono h k w : G h (S k) w -> G h k w;
  backend_write h k s n w : inside T s n -> n <= N -> G h (S k) w ->
    wp (_FTL_WRITE cfg s n) (fun r w' => r = SUCCESS /\ G (host_write cfg s n h) k w') w;
  backend_read h k s n w : inside T s n -> n <= R -> G h (S k) w ->
    wp (_FTL_READ cfg s n) (fun _ w' => G h k w') w
}.

(** The disk after the pending writes. *)
Definition write_event (cfg : config) (h : host) (e : event_queue_entry) : host :=
  if valid e =? VALID then host_write cfg (sector_nb e) (ev_length e) h else h.

Section Queue.
Context (cfg : config) (Hok : cfg_ok cfg) {D : Device} (T N R : Z).
Context (HN : 0 < N < 2 ^ 31) (HR : 0 < R < 2 ^ 31) (HT : T <= SECTOR_NB cfg).
Context (G : host -> nat -> ftl * dev -> Prop) {BE : Backend cfg D T N R G}.

Local Abbreviation T_lt := (ok_sectors _ Hok).

(** ** The invariant *)

(** Completed reads have consecutive frames of the read buffer, from [p] to [q]. *)
Fixpoint chain (p : Z) (cs : list event_queue_entry) (q : Z) : Prop :=
  match cs with
  | [] => p = q
  | e :: cs' => 0 < ev_length e /\ buf e = Some p /\ chain (adv R p (ev_length e)) cs' q
  end.

(** Only the first read of the queue may have its data already, in the frames
    that come next. *)
Definition read_start (reads : list event_queue_entry) (q p : Z) : Prop :=
  match reads with
  | [] => p = q
  | r :: rs => Forall (fun e => buf e = None) rs /\
      match buf r with None => p = q | Some p' => p' = q /\ p = adv R q (ev_length r) end
  end.

Record firm_ok (reads writes : list event_queue_entry) (junk : list ascii) (segs : list (list ascii)) (b : firm) : Prop := {
  fo_queue : queue_ok reads writes b;
  fo_wb : wb_ok N writes junk segs b;
  fo_in : Forall (event_inside T) (reads ++ writes);
  fo_cnb : c_entry_nb b = zlen (c_e_queue b);
  fo_chain : exists q, chain (sata_read_ptr b) (c_e_queue b) q /\ read_start reads q (ftl_read_ptr b);
  fo_ptr : 0 <= sata_read_ptr b < R /\ 0 <= ftl_read_ptr b < R /\ 0 <= read_limit_ptr b < R;
  fo_empty : empty_read_buffer_frame b = R - sum_with ev_length (c_e_queue b ++ reads) /\ 0 <= empty_read_buffer_frame b;
  fo_len : zlen (write_buffer b) = N /\ zlen (read_buffer b) = R
}.

(** The frame where the pending writes start. *)
Definition wb_start (b : firm) (junk : list ascii) : Z := adv N (ftl_write_ptr b) (zlen junk).

(** What taking events out of the queue leaves as it is; frames of the write buffer
    may become free. *)
Definition same_buffers (b b' : firm) : Prop :=
  empty_read_buffer_frame b' = empty_read_buffer_frame b /\ write_buffer b' = write_buffer b /\
  empty_write_buffer_frame b <= empty_write_buffer_frame b'.

Lemma sector_lt : T < 2 ^ 31.
Proof using Hok HT. pose proof (ok_sectors _ Hok). rewrite (ok_sector_nb _ Hok) in HT. lia. Qed.

Lemma inside_exceeds s n : inside T s n -> exceeds cfg s n = false.
Proof using Hok HT.
  intros (? & ? & ?). pose proof sector_lt. unfold exceeds. rewrite u32_id by lia. lia.
Qed.

Lemma init_ok : firm_ok [] [] [] [] (INIT_IO_BUFFER N R).
Proof using HN HR.
  split; simpl; try done.
  - split; simpl; try done; try lia; try (by rewrite adv_0 by lia).
    unfold INIT_WB_VALID_ARRAY. split; [rewrite length_replicate; lia|]. split; [lia|]. simpl. by rewrite app_nil_r.
  - exists 0. done.
  - lia.
  - lia.
  - rewrite !length_replicate. lia.
Qed.

(** ** Completed reads *)

Lemma chain_app p cs q e : chain p cs q -> 0 < ev_length e -> buf e = Some q ->
  chain p (cs ++ [e]) (adv R q (ev_length e)).
Proof.
  revert p. induction cs as [|c cs IH]; intros p H He Hb; simpl in *; [by subst|].
  destruct H as (? & ? & H). auto.
Qed.

Lemma chain_range p cs q : chain p cs q -> 0 <= p < R -> 0 <= q < R.
Proof using HR.
  revert p. induction cs as [|c cs IH]; intros p H Hp; simpl in *; [by subst|].
  destruct H as (_ & _ & H). apply (IH _ H). apply adv_range. lia.
Qed.

Lemma completed_loop_spec cs : forall ok (b : firm) q, chain (sata_read_ptr b) cs q ->
  Forall (fun e => ev_length e < 2 ^ 31) cs -> 0 <= sata_read_ptr b < R -> c_e_queue b = cs -> c_entry_nb b = zlen cs ->
  wp (completed_loop R cs ok) (fun r b' => r = ok /\
    b' = set_completed [] 0 (set_sata_read q (empty_read_buffer_frame b + sum_with ev_length cs) b)) b.
Proof using HR.
  induction cs as [|e cs IH]; intros ok b q Hc HF Hp Hq Hnb; simpl in *.
  { wp_go. split; [done|]. subst q. rewrite Z.add_0_r. destruct b; simpl in *; subst; done. }
  destruct Hc as (Hl & Hb & Hc). apply Forall_cons in HF as [HF1 HF]. unfold READ_DATA_FROM_BUFFER_TO_HOST. wp_go.
  rewrite i32_id by lia. eapply wp_mono; [apply (sata_read_spec R ltac:(lia)); [lia|done]|].
  intros ? b1 ->. wp_go. simpl. rewrite bool_decide_true, andb_true_r by done.
  eapply wp_mono; [apply (IH _ _ q); simpl; try done|].
  - apply adv_range. lia.
  - rewrite Hnb. lia.
  - intros r b' [-> ->]. split; [done|]. unfold set_completed, set_sata_read. simpl. f_equal. lia.
Qed.

Lemma chain_pos p cs q : chain p cs q -> forall e, e ∈ cs -> 0 < ev_length e.
Proof.
  revert p. induction cs as [|c cs IH]; intros p H e He; [by inversion He|]. destruct H as (? & _ & H).
  apply elem_of_cons in He as [->|He]; [done|]. by eapply IH.
Qed.

(** Every read of the two queues fits the read buffer. *)
Lemma reads_pos reads writes junk segs b : firm_ok reads writes junk segs b ->
  forall e, e ∈ c_e_queue b ++ reads -> 0 < ev_length e.
Proof.
  intros [] e [He|He]%elem_of_app.
  - destruct fo_chain0 as (q & Hc & _). by eapply chain_pos.
  - rewrite Forall_forall in fo_in0. by destruct (fo_in0 e) as (_ & ? & _); [apply elem_of_app; left|].
Qed.

Lemma reads_bound reads writes junk segs b : firm_ok reads writes junk segs b ->
  forall e, e ∈ c_e_queue b ++ reads -> ev_length e <= R.
Proof.
  intros Hb e He. pose proof (reads_pos _ _ _ _ _ Hb) as Hp. destruct Hb as [].
  pose proof (sum_with_elem ev_length (c_e_queue b ++ reads) e) as H.
  assert (forall x, x ∈ c_e_queue b ++ reads -> 0 <= ev_length x) as Hx by (intros x Hx; specialize (Hp x Hx); lia).
  specialize (H Hx He). lia.
Qed.

Lemma sum_pos {A} (f : A -> Z) l : (forall e, e ∈ l -> 0 < f e) -> 0 <= sum_with f l.
Proof. intros H. apply (sum_with_lower f l 0). intros e He. specialize (H e He). lia. Qed.

Lemma dequeue_completed_spec reads writes junk segs b : firm_ok reads writes junk segs b ->
  wp (DEQUEUE_COMPLETED_READ R) (fun r b' => r = true /\ firm_ok reads writes junk segs b' /\
    c_e_queue b' = [] /\ ftl_write_ptr b' = ftl_write_ptr b /\
    empty_write_buffer_frame b' = empty_write_buffer_frame b /\ write_buffer b' = write_buffer b) b.
Proof using HR.
  intros Hb. pose proof (reads_pos _ _ _ _ _ Hb) as Hpos. pose proof (reads_bound _ _ _ _ _ Hb) as Hbound.
  destruct Hb. unfold DEQUEUE_COMPLETED_READ. wp_go. destruct fo_chain0 as (q & Hc & Hs).
  destruct fo_empty0 as [E1 E2]. rewrite sum_with_app in E1.
  destruct ((c_entry_nb b =? 0) || match c_e_queue b with [] => true | _ => false end) eqn:E.
  { wp_go. split; [done|]. assert (c_e_queue b = []) as Ec.
    { destruct (c_e_queue b); [done|]. rewrite orb_false_r in E. apply Z.eqb_eq in E. simpl in *. lia. }
    split; [|done]. split; try done; [by exists q|by rewrite sum_with_app]. }
  assert (0 <= sum_with ev_length (c_e_queue b)) as Hsc by (apply sum_pos; intros e He; apply Hpos, elem_of_app; by left).
  eapply wp_mono; [apply (completed_loop_spec _ true b q); try done|].
  - apply Forall_forall. intros e He. pose proof (Hbound e ltac:(apply elem_of_app; by left)). lia.
  - apply fo_ptr0.
  - intros r b' [-> ->]. split; [done|]. split; [|done]. split; simpl; try done.
    + by destruct fo_queue0.
    + by destruct fo_wb0.
    + exists q. done.
    + split; [|apply fo_ptr0]. eapply chain_range; [exact Hc|apply fo_ptr0].
    + split; lia.
Qed.

(** ** Taking an event out of the queue *)

Lemma pop_spec r rs (b : firm) : io_type r = READ ->
  wp (pop_last_read r (tail_pos (r :: rs))) (fun x b' => x = tail_pos rs /\ b' = b) b.
Proof.
  intros Hr. unfold tail_pos, pop_last_read. simpl. destruct rs as [|r' rs]; simpl.
  - rewrite Hr. simpl. by wp_go.
  - wp_go. split; [|done]. f_equal. lia.
Qed.

Lemma complete_spec e (b : firm) : c_entry_nb b = zlen (c_e_queue b) ->
  wp (complete_read e) (fun _ b' => b' = set_completed (c_e_queue b ++ [e]) (zlen (c_e_queue b ++ [e])) b) b.
Proof.
  intros Hc. unfold complete_read. wp_go. rewrite zlen_app, Hc. destruct (Z.eqb_spec (zlen (c_e_queue b)) 0) as [E|E].
  - wp_go. destruct (c_e_queue b); [done|simpl in *; lia].
  - destruct (c_e_queue b) eqn:El; [simpl in *; lia|]. wp_go. done.
Qed.

Lemma queue_pop {A} (e : A) l n : n = zlen (e :: l) -> (if n - 1 =? 0 then [] else l) = l.
Proof. intros ->. destruct l; simpl length; [done|]. by rewrite (proj2 (Z.eqb_neq _ _)) by lia. Qed.

(** The queue without its first read [r], whose data is in the read buffer at
    [q], the frame after those of the completed reads. *)
Lemma completed_ok r r' rs writes junk segs b q fp lp : firm_ok (r :: rs) writes junk segs b ->
  chain (sata_read_ptr b) (c_e_queue b) q -> ev_length r' = ev_length r -> buf r' = Some q ->
  fp = adv R q (ev_length r) -> 0 <= lp < R ->
  Forall (fun e => buf e = None) rs ->
  firm_ok rs writes junk segs (set_completed (c_e_queue b ++ [r']) (zlen (c_e_queue b ++ [r']))
    (set_read_limit_ptr lp (set_ftl_read_ptr fp (set_queue (rs ++ writes) (zlen (rs ++ writes)) (tail_pos rs) b)))).
Proof using HR.
  intros [] Hc Hl Hb -> Hlp Hrs. simpl in fo_in0. apply Forall_cons in fo_in0 as [Hr Hin].
  destruct fo_queue0 as [_ _ _ [_ Hrd]%Forall_cons]. destruct fo_empty0 as [E1 E2]. destruct Hr as (? & ? & ?).
  split; simpl; try done.
  - by destruct fo_wb0.
  - exists (adv R q (ev_length r)). split; [rewrite <- Hl; apply chain_app; [done|lia|done]|].
    destruct rs as [|r2 rs]; [done|]. apply Forall_cons in Hrs as [Hb2 Hrs]. unfold read_start. by rewrite Hb2.
  - split; [apply fo_ptr0|]. split; [apply adv_range; lia|done].
  - split; [|done]. rewrite E1. rewrite !sum_with_app. simpl. lia.
Qed.

Lemma dequeue_read r rs writes junk segs h k b w : firm_ok (r :: rs) writes junk segs b -> G h (S k) w ->
  wp (DEQUEUE_IO cfg N R) (fun _ v => firm_ok rs writes junk segs (fst v) /\ G h k (snd v) /\
    wb_start (fst v) junk = wb_start b junk /\ same_buffers b (fst v)) (b, w).
Proof using Hok HN HR HT BE.
  intros Hb Hw. pose proof Hb as []. destruct fo_queue0 as [Eq Enb Elr [[Hrt Hrv] Hrd]%Forall_cons].
  pose proof fo_in0 as [Hrin _]%Forall_cons. destruct fo_chain0 as (q & Hc & Hrs & Hstart).
  unfold DEQUEUE_IO, on_firm. wp_go. rewrite Eq, Enb. simpl app.
  rewrite (proj2 (Z.eqb_neq _ 0)) by (simpl length; lia). wp_go. rewrite Elr.
  eapply wp_mono; [by apply pop_spec|]. intros ? ? [-> ->]. wp_go.
  rewrite (queue_pop r (rs ++ writes)) by done. rewrite Hrv, Hrt. simpl Z.eqb. cbv iota.
  replace (zlen (r :: rs ++ writes) - 1) with (zlen (rs ++ writes)) by (simpl length; lia).
  set (b1 := set_queue _ _ _ _). destruct (buf r) as [p|] eqn:Ebuf.
  - destruct Hstart as [-> Hfp]. wp_go. eapply wp_mono; [by apply complete_spec|]. intros ? b2 ->.
    split; [|split; [by apply backend_mono|done]].
    pose proof (completed_ok r r rs writes junk segs b q _ (read_limit_ptr b) Hb Hc eq_refl Ebuf eq_refl (proj2 (proj2 fo_ptr0)) Hrs) as H.
    rewrite <- Hfp in H. replace b1 with (set_read_limit_ptr (read_limit_ptr b) (set_ftl_read_ptr (ftl_read_ptr b) b1)) by done. exact H.
  - wp_go. simpl ftl_read_ptr. destruct Hrin as (Hs1 & Hs2 & Hs3).
    assert (ev_length r <= R) as HlR by (eapply reads_bound; [exact Hb|]; apply elem_of_app; right; left).
    eapply wp_mono; [eapply (firm_read_spec cfg R ltac:(lia) _ _ w b1 (G h k)); [by apply backend_read|by apply inside_exceeds|lia|apply fo_ptr0|apply fo_ptr0]|].
    intros ? [b2 w2] [HG Eb2]. simpl in HG, Eb2. subst b2. wp_go. eapply wp_mono; [by apply complete_spec|].
    intros ? b3 ->. split; [|done].
    apply (completed_ok r _ rs writes junk segs b q); try done; [by rewrite Hstart|by rewrite Hstart|]. apply adv_range. lia.
Qed.

Lemma junk_count junk : Forall (eq chI) junk -> count_if is_V junk = 0.
Proof. unfold count_if. induction 1 as [|c l <- _ IH]; simpl; [done|]. by rewrite IH. Qed.

Lemma ends_app j g : g <> [] -> ends is_V g -> ends is_V (j ++ g).
Proof. intros Hg. destruct (exists_last Hg) as (g' & c & ->). unfold ends. by rewrite (assoc_L app), !last_snoc. Qed.

(** The frames of a write that is not valid are junk. *)
Lemma invalid_junk e g : seg_ok e g -> valid e <> VALID -> Forall (eq chI) g.
Proof.
  intros Hg Hv. pose proof (sg_chars _ _ Hg) as Hc. pose proof (sg_invalid _ _ Hg Hv) as Hn. clear Hg.
  induction Hc as [|c l Hc Hl IH]; [done|]. unfold count_if in Hn. simpl in Hn. fold (count_if is_V l) in Hn.
  pose proof (count_if_nonneg is_V l). destruct Hc as [->| ->]; simpl in Hn; [lia|]. constructor; [done|]. apply IH. lia.
Qed.

(** The write buffer after its first write has been written. *)
Lemma released_ok e ws junk g gs b arr' : wb_ok N (e :: ws) junk (g :: gs) b ->
  ring N arr' (adv N (ftl_write_ptr b) (zlen (junk ++ g)))
    ((mjoin gs ++ replicate (Z.to_nat (empty_write_buffer_frame b)) ch0) ++ replicate (length (junk ++ g)) ch0) ->
  wb_ok N ws [] gs (released N b arr' (zlen (junk ++ g))).
Proof using HN.
  intros [Wr We Wj Wp Ws Wl Wlast] Hr. destruct Wp as (Hb & Hg & Wp). split; simpl; try done.
  - rewrite <- (assoc_L app), <- replicate_add in Hr.
    by replace (Z.to_nat (empty_write_buffer_frame b + zlen (junk ++ g)))
      with (Z.to_nat (empty_write_buffer_frame b) + length (junk ++ g))%nat by lia.
  - lia.
  - rewrite adv_adv in Wp. rewrite adv_adv, Z.add_0_r, zlen_app. exact Wp.
  - rewrite Ws, adv_adv. f_equal. simpl. rewrite !zlen_app. lia.
  - rewrite last_cons in Wlast. by destruct (last ws).
Qed.

Lemma skipped_ok e ws junk g gs b : wb_ok N (e :: ws) junk (g :: gs) b -> valid e <> VALID ->
  wb_ok N ws (junk ++ g) gs b.
Proof.
  intros [Wr We Wj Wp Ws Wl Wlast] Hv. destruct Wp as (Hb & Hg & Wp). split; try done.
  - simpl in Wr. by rewrite <- !(assoc_L app) in Wr |- *.
  - apply Forall_app. split; [done|]. by eapply invalid_junk.
  - by rewrite zlen_app, <- adv_adv.
  - rewrite Ws. simpl. by rewrite <- !(assoc_L app).
  - rewrite last_cons in Wlast. by destruct (last ws).
Qed.

Lemma dequeue_write e ws junk g gs h k b w : firm_ok [] (e :: ws) junk (g :: gs) b -> G h (S k) w ->
  wp (DEQUEUE_IO cfg N R) (fun _ v => exists junk', firm_ok [] ws junk' gs (fst v) /\
    G (write_event cfg h e) k (snd v) /\
    wb_start (fst v) junk' = adv N (wb_start b junk) (zlen g) /\ same_buffers b (fst v) /\
    (valid e = VALID -> junk' = [])) (b, w).
Proof using Hok HN HR HT BE.
  intros [] Hw. destruct fo_queue0 as [Eq Enb Elr _]. simpl in Eq, Enb, Elr. simpl in fo_in0.
  apply Forall_cons in fo_in0 as [Hin Hins]. destruct fo_chain0 as (q & Hc & Hrs).
  pose proof (wb_placed _ _ _ _ _ fo_wb0) as (Hbuf & Hg & _). pose proof (sg_type _ _ Hg) as Ht.
  unfold DEQUEUE_IO, on_firm. wp_go. rewrite Eq, Enb.
  rewrite (proj2 (Z.eqb_neq _ 0)) by (simpl length; lia). wp_go. rewrite Elr. simpl pop_last_read. wp_go.
  rewrite (queue_pop e ws) by done. rewrite Ht. simpl (WRITE =? READ). simpl (WRITE =? WRITE). cbv iota.
  replace (Z.of_nat (S (length ws)) - 1) with (zlen ws) by lia.
  set (b1 := set_queue _ _ _ _).
  assert (forall junk', wb_ok N ws junk' gs b1 -> firm_ok [] ws junk' gs b1) as Hbuild.
  { intros junk' Hwb'. split; simpl; try done. by exists q. }
  destruct (Z.eqb_spec (valid e) VALID) as [Hv|Hv]; last first.
  { wp_go. exists (junk ++ g). unfold write_event, wb_start. simpl.
    rewrite (proj2 (Z.eqb_neq _ _) Hv). split; [|split; [by apply backend_mono|]].
    - apply Hbuild. pose proof (skipped_ok _ _ _ _ _ _ fo_wb0 Hv) as []. by split.
    - rewrite zlen_app, adv_adv. by split_and!. }
  destruct (sg_valid _ _ Hg Hv) as [Hcnt Hend]. pose proof (wb_ring _ _ _ _ _ fo_wb0) as Hr. simpl in Hr.
  rewrite <- !(assoc_L app), (assoc_L app junk) in Hr. pose proof (ring_length _ _ _ _ Hr) as HlN. rewrite !zlen_app in HlN.
  pose proof (count_if_le is_V g). destruct Hin as (Hs1 & Hs2 & Hs3). pose proof sector_lt.
  assert (g <> []) as Hgne by (intros ->; unfold count_if in Hcnt; simpl in Hcnt; lia).
  apply wp_bind. eapply wp_mono; [eapply (firm_write_spec cfg Hok N HN _ _ w b1 (junk ++ g) _ (G (host_write cfg (sector_nb e) (ev_length e) h) k));
    [apply backend_write; [done|lia|done]|lia|lia|lia|exact Hr| | |apply (wb_limit _ _ _ _ _ fo_wb0)]|].
  { rewrite count_if_app, (junk_count junk (wb_junk _ _ _ _ _ fo_wb0)). lia. }
  { by apply ends_app. }
  intros ? [b2 w2] (_ & HG & arr' & Eb2 & Hr2). simpl in HG, Eb2. subst b2. wp_go. exists [].
  unfold write_event, wb_start. simpl. rewrite Hv. simpl (VALID =? VALID). cbv iota.
  split; [|split; [done|split]].
  - pose proof (released_ok e ws junk g gs b arr' fo_wb0 Hr2) as Hwb'. split; simpl; try done; [|by exists q].
    by destruct Hwb'.
  - by rewrite !adv_adv, Z.add_0_r, zlen_app.
  - split; [|done]. unfold same_buffers. simpl. split_and!; [done|done|lia].
Qed.

(** ** Flushing *)

(** [n] events have left the queue: the reads first, then the writes, which are
    on the disk in their order. *)
Definition drained (n : nat) (reads writes : list event_queue_entry) (junk : list ascii) (segs : list (list ascii))
    (h : host) (k : nat) (b : firm) (v : firm * (ftl * dev)) : Prop := exists junk',
  let m := (n - length reads)%nat in
  firm_ok (drop n reads) (drop m writes) junk' (drop m segs) (fst v) /\
  G (foldl (write_event cfg) h (take m writes)) k (snd v) /\
  wb_start (fst v) junk' = adv N (wb_start b junk) (zlen (mjoin (take m segs))) /\
  same_buffers b (fst v) /\ (m = O -> junk' = junk) /\
  (forall e, last (take m writes) = Some e -> valid e = VALID -> junk' = []).

Lemma dequeue_times_spec n : forall reads writes junk segs h k b w, firm_ok reads writes junk segs b ->
  (n <= length (reads ++ writes))%nat -> G h (n + k) w ->
  wp (dequeue_times cfg N R n) (fun _ v => drained n reads writes junk segs h k b v) (b, w).
Proof using Hok HN HR HT BE.
  induction n as [|n IH]; intros reads writes junk segs h k b w Hb Hn Hw; simpl dequeue_times.
  { wp_go. exists junk. simpl. rewrite !drop_0. unfold wb_start. by rewrite adv_0 by (apply adv_range; lia). }
  apply wp_bind. destruct reads as [|r rs].
  - destruct writes as [|e ws]; [simpl in Hn; lia|]. pose proof (wb_placed _ _ _ _ _ (fo_wb _ _ _ _ _ Hb)) as Hp.
    destruct segs as [|g gs]; [done|]. clear Hp.
    eapply wp_mono; [by apply dequeue_write|]. intros ? [b1 w1] (junk1 & Hb1 & Hw1 & E1 & (E2 & E3 & E5) & E4). simpl in *.
    eapply wp_mono; [apply (IH [] ws _ _ (write_event cfg h e) k _ _ Hb1); [simpl; lia|exact Hw1]|].
    intros ? [b2 w2] (junk2 & H). exists junk2. simpl in *. rewrite Nat.sub_0_r in H. destruct H as (H1 & H2 & H3 & (H4 & H5 & H8) & H6 & H7).
    rewrite drop_nil in H1. split; [done|]. split; [done|]. split; [by rewrite H3, E1, zlen_app, adv_adv|].
    split; [split_and!; [congruence|congruence|lia]|]. split; [done|]. intros e'. rewrite last_cons. destruct (last (take n ws)) eqn:El; [naive_solver|].
    intros [= <-] Hv. rewrite H6 by (apply last_None in El; destruct n, ws; simpl in *; done || lia). auto.
  - eapply wp_mono; [by eapply dequeue_read|]. intros ? [b1 w1] (Hb1 & Hw1 & E1 & E2 & E3 & E5). simpl in *.
    eapply wp_mono; [apply (IH rs writes _ _ h k _ _ Hb1); [lia|exact Hw1]|].
    intros ? [b2 w2] (junk2 & H1 & H2 & H3 & (H4 & H5 & H6) & H7). exists junk2. unfold same_buffers. simpl in *.
    rewrite <- E1, <- E2, <- E3. split_and!; try done; try (by apply H7); lia.
Qed.

Lemma flush_spec i reads writes junk segs h k b w : firm_ok reads writes junk segs b ->
  (i < length (reads ++ writes))%nat -> G h (S i + k) w ->
  wp (FLUSH_EVENT_QUEUE_UNTIL cfg N R (Some i)) (fun _ v => drained (S i) reads writes junk segs h k b v) (b, w).
Proof using Hok HN HR HT BE.
  intros Hb Hi Hw. destruct (fo_queue _ _ _ _ _ Hb) as [Eq Enb _ _].
  unfold FLUSH_EVENT_QUEUE_UNTIL, on_firm. wp_go. rewrite Eq, Enb.
  assert (forall m, m = S i -> wp (dequeue_times cfg N R m) (fun _ v => drained (S i) reads writes junk segs h k b v) (b, w)) as H.
  { intros m ->. apply dequeue_times_spec; [done|lia|done]. }
  destruct (reads ++ writes) as [|e l] eqn:El; [simpl in Hi; lia|].
  case_bool_decide as Et; [|].
  - apply H. unfold tail_pos in Et. injection Et as Et. simpl in *. lia.
  - rewrite (proj2 (Nat.ltb_lt _ _)) by done. by apply H.
Qed.

End Queue.
