(* ===== verification/FirmCopy.v ===== *)
(** * Copying from the write buffer to the read buffer

    The loops of [COPY_DATA_TO_READ_BUFFER], which skip the frames marked
    invalid: they end when a frame is not marked, and copy consecutive frames
    when none of them is. *)

From stdpp Require Import prelude.
From Stdlib Require Import Ascii.
From S2P Require Import Prelude Config Blocks Mapping Firm FirmRing FirmFlush.

Local Open Scope Z_scope.

Abbreviation usable := (fun c : ascii => c <> chI).

(** The frames marked invalid at the front. *)
Fixpoint lead (l : list ascii) : nat :=
  match l with
  | [] => O
  | c :: l' => if Ascii.eqb c chI then S (lead l') else O
  end.

Lemma lead_lt l : Exists usable l -> (lead l < length l)%nat.
Proof.
  induction 1 as [c l Hc|c l _ IH]; simpl.
  - rewrite (proj2 (Ascii.eqb_neq _ _) Hc). lia.
  - destruct (Ascii.eqb c chI); lia.
Qed.

Lemma lead_app l k : Exists usable l -> lead (l ++ k) = lead l.
Proof.
  induction 1 as [c l Hc|c l _ IH]; simpl.
  - by rewrite (proj2 (Ascii.eqb_neq _ _) Hc).
  - by rewrite IH.
Qed.

Section Copy.
Context (N R : Z) (HN : 0 < N < 2 ^ 31) (HR : 0 < R < 2 ^ 31).

(** One step of a loop: the frames seen from the next one. *)
Lemma turn_skip arr p c l : ring N arr p (c :: l) -> Exists usable (c :: l) -> c = chI ->
  ring N arr (next_frame N p) (l ++ [c]) /\ Exists usable (l ++ [c]) /\ lead (c :: l) = S (lead (l ++ [c])).
Proof using HN.
  intros Hr He ->. rewrite next_adv by by eapply ring_ptr. apply ring_next in Hr.
  assert (Exists usable l) as Hl by (inversion He; done).
  split; [done|]. split; [apply Exists_app; by left|]. rewrite lead_app by done. done.
Qed.

Lemma turn_take arr p c l : ring N arr p (c :: l) -> c <> chI ->
  ring N arr (next_frame N p) (l ++ [c]) /\ Exists usable (l ++ [c]) /\ Z.of_nat (lead (l ++ [c])) < N /\ lead (c :: l) = O.
Proof using HN.
  intros Hr Hc. pose proof (ring_length _ _ _ _ Hr) as Hl. rewrite next_adv by by eapply ring_ptr. apply ring_next in Hr.
  assert (Exists usable (l ++ [c])) as He by (apply Exists_app; right; by constructor).
  split; [done|]. split; [done|]. pose proof (lead_lt _ He) as Hlt. rewrite length_app in Hlt. simpl in *.
  rewrite (proj2 (Ascii.eqb_neq _ _) Hc). split; [lia|done].
Qed.

Lemma take_turn (c : ascii) l n : 0 < n -> Forall usable (take (Z.to_nat n) (c :: l)) ->
  Forall usable (take (Z.to_nat (n - 1)) (l ++ [c])).
Proof.
  intros Hn. replace (Z.to_nat n) with (S (Z.to_nat (n - 1))) by lia. simpl. rewrite Forall_cons, take_app, Forall_app.
  intros [Hc Hl]. split; [done|]. apply Forall_take. by constructor.
Qed.

Lemma skip_frames_spec fuel : forall (b : firm) p count n l,
  ring N (wb_valid_array b) p l -> Exists usable l -> 0 <= n - count -> (n - count) * N + Z.of_nat (lead l) < Z.of_nat fuel ->
  wp (mark_frames N fuel not_I None p count n) (fun p' b' => b' = b /\
    (exists l', ring N (wb_valid_array b) p' l' /\ Exists usable l') /\
    (Forall usable (take (Z.to_nat (n - count)) l) -> p' = adv N p (n - count))) b.
Proof using HN.
  induction fuel as [|fuel IH]; intros b p count n l Hr He Hn Hf; [nia|]. pose proof (ring_ptr _ _ _ _ Hr) as Hp.
  unfold mark_frames. fold mark_frames. destruct (Z.eqb_spec count n) as [->|Hne].
  { wp_go. split; [done|]. split; [by exists l|]. intros _. by rewrite Z.sub_diag, adv_0. }
  destruct l as [|c l]; [by inversion He|]. unfold GET_WB_VALID_ARRAY_ENTRY, rd. wp_go.
  eapply wp_need; [by eapply ring_get|]. wp_go. unfold not_I. destruct (Ascii.eqb_spec c chI) as [Ec|Ec]; simpl negb; cbv iota.
  - destruct (turn_skip _ _ _ _ Hr He Ec) as (Hr' & He' & El).
    eapply wp_mono; [apply (IH b _ count n _ Hr' He'); lia|]. intros p' b' (-> & Hl & _). split; [done|]. split; [done|].
    replace (Z.to_nat (n - count)) with (S (Z.to_nat (n - count - 1))) by lia. simpl. rewrite Forall_cons. by intros [? _].
  - destruct (turn_take _ _ _ _ Hr Ec) as (Hr' & He' & El & _).
    eapply wp_mono; [apply (IH b _ (count + 1) n _ Hr' He'); [lia|nia]|].
    intros p' b' (-> & Hl & Hx). split; [done|]. split; [done|]. intros HF. apply take_turn in HF; [|lia].
    rewrite Hx by by replace (n - (count + 1)) with (n - count - 1) by lia.
    rewrite next_adv, adv_adv by done. f_equal. lia.
Qed.

Lemma copy_frames_spec fuel : forall (b : firm) dst src count n l,
  ring N (wb_valid_array b) src l -> Exists usable l -> 0 <= n - count <= R ->
  (n - count) * N + Z.of_nat (lead l) < Z.of_nat fuel ->
  zlen (write_buffer b) = N -> zlen (read_buffer b) = R -> ftl_read_ptr b = dst -> 0 <= dst < R ->
  wp (copy_frames N R fuel dst src count n) (fun _ b' => exists rb',
    b' = set_ftl_read_ptr (adv R dst (n - count)) (set_read_buffer rb' b) /\ zlen rb' = R /\
    (forall i, n - count <= i < R -> aget rb' (adv R dst i) = aget (read_buffer b) (adv R dst i)) /\
    (Forall usable (take (Z.to_nat (n - count)) l) ->
     forall i, 0 <= i < n - count -> aget rb' (adv R dst i) = aget (write_buffer b) (adv N src i))) b.
Proof using HN HR.
  induction fuel as [|fuel IH]; intros b dst src count n l Hr He Hn Hf Hwb Hrb Hd Hdst; [nia|].
  pose proof (ring_ptr _ _ _ _ Hr) as Hp. simpl copy_frames. destruct (Z.eqb_spec count n) as [->|Hne].
  { wp_go. exists (read_buffer b). rewrite Z.sub_diag, adv_0 by done. split; [destruct b; simpl in *; by subst|].
    split; [done|]. split; [done|]. intros _ i Hi. lia. }
  destruct l as [|c l]; [by inversion He|]. unfold GET_WB_VALID_ARRAY_ENTRY, rd. wp_go.
  eapply wp_need; [by eapply ring_get|]. wp_go. destruct (Ascii.eqb_spec c chI) as [Ec|Ec].
  - destruct (turn_skip _ _ _ _ Hr He Ec) as (Hr' & He' & El).
    eapply wp_mono; [apply (IH b dst _ count n _ Hr' He'); try done; lia|].
    intros ? b' (rb' & Eb & Hlen & Hfr & _). exists rb'. split; [done|]. split; [done|]. split; [done|].
    replace (Z.to_nat (n - count)) with (S (Z.to_nat (n - count - 1))) by lia. simpl. rewrite Forall_cons. by intros [? _].
  - destruct (turn_take _ _ _ _ Hr Ec) as (Hr' & He' & El & _).
    destruct (aget_range (write_buffer b) src) as [x Hx]; [lia|].
    destruct (aset_range (read_buffer b) dst x) as [rb Hrb']; [lia|].
    wp_go. unfold wr. wp_go. cbn [ftl_read_ptr set_read_buffer].
    rewrite Hd. fold (next_frame R dst).
    eapply wp_mono; [apply (IH (set_ftl_read_ptr (next_frame R dst) (set_read_buffer rb b)) _ _ (count + 1) n _ Hr' He'); simpl; try done; try lia; try nia|].
    { apply aset_length in Hrb'. lia. }
    { rewrite next_adv by done. apply adv_range. lia. }
    rewrite !next_adv by done. replace (n - (count + 1)) with (n - count - 1) by lia.
    assert (forall i, adv R (adv R dst 1) (i - 1) = adv R dst i) as Ei by (intros i; rewrite adv_adv; f_equal; lia).
    intros ? b' (rb' & -> & Hlen & Hfr & Hex). exists rb'. rewrite Ei. split; [done|]. split; [done|].
    assert (aget rb' dst = Some x) as Hdx.
    { rewrite <- (adv_N R dst) at 1 by done. rewrite <- Ei, Hfr, Ei, adv_N by (done || lia). by eapply aget_aset_eq. }
    split.
    + intros i Hi. rewrite <- Ei, Hfr by lia. rewrite Ei. simpl. apply (aget_aset_ne _ _ _ _ _ Hrb').
      intros E. rewrite <- (adv_0 R dst) in E at 2 by done. apply adv_inj in E; lia.
    + intros HF i Hi. apply take_turn in HF; [|lia]. destruct (decide (i = 0)) as [->|Hi0].
      * rewrite !adv_0 by done. congruence.
      * rewrite <- Ei, (Hex HF) by lia. simpl. rewrite adv_adv. do 2 f_equal. lia.
Qed.

Lemma copy_fuel_enough n l arr p : 0 <= n -> ring N arr p l -> Exists usable l ->
  (n - 0) * N + Z.of_nat (lead l) < Z.of_nat (copy_fuel N n).
Proof using HN.
  intros Hn Hr He. apply lead_lt in He. apply ring_length in Hr. unfold copy_fuel, wb_turn.
  rewrite Nat2Z.inj_succ, Nat2Z.inj_mul, !Nat2Z.inj_succ, !Z2Nat.id by lia. nia.
Qed.

Lemma usable_after arr p l l' a n : 0 <= a -> 0 <= n -> a + n <= N -> ring N arr p l -> ring N arr (adv N p a) l' ->
  Forall usable (take (Z.to_nat (a + n)) l) -> Forall usable (take (Z.to_nat n) l').
Proof using HN.
  intros Ha Hn Hle Hr Hr' HF. pose proof (ring_length _ _ _ _ Hr) as Hl.
  rewrite <- (take_drop (Z.to_nat a) l) in Hr. apply ring_adv in Hr as Hr2.
  rewrite length_take in Hr2. replace (Z.of_nat _) with a in Hr2 by lia. rewrite (ring_unique _ _ _ _ _ Hr' Hr2).
  rewrite Z2Nat.inj_add, <- take_take_drop in HF by lia. apply Forall_app in HF as [_ HF].
  rewrite take_app_le by (rewrite length_drop; lia). done.
Qed.

(** The read [d] gets [n] frames of the read buffer; they are copies of its own
    sectors' frames when no frame of the write up to them is marked. *)
Lemma copy_data_spec (d e : event_queue_entry) (b : firm) p l : let q := ftl_read_ptr b in
  let a := sector_nb d - sector_nb e in let n := ev_length d in
  buf d = Some q -> buf e = Some p -> ring N (wb_valid_array b) p l -> Exists usable l -> 0 <= a < 2 ^ 31 -> 0 <= n <= R ->
  zlen (write_buffer b) = N -> zlen (read_buffer b) = R -> 0 <= q < R -> 0 <= read_limit_ptr b < R ->
  wp (COPY_DATA_TO_READ_BUFFER N R d e) (fun _ b' => exists rb',
    b' = set_read_limit_ptr (adv R q n) (set_ftl_read_ptr (adv R q n) (set_read_buffer rb' b)) /\ zlen rb' = R /\
    (forall i, n <= i < R -> aget rb' (adv R q i) = aget (read_buffer b) (adv R q i)) /\
    (a + n <= N -> Forall usable (take (Z.to_nat (a + n)) l) ->
     forall i, 0 <= i < n -> aget rb' (adv R q i) = aget (write_buffer b) (adv N p (a + i)))) b.
Proof using HN HR.
  intros q a n Hd He Hr Hl Ha Hn Hwb Hrb Hq Hlim. unfold COPY_DATA_TO_READ_BUFFER. rewrite Hd, He. wp_go.
  fold a n. rewrite i32_id by lia.
  eapply wp_mono; [apply (skip_frames_spec _ _ _ 0 a l Hr Hl); [lia|by eapply copy_fuel_enough; [lia|..]]|].
  intros p' b' (-> & (l' & Hr' & Hl') & Hp'). wp_go.
  eapply wp_mono; [apply (copy_frames_spec _ _ q p' 0 n l' Hr' Hl'); try done; [lia|by eapply copy_fuel_enough; [lia|..]]|].
  rewrite !Z.sub_0_r in *. intros ? b' (rb' & -> & Hlen & Hfr & Hex). wp_go.
  eapply wp_mono; [apply (rb_limit_spec R); [lia|done|apply adv_range; lia]|]. intros ? b' ->.
  exists rb'. split; [done|]. split; [done|]. split; [done|]. intros Hle HF i Hi.
  assert (p' = adv N p a) as ->.
  { apply Hp'. rewrite Z2Nat.inj_add, <- take_take_drop in HF by lia. by apply Forall_app in HF as [HF _]. }
  rewrite Hex; [by rewrite adv_adv| |done]. eapply usable_after; [..|exact Hr|exact Hr'|exact HF]; lia || done.
Qed.

End Copy.
