(* ===== verification/FirmServe.v ===== *)
(** * Requests through the buffers

    [SECURE_WRITE_BUFFER], [SECURE_READ_BUFFER], [ENQUEUE_READ] and the entry
    points [SSD_WRITE] and [SSD_READ] on the invariant of the event queue. *)

From stdpp Require Import prelude gmap.
From Stdlib Require Import Ascii.
From S2P Require Import Prelude Config Blocks Mapping Device Gc Ftl Host Firm FirmRing FirmWrite FirmFlush FirmQueue FirmCopy.

Local Open Scope Z_scope.

(** ** The check of a read against the pending writes *)

(** A pending write shares a sector with the request. *)
Definition overlaps (s n : Z) (e : event_queue_entry) : bool :=
  (valid e =? VALID) && (sector_nb e <? s + n) && (s <? sector_nb e + ev_length e).

Lemma overlap_test T s n e : T < 2 ^ 31 -> inside T s n -> event_inside T e ->
  (valid e =? VALID) && (sector_nb e <=? last_sector s n) && (s <=? last_sector (sector_nb e) (ev_length e)) = overlaps s n e.
Proof.
  intros HT (? & ? & ?) (? & ? & ?). unfold overlaps, last_sector. rewrite !i32_id by lia.
  f_equal; [f_equal|]; apply eq_true_iff_eq; rewrite Z.leb_le, Z.ltb_lt; lia.
Qed.

Lemma last_overlap_spec T s n l : T < 2 ^ 31 -> inside T s n -> Forall (event_inside T) l -> forall i ret,
  match last_overlap l i s n ret with
  | Some j => (ret = Some j /\ Forall (fun e => overlaps s n e = false) l) \/
      exists d e, j = (i + d)%nat /\ l !! d = Some e /\ overlaps s n e = true /\
        Forall (fun e => overlaps s n e = false) (drop (S d) l)
  | None => ret = None /\ Forall (fun e => overlaps s n e = false) l
  end.
Proof.
  intros HT Hi HF. induction HF as [|e l He _ IH]; intros i ret; simpl.
  { destruct ret; [left|]; done. }
  rewrite (overlap_test T) by done. specialize (IH (S i) (if overlaps s n e then Some i else ret)).
  destruct (last_overlap _ _ _ _ _) as [j|].
  - destruct IH as [[Hr HF]|(d & e' & -> & Hl & Ho & HF)].
    + destruct (overlaps s n e) eqn:Ho; [|left; by split; [|constructor]].
      injection Hr as <-. right. exists O, e. rewrite drop_0. split; [lia|done].
    + right. exists (S d), e'. split; [lia|done].
  - destruct IH as [Hr HF]. destruct (overlaps s n e) eqn:Ho; [done|]. by split; [|constructor].
Qed.

(** The sectors of pending data belong to pending writes. *)
Lemma pending_keys N es : forall p segs k, k ∈ (pending_data N p es segs).*1 ->
  exists e, e ∈ es /\ valid e = VALID /\ sector_nb e <= k < sector_nb e + ev_length e.
Proof.
  induction es as [|e es IH]; intros p [|g segs] k Hk; simpl in Hk; try by inversion Hk.
  rewrite fmap_app in Hk. apply elem_of_app in Hk as [Hk|Hk].
  - destruct (Z.eqb_spec (valid e) VALID) as [Hv|]; [|by inversion Hk]. exists e. split; [left|]. split; [done|].
    apply elem_of_seqZ. apply list_elem_of_fmap in Hk as ((k' & f) & -> & Hk). by apply elem_of_zip_l in Hk.
  - destruct (IH _ _ _ Hk) as (e' & ? & ?). exists e'. split; [by right|done].
Qed.

(** No pending data for the sectors of a request that no pending write overlaps. *)
Lemma no_overlap_no_data N p es segs s n k : Forall (fun e => overlaps s n e = false) es -> s <= k < s + n ->
  effect (pending_data N p es segs) !! k = None.
Proof.
  intros HF Hk. apply eq_None_not_Some. intros H. apply effect_Some, pending_keys in H as (e & He & Hv & Hr).
  rewrite Forall_forall in HF. specialize (HF e He). unfold overlaps in HF. rewrite Hv in HF. simpl in HF. lia.
Qed.

Section Serve.
Context (cfg : config) (Hok : cfg_ok cfg) {D : Device} (T N R : Z).
Context (HN : 0 < N < 2 ^ 31) (HR : 0 < R < 2 ^ 31) (HT : T <= SECTOR_NB cfg).
Context (G : host -> nat -> ftl * dev -> Prop) {BE : Backend cfg D T N R G}.

Local Abbreviation firm_ok := (firm_ok T N R).
Local Abbreviation drained := (drained cfg T N R G).

Lemma frames_total reads writes junk segs b : firm_ok reads writes junk segs b ->
  zlen junk + zlen (mjoin segs) + empty_write_buffer_frame b = N.
Proof using HN.
  intros [_ Hwb _ _ _ _ _ _]. pose proof (ring_length _ _ _ _ (wb_ring _ _ _ _ _ Hwb)) as H.
  pose proof (wb_empty _ _ _ _ _ Hwb). rewrite !zlen_app, length_replicate in H. lia.
Qed.

(** ** Flushing the buffers *)

Lemma tail_pos_cons e l : tail_pos (e :: l) = Some (length l).
Proof. unfold tail_pos. simpl. f_equal. lia. Qed.

Lemma secure_write_spec reads writes junk segs h k b w : firm_ok reads writes junk segs b ->
  G h (length (reads ++ writes) + k) w ->
  wp (SECURE_WRITE_BUFFER cfg N R) (fun _ v => firm_ok [] [] [] [] (fst v) /\
    G (foldl (write_event cfg) h writes) k (snd v) /\ empty_write_buffer_frame (fst v) = N) (b, w).
Proof using Hok HN HR HT BE.
  intros Hb Hw. destruct (fo_queue _ _ _ _ _ _ _ _ Hb) as [Eq Enb _ _]. unfold SECURE_WRITE_BUFFER, on_firm. wp_go. rewrite Eq.
  assert (forall v, firm_ok [] [] [] [] v -> empty_write_buffer_frame v = N) as Hfree
    by (intros v Hv%frames_total; simpl in Hv; lia).
  destruct (reads ++ writes) as [|e l] eqn:El.
  - apply app_eq_nil in El as [-> ->]. pose proof (fo_wb _ _ _ _ _ _ _ _ Hb) as [].
    simpl in wb_last. subst junk. destruct segs; [|done]. simpl.
    unfold FLUSH_EVENT_QUEUE_UNTIL, on_firm. wp_go. split; [done|]. split; [done|auto].
  - rewrite tail_pos_cons. eapply wp_mono; [apply (flush_spec cfg Hok T N R HN HR HT G (length l) reads writes junk segs h k); [done| |]|].
    { rewrite El. simpl. lia. } { done. }
    intros ? v (junk' & Hv & HG & _ & _ & _ & _). assert (S (length l) = length reads + length writes)%nat as Hlen.
    { rewrite <- length_app, El. done. }
    rewrite !drop_ge in Hv by lia. rewrite take_ge in HG by lia.
    pose proof (fo_wb _ _ _ _ _ _ _ _ Hv) as []. simpl in wb_last. subst junk'.
    destruct (drop _ segs); [|done]. auto.
Qed.

Lemma secure_read_spec reads writes junk segs h k b w : firm_ok reads writes junk segs b ->
  G h (length reads + k) w ->
  wp (SECURE_READ_BUFFER cfg N R) (fun r v => r = true /\ firm_ok [] writes junk segs (fst v) /\
    G h k (snd v) /\ wb_start N (fst v) junk = wb_start N b junk /\ write_buffer (fst v) = write_buffer b /\
    empty_read_buffer_frame (fst v) = R) (b, w).
Proof using Hok HN HR HT BE.
  intros Hb Hw. unfold SECURE_READ_BUFFER, on_firm. wp_go.
  apply wp_mono with (P := fun r v => r = true /\ firm_ok reads writes junk segs (fst v) /\ c_e_queue (fst v) = [] /\
    snd v = w /\ wb_start N (fst v) junk = wb_start N b junk /\ write_buffer (fst v) = write_buffer b).
  { pose proof (fo_cnb _ _ _ _ _ _ _ _ Hb) as Ec. destruct (Z.eqb_spec (c_entry_nb b) 0) as [E|E]; simpl negb; cbv iota.
    - wp_go. split; [done|]. split; [done|]. split; [|done]. simpl. destruct (c_e_queue b); [done|simpl in *; lia].
    - wp_go. eapply wp_mono; [by apply (dequeue_completed_spec T N R HR)|]. intros r b' (-> & H1 & H2 & H3 & _ & H5).
      unfold wb_start. simpl. rewrite H3. done. }
  intros r [b1 w1] (-> & Hb1 & Hc & Hw1 & Hst & Hwb). simpl in Hb1, Hc, Hw1, Hst, Hwb. subst w1. wp_go. simpl fst.
  rewrite (q_last _ _ _ (fo_queue _ _ _ _ _ _ _ _ Hb1)).
  assert (forall v, firm_ok [] writes junk segs v -> c_e_queue v = [] -> empty_read_buffer_frame v = R) as Hfree.
  { intros v [] Hcv. rewrite Hcv in fo_empty. simpl in fo_empty. lia. }
  destruct reads as [|e l].
  { simpl tail_pos. wp_go. split; [done|]. split; [done|]. split; [done|]. split; [done|]. split; [done|]. auto. }
  rewrite tail_pos_cons. wp_go.
  eapply wp_mono; [apply (flush_spec cfg Hok T N R HN HR HT G (length l) (e :: l) writes junk segs h k); [done| |done]|].
  { rewrite length_app. simpl. lia. }
  intros ? [b2 w2] (junk' & Hv & HG & Hst2 & (_ & Hwb2 & _) & Hj & _). rewrite Nat.sub_diag, !drop_0, drop_ge in * by (simpl; lia).
  rewrite Hj in * by done. simpl in HG, Hst2, Hv. wp_go.
  eapply wp_mono; [by apply (dequeue_completed_spec T N R HR)|]. intros r b' (-> & H1 & H2 & H3 & _ & H5). wp_go. simpl in *.
  split; [done|]. split; [done|]. split; [done|]. split; [|split; [congruence|auto]]. rewrite <- Hst.
  unfold wb_start in *. rewrite H3. rewrite Hst2. by rewrite adv_adv, Z.add_0_r.
Qed.

(** ** [ENQUEUE_READ] *)

(** The queue with a new read behind the other reads. *)
Definition with_read (e : event_queue_entry) (reads writes : list event_queue_entry) (b : firm) : firm :=
  set_empty_read (empty_read_buffer_frame b - ev_length e)
    (set_queue (reads ++ e :: writes) (zlen (reads ++ e :: writes)) (Some (length reads)) b).

Lemma insert_spec e reads writes b : e_queue b = reads ++ writes -> e_entry_nb b = zlen (reads ++ writes) ->
  last_read_entry b = tail_pos reads ->
  wp (insert_read e) (fun _ b' => set_empty_read (empty_read_buffer_frame b' - ev_length e) b' = with_read e reads writes b) b.
Proof.
  intros Eq Enb El. unfold insert_read, with_read. wp_go. rewrite El, Eq, Enb. destruct reads as [|r reads].
  - simpl. wp_go. replace (if zlen writes =? 0 then [e] else e :: writes) with (e :: writes) by by destruct writes.
    simpl length. do 2 f_equal. lia.
  - rewrite tail_pos_cons. rewrite (proj2 (Nat.ltb_lt _ _)) by (rewrite length_app; simpl; lia). wp_go.
    change (S (length reads)) with (length (r :: reads)). rewrite take_app_length, drop_app_length.
    rewrite !zlen_app. simpl length. do 2 f_equal. lia.
Qed.

(** A read without data behind the other reads. *)
Lemma with_read_ok reads writes junk segs b s n : firm_ok reads writes junk segs b -> inside T s n ->
  n <= empty_read_buffer_frame b ->
  firm_ok (reads ++ [Event READ VALID s n None]) writes junk segs (with_read (Event READ VALID s n None) reads writes b).
Proof.
  intros [[Eq Enb El Hrd] Hwb Hin Hcnb (q & Hc & Hst) Hptr [E1 E2] Hlen] Hi Hn. unfold with_read. split; simpl; try done.
  - split; simpl; try done; rewrite <- ?(assoc_L app); try done.
    + destruct reads; [done|]. simpl app. by rewrite tail_pos_cons, length_app, Nat.add_comm.
    + apply Forall_app. split; [done|]. by constructor.
  - by destruct Hwb.
  - rewrite <- (assoc_L app). apply Forall_app in Hin as [H1 H2]. apply Forall_app. split; [done|]. by constructor.
  - exists q. split; [done|]. destruct reads as [|r rs]; simpl in *; [done|]. destruct Hst as [H1 H2].
    split; [|done]. apply Forall_app. split; [done|]. by constructor.
  - rewrite (assoc_L app), sum_with_app, E1. simpl. lia.
Qed.

(** A read whose data has been copied to the frames that come next. *)
Lemma with_copy_ok writes junk segs b s n rb : let q := ftl_read_ptr b in let q' := adv R q n in
  firm_ok [] writes junk segs b -> inside T s n -> n <= empty_read_buffer_frame b -> zlen rb = R ->
  firm_ok [Event READ VALID s n (Some q)] writes junk segs
    (with_read (Event READ VALID s n (Some q)) [] writes (set_read_limit_ptr q' (set_ftl_read_ptr q' (set_read_buffer rb b)))).
Proof using HR.
  intros q q' [[Eq Enb El Hrd] Hwb Hin Hcnb (qc & Hc & Hst) Hptr [E1 E2] Hlen] Hi Hn Hrb. unfold with_read.
  assert (0 <= q' < R) by (apply adv_range; lia). simpl in Hst. split; simpl; try done.
  - split; simpl; try done. by constructor.
  - by destruct Hwb.
  - by constructor.
  - exists q. split; [unfold q; by rewrite Hst|]. done.
  - split; [apply Hptr|done].
  - rewrite sum_with_app. rewrite app_nil_r in E1. simpl. lia.
  - split; [apply Hlen|done].
Qed.

Lemma placed_lookup p es segs j e : 0 <= p < N -> placed N p es segs -> es !! j = Some e ->
  exists g, segs !! j = Some g /\ buf e = Some (adv N p (zlen (mjoin (take j segs)))) /\ seg_ok e g.
Proof using HN.
  revert p segs j. induction es as [|e' es IH]; intros p [|g segs] [|j] Hp Hpl Hj; try done; destruct Hpl as (H1 & H2 & H3).
  - injection Hj as ->. exists g. simpl. by rewrite adv_0.
  - destruct (IH _ _ _ (adv_range N p (zlen g) ltac:(lia)) H3 Hj) as (g' & ? & Hb & ?). exists g'. simpl.
    by rewrite zlen_app, <- adv_adv.
Qed.

(** The frames of the last write that left the queue are free. *)
Lemma drained_frames reads writes junk segs h k b v j e : firm_ok reads writes junk segs b ->
  drained (S (length reads + j)) reads writes junk segs h k b v -> writes !! j = Some e -> valid e = VALID ->
  exists p g K, buf e = Some p /\ seg_ok e g /\ ring N (wb_valid_array (fst v)) p (replicate (length g) ch0 ++ K).
Proof using HN.
  intros Hb (junk' & Hv & _ & Hst & _ & _ & Hj) He Hval.
  replace (S (length reads + j) - length reads)%nat with (S j) in * by lia.
  pose proof (fo_wb _ _ _ _ _ _ _ _ Hb) as Hwb.
  destruct (placed_lookup _ _ _ _ _ (adv_range N _ _ ltac:(lia)) (wb_placed _ _ _ _ _ Hwb) He) as (g & Hg & Hbuf & Hok').
  set (p := adv N (adv N (ftl_write_ptr b) (zlen junk)) (zlen (mjoin (take j segs)))) in *.
  rewrite (Hj e) in * by (done || by rewrite (take_S_r _ _ e), last_snoc). clear Hj.
  assert (mjoin (take (S j) segs) = mjoin (take j segs) ++ g) as Ej by (rewrite (take_S_r _ _ g), join_app by done; simpl; by rewrite app_nil_r).
  pose proof (frames_total _ _ _ _ _ Hb) as HtN. pose proof (frames_total _ _ _ _ _ Hv) as HtN'.
  assert (mjoin segs = mjoin (take (S j) segs) ++ mjoin (drop (S j) segs)) as Es by by rewrite <- join_app, take_drop.
  rewrite Es, Ej, !zlen_app in HtN. simpl in HtN'. pose proof (wb_empty _ _ _ _ _ Hwb).
  pose proof (fo_wb _ _ _ _ _ _ _ _ Hv) as Hwb'. pose proof (wb_ring _ _ _ _ _ Hwb') as Hr. simpl in Hr.
  exists p, g, (mjoin (drop (S j) segs) ++ replicate (Z.to_nat (empty_write_buffer_frame (fst v)) - length g) ch0).
  split; [done|]. split; [done|]. apply ring_back; [apply adv_range; lia|].
  rewrite length_replicate, <- (assoc_L app), <- replicate_add, Nat.sub_add by lia.
  replace (adv N p (zlen g)) with (ftl_write_ptr (fst v)); [done|].
  unfold wb_start in Hst. simpl in Hst. rewrite adv_0 in Hst by by eapply ring_ptr.
  rewrite Hst, Ej, zlen_app. unfold p. by rewrite !adv_adv, Z.add_assoc.
Qed.

(** A read has joined the reads of the queue; the first [m] writes have been
    written, with the reads before them, and no other one shares a sector with
    the read.  If the read has its data already, it is that of its sectors'
    frames of the last of these writes. *)
Definition read_enqueued (s n : Z) (writes : list event_queue_entry) (junk : list ascii)
    (segs : list (list ascii)) (h : host) (k : nat) (b : firm) (v : firm * (ftl * dev)) : Prop :=
  exists m junk' reads' src,
  firm_ok (reads' ++ [Event READ VALID s n src]) (drop m writes) junk' (drop m segs) (fst v) /\
  G (foldl (write_event cfg) h (take m writes)) (length reads' + length (drop m writes) + k) (snd v) /\
  Forall (fun e => overlaps s n e = false) (drop m writes) /\
  wb_start N (fst v) junk' = adv N (wb_start N b junk) (zlen (mjoin (take m segs))) /\
  match src with
  | None => True
  | Some q => exists e p, last (take m writes) = Some e /\ buf e = Some p /\ valid e = VALID /\
      sector_nb e <= s /\ s + n <= sector_nb e + ev_length e /\
      forall i, 0 <= i < n -> aget (read_buffer (fst v)) (adv R q i) = aget (write_buffer b) (adv N p (s - sector_nb e + i))
  end.

(** The read after the write it depends on has been written. *)
Lemma dependent_read s n reads writes junk segs h k b b1 w1 j e : firm_ok reads writes junk segs b ->
  inside T s n -> n <= empty_read_buffer_frame b -> writes !! j = Some e -> overlaps s n e = true ->
  Forall (fun e => overlaps s n e = false) (drop (S j) writes) ->
  drained (S (length reads + j)) reads writes junk segs h (length (drop (S j) writes) + k) b (b1, w1) ->
  wp (if (sector_nb e <=? s) && (u32 (s + n) <=? u32 (sector_nb e + ev_length e)) then
        p ← on_fst (gets ftl_read_ptr);
        on_fst (COPY_DATA_TO_READ_BUFFER N R (Event READ VALID s n (Some p)) e) ;;
        mret (Event READ VALID s n (Some p))
      else mret (Event READ VALID s n None))
    (fun new v => ev_length new = n /\ e_queue (fst v) = drop (S j) writes /\ e_entry_nb (fst v) = zlen (drop (S j) writes) /\
      last_read_entry (fst v) = None /\
      read_enqueued s n writes junk segs h k b (with_read new [] (drop (S j) writes) (fst v), snd v)) (b1, w1).
Proof using Hok HN HR HT.
  intros Hb Hi Hn He Hov HF Hd. pose proof (sector_lt cfg Hok T HT) as HT31. pose proof Hi as (Hs0 & Hn0 & HsT).
  pose proof (fo_in _ _ _ _ _ _ _ _ Hb) as [_ Hinw]%Forall_app. pose proof (Forall_lookup_1 _ _ _ _ Hinw He) as (He1 & He2 & He3).
  assert (valid e = VALID) as Hv by (unfold overlaps in Hov; lia).
  destruct (drained_frames _ _ _ _ _ _ _ _ _ _ Hb Hd He Hv) as (p & g & K & Hp & Hg & Hr). destruct Hd as (junk' & H1 & H2 & H3 & (H4 & H5 & _) & _).
  replace (S (length reads + j) - length reads)%nat with (S j) in * by lia. rewrite drop_ge in H1 by lia. simpl in *.
  destruct (fo_queue _ _ _ _ _ _ _ _ H1) as [Eq1 Enb1 El1 _]. simpl in Eq1, Enb1, El1.
  destruct ((sector_nb e <=? s) && _) eqn:Ein; wp_go.
  - rewrite !u32_id in Ein by lia. apply andb_true_iff in Ein as [Ein1%Z.leb_le Ein2%Z.leb_le].
    destruct (sg_valid _ _ Hg Hv) as [Hcnt _]. pose proof (count_if_le is_V g).
    pose proof (fo_ptr _ _ _ _ _ _ _ _ H1) as Hptr. pose proof (fo_len _ _ _ _ _ _ _ _ H1) as [Hl1 Hl2].
    pose proof (ring_length _ _ _ _ Hr) as HlN. rewrite zlen_app, length_replicate in HlN.
    pose proof (fo_empty _ _ _ _ _ _ _ _ H1) as [Hem _]. rewrite app_nil_r, H4 in Hem.
    assert (0 <= sum_with ev_length (c_e_queue b1)) as Hsum
      by (apply sum_pos; intros x Hx; eapply reads_pos; [exact H1|]; by rewrite app_nil_r).
    assert (forall m, (m <= length g)%nat -> Forall usable (take m (replicate (length g) ch0 ++ K))) as Hus.
    { intros m Hm. rewrite take_app_le by (rewrite length_replicate; lia). by apply Forall_take, Forall_replicate. }
    eapply wp_mono; [apply (copy_data_spec N R HN HR (Event READ VALID s n (Some (ftl_read_ptr b1))) e b1 p _ eq_refl Hp Hr); simpl; try done; try lia|].
    { apply Exists_app. left. destruct g; [unfold count_if in Hcnt; simpl in Hcnt; lia|]. by constructor. }
    intros ? b2 (rb & -> & Hrb & _ & Hex). wp_go. simpl in *. split_and!; try done.
    exists (S j), junk', [], (Some (ftl_read_ptr b1)). split; [apply with_copy_ok; try done; lia|]. split_and!; try done.
    exists e, p. rewrite (take_S_r _ _ e), last_snoc by done. split_and!; try done. intros i Hi'. rewrite <- H5. apply Hex; [lia| |lia].
    apply Hus. lia.
  - split_and!; try done. exists (S j), junk', [], None. split; [apply (with_read_ok []); try done; simpl; lia|]. by split_and!.
Qed.

Lemma enqueue_read_spec s n reads writes junk segs h k b w : firm_ok reads writes junk segs b ->
  inside T s n -> n <= empty_read_buffer_frame b -> G h (length reads + length writes + k) w ->
  wp (ENQUEUE_READ cfg N R s n) (fun _ v => read_enqueued s n writes junk segs h k b v) (b, w).
Proof using Hok HN HR HT BE.
  intros Hb Hi Hn Hw. pose proof (sector_lt cfg Hok T HT) as HT31. pose proof Hi as (Hs0 & Hn0 & HsT).
  pose proof (fo_queue _ _ _ _ _ _ _ _ Hb) as Hq. pose proof Hq as [Eq Enb El _].
  pose proof (fo_in _ _ _ _ _ _ _ _ Hb) as [Hinr Hinw]%Forall_app.
  set (new := Event READ VALID s n None).
  assert (Forall (fun e => overlaps s n e = false) writes ->
    read_enqueued s n writes junk segs h k b (with_read new reads writes b, w)) as Hplain.
  { intros HF. exists O, junk, reads, None. rewrite !drop_0. simpl. unfold wb_start. split; [by apply with_read_ok|].
    split; [done|]. split; [done|]. split; [|done]. by rewrite adv_0 by (apply adv_range; lia). }
  unfold ENQUEUE_READ, on_firm. wp_go. rewrite Enb. unfold ALLOC_NEW_EVENT. fold new.
  destruct (Z.eqb_spec (zlen (reads ++ writes)) 0) as [E0|E0].
  { destruct (reads ++ writes) eqn:Erw; [|simpl in E0; lia]. apply app_eq_nil in Erw as [-> ->]. wp_go. by apply Hplain. }
  wp_go. unfold CHECK_IO_DEPENDENCY_FOR_READ. wp_go. rewrite (first_write_val _ _ _ Hq), Eq, drop_app_length.
  pose proof (last_overlap_spec T s n writes HT31 Hi Hinw (length reads) None) as Hlo.
  destruct (last_overlap _ _ _ _ _) as [i|].
  - destruct Hlo as [[? _]|(j & e & -> & He & Hov & HF)]; [done|].
    wp_go. rewrite Eq. eapply wp_need; [by rewrite lookup_app_r, Nat.add_comm, Nat.add_sub by lia|]. wp_go.
    assert (j < length writes)%nat as Hj by by eapply lookup_lt_Some.
    eapply wp_mono; [apply (flush_spec cfg Hok T N R HN HR HT G (length reads + j) reads writes junk segs h (length (drop (S j) writes) + k)); [done| |]|].
    { rewrite length_app. lia. }
    { rewrite length_drop. by replace (S (length reads + j) + (length writes - S j + k))%nat with (length reads + length writes + k)%nat by lia. }
    intros ? [b1 w1] Hd. eapply wp_mono; [by eapply dependent_read|].
    intros new1 [b2 w2] (Hlen & Eq2 & Enb2 & El2 & Hre). wp_go. simpl fst in *. simpl snd in *.
    eapply wp_mono; [by apply (insert_spec new1 [] (drop (S j) writes))|]. intros ? b3 E3. wp_go. rewrite Hlen in E3. rewrite E3. exact Hre.
  - destruct Hlo as [_ HF]. wp_go. eapply wp_mono; [by apply insert_spec|]. intros ? b' E. wp_go. simpl.
    change n with (ev_length new). rewrite E. by apply Hplain.
Qed.

(** ** The entry points *)

Lemma not_full_write b n : 0 <= empty_write_buffer_frame b < 2 ^ 32 ->
  wp (EVENT_QUEUE_IS_FULL WRITE n) (fun r b' => r = (empty_write_buffer_frame b <? n) /\ b' = b) b.
Proof. intros H. unfold EVENT_QUEUE_IS_FULL. wp_go. simpl. by rewrite u32_id. Qed.

Lemma not_full_read b n : 0 <= empty_read_buffer_frame b < 2 ^ 32 ->
  wp (EVENT_QUEUE_IS_FULL READ n) (fun r b' => r = (empty_read_buffer_frame b <? n) /\ b' = b) b.
Proof. intros H. unfold EVENT_QUEUE_IS_FULL. wp_go. simpl. by rewrite u32_id. Qed.

(** The data of the writes from the [m]-th on. *)
Definition data_from (m : nat) (b : firm) (writes : list event_queue_entry) (junk : list ascii) (segs : list (list ascii)) :=
  effect (pending_data N (adv N (wb_start N b junk) (zlen (mjoin (take m segs)))) (drop m writes) (drop m segs)).

Lemma data_from_0 b writes junk segs : data_from 0 b writes junk segs = data_of N b writes junk segs.
Proof using HN. unfold data_from, data_of, wb_start. simpl. by rewrite !drop_0, adv_0 by (apply adv_range; lia). Qed.

Lemma enqueued_ok reads writes junk segs b s n b' : firm_ok reads writes junk segs b -> inside T s n ->
  write_enqueued N T b s n reads writes junk segs b' ->
  exists writes' segs', firm_ok reads writes' junk segs' b' /\ (length writes' <= S (length writes))%nat /\
    data_of N b' writes' junk segs' =
      effect (zip (seqZ s n) (frames_at N (sata_write_ptr b) n)) ∪ data_of N b writes junk segs.
Proof.
  intros [[Eq Enb El Hrd] Hwb Hin Hcnb Hch Hptr Hem Hlen] Hi (arr' & writes' & segs' & -> & Hl & Hwb' & Hin' & Hd).
  exists writes', segs'. split; [|done]. apply Forall_app in Hin as [Hinr _]. split; simpl; try done.
  by apply Forall_app.
Qed.

(** A write joins the queue, all of which is written first when the buffer is
    too full for it. *)
Definition write_served (s n : Z) (reads writes : list event_queue_entry) (junk : list ascii)
    (segs : list (list ascii)) (h : host) (k : nat) (b : firm) (v : firm * (ftl * dev)) : Prop :=
  exists m reads' writes' junk' segs' p,
  m = (if empty_write_buffer_frame b <? n then length writes else O) /\
  firm_ok reads' writes' junk' segs' (fst v) /\
  G (foldl (write_event cfg) h (take m writes)) (length reads' + length writes' + k) (snd v) /\
  data_of N (fst v) writes' junk' segs' = effect (zip (seqZ s n) (frames_at N p n)) ∪ data_from m b writes junk segs.

Lemma backend_le h j k w : (j <= k)%nat -> G h k w -> G h j w.
Proof using BE. induction 1 as [|k _ IH]; [done|]. intros H. by apply IH, backend_mono. Qed.

Lemma serve_write s n reads writes junk segs h k b w : firm_ok reads writes junk segs b -> inside T s n -> n <= N ->
  G h (length reads + length writes + S k) w ->
  wp (firm_SSD_WRITE cfg N R n s) (fun _ v => write_served s n reads writes junk segs h k b v) (b, w).
Proof using Hok HN HR HT BE.
  intros Hb Hi Hn Hw. unfold firm_SSD_WRITE, on_firm. wp_go. pose proof (sector_lt cfg Hok T HT) as HT31.
  eapply wp_mono; [by apply (dequeue_completed_spec T N R HR)|]. intros ? b1 (-> & Hb1 & _ & Hf & He & _). wp_go.
  pose proof (frames_total _ _ _ _ _ Hb1) as Ht. pose proof (wb_empty _ _ _ _ _ (fo_wb _ _ _ _ _ _ _ _ Hb1)).
  eapply wp_mono; [apply not_full_write; lia|]. intros ? ? [-> ->].
  apply wp_bind. unfold write_served. rewrite <- He. destruct (Z.ltb_spec (empty_write_buffer_frame b1) n) as [Hfull|Hfree].
  - eapply wp_mono; [apply (secure_write_spec _ _ _ _ h (S k) _ _ Hb1)|].
    { by rewrite length_app. }
    intros ? [b2 w2] (Hb2 & HG2 & He2). simpl in Hb2, HG2, He2. unfold ENQUEUE_IO. simpl. unfold on_firm. wp_go.
    eapply wp_mono; [apply (enqueue_write_spec N T HN HT31 [] [] [] [] b2 s n (fo_queue _ _ _ _ _ _ _ _ Hb2) (fo_wb _ _ _ _ _ _ _ _ Hb2)); try done; lia|].
    intros ? b3 H3. destruct (enqueued_ok [] [] [] [] b2 s n b3 Hb2 Hi H3) as (writes' & segs' & Hok' & Hl & Hd).
    exists (length writes), [], writes', [], segs', (sata_write_ptr b2). split; [done|]. split; [done|]. rewrite take_ge by done. split.
    + eapply backend_le; [|exact HG2]. simpl in *. lia.
    + simpl. rewrite Hd. f_equal. unfold data_from. by rewrite drop_ge.
  - wp_go. unfold ENQUEUE_IO. simpl. unfold on_firm. wp_go.
    pose proof (fo_in _ _ _ _ _ _ _ _ Hb1) as [_ Hinw]%Forall_app.
    eapply wp_mono; [apply (enqueue_write_spec N T HN HT31 reads writes junk segs b1 s n (fo_queue _ _ _ _ _ _ _ _ Hb1) (fo_wb _ _ _ _ _ _ _ _ Hb1)); done|].
    intros ? b3 H3. destruct (enqueued_ok _ _ _ _ b1 s n b3 Hb1 Hi H3) as (writes' & segs' & Hok' & Hl & Hd).
    exists O, reads, writes', junk, segs', (sata_write_ptr b1). split; [done|]. split; [done|]. split.
    + eapply backend_le; [|exact Hw]. lia.
    + simpl. rewrite Hd, data_from_0. unfold data_of. by rewrite Hf.
Qed.

Lemma serve_read s n reads writes junk segs h k b w : firm_ok reads writes junk segs b -> inside T s n -> n <= R ->
  G h (length reads + length writes + S k) w ->
  wp (firm_SSD_READ cfg N R n s) (fun _ v => read_enqueued s n writes junk segs h (S k) b v) (b, w).
Proof using Hok HN HR HT BE.
  intros Hb Hi Hn Hw. unfold firm_SSD_READ, on_firm. wp_go.
  eapply wp_mono; [by apply (dequeue_completed_spec T N R HR)|]. intros ? b1 (-> & Hb1 & _ & Hf & _ & Hwb). wp_go.
  assert (forall b2 v, wb_start N b2 junk = wb_start N b junk -> write_buffer b2 = write_buffer b ->
    read_enqueued s n writes junk segs h (S k) b2 v -> read_enqueued s n writes junk segs h (S k) b v) as Htr.
  { intros b2 v E1 E2. unfold read_enqueued. by rewrite E1, E2. }
  pose proof (fo_empty _ _ _ _ _ _ _ _ Hb1) as [Hem1 Hem2].
  assert (0 <= sum_with ev_length (c_e_queue b1 ++ reads)) by (eapply sum_pos, reads_pos; exact Hb1).
  eapply wp_mono; [apply not_full_read; lia|]. intros ? ? [-> ->]. apply wp_bind.
  destruct (Z.ltb_spec (empty_read_buffer_frame b1) n) as [Hfull|Hfree].
  - wp_go. eapply wp_mono; [apply (secure_read_spec _ _ _ _ h (length writes + S k) _ _ Hb1)|].
    { by rewrite Nat.add_assoc. }
    intros ? [b2 w2] (-> & Hb2 & HG2 & Hs2 & Hwb2 & He2). simpl in Hb2, HG2, Hs2, Hwb2, He2. unfold ENQUEUE_IO. simpl. wp_go.
    eapply wp_mono; [apply (enqueue_read_spec s n [] writes junk segs h (S k) b2 w2); try done; lia|].
    intros ? v Hv. apply (Htr b2); [|congruence|done]. rewrite Hs2. unfold wb_start. by rewrite Hf.
  - wp_go. unfold ENQUEUE_IO. simpl.
    eapply wp_mono; [by apply (enqueue_read_spec s n reads writes junk segs h (S k) b1 w)|].
    intros ? v Hv. apply (Htr b1); [unfold wb_start; by rewrite Hf|done|done].
Qed.

End Serve.
