(* ===== verification/FirmSession.v ===== *)
(** * A session through the buffers

    The translation layer as the store behind the buffer manager, and sessions
    of requests that end with [TERM_IO_BUFFER]. *)

From stdpp Require Import prelude gmap.
From Stdlib Require Import Ascii.
From S2P Require Import Prelude Config Blocks Mapping Device Gc Ftl Inv Host Space Session Firm FirmRing FirmWrite FirmFlush FirmQueue FirmServe.

Local Open Scope Z_scope.

(** ** The translation layer *)

Section Backend.
Context (cfg : config) (Hok : cfg_ok cfg) (HL : PLANES_PER_FLASH cfg = 1) {D : Device} {DL : DeviceLaws cfg D}.

Local Abbreviation P := (PAGE_NB cfg).
Local Abbreviation SPP := (SECTORS_PER_PAGE cfg).

Context (M : Z) (HM : 0 <= M < (BLOCK_NB cfg * FLASH_NB cfg - FLASH_NB cfg * PLANES_PER_FLASH cfg) * P)
  (HV : 1 <= GC_VICTIM_NB cfg).

(** [h] is on the disk and [k] more requests can be numbered. *)
Definition ready (h : host) (k : nat) (w : ftl * dev) : Prop :=
  roomy cfg (fst w) /\ within M h /\
  exists n, dev_rel n (snd w) /\ represents cfg (fst w) n h /\ n_request n = None /\ n_seq n + Z.of_nat k < 2 ^ 32.

(** The drive has room for the writes of [N] sectors the buffer can gather. *)
Definition buffer_ok (T N R : Z) : Prop :=
  T <= M * SPP /\ T <= SECTOR_NB cfg /\ (N - 1) / SPP + 2 + share cfg M <= P /\
  (N - 1) / SPP + 2 < 2 ^ 15 /\ (R - 1) / SPP + 2 < 2 ^ 15.

Lemma inside_request T s n X : inside T s n -> n <= X -> T <= SECTOR_NB cfg -> (X - 1) / SPP + 2 < 2 ^ 15 ->
  request_ok cfg s n /\ zlen (touched cfg s n) <= (X - 1) / SPP + 2.
Proof using Hok.
  intros (H1 & H2 & H3) HX HT Hb. pose proof (ok_spp _ Hok). pose proof (touched_bound cfg Hok s n H1 H2).
  assert ((n - 1) / SPP <= (X - 1) / SPP) by (apply Z.div_le_mono; lia). repeat split; lia.
Qed.

Lemma ftl_backend T N R : buffer_ok T N R -> Backend cfg D T N R ready.
Proof using Hok HL DL HM HV.
  intros (HT1 & HT2 & HP & HN & HR). split.
  - intros h k w (H1 & H2 & n & H3 & H4 & H5 & H6). split; [done|]. split; [done|]. exists n. do 3 (split; [done|]). lia.
  - intros h k s l [s0 d] Hi Hl (Hroom & Hw & n & HR' & Hrep & Hreq & Hseq). simpl in *.
    destruct (inside_request _ _ _ _ Hi Hl HT2 HN) as [Hrok Ht]. destruct Hi as (? & ? & ?).
    assert (within M (host_write cfg s l h)) as Hw' by (apply (within_write cfg Hok); (done || lia)).
    eapply wp_mono; [apply (ftl_write_live cfg Hok HL M HM s l s0 d n h); try done|].
    + split; [done|lia].
    + apply within_size; [lia|done].
    + lia.
    + intros r w (-> & Hroom' & n' & ? & ? & ? & Hs'). split; [done|]. split; [done|]. split; [done|]. exists n'.
      split; [done|]. split; [done|]. split; [done|]. lia.
  - intros h k s l [s0 d] Hi Hl (Hroom & Hw & n & HR' & Hrep & Hreq & Hseq). simpl in *.
    destruct (inside_request _ _ _ _ Hi Hl HT2 HR) as [Hrok Ht].
    eapply wp_mono; [apply (ftl_read cfg Hok s l s0 d n h); try done; split; [done|lia]|].
    intros r [s' d'] (Es & n' & ? & ? & ? & Hres). simpl in Es. subst s'. split; [done|]. split; [done|]. exists n'.
    split; [done|]. split; [done|]. split; [done|].
    destruct (host_read cfg s l h); [destruct Hres as (_ & _ & ?); lia|]. destruct Hres as [_ ->]. lia.
Qed.

End Backend.

(** ** Pages that are stored *)

(** A sector of page [lpn] is in the write buffer. *)
Definition has_page (cfg : config) (data : gmap Z Z) (lpn : Z) : Prop :=
  exists x, is_Some (data !! x) /\ x / SECTORS_PER_PAGE cfg = lpn.

(** Page [lpn] is on the disk or has a sector in the write buffer. *)
Definition page_stored (cfg : config) (h : host) (data : gmap Z Z) (lpn : Z) : Prop :=
  is_Some (h_pages h !! lpn) \/ has_page cfg data lpn.

Lemma host_write_pages cfg s n h lpn : is_Some (h_pages (host_write cfg s n h) !! lpn) <->
  is_Some (h_pages h !! lpn) \/ lpn ∈ touched cfg s n.
Proof.
  unfold host_write. revert h. induction (touched cfg s n) as [|p l IH]; intros h; simpl.
  - split; [by left|]. intros [?|H]; [done|inversion H].
  - rewrite IH. simpl. rewrite elem_of_cons. destruct (decide (lpn = p)) as [->|Hne].
    + rewrite lookup_insert_eq. split; [|intros _; left; by eexists]. intros _. right. by left.
    + rewrite lookup_insert_ne by done. tauto.
Qed.

Lemma touched_sector cfg s n lpn : 0 < SECTORS_PER_PAGE cfg -> 0 < n ->
  lpn ∈ touched cfg s n <-> exists x, s <= x < s + n /\ x / SECTORS_PER_PAGE cfg = lpn.
Proof.
  intros HS Hn. unfold touched. destruct (Z.leb_spec n 0); [lia|]. rewrite elem_of_seqZ.
  set (S := SECTORS_PER_PAGE cfg) in *. split.
  - intros Hl. pose proof (Z.div_mod s S ltac:(lia)). pose proof (Z.mod_pos_bound s S ltac:(lia)).
    pose proof (Z.div_mod (s + n - 1) S ltac:(lia)). pose proof (Z.mod_pos_bound (s + n - 1) S ltac:(lia)).
    exists (Z.max s (lpn * S)). split; [nia|]. destruct (Z.max_spec s (lpn * S)) as [[? ->]|[? ->]].
    + by apply Z.div_mul; lia.
    + assert (lpn <= s / S) by (apply Z.div_le_lower_bound; lia). lia.
  - intros (x & Hx & <-). assert (s / S <= x / S) by (apply Z.div_le_mono; lia).
    assert (x / S <= (s + n - 1) / S) by (apply Z.div_le_mono; lia). lia.
Qed.

Section Session.
Context (cfg : config) (Hok : cfg_ok cfg) {D : Device} (T N R : Z).
Context (HN : 0 < N < 2 ^ 31) (HR : 0 < R < 2 ^ 31) (HT : T <= SECTOR_NB cfg).
Context (G : host -> nat -> ftl * dev -> Prop) {BE : Backend cfg D T N R G}.

Lemma effect_pages s n (fr : list Z) lpn : zlen fr = n -> 0 < n ->
  has_page cfg (effect (zip (seqZ s n) fr)) lpn <-> lpn ∈ touched cfg s n.
Proof using Hok.
  intros Hl Hn. rewrite touched_sector by (done || apply (ok_spp _ Hok)). unfold has_page.
  assert (forall x, is_Some (effect (zip (seqZ s n) fr) !! x) <-> s <= x < s + n) as H
    by (intros x; rewrite <- effect_Some, zip_seqZ_keys, elem_of_seqZ by done; lia).
  by setoid_rewrite H.
Qed.

Lemma has_page_union a b lpn : has_page cfg (a ∪ b) lpn <-> has_page cfg a lpn \/ has_page cfg b lpn.
Proof.
  unfold has_page. setoid_rewrite lookup_union_is_Some. split; [intros (x & [H|H] & ?)|intros [(x & H & ?)|(x & H & ?)]]; eauto.
Qed.

(** Writing an event moves its sectors to the disk. *)
Lemma stored_event e g p h data lpn : seg_ok e g ->
  page_stored cfg (write_event cfg h e) data lpn <->
  page_stored cfg h (data ∪ effect (if valid e =? VALID then zip (seqZ (sector_nb e) (ev_length e)) (vframes N p g) else [])) lpn.
Proof using Hok.
  intros Hg. unfold write_event, page_stored. rewrite has_page_union. destruct (Z.eqb_spec (valid e) VALID) as [Hv|].
  - destruct (sg_valid _ _ Hg Hv) as [Hc _]. pose proof (sg_length _ _ Hg).
    rewrite effect_pages, host_write_pages by (done || by rewrite vframes_length). clear. tauto.
  - clear -Hg. assert (~ has_page cfg (effect []) lpn) by by intros (x & [? Hx] & _). tauto.
Qed.

Lemma stored_flush m : forall writes segs p h lpn, placed N p writes segs ->
  page_stored cfg (foldl (write_event cfg) h (take m writes))
    (effect (pending_data N (adv N p (zlen (mjoin (take m segs)))) (drop m writes) (drop m segs))) lpn <->
  page_stored cfg h (effect (pending_data N (adv N p 0) writes segs)) lpn.
Proof using Hok.
  induction m as [|m IH]; intros writes segs p h lpn Hp; [by rewrite !drop_0|].
  destruct writes as [|e ws], segs as [|g gs]; try done. destruct Hp as (_ & Hg & Hp). simpl.
  rewrite zlen_app, <- adv_adv, IH by done. rewrite effect_app, <- stored_event by done.
  by rewrite !adv_adv, Z.add_0_r, Z.add_0_l.
Qed.

(** ** Sessions *)

(** The buffers over disk [h] hold [data], and [k] more requests can be served. *)
Definition buffered (h : host) (k : nat) (data : gmap Z Z) (v : firm * (ftl * dev)) : Prop :=
  exists reads writes junk segs, firm_ok T N R reads writes junk segs (fst v) /\
    G h (length reads + length writes + k) (snd v) /\ data_of N (fst v) writes junk segs = data.

Definition firm_submit (r : request) : M (firm * (ftl * dev)) unit :=
  match r with
  | Write s n => firm_SSD_WRITE cfg N R n s
  | Read s n => firm_SSD_READ cfg N R n s
  end.

Fixpoint firm_submit_all (rs : list request) : M (firm * (ftl * dev)) unit :=
  match rs with
  | [] => mret tt
  | r :: rs' => firm_submit r ;; firm_submit_all rs'
  end.

(** Requests inside the disk that the buffers can hold. *)
Definition bufferable (r : request) : Prop :=
  match r with Write s n => inside T s n /\ n <= N | Read s n => inside T s n /\ n <= R end.

Definition writes_page (lpn : Z) (r : request) : Prop :=
  match r with Write s n => lpn ∈ touched cfg s n | Read _ _ => False end.

Lemma firm_stored m reads writes junk segs b h lpn : firm_ok T N R reads writes junk segs b ->
  page_stored cfg (foldl (write_event cfg) h (take m writes)) (data_from N m b writes junk segs) lpn <->
  page_stored cfg h (data_of N b writes junk segs) lpn.
Proof using Hok HN.
  intros Hb. pose proof (wb_placed _ _ _ _ _ (fo_wb _ _ _ _ _ _ _ _ Hb)) as Hp. unfold data_from, data_of.
  rewrite stored_flush by exact Hp. unfold wb_start. by rewrite adv_adv, Z.add_0_r.
Qed.

Lemma submit_buffered r h k data v : bufferable r -> buffered h (S k) data v ->
  wp (firm_submit r) (fun _ v' => exists h' data', buffered h' k data' v' /\
    forall lpn, page_stored cfg h' data' lpn <-> page_stored cfg h data lpn \/ writes_page lpn r) v.
Proof using Hok HN HR HT BE.
  intros Hr (reads & writes & junk & segs & Hb & HG & <-). destruct v as [b w]. destruct r as [s n|s n]; destruct Hr as [Hi Hn]; simpl in *.
  - eapply wp_mono; [by apply (serve_write cfg Hok T N R HN HR HT G)|].
    intros ? v (m & reads' & writes' & junk' & segs' & p & _ & Hb' & HG' & Hd).
    exists (foldl (write_event cfg) h (take m writes)), (data_of N (fst v) writes' junk' segs').
    split; [by exists reads', writes', junk', segs'|]. intros lpn. rewrite Hd. destruct Hi as (? & ? & ?).
    rewrite <- (firm_stored m _ _ _ _ _ h lpn Hb). unfold page_stored. rewrite has_page_union.
    rewrite effect_pages by (done || unfold frames_at; rewrite length_fmap, length_seqZ; lia). tauto.
  - eapply wp_mono; [by eapply (serve_read cfg Hok T N R HN HR HT G)|].
    intros ? v (m & junk' & reads' & src & Hb' & HG' & _ & Hs & _).
    exists (foldl (write_event cfg) h (take m writes)), (data_of N (fst v) (drop m writes) junk' (drop m segs)). split.
    { exists (reads' ++ [Event READ VALID s n src]), (drop m writes), junk', (drop m segs). split; [done|].
      split; [|reflexivity]. rewrite length_app. simpl. by replace (length reads' + 1 + length (drop m writes) + k)%nat
        with (length reads' + length (drop m writes) + S k)%nat by lia. }
    intros lpn. rewrite <- (firm_stored m _ _ _ _ _ h lpn Hb). unfold data_from, data_of. rewrite <- Hs. unfold wb_start. tauto.
Qed.

Lemma submit_all_buffered rs : forall h k data v, Forall bufferable rs -> buffered h (length rs + k) data v ->
  wp (firm_submit_all rs) (fun _ v' => exists h' data', buffered h' k data' v' /\
    forall lpn, page_stored cfg h' data' lpn <-> page_stored cfg h data lpn \/ Exists (writes_page lpn) rs) v.
Proof using Hok HN HR HT BE.
  induction rs as [|r rs IH]; intros h k data v HF Hv; simpl in *.
  { wp_go. exists h, data. split; [done|]. intros lpn. rewrite Exists_nil. tauto. }
  apply Forall_cons in HF as [Hr HF]. apply wp_bind. eapply wp_mono; [by apply submit_buffered|].
  intros ? v1 (h1 & d1 & Hv1 & H1). eapply wp_mono; [by apply (IH h1 k d1)|].
  intros ? v2 (h2 & d2 & Hv2 & H2). exists h2, d2. split; [done|]. intros lpn. rewrite H2, H1, Exists_cons. tauto.
Qed.

Lemma term_buffered h k data v : buffered h k data v ->
  wp (TERM_IO_BUFFER cfg N R) (fun _ v' => exists h', G h' k (snd v') /\ firm_ok T N R [] [] [] [] (fst v') /\
    empty_write_buffer_frame (fst v') = N /\
    forall lpn, is_Some (h_pages h' !! lpn) <-> page_stored cfg h data lpn) v.
Proof using Hok HN HR HT BE.
  intros (reads & writes & junk & segs & Hb & HG & <-). destruct v as [b w]. simpl in *. unfold TERM_IO_BUFFER.
  eapply wp_mono; [apply (secure_write_spec cfg Hok T N R HN HR HT G _ _ _ _ h k _ _ Hb); by rewrite length_app|].
  intros ? v (Hv & HG' & He). exists (foldl (write_event cfg) h writes). do 3 (split; [done|]). intros lpn.
  rewrite <- (firm_stored (length writes) _ _ _ _ _ h lpn Hb), take_ge by done. unfold data_from, page_stored. rewrite (drop_ge writes) by done.
  assert (~ has_page cfg (effect []) lpn) by by intros (x & [? Hx] & _). simpl. tauto.
Qed.

End Session.
