(* ===== verification/FirmProps.v ===== *)
(** * The buffers: theorems

    What the host can rely on when its requests go through the buffers of
    [FIRMWARE/firm_buffer_manager.c]. *)

From stdpp Require Import prelude gmap.
From Stdlib Require Import Ascii.
From S2P Require Import Prelude Config Blocks Mapping Device Perf SsdIo Gc Ftl Persist Ssd.
From S2P Require Import Tables Lists Victims Inv Collect Host Boot SsdLaws Timing SsdSim Space Session Example.
From S2P Require Import Firm FirmRing FirmWrite FirmFlush FirmQueue FirmCopy FirmServe FirmSession.

Local Open Scope Z_scope.

Section Drive.
Context (cfg : config) (Hok : cfg_ok cfg) (HL : PLANES_PER_FLASH cfg = 1) {D : Device} {DL : DeviceLaws cfg D}.

(** C9.  A session of requests through the buffers of a drive, from
    [INIT_IO_BUFFER] to [TERM_IO_BUFFER], returns when the requests are inside
    the disk and fit the buffers and the drive has room for what the write
    buffer can gather: no loop over frames runs on, no pointer is out of range.
    At the end the queue is empty, all frames are free, the drive is idle, and a
    page is on the disk just when it was there before or a write of the session
    touched it. *)
Theorem buffered_session M T N R rs h w :
  0 <= M < (BLOCK_NB cfg * FLASH_NB cfg - FLASH_NB cfg * PLANES_PER_FLASH cfg) * PAGE_NB cfg ->
  1 <= GC_VICTIM_NB cfg -> 0 < N < 2 ^ 31 -> 0 < R < 2 ^ 31 -> buffer_ok cfg M T N R ->
  Forall (bufferable T N R) rs -> ready cfg M h (length rs) w ->
  wp (firm_submit_all cfg N R rs ;; TERM_IO_BUFFER cfg N R)
     (fun _ v => e_queue (fst v) = [] /\ empty_write_buffer_frame (fst v) = N /\
        exists h', ready cfg M h' 0 (snd v) /\
        forall lpn, is_Some (h_pages h' !! lpn) <-> is_Some (h_pages h !! lpn) \/ Exists (writes_page cfg lpn) rs)
     (INIT_IO_BUFFER N R, w).
Proof using Hok HL DL.
  intros HM HV HN HR Hbuf HF Hw. pose proof Hbuf as (_ & HT & _).
  pose proof (ftl_backend cfg Hok HL M HM HV T N R Hbuf) as BE.
  assert (buffered T N R (ready cfg M) h (length rs + 0) ∅ (INIT_IO_BUFFER N R, w)) as Hinit.
  { exists [], [], [], []. split; [by apply init_ok|]. simpl. by rewrite Nat.add_0_r. }
  apply wp_bind. eapply wp_mono; [by apply (submit_all_buffered cfg Hok T N R HN HR HT (ready cfg M) rs h 0)|].
  intros ? v (h1 & d1 & Hv & H1). eapply wp_mono; [by apply (term_buffered cfg Hok T N R HN HR HT (ready cfg M) h1 0 d1)|].
  intros ? v' (h2 & HG & Hb & He & H2). split; [apply (q_list _ _ _ (fo_queue _ _ _ _ _ _ _ _ Hb))|]. split; [done|].
  exists h2. split; [done|]. intros lpn. rewrite H2, H1. unfold page_stored, has_page. setoid_rewrite lookup_empty.
  assert (~ exists x : Z, is_Some (@None Z) /\ x / SECTORS_PER_PAGE cfg = lpn) by by intros (? & [? ?] & _). tauto.
Qed.

End Drive.

Section Buffer.
Context (cfg : config) (Hok : cfg_ok cfg) {D : Device} (T N R : Z).
Context (HN : 0 < N < 2 ^ 31) (HR : 0 < R < 2 ^ 31) (HT : T <= SECTOR_NB cfg).
Context (G : host -> nat -> ftl * dev -> Prop) {BE : Backend cfg D T N R G}.

(** C19.  A write through the buffer: unless the buffer is too full nothing is
    written yet, otherwise all that is pending is written first; then the sectors
    of the write are pending in the frames from [sata_write_ptr] on, and all other
    pending sectors keep their frames, whichever writes the new one covers, joins
    or overlaps. *)
Theorem buffered_write s n reads writes junk segs h k b w : firm_ok T N R reads writes junk segs b ->
  inside T s n -> n <= N -> G h (length reads + length writes + S k) w ->
  wp (firm_SSD_WRITE cfg N R n s) (fun _ v => write_served cfg T N R G s n reads writes junk segs h k b v) (b, w).
Proof using Hok HN HR HT BE. apply (serve_write cfg Hok T N R HN HR HT G). Qed.


(** C21.  Flushing the write buffer returns with the queue empty and all frames
    free; the valid pending writes, and no others, have been written to the disk,
    in the order of the queue. *)
Theorem flush_in_order reads writes junk segs h k b w : firm_ok T N R reads writes junk segs b ->
  G h (length (reads ++ writes) + k) w ->
  wp (SECURE_WRITE_BUFFER cfg N R) (fun _ v => firm_ok T N R [] [] [] [] (fst v) /\
    G (foldl (write_event cfg) h writes) k (snd v) /\ empty_write_buffer_frame (fst v) = N) (b, w).
Proof using Hok HN HR HT BE. apply (secure_write_spec cfg Hok T N R HN HR HT G). Qed.

(** C33.  Flushing the read buffer returns with all its frames free, the pending
    writes as they were, and nothing written: and the check of
    [READ_DATA_FROM_BUFFER_TO_HOST] that a completed read is at the frame the
    host reads next never fails. *)
Theorem read_pointers_agree reads writes junk segs h k b w : firm_ok T N R reads writes junk segs b ->
  G h (length reads + k) w ->
  wp (SECURE_READ_BUFFER cfg N R) (fun r v => r = true /\ firm_ok T N R [] writes junk segs (fst v) /\
    G h k (snd v) /\ wb_start N (fst v) junk = wb_start N b junk /\ write_buffer (fst v) = write_buffer b /\
    empty_read_buffer_frame (fst v) = R) (b, w).
Proof using Hok HN HR HT BE. apply (secure_read_spec cfg Hok T N R HN HR HT G). Qed.

End Buffer.

(** C34.  [_FTL_WRITE] with the buffers does to the translation layer what it does
    without them: every property of its successful runs carries over.  The frames
    of the write, with the invalid ones between them, are taken from the buffer
    and free afterwards, and the other frames are as before. *)
Theorem buffered_ftl_write cfg (Hok : cfg_ok cfg) {D : Device} N (HN : 0 < N < 2 ^ 31) s n w b todo tl (Q : ftl * dev -> Prop) :
  wp (_FTL_WRITE cfg s n) (fun r w' => r = SUCCESS /\ Q w') w -> 0 <= s -> 0 < n -> s + n < 2 ^ 31 ->
  ring N (wb_valid_array b) (ftl_write_ptr b) (todo ++ tl) -> count_if is_V todo = n -> ends is_V todo ->
  write_limit_ptr b = ftl_write_ptr b ->
  wp (firm_FTL_WRITE cfg N s n) (fun r v => r = SUCCESS /\ Q (snd v) /\ exists arr',
    fst v = released N b arr' (zlen todo) /\
    ring N arr' (adv N (ftl_write_ptr b) (zlen todo)) (tl ++ replicate (length todo) ch0)) (b, w).
Proof. apply (firm_write_spec cfg Hok N HN). Qed.

(** ** Buffers of the small drive

    Four frames for writes and eight for reads, with a write of two sectors
    pending. *)

Local Abbreviation small_T := 364.

Definition pending_event : event_queue_entry := Event WRITE VALID 0 2 (Some 0).

Definition small_pending : firm := result (ENQUEUE_WRITE 4 0 2) (INIT_IO_BUFFER 4 8).

Lemma small_pending_ok : firm_ok small_T 4 8 [] [pending_event] [] [[chV; chV]] small_pending.
Proof.
  split; [by split|split; [by split|done|by constructor| |done|done|done]|by constructor|done|by exists 0|done|done|done].
  split; [done|]. split; [|done]. split; [done|done|by repeat constructor; left|done|done].
Qed.

Lemma small_buffer_ok : buffer_ok small small_use small_T 4 8.
Proof. repeat split; by vm_compute. Qed.

Lemma small_busy_ready : exists w, d_state small_busy = w /\
  ready (DL := SsdLaws small small_ok) small small_use small_disk 100 w.
Proof.
  destruct small_busy_serves as (_ & _ & Hroom & Hw & n & HR & Hrep & Hreq & Hseq).
  destruct (d_state small_busy) as [s d]. exists (s, d). split; [done|]. split; [done|]. split; [done|]. exists n.
  do 3 (split; [done|]). lia.
Qed.

Local Abbreviation small_G := (ready (DL := SsdLaws small small_ok) small small_use).

#[local] Instance small_backend : Backend small (SsdDevice small) small_T 4 8 small_G.
Proof. by apply (ftl_backend small small_ok eq_refl small_use small_room); [|exact small_buffer_ok]. Qed.

Lemma small_frames : 0 < 4 < 2 ^ 31 /\ 0 < 8 < 2 ^ 31.
Proof. done. Qed.

Lemma small_sectors : small_T <= SECTOR_NB small.
Proof. by vm_compute. Qed.

Definition small_requests : list request := [Write 0 4; Write 2 4; Read 1 4; Write 8 3].

Lemma buffered_session_witness : exists w, d_state small_busy = w /\
  wp (firm_submit_all (D := SsdDevice small) small 4 8 small_requests ;; TERM_IO_BUFFER small 4 8)
     (fun _ v => e_queue (fst v) = [] /\ empty_write_buffer_frame (fst v) = 4 /\
        exists h', small_G h' 0 (snd v) /\
        forall lpn, is_Some (h_pages h' !! lpn) <->
          is_Some (h_pages small_disk !! lpn) \/ Exists (writes_page small lpn) small_requests)
     (INIT_IO_BUFFER 4 8, w).
Proof.
  destruct small_busy_ready as (w & Hd & Hw). exists w. split; [exact Hd|]. clear Hd.
  apply (buffered_session small small_ok eq_refl (DL := SsdLaws small small_ok) small_use small_T 4 8 small_requests small_disk w);
    [exact small_room|done|done|done|exact small_buffer_ok|by repeat constructor|].
  apply (backend_le small small_T 4 8 small_G _ _ 100); [simpl; lia|exact Hw].
Defined.

Lemma buffered_write_witness : exists w, d_state small_busy = w /\
  wp (firm_SSD_WRITE (D := SsdDevice small) small 4 8 2 1)
     (fun _ v => write_served small small_T 4 8 small_G 1 2 [] [pending_event] [] [[chV; chV]] small_disk 98 small_pending v)
     (small_pending, w).
Proof.
  destruct small_busy_ready as (w & Hd & Hw). exists w. split; [exact Hd|]. clear Hd.
  apply (buffered_write small small_ok small_T 4 8 (proj1 small_frames) (proj2 small_frames) small_sectors small_G);
    [exact small_pending_ok|done|done|exact Hw].
Defined.


Lemma flush_in_order_witness : exists w, d_state small_busy = w /\
  wp (SECURE_WRITE_BUFFER (D := SsdDevice small) small 4 8)
     (fun _ v => firm_ok small_T 4 8 [] [] [] [] (fst v) /\
        small_G (foldl (write_event small) small_disk [pending_event]) 99 (snd v) /\ empty_write_buffer_frame (fst v) = 4)
     (small_pending, w).
Proof.
  destruct small_busy_ready as (w & Hd & Hw). exists w. split; [exact Hd|]. clear Hd.
  apply (flush_in_order small small_ok small_T 4 8 (proj1 small_frames) (proj2 small_frames) small_sectors small_G
    [] [pending_event] [] [[chV; chV]] small_disk 99 small_pending w small_pending_ok).
  exact Hw.
Defined.

(** A read of the third page behind the pending write. *)
Definition page_read : event_queue_entry := Event READ VALID 8 4 None.
Definition read_pending : firm := with_read page_read [] [pending_event] small_pending.

Lemma read_pending_ok : firm_ok small_T 4 8 [page_read] [pending_event] [] [[chV; chV]] read_pending.
Proof. by apply (with_read_ok small_T 4 8 [] _ _ _ _ 8 4 small_pending_ok). Qed.

Lemma read_pointers_agree_witness : exists w, d_state small_busy = w /\
  wp (SECURE_READ_BUFFER (D := SsdDevice small) small 4 8)
     (fun r v => r = true /\ firm_ok small_T 4 8 [] [pending_event] [] [[chV; chV]] (fst v) /\ small_G small_disk 99 (snd v) /\
        wb_start 4 (fst v) [] = wb_start 4 read_pending [] /\ write_buffer (fst v) = write_buffer read_pending /\
        empty_read_buffer_frame (fst v) = 8)
     (read_pending, w).
Proof.
  destruct small_busy_ready as (w & Hd & Hw). exists w. split; [exact Hd|]. clear Hd.
  apply (read_pointers_agree small small_ok small_T 4 8 (proj1 small_frames) (proj2 small_frames) small_sectors small_G
    [page_read] [pending_event] [] [[chV; chV]] small_disk 99 read_pending w read_pending_ok).
  exact Hw.
Defined.

Lemma buffered_ftl_write_witness : exists w, d_state small_busy = w /\
  wp (firm_FTL_WRITE (D := SsdDevice small) small 4 0 2)
     (fun r v => r = SUCCESS /\ small_G (host_write small 0 2 small_disk) 99 (snd v) /\ exists arr',
        fst v = released 4 small_pending arr' 2 /\ ring 4 arr' 2 (replicate 4 ch0)) (small_pending, w).
Proof.
  destruct small_busy_ready as (w & Hd & Hw). exists w. split; [exact Hd|]. clear Hd.
  apply (buffered_ftl_write small small_ok (D := SsdDevice small) 4 (proj1 small_frames) 0 2 w small_pending [chV; chV] [ch0; ch0]
    (small_G (host_write small 0 2 small_disk) 99)); try done.
  by apply (backend_write (Backend := small_backend)).
Defined.
