(* ===== verification/Threads.v ===== *)
(** * The two threads of the firmware

    The build with [SSD_THREAD]: [SSD_THREAD_MAIN_LOOP] of
    [FIRMWARE/firm_buffer_manager.c] and [SSD_WRITE] and [SSD_READ] of
    [FIRMWARE/ssd.c], in the modes [SSD_THREAD_MODE_1] and [SSD_THREAD_MODE_2].

    The thread of the host issues a list of requests; the thread of the drive
    runs the main loop.  A thread is at a point of its code, and a step takes it
    to the next one: it takes or gives back a lock, waits or signals, sets or
    tests a flag, or runs a call of the buffer manager.  A thread that cannot go
    on stays where it is.  A call is one step: between the locks, what the other
    thread may do meanwhile concerns other variables.  [DEQUEUE_IO] of the main
    loop, during which the host may take [cq_lock], is three. *)

From stdpp Require Import prelude.
From S2P Require Import Prelude Config Blocks Mapping Device Gc Ftl Session Firm.

Local Open Scope Z_scope.

Inductive thread_mode := MODE_1 | MODE_2.

Inductive thread := HostThread | SsdThread.

#[export] Instance thread_eq_dec : EqDecision thread.
Proof. solve_decision. Defined.

(** Where the host is in [SSD_WRITE] or [SSD_READ]. *)
Inductive host_pc :=
| h_lock_cq | h_completed | h_unlock_cq | h_check | h_set_full | h_spin
| h_lock_eq | h_enqueue | h_unlock_eq | h_signal.

(** Where the drive is in [SSD_THREAD_MAIN_LOOP]; from [t_lock_cq] to [t_move] with
    the completed read of [DEQUEUE_IO], if the event was one. *)
Inductive ssd_pc :=
| t_lock_eq | t_test | t_wait | t_woken | t_work
| t_lock_cq (e : option event_queue_entry) | t_move (e : option event_queue_entry) | t_unlock_cq
| t_reset_r | t_reset_w | t_unlock_eq.

Section Threads.
Context (cfg : config) {D : Device} (WRITE_BUFFER_FRAME_NB READ_BUFFER_FRAME_NB : Z).

Record threads := Threads {
  host_at : host_pc;
  todo : list request;
  ssd_at : ssd_pc;
  eq_lock : option thread;
  cq_lock : option thread;
  r_queue_full : Z;
  w_queue_full : Z;
  machine : firm * (ftl * dev)
}.

Definition set_host p s := Threads p (todo s) (ssd_at s) (eq_lock s) (cq_lock s) (r_queue_full s) (w_queue_full s) (machine s).
Definition set_todo l s := Threads (host_at s) l (ssd_at s) (eq_lock s) (cq_lock s) (r_queue_full s) (w_queue_full s) (machine s).
Definition set_ssd p s := Threads (host_at s) (todo s) p (eq_lock s) (cq_lock s) (r_queue_full s) (w_queue_full s) (machine s).
Definition set_eq o s := Threads (host_at s) (todo s) (ssd_at s) o (cq_lock s) (r_queue_full s) (w_queue_full s) (machine s).
Definition set_cq o s := Threads (host_at s) (todo s) (ssd_at s) (eq_lock s) o (r_queue_full s) (w_queue_full s) (machine s).
Definition set_r_full z s := Threads (host_at s) (todo s) (ssd_at s) (eq_lock s) (cq_lock s) z (w_queue_full s) (machine s).
Definition set_w_full z s := Threads (host_at s) (todo s) (ssd_at s) (eq_lock s) (cq_lock s) (r_queue_full s) z (machine s).

(** A call of the buffer manager. *)
Definition on_machine {A} (m : M (firm * (ftl * dev)) A) : M threads A := fun s =>
  match m (machine s) with
  | Ret (a, v) => Ret (a, Threads (host_at s) (todo s) (ssd_at s) (eq_lock s) (cq_lock s) (r_queue_full s) (w_queue_full s) v)
  | Undef => Undef
  | OutOfFuel => OutOfFuel
  end.

(** [pthread_mutex_lock]: the thread goes on when nobody holds the lock. *)
Definition lock_eq (t : thread) (next : threads -> threads) : M threads unit :=
  o ← gets eq_lock;
  match o with None => modify (fun s => next (set_eq (Some t) s)) | Some _ => mret tt end.

Definition lock_cq (t : thread) (next : threads -> threads) : M threads unit :=
  o ← gets cq_lock;
  match o with None => modify (fun s => next (set_cq (Some t) s)) | Some _ => mret tt end.

(** [pthread_cond_signal(&eq_ready)] *)
Definition signal (s : threads) : threads :=
  match ssd_at s with t_wait => set_ssd t_woken s | _ => s end.

(** ** The host *)

(** The type, the length and the sector of a request. *)
Definition req_type (r : request) : Z := match r with Write _ _ => WRITE | Read _ _ => READ end.
Definition req_length (r : request) : Z := match r with Write _ n => n | Read _ n => n end.
Definition req_sector (r : request) : Z := match r with Write s _ => s | Read s _ => s end.

Definition queue_full (r : request) (s : threads) : Z :=
  match r with Write _ _ => w_queue_full s | Read _ _ => r_queue_full s end.

Definition set_queue_full (r : request) (z : Z) : threads -> threads :=
  match r with Write _ _ => set_w_full z | Read _ _ => set_r_full z end.

Definition host_step (mode : thread_mode) : M threads unit :=
  rs ← gets todo;
  match rs with
  | [] => mret tt
  | r :: rs' =>
      p ← gets host_at;
      match p with
      | h_lock_cq => lock_cq HostThread (set_host h_completed)
      | h_completed =>
          on_machine (on_fst (DEQUEUE_COMPLETED_READ READ_BUFFER_FRAME_NB)) ;;
          modify (set_host h_unlock_cq)
      | h_unlock_cq => modify (fun s => set_host h_check (set_cq None s))
      | h_check =>
          full ← on_machine (on_fst (EVENT_QUEUE_IS_FULL (req_type r) (req_length r)));
          modify (set_host (if (full : bool) then h_set_full else h_lock_eq))
      | h_set_full => modify (fun s => set_host h_spin (set_queue_full r 1 s))
      | h_spin =>
          z ← gets (queue_full r);
          if z =? 1 then modify signal else modify (set_host h_lock_eq)
      | h_lock_eq => lock_eq HostThread (set_host h_enqueue)
      | h_enqueue =>
          on_machine (ENQUEUE_IO cfg WRITE_BUFFER_FRAME_NB READ_BUFFER_FRAME_NB (req_type r) (req_sector r) (req_length r)) ;;
          modify (set_host h_unlock_eq)
      | h_unlock_eq =>
          modify (set_eq None) ;;
          match mode with
          | MODE_1 => modify (set_host h_signal)
          | MODE_2 => modify (fun s => set_host h_lock_cq (set_todo rs' s))
          end
      | h_signal => modify (fun s => set_host h_lock_cq (set_todo rs' (signal s)))
      end
  end.

(** ** The drive *)

(** [DEQUEUE_IO] up to [pthread_mutex_lock(&cq_lock)]: nothing when the queue is
    empty, else the completed read, or no read when the event was a write. *)
Definition take_event : M (firm * (ftl * dev)) (option (option event_queue_entry)) :=
  n ← on_fst (gets e_entry_nb);
  l ← on_fst (gets e_queue);
  if n =? 0 then mret None else
  match l with
  | [] => mret None
  | e :: l' =>
      r ← on_fst (gets last_read_entry);
      r' ← on_fst (pop_last_read e r);
      on_fst (modify (set_queue (if n - 1 =? 0 then [] else l') (n - 1) r')) ;;
      e' ← (if valid e =? VALID then
              if io_type e =? READ then
                match buf e with
                | Some _ => mret e
                | None =>
                    p ← on_fst (gets ftl_read_ptr);
                    firm_FTL_READ cfg READ_BUFFER_FRAME_NB (sector_nb e) (ev_length e) ;;
                    mret (Event (io_type e) (valid e) (sector_nb e) (ev_length e) (Some p))
                end
              else if io_type e =? WRITE then firm_FTL_WRITE cfg WRITE_BUFFER_FRAME_NB (sector_nb e) (ev_length e) ;; mret e
              else mret e
            else mret e);
      mret (Some (if io_type e =? READ then Some e' else None))
  end.

(** The code of [DEQUEUE_IO] under [cq_lock]. *)
Definition move_event (e : option event_queue_entry) : M (firm * (ftl * dev)) unit :=
  match e with Some e => on_fst (complete_read e) | None => mret tt end.

(** The condition of the waiting loop. *)
Definition no_work (mode : thread_mode) (s : threads) : bool :=
  match mode with
  | MODE_1 => e_entry_nb (fst (machine s)) =? 0
  | MODE_2 => (r_queue_full s =? 0) && (w_queue_full s =? 0)
  end.

(** [pthread_cond_wait] gives back the lock. *)
Definition ssd_step (mode : thread_mode) : M threads unit :=
  p ← gets ssd_at;
  match p with
  | t_lock_eq | t_woken => lock_eq SsdThread (set_ssd t_test)
  | t_test =>
      idle ← gets (no_work mode);
      if (idle : bool) then modify (fun s => set_ssd t_wait (set_eq None s)) else modify (set_ssd t_work)
  | t_wait => mret tt
  | t_work =>
      match mode with
      | MODE_1 =>
          e ← on_machine take_event;
          modify (set_ssd (match e with None => t_unlock_eq | Some e => t_lock_cq e end))
      | MODE_2 =>
          r ← gets r_queue_full;
          w ← gets w_queue_full;
          if r =? 1 then
            on_machine (SECURE_READ_BUFFER cfg WRITE_BUFFER_FRAME_NB READ_BUFFER_FRAME_NB) ;; modify (set_ssd t_reset_r)
          else if w =? 1 then
            on_machine (SECURE_WRITE_BUFFER cfg WRITE_BUFFER_FRAME_NB READ_BUFFER_FRAME_NB) ;; modify (set_ssd t_reset_w)
          else modify (set_ssd t_unlock_eq)
      end
  | t_lock_cq e => lock_cq SsdThread (set_ssd (t_move e))
  | t_move e => on_machine (move_event e) ;; modify (set_ssd t_unlock_cq)
  | t_unlock_cq => modify (fun s => set_ssd t_unlock_eq (set_cq None s))
  | t_reset_r => modify (fun s => set_ssd t_unlock_eq (set_r_full 0 s))
  | t_reset_w => modify (fun s => set_ssd t_unlock_eq (set_w_full 0 s))
  | t_unlock_eq => modify (fun s => set_ssd t_lock_eq (set_eq None s))
  end.

(** ** Schedules *)

(** A thread runs, or the drive wakes up without a signal, which
    [pthread_cond_wait] may do. *)
Inductive turn := run_host | run_ssd | wake_up.

Definition take_turn (mode : thread_mode) (t : turn) : M threads unit :=
  match t with
  | run_host => host_step mode
  | run_ssd => ssd_step mode
  | wake_up => modify signal
  end.

Fixpoint run_threads (mode : thread_mode) (l : list turn) : M threads unit :=
  match l with
  | [] => mret tt
  | t :: l' => take_turn mode t ;; run_threads mode l'
  end.

(** The host with its requests, after [INIT_IO_BUFFER] has created the thread of
    the drive. *)
Definition threads_start (rs : list request) (v : firm * (ftl * dev)) : threads :=
  Threads h_lock_cq rs t_lock_eq None None 0 0 v.

End Threads.
