(* ===== verification/ThreadTurns.v ===== *)
(** * Fair schedules

    When every turn of a thread either leaves the state as it is or lowers a
    measure, and not both threads are stuck before the end, a schedule that
    gives both threads enough turns comes to the end. *)

From stdpp Require Import prelude.
From S2P Require Import Prelude Config Blocks Mapping Device Gc Ftl Session Firm Threads.

(** The rounds of a schedule: in a round both threads have a turn.  The two
    arguments tell who has had a turn in the current round. *)
Fixpoint rounds (h t : bool) (l : list turn) : nat :=
  match l with
  | [] => O
  | run_host :: l' => if t then S (rounds false false l') else rounds true false l'
  | run_ssd :: l' => if h then S (rounds false false l') else rounds false true l'
  | wake_up :: l' => rounds h t l'
  end.

Fixpoint wakes (l : list turn) : nat :=
  match l with
  | [] => O
  | wake_up :: l' => S (wakes l')
  | _ :: l' => wakes l'
  end.

Section Fair.
Context {cfg : config} {D : Device} (N R : Z) (mode : thread_mode).
Context (I : threads -> Prop) (measure : threads -> nat) (ended : threads -> Prop).

(** A turn that does nothing, or lowers the measure. *)
Definition moves (s s' : threads) : Prop := s' = s \/ (measure s' < measure s)%nat.

Context (Hhost : forall s, I s -> wp (host_step cfg N R mode) (fun _ s' => I s' /\ moves s s') s).
Context (Hssd : forall s, I s -> wp (ssd_step cfg N R mode) (fun _ s' => I s' /\ moves s s') s).
Context (Hwake : forall s, I s -> I (signal s) /\ (measure (signal s) <= measure s + 2)%nat).
Context (Hend : forall s t, I s -> ended s -> wp (take_turn cfg N R mode t) (fun _ s' => ended s') s).
Context (Hstuck : forall s, I s -> host_step cfg N R mode s = Ret (tt, s) -> ssd_step cfg N R mode s = Ret (tt, s) -> ended s).

Lemma turn_keeps t s : I s -> wp (take_turn cfg N R mode t) (fun _ s' => I s') s.
Proof using Hhost Hssd Hwake.
  intros Hs. destruct t; simpl.
  - eapply wp_mono; [by apply Hhost|]. intros ? s' H. apply H.
  - eapply wp_mono; [by apply Hssd|]. intros ? s' H. apply H.
  - wp_go. by apply Hwake.
Qed.

Lemma threads_invariant l : forall s, I s -> wp (run_threads cfg N R mode l) (fun _ s' => I s') s.
Proof using Hhost Hssd Hwake.
  induction l as [|t l IH]; intros s Hs; simpl; [by wp_go|].
  apply wp_bind. eapply wp_mono; [by apply turn_keeps|]. intros ? s'. apply IH.
Qed.

Lemma stays_ended l : forall s, I s -> ended s -> wp (run_threads cfg N R mode l) (fun _ s' => ended s') s.
Proof using Hhost Hssd Hwake Hend.
  induction l as [|t l IH]; intros s Hs He; simpl; [by wp_go|].
  apply wp_bind. eapply wp_mono; [apply (wp_conj _ _ _ _ (turn_keeps t s Hs) (Hend s t Hs He))|].
  intros ? s' [? ?]. by apply IH.
Qed.

(** What is known in a round in which the threads that had their turn did
    nothing. *)
Definition waiting (h t : bool) (s : threads) : Prop :=
  (h = true -> host_step cfg N R mode s = Ret (tt, s)) /\ (t = true -> ssd_step cfg N R mode s = Ret (tt, s)).

Lemma run_moves (m : M threads unit) s : wp m (fun _ s' => I s' /\ moves s s') s ->
  exists s', m s = Ret (tt, s') /\ I s' /\ moves s s'.
Proof. intros ([] & s' & E & H)%wp_run. eauto. Qed.

Lemma waiting_none s : waiting false false s.
Proof. by split. Qed.

(** [p] tells whether a thread has done something in the current round. *)
Lemma rounds_bound l : forall h t (p : bool) s, I s -> h && t = false -> (p = false -> waiting h t s) ->
  (measure s + 3 * wakes l + (if p then 1 else 0) < rounds h t l)%nat ->
  wp (run_threads cfg N R mode l) (fun _ s' => ended s') s.
Proof using Hhost Hssd Hwake Hend Hstuck.
  induction l as [|x l IH]; intros h t p s Hs Hht Hp Hn; [simpl in Hn; lia|]. destruct x; simpl in *.
  - destruct (run_moves _ _ (Hhost s Hs)) as (s' & E & Hs' & Hm). apply wp_bind. eapply run_wp; [exact E|].
    destruct t; [|].
    + destruct Hm as [->|Hm]; [|apply (IH false false false); [done|done|by intros _; apply waiting_none|destruct p; lia]].
      destruct p; [apply (IH false false false); [done|done|by intros _; apply waiting_none|lia]|].
      apply stays_ended; [done|]. apply Hstuck; [done|done|]. by apply Hp.
    + destruct Hm as [->|Hm]; [apply (IH true false p); [done|done| |done]|apply (IH true false true); [done|done|done|destruct p; lia]].
      intros Hp'. destruct (Hp Hp') as [_ H]. by split.
  - destruct (run_moves _ _ (Hssd s Hs)) as (s' & E & Hs' & Hm). apply wp_bind. eapply run_wp; [exact E|].
    destruct h; [|].
    + destruct Hm as [->|Hm]; [|apply (IH false false false); [done|done|by intros _; apply waiting_none|destruct p; lia]].
      destruct p; [apply (IH false false false); [done|done|by intros _; apply waiting_none|lia]|].
      apply stays_ended; [done|]. apply Hstuck; [done| |done]. by apply Hp.
    + destruct Hm as [->|Hm]; [apply (IH false true p); [done|done| |done]|apply (IH false true true); [done|done|done|destruct p; lia]].
      intros Hp'. destruct (Hp Hp') as [H _]. by split.
  - destruct (Hwake s Hs) as [Hs' Hm]. wp_go. apply (IH h t true); [done|done|done|destruct p; lia].
Qed.

Lemma fair_ends s l : I s -> (measure s + 3 * wakes l < rounds false false l)%nat ->
  wp (run_threads cfg N R mode l) (fun _ s' => ended s') s.
Proof using Hhost Hssd Hwake Hend Hstuck.
  intros Hs Hn. apply (rounds_bound l false false false); [done|done|by intros _; apply waiting_none|lia].
Qed.

End Fair.
