(* ===== verification/ThreadRefine.v ===== *)
(** * The threads of mode 2 do what the build without threads does

    In [SSD_THREAD_MODE_2] the drive works only while the host waits for it.  The
    invariant says what remains to be done: running the rest of the current
    request and the other requests without threads gives the final state. *)

From stdpp Require Import prelude.
From S2P Require Import Prelude Config Blocks Mapping Device Gc Ftl Session Firm FirmSession Threads ThreadTurns.

Local Open Scope Z_scope.

Section Refine.
Context (cfg : config) {D : Device} (N R : Z).

Local Abbreviation world := (firm * (ftl * dev))%type.

(** ** The rest of a request *)

Definition secure (r : request) : M world unit :=
  match r with
  | Write _ _ => SECURE_WRITE_BUFFER cfg N R
  | Read _ _ => SECURE_READ_BUFFER cfg N R ;; mret tt
  end.

Definition enqueue (r : request) : M world unit := ENQUEUE_IO cfg N R (req_type r) (req_sector r) (req_length r).

Definition from_check (r : request) : M world unit :=
  full ← on_firm (EVENT_QUEUE_IS_FULL (req_type r) (req_length r));
  (if (full : bool) then secure r else mret tt) ;; enqueue r.

Lemma submit_eq r : firm_submit cfg N R r = (on_firm (DEQUEUE_COMPLETED_READ R) ;; from_check r).
Proof. by destruct r. Qed.

(** The drive has done what the host waits for. *)
Definition secured (r : request) (s : threads) : bool :=
  (queue_full r s =? 0) || match ssd_at s with t_reset_r | t_reset_w => true | _ => false end.

Definition rest (r : request) (s : threads) : M world unit :=
  match host_at s with
  | h_lock_cq | h_completed => firm_submit cfg N R r
  | h_unlock_cq | h_check => from_check r
  | h_set_full => secure r ;; enqueue r
  | h_spin => if secured r s then enqueue r else secure r ;; enqueue r
  | h_lock_eq | h_enqueue => enqueue r
  | h_unlock_eq | h_signal => mret tt
  end.

Definition rest_all (s : threads) : M world unit :=
  match todo s with [] => mret tt | r :: rs => rest r s ;; firm_submit_all cfg N R rs end.

(** ** Who holds what *)

Definition host_has_eq (p : host_pc) : bool := match p with h_enqueue | h_unlock_eq => true | _ => false end.
Definition host_has_cq (p : host_pc) : bool := match p with h_completed | h_unlock_cq => true | _ => false end.
Definition ssd_has_eq (p : ssd_pc) : bool := match p with t_lock_eq | t_wait | t_woken => false | _ => true end.

Definition locks_ok (s : threads) : Prop :=
  host_has_eq (host_at s) && ssd_has_eq (ssd_at s) = false /\
  eq_lock s = (if host_has_eq (host_at s) then Some HostThread else if ssd_has_eq (ssd_at s) then Some SsdThread else None) /\
  cq_lock s = (if host_has_cq (host_at s) then Some HostThread else None).

(** The flag of a request is up only while the host waits, and the other one is
    never up. *)
Definition flags_ok (s : threads) : Prop :=
  match todo s, host_at s with
  | Write _ _ :: _, h_spin => r_queue_full s = 0 /\ (w_queue_full s = 0 \/ w_queue_full s = 1)
  | Read _ _ :: _, h_spin => w_queue_full s = 0 /\ (r_queue_full s = 0 \/ r_queue_full s = 1)
  | [], h_lock_cq => r_queue_full s = 0 /\ w_queue_full s = 0
  | [], _ => False
  | _, _ => r_queue_full s = 0 /\ w_queue_full s = 0
  end.

Definition ssd_ok (s : threads) : Prop :=
  match ssd_at s with
  | t_lock_cq _ | t_move _ | t_unlock_cq => False
  | t_work => r_queue_full s = 1 \/ w_queue_full s = 1
  | t_reset_r => r_queue_full s = 1
  | t_reset_w => w_queue_full s = 1
  | _ => True
  end.

Definition refines (v : world) (s : threads) : Prop :=
  rest_all s (machine s) = Ret (tt, v) /\ host_at s <> h_signal /\ locks_ok s /\ flags_ok s /\ ssd_ok s.

(** ** The measure *)

Definition host_cost (p : host_pc) : nat :=
  match p with
  | h_lock_cq => 18 | h_completed => 17 | h_unlock_cq => 16 | h_check => 15 | h_set_full => 14
  | h_spin => 4 | h_lock_eq => 3 | h_enqueue => 2 | h_unlock_eq => 1 | h_signal => 0
  end.

(** The turns of the drive until it waits. *)
Definition ssd_cost (flag : bool) (p : ssd_pc) : nat :=
  match p with
  | t_unlock_eq => if flag then 8 else 3
  | t_wait => if flag then 8 else 0
  | t_lock_eq | t_woken => if flag then 7 else 2
  | t_test => if flag then 6 else 1
  | t_work => 5
  | t_reset_r | t_reset_w => 4
  | _ => 0
  end.

Definition cost (s : threads) : nat :=
  match todo s with [] => 0 | _ :: rs => host_cost (host_at s) + length rs * 18 end +
  ssd_cost ((r_queue_full s =? 1) || (w_queue_full s =? 1)) (ssd_at s).

(** ** The turns *)

Lemma wp_on_machine {A} (m : M world A) (Q : A -> threads -> Prop) s v a : m (machine s) = Ret (a, v) ->
  Q a (Threads (host_at s) (todo s) (ssd_at s) (eq_lock s) (cq_lock s) (r_queue_full s) (w_queue_full s) v) ->
  wp (on_machine m) Q s.
Proof. intros E. unfold wp, on_machine. by rewrite E. Qed.

(** A program that returns does so step by step. *)
Lemma bind_run {A B} (m : M world A) (k : A -> M world B) v x :
  (m ≫= k) v = Ret x -> exists a v', m v = Ret (a, v') /\ k a v' = Ret x.
Proof. unfold mbind, M_bind. destruct (m v) as [[a v']| |]; [eauto|done|done]. Qed.

Lemma run_bind {A B} (m : M world A) (k : A -> M world B) v a v' : m v = Ret (a, v') -> (m ≫= k) v = k a v'.
Proof. unfold mbind, M_bind. by intros ->. Qed.

Lemma bind_assoc {A B C} (m : M world A) (k : A -> M world B) (l : B -> M world C) v :
  ((m ≫= k) ≫= l) v = (m ≫= (fun a => k a ≫= l)) v.
Proof. unfold mbind, M_bind. by destruct (m v) as [[a v']| |]. Qed.

(** A state by its fields, and what is to be shown of the next one. *)
Ltac open_state s :=
  destruct s as [hp td sp eql cql rf wf v0]; unfold refines, locks_ok, flags_ok, ssd_ok in *; simpl in *.
Ltac next_state := repeat (simpl; progress wp_go); simpl;
  unfold refines, locks_ok, flags_ok, ssd_ok, moves, cost, rest_all, rest, secured; simpl;
  repeat match goal with |- _ /\ _ => split end; try done; try (right; simpl; lia).

Lemma host_turn v s : refines v s ->
  wp (host_step cfg N R MODE_2) (fun _ s' => refines v s' /\ moves cost s s') s.
Proof.
  open_state s. intros (Hr & Hsig & (Hx & -> & ->) & Hf & Hd). unfold host_step. wp_go. simpl.
  destruct td as [|r rs]; [by next_state; left|]. unfold rest_all, rest in Hr. simpl in Hr. wp_go. simpl.
  destruct hp; simpl in *; try done.
  - unfold lock_cq. next_state.
  - rewrite submit_eq, bind_assoc in Hr. apply bind_run in Hr as (a & v1 & E & Hr).
    wp_go. eapply wp_on_machine; [exact E|]. next_state.
  - next_state.
  - unfold from_check in Hr. rewrite bind_assoc in Hr. apply bind_run in Hr as (full & v1 & E & Hr).
    wp_go. eapply wp_on_machine; [exact E|]. destruct full; next_state.
  - assert (rf = 0 /\ wf = 0) as [-> ->] by by destruct r.
    destruct r, sp; next_state; try (by destruct Hd); by right.
  - unfold secured in Hr. destruct r; destruct Hf as [-> [->| ->]], sp; simpl in *; unfold signal; next_state; by left.
  - destruct (ssd_has_eq sp) eqn:Es; unfold lock_eq; next_state; try (by left). by rewrite Es.
  - apply bind_run in Hr as ([] & v1 & E & Hr). wp_go. eapply wp_on_machine; [exact E|]. next_state.
  - destruct (ssd_has_eq sp) eqn:Es; [done|]. destruct rs as [|r' rs]; next_state; rewrite ?Es; try done; destruct r; try apply Hf; by destruct r'.
Qed.

Lemma flags_cases s : flags_ok s -> (r_queue_full s = 0 /\ w_queue_full s = 0) \/
  (host_at s = h_spin /\ exists r rs, todo s = r :: rs /\
    match r with Write _ _ => r_queue_full s = 0 /\ w_queue_full s = 1 | Read _ _ => r_queue_full s = 1 /\ w_queue_full s = 0 end).
Proof.
  destruct s as [hp td sp eql cql rf wf v0]. unfold flags_ok. simpl. intros Hf.
  destruct td as [|[x n|x n] rs], hp; try done; try (by left); destruct Hf as [-> [->| ->]]; try (by left);
    right; (split; [done|]); eexists _, rs; (split; [reflexivity|]); done.
Qed.

Lemma ssd_turn v s : refines v s ->
  wp (ssd_step cfg N R MODE_2) (fun _ s' => refines v s' /\ moves cost s s') s.
Proof.
  intros Hs. pose proof Hs as (Hr & Hsig & (Hx & _) & Hfl%flags_cases & _). revert Hs.
  open_state s. intros (_ & _ & (_ & -> & ->) & Hf & Hd). unfold ssd_step. wp_go. simpl.
  unfold rest_all, rest, secured in Hr. simpl in Hr.
  destruct sp; simpl in *; try done.
  - destruct (host_has_eq hp) eqn:Eh; unfold lock_eq; next_state; try (by left); try by rewrite Eh.
    destruct (_ || _); right; lia.
  - assert (host_has_eq hp = false) as Eh by by destruct (host_has_eq hp).
    wp_go. simpl. destruct Hfl as [[-> ->]|(-> & [x n|x n] & rs & -> & -> & ->)]; next_state; rewrite ?Eh; try done;
      try (by right); try (by left); right; lia.
  - next_state. by left.
  - destruct (host_has_eq hp) eqn:Eh; unfold lock_eq; next_state; try (by left); try by rewrite Eh.
    destruct (_ || _); right; lia.
  - destruct Hfl as [[-> ->]|(-> & [x n|x n] & rs & -> & -> & ->)]; [lia| |]; simpl in Hr; rewrite bind_assoc in Hr.
    + apply bind_run in Hr as ([] & v1 & E & Hr). wp_go. simpl. wp_go. eapply wp_on_machine; [exact E|]. next_state; by right.
    + simpl in Hr. rewrite bind_assoc in Hr. apply bind_run in Hr as (a & v1 & E & Hr). wp_go. simpl. wp_go.
      eapply wp_on_machine; [exact E|]. next_state; by right.
  - destruct Hfl as [[-> ->]|(-> & [x n|x n] & rs & -> & -> & ->)]; try lia. next_state; by left.
  - destruct Hfl as [[-> ->]|(-> & [x n|x n] & rs & -> & -> & ->)]; try lia. next_state; by left.
  - assert (host_has_eq hp = false) as Eh by by destruct (host_has_eq hp).
    destruct Hfl as [[-> ->]|(-> & [x n|x n] & rs & -> & -> & ->)]; next_state; rewrite ?Eh; try done; by right.
Qed.

Lemma wake_turn v s : refines v s -> refines v (signal s) /\ (cost (signal s) <= cost s + 2)%nat.
Proof.
  open_state s. intros (Hr & Hsig & (Hx & -> & ->) & Hf & Hd). unfold signal. simpl. destruct sp; simpl; try (split; [done|lia]).
  unfold rest_all, rest, secured, cost in *. simpl in *. split; [done|]. destruct (_ || _); lia.
Qed.

Definition ended (s : threads) : Prop := todo s = [].

Lemma ended_turn v s t : refines v s -> ended s -> wp (take_turn cfg N R MODE_2 t) (fun _ s' => ended s') s.
Proof.
  intros Hs He. destruct t; simpl.
  - unfold host_step. wp_go. rewrite He. by wp_go.
  - pose proof Hs as (_ & _ & _ & [Hf|(_ & r & rs & E & _)]%flags_cases & Hd); [|congruence]. destruct s as [hp td sp eql cql rf wf v0].
    unfold ended, ssd_ok in *. simpl in *. subst. destruct Hf as [-> ->]. unfold ssd_step.
    wp_go. simpl. destruct sp; try done; try lia; unfold lock_eq; repeat (simpl; progress wp_go); try done; by destruct eql.
  - wp_go. unfold signal. destruct (ssd_at s); exact He.
Qed.

(** A thread that has made a call is at another point. *)
Ltac call_moves := unfold on_machine; simpl; intros; repeat case_match; simplify_eq.

(** When a thread cannot go on. *)
Lemma host_idle v s : refines v s -> host_step cfg N R MODE_2 s = Ret (tt, s) -> ended s \/
  (host_at s = h_spin /\ ssd_at s <> t_wait /\ (r_queue_full s = 1 \/ w_queue_full s = 1)) \/
  (host_at s = h_lock_eq /\ ssd_has_eq (ssd_at s) = true).
Proof.
  intros (_ & Hsig & (Hx & He & Hc) & Hf & _). destruct s as [hp td sp eql cql rf wf v0]. unfold ended. simpl in *.
  unfold host_step, mbind, M_bind, gets, modify. simpl. destruct td as [|r rs]; [by left|]. right.
  destruct hp; simpl in *; subst; try discriminate; try done; try (by call_moves).
  - left. split; [done|]. destruct (Z.eqb_spec (queue_full r (Threads h_spin (r :: rs) sp (if ssd_has_eq sp then Some SsdThread else None) None rf wf v0)) 1) as [E|E]; [|done].
    split; [by intros ->|]. destruct r; simpl in E; auto.
  - right. destruct (ssd_has_eq sp) eqn:Es; [done|]. unfold lock_eq, mbind, M_bind, gets, modify in *. simpl in *. done.
Qed.

Lemma ssd_idle v s : refines v s -> ssd_step cfg N R MODE_2 s = Ret (tt, s) ->
  ssd_at s = t_wait \/ (ssd_has_eq (ssd_at s) = false /\ host_has_eq (host_at s) = true).
Proof.
  intros (_ & _ & (Hx & He & Hc) & Hf & Hd). destruct s as [hp td sp eql cql rf wf v0]. unfold ssd_ok in Hd. simpl in *.
  unfold ssd_step, mbind, M_bind, gets, modify. simpl.
  destruct sp; simpl in *; subst; try discriminate; try done; try (by left).
  - right. split; [done|]. destruct (host_has_eq hp); done.
  - by call_moves.
  - right. split; [done|]. destruct (host_has_eq hp); done.
  - by call_moves.
Qed.

(** The threads are never stuck together. *)
Lemma no_deadlock v s : refines v s -> host_step cfg N R MODE_2 s = Ret (tt, s) ->
  ssd_step cfg N R MODE_2 s = Ret (tt, s) -> ended s.
Proof.
  intros Hs [?|[(E & Hw & _)|[E Hq]]]%(host_idle v) [Hi|[Hi1 Hi2]]%(ssd_idle v); try done.
  - by rewrite E in Hi2.
  - by rewrite Hi in Hq.
  - congruence.
Qed.

(** ** Every fair schedule *)

Lemma mode_2_run rs v0 v l : firm_submit_all cfg N R rs v0 = Ret (tt, v) ->
  wp (run_threads cfg N R MODE_2 l) (fun _ s => refines v s /\
    ((18 * length rs + 2 + 3 * wakes l < rounds false false l)%nat -> ended s)) (threads_start rs v0).
Proof.
  intros Hv. assert (refines v (threads_start rs v0)) as Hs.
  { unfold refines, locks_ok, flags_ok, ssd_ok, rest_all, rest. simpl. split; [by destruct rs|]. split; [done|].
    split; [done|]. split; [by destruct rs as [|[]]|done]. }
  assert (cost (threads_start rs v0) = 18 * length rs + 2)%nat as Hc by (unfold cost; simpl; destruct rs; simpl; lia).
  pose proof (threads_invariant N R MODE_2 (refines v) cost (host_turn v) (ssd_turn v) (wake_turn v) l _ Hs) as Hi.
  destruct (decide (18 * length rs + 2 + 3 * wakes l < rounds false false l)%nat) as [Hn|Hn].
  - pose proof (fair_ends N R MODE_2 (refines v) cost ended (host_turn v) (ssd_turn v) (wake_turn v) (ended_turn v) (no_deadlock v)
      _ l Hs ltac:(lia)) as He.
    eapply wp_mono; [exact (wp_conj _ _ _ _ Hi He)|]. intros ? s [? ?]. by split.
  - eapply wp_mono; [exact Hi|]. intros ? s ?. by split.
Qed.

Lemma ended_world v s : refines v s -> ended s -> machine s = v.
Proof. intros (H & _) He. unfold rest_all in H. rewrite He in H. by injection H. Qed.

End Refine.
