(* ===== verification/ThreadSafe.v ===== *)
(** * The threads of mode 1 keep the data

    In [SSD_THREAD_MODE_1] the drive takes events out of the queue whenever there
    are any.  At every point of every schedule the buffers are well formed, up to
    the read that the drive has in hand, and no page that was written is lost. *)

From stdpp Require Import prelude gmap.
From Stdlib Require Import Ascii.
From S2P Require Import Prelude Config Blocks Mapping Device Gc Ftl Host Session Firm FirmRing FirmWrite FirmFlush FirmQueue.
From S2P Require Import FirmServe FirmSession Threads ThreadTurns ThreadRefine.

Local Open Scope Z_scope.

Section Safe.
Context (cfg : config) (Hok : cfg_ok cfg) {D : Device} (T N R : Z).
Context (HN : 0 < N < 2 ^ 31) (HR : 0 < R < 2 ^ 31) (HT : T <= SECTOR_NB cfg).
Context (G : host -> nat -> ftl * dev -> Prop) {BE : Backend cfg D T N R G}.

Local Abbreviation world := (firm * (ftl * dev))%type.
Local Abbreviation buffered := (buffered T N R G).

(** ** The two halves of [DEQUEUE_IO] *)

Definition finish_event (o : option (option event_queue_entry)) : M world unit :=
  match o with None => mret tt | Some e => move_event e end.

Lemma dequeue_split v : DEQUEUE_IO cfg N R v = (take_event cfg N R ≫= finish_event) v.
Proof.
  unfold DEQUEUE_IO, take_event, on_firm, mbind, M_bind. destruct v as [b w]. simpl.
  destruct (e_entry_nb b =? 0); [done|]. destruct (e_queue b) as [|e l]; [done|]. simpl.
  destruct (pop_last_read _ _ _) as [[r' b1]| |]; [|done|done]. simpl.
  match goal with |- match ?X with _ => _ end = _ => destruct X as [[e' v1]| |] end; [|done|done].
  by destruct (io_type e =? READ).
Qed.

(** The state once the read in hand is completed. *)
Definition holds (e : option event_queue_entry) (h : host) (k : nat) (data : gmap Z Z) (v : world) : Prop :=
  wp (move_event e) (fun _ v' => buffered h k data v') v.

(** Completing a read changes the queue of completed reads only. *)
Lemma move_frame e Q (v : world) : wp (move_event e) Q v -> exists v', move_event e v = Ret (tt, v') /\ Q tt v' /\ snd v' = snd v /\
  exists q n, fst v' = set_completed q n (fst v).
Proof.
  destruct v as [b w]. destruct e as [e|]; simpl.
  - unfold wp, on_fst, complete_read, mbind, M_bind. simpl.
    destruct (c_entry_nb b =? 0); [|destruct (c_e_queue b); [done|]]; intros H;
      (eexists; split; [reflexivity|]; split; [exact H|]); (split; [done|]); by eexists _, _.
  - intros H. exists (b, w). split; [done|]. split; [exact H|]. split; [done|]. exists (c_e_queue b), (c_entry_nb b). by destruct b.
Qed.

Definition same_space (v v' : world) : Prop :=
  empty_write_buffer_frame (fst v) <= empty_write_buffer_frame (fst v') /\
  empty_read_buffer_frame (fst v) <= empty_read_buffer_frame (fst v').

Lemma buffered_space h k data v : buffered h k data v ->
  0 <= empty_write_buffer_frame (fst v) < 2 ^ 32 /\ 0 <= empty_read_buffer_frame (fst v) < 2 ^ 32.
Proof using HN HR.
  intros (reads & writes & junk & segs & Hb & _). pose proof (frames_total T N R HN _ _ _ _ _ Hb).
  pose proof (wb_empty _ _ _ _ _ (fo_wb _ _ _ _ _ _ _ _ Hb)). pose proof (fo_empty _ _ _ _ _ _ _ _ Hb) as [E1 E2].
  assert (0 <= sum_with ev_length (c_e_queue (fst v) ++ reads)) by (eapply sum_pos, reads_pos; exact Hb). lia.
Qed.

Lemma holds_space e h k data v : holds e h k data v ->
  0 <= empty_write_buffer_frame (fst v) < 2 ^ 32 /\ 0 <= empty_read_buffer_frame (fst v) < 2 ^ 32.
Proof using HN HR. intros (v' & _ & Hv & _ & q & n & E)%move_frame. apply buffered_space in Hv. by rewrite E in Hv. Qed.

(** ** Taking an event *)

Lemma take_buffered h k data v : buffered h k data v ->
  wp (take_event cfg N R) (fun o v' => exists h' data',
    wp (finish_event o) (fun _ v'' => buffered h' k data' v'') v' /\
    (forall lpn, page_stored cfg h' data' lpn <-> page_stored cfg h data lpn) /\ same_space v v') v.
Proof using Hok HN HR HT BE.
  intros (reads & writes & junk & segs & Hb & HG & <-). destruct v as [b w]. simpl in *.
  destruct (reads ++ writes) as [|e l] eqn:El.
  { pose proof (q_nb _ _ _ (fo_queue _ _ _ _ _ _ _ _ Hb)) as Enb. rewrite El in Enb. unfold take_event. wp_go. rewrite Enb. simpl. wp_go.
    exists h, (data_of N b writes junk segs). simpl. wp_go. split; [by exists reads, writes, junk, segs|]. split; [done|]. by split. }
  assert (length reads + length writes = S (length l))%nat as Hlen by by rewrite <- length_app, El.
  assert (wp (DEQUEUE_IO cfg N R) (fun _ v => drained cfg T N R G 1 reads writes junk segs h (length l + k) b v) (b, w)) as H.
  { pose proof (dequeue_times_spec cfg Hok T N R HN HR HT G 1 reads writes junk segs h (length l + k) b w Hb) as H. simpl in H.
    apply wp_bind_inv in H; [|rewrite El; simpl; lia|rewrite Hlen in HG; exact HG]. exact H. }
  unfold wp in H. rewrite dequeue_split in H. fold (wp (take_event cfg N R ≫= finish_event) (fun _ v => drained cfg T N R G 1 reads writes junk segs h (length l + k) b v) (b, w)) in H.
  apply wp_bind_inv in H. eapply wp_mono; [exact H|]. clear H. intros o v1 H.
  set (m := (1 - length reads)%nat) in *.
  exists (foldl (write_event cfg) h (take m writes)), (data_from N m b writes junk segs).
  split; [|split].
  - eapply wp_mono; [exact H|]. intros ? v2 (junk' & H1 & H2 & H3 & _). fold m in H1, H2, H3.
    exists (drop 1 reads), (drop m writes), junk', (drop m segs). split; [done|]. split.
    + replace (length (drop 1 reads) + length (drop m writes) + k)%nat with (length l + k)%nat; [done|].
      rewrite !length_drop. unfold m. lia.
    + unfold data_of, data_from, wb_start in *. by rewrite H3.
  - intros lpn. by eapply (firm_stored cfg Hok T N R HN).
  - assert (exists v2, same_space v1 v2 /\ same_space v2 v1 /\ same_buffers b (fst v2)) as (v2 & [E1 E2] & [E3 E4] & E5 & _ & E6).
    { destruct o as [e'|]; simpl in H.
      - apply move_frame in H as (v2 & _ & (junk' & _ & _ & _ & H & _) & _ & q & n & E). exists v2.
        unfold same_space. rewrite E in *. simpl in *. split_and!; (lia || exact H).
      - destruct H as (junk' & _ & _ & _ & H & _). exists v1. unfold same_space. split_and!; (lia || exact H). }
    unfold same_space. simpl. lia.
Qed.

(** ** The steps of the host *)

Lemma chain_snoc p cs e q : chain R p (cs ++ [e]) q -> exists m, chain R p cs m /\ buf e = Some m /\ q = adv R m (ev_length e) /\ 0 < ev_length e.
Proof.
  revert p. induction cs as [|c cs IH]; intros p; simpl.
  - intros (? & ? & <-). by exists p.
  - intros (? & ? & (m & ? & ? & ? & ?)%IH). by exists m.
Qed.

(** Completed reads leave their queue while a read is in hand. *)
Lemma dequeue_in_hand e reads writes junk segs b : c_entry_nb b = zlen (c_e_queue b) ->
  firm_ok T N R reads writes junk segs (set_completed (c_e_queue b ++ [e]) (zlen (c_e_queue b ++ [e])) b) ->
  wp (DEQUEUE_COMPLETED_READ R) (fun _ b' => c_e_queue b' = [] /\ c_entry_nb b' = 0 /\
    firm_ok T N R reads writes junk segs (set_completed [e] 1 b') /\ ftl_write_ptr b' = ftl_write_ptr b /\
    empty_write_buffer_frame b' = empty_write_buffer_frame b /\ empty_read_buffer_frame b <= empty_read_buffer_frame b') b.
Proof using HR.
  intros Hnb Hb. pose proof (reads_pos _ _ _ _ _ _ _ _ Hb) as Hpos. pose proof (reads_bound _ _ _ _ _ _ _ _ Hb) as Hbound.
  destruct Hb as [Hq Hwb Hin Hc (q & Hch & Hst) Hptr [E1 E2] Hlen]. simpl in *.
  apply chain_snoc in Hch as (m & Hch & Hbuf & -> & He). rewrite <- (assoc_L app), sum_with_app in E1. simpl in E1.
  assert (0 <= sum_with ev_length (c_e_queue b)) as Hsc
    by (apply sum_pos; intros x Hx; apply Hpos; rewrite <- (assoc_L app); apply elem_of_app; by left).
  unfold DEQUEUE_COMPLETED_READ. wp_go. destruct ((c_entry_nb b =? 0) || _) eqn:E.
  { wp_go. assert (c_e_queue b = []) as Ec.
    { destruct (c_e_queue b); [done|]. rewrite orb_false_r in E. apply Z.eqb_eq in E. simpl in *. lia. }
    rewrite Ec in *. simpl in *. subst m. split_and!; try done. split; simpl; try done. by eexists. }
  eapply wp_mono; [apply (completed_loop_spec R HR _ true b m Hch); try done|].
  - apply Forall_forall. intros x Hx. pose proof (Hbound x ltac:(rewrite <- (assoc_L app); apply elem_of_app; by left)). lia.
  - apply Hptr.
  - intros ? b' [_ ->]. simpl. split_and!; try done; [|lia]. split; simpl; try done; try (by destruct Hq); try (by destruct Hwb); try lia.
    + by exists (adv R m (ev_length e)).
    + split; [|apply Hptr]. eapply chain_range; [exact HR|exact Hch|apply Hptr].
Qed.

Lemma completed_holds e h k data v : holds e h k data v ->
  wp (on_fst (DEQUEUE_COMPLETED_READ R)) (fun _ v' => holds e h k data v' /\ same_space v v') v.
Proof using HR.
  destruct v as [b w]. destruct e as [e|].
  - intros Hh. pose proof Hh as (v' & _ & (reads & writes & junk & segs & Hb & HG & Hd) & Ew & q & n & E)%move_frame.
    simpl in *. unfold holds, move_event, wp, on_fst, complete_read, mbind, M_bind in Hh. simpl in Hh.
    destruct (Z.eqb_spec (c_entry_nb b) 0) as [E0|E0].
    + unfold DEQUEUE_COMPLETED_READ. wp_go. rewrite E0. simpl. wp_go. split; [|unfold same_space; lia].
      unfold holds, move_event, wp, on_fst, complete_read, mbind, M_bind. simpl. rewrite (proj2 (Z.eqb_eq _ _) E0). exact Hh.
    + destruct (c_e_queue b) as [|c l] eqn:Ec; [done|]. rewrite <- Ec in *. destruct Hh as (reads1 & writes1 & junk1 & segs1 & Hb1 & HG1 & Hd1).
      pose proof (fo_cnb _ _ _ _ _ _ _ _ Hb1) as Hn1. simpl in Hb1, Hn1.
      assert (c_entry_nb b = zlen (c_e_queue b)) as Hn by (rewrite zlen_app in Hn1; simpl in Hn1; lia).
      wp_go. eapply wp_mono; [apply (dequeue_in_hand e reads1 writes1 junk1 segs1 b Hn)|].
      { rewrite <- Hn1. exact Hb1. }
      intros ? b' (H1 & H2 & H3 & H4 & H5 & H6). split; [|unfold same_space; simpl; lia].
      unfold holds, move_event, wp, on_fst, complete_read, mbind, M_bind. simpl. rewrite H2. simpl.
      exists reads1, writes1, junk1, segs1. split; [exact H3|]. split; [exact HG1|]. rewrite <- Hd1. unfold data_of. simpl. by rewrite H4.
  - intros (reads & writes & junk & segs & Hb & HG & Hd). simpl in *. wp_go.
    pose proof (fo_empty _ _ _ _ _ _ _ _ Hb) as [E1 E2]. rewrite sum_with_app in E1.
    assert (0 <= sum_with ev_length (c_e_queue b)) by (apply sum_pos; intros x Hx; eapply reads_pos; [exact Hb|]; apply elem_of_app; by left).
    eapply wp_mono; [by apply (dequeue_completed_spec T N R HR)|]. intros ? b' (_ & Hb' & Ec & H3 & H4 & H5).
    pose proof (fo_empty _ _ _ _ _ _ _ _ Hb') as [E3 E4]. rewrite Ec in E3. simpl in E3.
    split; [|unfold same_space; simpl; lia]. exists reads, writes, junk, segs. split; [exact Hb'|]. split; [exact HG|].
    rewrite <- Hd. unfold data_of. simpl. by rewrite H3.
Qed.

(** The request has room in its buffer. *)
Definition has_room (r : request) (v : world) : Prop :=
  match r with Write _ n => n <= empty_write_buffer_frame (fst v) | Read _ n => n <= empty_read_buffer_frame (fst v) end.

Lemma check_holds e h k data v r : holds e h k data v ->
  wp (on_fst (EVENT_QUEUE_IS_FULL (req_type r) (req_length r))) (fun full v' => v' = v /\ (full = false -> has_room r v)) v.
Proof using HN HR.
  intros [H1 H2]%holds_space. destruct v as [b w]. simpl in *. wp_go. destruct r as [s n|s n].
  - eapply wp_mono; [by apply not_full_write|]. intros ? ? [-> ->]. split; [done|]. simpl. lia.
  - eapply wp_mono; [by apply not_full_read|]. intros ? ? [-> ->]. split; [done|]. simpl. lia.
Qed.

Lemma enqueue_buffered r h k data v : bufferable T N R r -> has_room r v -> buffered h (S k) data v ->
  wp (enqueue cfg N R r) (fun _ v' => exists h' data', buffered h' k data' v' /\
    forall lpn, page_stored cfg h' data' lpn <-> page_stored cfg h data lpn \/ writes_page cfg lpn r) v.
Proof using Hok HN HR HT BE.
  intros Hr Hroom (reads & writes & junk & segs & Hb & HG & <-). destruct v as [b w].
  pose proof (sector_lt cfg Hok T HT) as HT31.
  destruct r as [s n|s n]; destruct Hr as [Hi Hn]; unfold enqueue, ENQUEUE_IO; simpl in *.
  - unfold on_firm. wp_go. pose proof (fo_in _ _ _ _ _ _ _ _ Hb) as [_ Hinw]%Forall_app.
    eapply wp_mono; [apply (enqueue_write_spec N T HN HT31 reads writes junk segs b s n (fo_queue _ _ _ _ _ _ _ _ Hb) (fo_wb _ _ _ _ _ _ _ _ Hb)); done|].
    intros ? b3 H3. destruct (enqueued_ok T N R _ _ _ _ b s n b3 Hb Hi H3) as (writes' & segs' & Hok' & Hl & Hd).
    exists h, (data_of N b3 writes' junk segs'). split.
    { exists reads, writes', junk, segs'. split; [done|]. split; [|done]. simpl.
      eapply (backend_le cfg T N R G); [|exact HG]. lia. }
    intros lpn. rewrite Hd. destruct Hi as (? & ? & ?). unfold page_stored. rewrite has_page_union.
    rewrite (effect_pages cfg Hok) by (done || unfold frames_at; rewrite length_fmap, length_seqZ; lia). tauto.
  - eapply wp_mono; [by apply (enqueue_read_spec cfg Hok T N R HN HR HT G s n reads writes junk segs h (S k))|].
    intros ? v (m & junk' & reads' & src & Hb' & HG' & _ & Hs & _).
    exists (foldl (write_event cfg) h (take m writes)), (data_of N (fst v) (drop m writes) junk' (drop m segs)). split.
    { exists (reads' ++ [Event READ VALID s n src]), (drop m writes), junk', (drop m segs). split; [done|].
      split; [|reflexivity]. rewrite length_app. simpl. by replace (length reads' + 1 + length (drop m writes) + k)%nat
        with (length reads' + length (drop m writes) + S k)%nat by lia. }
    intros lpn. rewrite <- (firm_stored cfg Hok T N R HN m _ _ _ _ _ h lpn Hb). unfold data_from, data_of. rewrite <- Hs. unfold wb_start. tauto.
Qed.

(** ** The invariant *)

Context (rs0 : list request) (h0 : host).

(** The read that the drive has in hand, and the requests that are not in the
    queue yet. *)
Definition in_hand (p : ssd_pc) : option event_queue_entry :=
  match p with t_lock_cq e | t_move e => e | _ => None end.

Definition requests_left (s : threads) : list request :=
  match host_at s with h_unlock_eq | h_signal => tail (todo s) | _ => todo s end.

(** Once the read in hand is completed, the buffers over the disk hold the pages of
    the first disk and those of the requests that were made. *)
Definition data_ok (e : option event_queue_entry) (left : list request) (v : world) : Prop :=
  exists h data made, rs0 = made ++ left /\ holds e h (length left) data v /\ Forall (bufferable T N R) left /\
  forall lpn, page_stored cfg h data lpn <-> is_Some (h_pages h0 !! lpn) \/ Exists (writes_page cfg lpn) made.

Definition ssd_has_cq (p : ssd_pc) : bool := match p with t_move _ | t_unlock_cq => true | _ => false end.

Definition control_ok (s : threads) : Prop :=
  host_has_eq (host_at s) && ssd_has_eq (ssd_at s) = false /\
  host_has_cq (host_at s) && ssd_has_cq (ssd_at s) = false /\
  eq_lock s = (if host_has_eq (host_at s) then Some HostThread else if ssd_has_eq (ssd_at s) then Some SsdThread else None) /\
  cq_lock s = (if host_has_cq (host_at s) then Some HostThread else if ssd_has_cq (ssd_at s) then Some SsdThread else None) /\
  ssd_at s <> t_reset_r /\ ssd_at s <> t_reset_w /\
  match todo s with
  | [] => host_at s = h_lock_cq
  | r :: _ =>
      match host_at s with
      | h_spin => queue_full r s = 1
      | h_lock_eq | h_enqueue => has_room r (machine s)
      | _ => True
      end
  end.

Definition safe (s : threads) : Prop := control_ok s /\ data_ok (in_hand (ssd_at s)) (requests_left s) (machine s).

(** A call that keeps the data. *)
Lemma wp_machine {A} (m : M world A) (Q : A -> threads -> Prop) s :
  wp m (fun a v => Q a (Threads (host_at s) (todo s) (ssd_at s) (eq_lock s) (cq_lock s) (r_queue_full s) (w_queue_full s) v)) (machine s) ->
  wp (on_machine m) Q s.
Proof. unfold wp, on_machine. destruct (m (machine s)) as [[a v]| |]; done. Qed.

Lemma data_completed e left v : data_ok e left v ->
  wp (on_fst (DEQUEUE_COMPLETED_READ R)) (fun _ v' => data_ok e left v') v.
Proof using HR.
  intros (h & data & made & ? & Hh & ? & ?). eapply wp_mono; [by apply completed_holds|]. intros ? v' [? _].
  by exists h, data, made.
Qed.

Lemma data_check e left r v : data_ok e left v ->
  wp (on_fst (EVENT_QUEUE_IS_FULL (req_type r) (req_length r))) (fun full v' => data_ok e left v' /\ (full = false -> has_room r v')) v.
Proof using HN HR.
  intros Hd. pose proof Hd as (h & data & made & ? & Hh & ? & ?). eapply wp_mono; [by eapply check_holds|]. intros ? ? [-> ?]. by split.
Qed.

Lemma data_enqueue r left v : data_ok None (r :: left) v -> has_room r v ->
  wp (enqueue cfg N R r) (fun _ v' => data_ok None left v') v.
Proof using Hok HN HR HT BE.
  intros (h & data & made & -> & Hh & [Hr HF]%Forall_cons & Hp) Hroom. eapply wp_mono; [apply (enqueue_buffered r h (length left) data); [done|done|exact Hh]|].
  intros ? v' (h' & data' & Hb & Hp'). exists h', data', (made ++ [r]). rewrite <- (assoc_L app). split_and!; try done.
  intros lpn. rewrite Hp', Hp, Exists_app, Exists_cons, Exists_nil. clear. tauto.
Qed.

Lemma data_take left v : data_ok None left v ->
  wp (take_event cfg N R) (fun o v' => data_ok (default None o) left v' /\ same_space v v') v.
Proof using Hok HN HR HT BE.
  intros (h & data & made & ? & Hh & ? & Hp). eapply wp_mono; [apply (take_buffered h); exact Hh|].
  intros o v' (h' & data' & H1 & H2 & H3). split; [|done]. exists h', data', made. split_and!; try done.
  - by destruct o.
  - intros lpn. by rewrite H2.
Qed.

Lemma data_move e left v : data_ok e left v ->
  wp (move_event e) (fun _ v' => data_ok None left v' /\ same_space v v') v.
Proof.
  intros (h & data & made & ? & Hh & ? & Hp). apply move_frame in Hh as (v' & E & Hb & _ & q & n & Ef).
  eapply run_wp; [exact E|]. split; [by exists h, data, made|]. unfold same_space. rewrite Ef. simpl. lia.
Qed.

Lemma room_space r v v' : has_room r v -> same_space v v' -> has_room r v'.
Proof. destruct r; unfold has_room, same_space; lia. Qed.

Ltac safe_state := repeat (simpl; progress wp_go); simpl; unfold safe, control_ok, requests_left, queue_full; simpl;
  repeat match goal with |- _ /\ _ => split end; try done.

Lemma host_safe s : safe s -> wp (host_step cfg N R MODE_1) (fun _ s' => safe s') s.
Proof using Hok HN HR HT BE.
  destruct s as [hp td sp eql cql rf wf v0]. unfold safe, control_ok, requests_left, queue_full. simpl.
  intros ((Hx & Hy & -> & -> & Hr & Hw & Hc) & Hd). unfold host_step. wp_go. simpl.
  destruct td as [|r rs]; [by safe_state|]. wp_go. simpl. destruct hp; simpl in *; try done.
  - destruct (ssd_has_cq sp) eqn:Ec; unfold lock_cq; safe_state; by rewrite Ec.
  - wp_go. apply wp_machine. eapply wp_mono; [by apply data_completed|]. intros ? v1 Hd1. safe_state.
  - safe_state. by destruct (ssd_has_cq sp).
  - wp_go. apply wp_machine. eapply wp_mono; [by eapply data_check|]. intros full v1 [Hd1 Hroom]. destruct full; safe_state. by apply Hroom.
  - destruct r; safe_state.
  - wp_go. unfold queue_full. simpl. rewrite Hc. simpl. unfold signal. wp_go. destruct sp, r; simpl; safe_state.
  - destruct (ssd_has_eq sp) eqn:Es; unfold lock_eq; safe_state; by rewrite Es.
  - wp_go. apply wp_machine. eapply wp_mono; [apply data_enqueue; [|exact Hc]|intros ? v1 Hd1; safe_state]; by destruct sp.
  - destruct (ssd_has_eq sp) eqn:Es; [done|]. safe_state. by rewrite Es.
  - unfold signal. destruct sp, rs; simpl; safe_state.
Qed.

Lemma ssd_safe s : safe s -> wp (ssd_step cfg N R MODE_1) (fun _ s' => safe s') s.
Proof using Hok HN HR HT BE.
  destruct s as [hp td sp eql cql rf wf v0]. unfold safe, control_ok, requests_left, queue_full. simpl.
  intros ((Hx & Hy & -> & -> & Hr & Hw & Hc) & Hd). unfold ssd_step. wp_go. simpl.
  destruct sp; simpl in *; try done.
  - destruct (host_has_eq hp) eqn:Eh; unfold lock_eq; safe_state; by rewrite Eh.
  - destruct (host_has_eq hp) eqn:Eh; [done|]. wp_go. simpl. destruct (_ =? 0); safe_state; by rewrite Eh.
  - destruct (host_has_eq hp) eqn:Eh; unfold lock_eq; safe_state; by rewrite Eh.
  - destruct (host_has_eq hp) eqn:Eh; [done|]. wp_go. apply wp_machine. eapply wp_mono; [by apply data_take|].
    intros o v1 [Hd1 Hsp]. destruct o as [e|]; safe_state; rewrite ?Eh; try done; destruct td; try done; destruct hp; try done; by eapply room_space.
  - destruct (host_has_cq hp) eqn:Eh; unfold lock_cq; safe_state; by rewrite Eh.
  - destruct (host_has_cq hp) eqn:Eh; [done|]. wp_go. apply wp_machine. eapply wp_mono; [by apply data_move|].
    intros ? v1 [Hd1 Hsp]. safe_state; rewrite ?Eh; try done; destruct td; try done; destruct hp; try done; by eapply room_space.
  - destruct (host_has_cq hp) eqn:Eh; [done|]. safe_state; by rewrite Eh.
  - destruct (host_has_eq hp) eqn:Eh; [done|]. safe_state; by rewrite Eh.
Qed.

Lemma wake_safe s : safe s -> safe (signal s).
Proof.
  destruct s as [hp td sp eql cql rf wf v0]. unfold signal. destruct sp; try done.
  intros [(H1 & H2 & H3 & H4 & _ & _ & H5) Hd]. split; [split_and!; done|exact Hd].
Qed.

Lemma mode_1_run l : forall s, safe s -> wp (run_threads cfg N R MODE_1 l) (fun _ s' => safe s') s.
Proof using Hok HN HR HT BE.
  induction l as [|t l IH]; intros s Hs; simpl; [by wp_go|]. apply wp_bind. destruct t; simpl.
  - eapply wp_mono; [by apply host_safe|]. auto.
  - eapply wp_mono; [by apply ssd_safe|]. auto.
  - wp_go. by apply IH, wake_safe.
Qed.

Lemma start_safe w : Forall (bufferable T N R) rs0 -> G h0 (length rs0) w -> safe (threads_start rs0 (INIT_IO_BUFFER N R, w)).
Proof using HN HR.
  intros HF Hw. split; [by destruct rs0|]. exists h0, ∅, []. split; [done|]. split; [|split; [done|]].
  - exists [], [], [], []. split; [by apply init_ok|]. done.
  - intros lpn. unfold page_stored, has_page. setoid_rewrite lookup_empty. rewrite Exists_nil.
    assert (~ exists x : Z, is_Some (@None Z) /\ x / SECTORS_PER_PAGE cfg = lpn) by by intros (? & [? ?] & _). tauto.
Qed.

(** With nothing left, in hand or in the queue, the pages are on the disk. *)
Lemma data_drained v : data_ok None [] v -> e_queue (fst v) = [] -> exists h, G h 0 (snd v) /\
  forall lpn, is_Some (h_pages h !! lpn) <-> is_Some (h_pages h0 !! lpn) \/ Exists (writes_page cfg lpn) rs0.
Proof.
  intros (h & data & made & -> & (reads & writes & junk & segs & Hb & HG & <-) & _ & Hp) Eq.
  rewrite (q_list _ _ _ (fo_queue _ _ _ _ _ _ _ _ Hb)) in Eq. apply app_eq_nil in Eq as [-> ->].
  exists h. split; [exact HG|]. intros lpn. rewrite app_nil_r, <- Hp. unfold page_stored.
  pose proof (wb_placed _ _ _ _ _ (fo_wb _ _ _ _ _ _ _ _ Hb)) as Hpl. destruct segs; [|done].
  assert (~ has_page cfg (data_of N (fst v) [] junk []) lpn) by by intros (x & [? Hx] & _). tauto.
Qed.

End Safe.

(** ** A full buffer *)

(** A host that waits in mode 1. *)
Definition host_waits (r : request) (rs : list request) `{Device} (s : threads) : Prop :=
  host_at s = h_spin /\ todo s = r :: rs /\ queue_full r s = 1 /\ ssd_at s <> t_reset_r /\ ssd_at s <> t_reset_w.

Lemma waits_turn cfg `{Device} N R r rs t s s' : host_waits r rs s ->
  take_turn cfg N R MODE_1 t s = Ret (tt, s') -> host_waits r rs s'.
Proof.
  destruct s as [hp td sp eql cql rf wf v0]. unfold host_waits. simpl. intros (-> & -> & Hf & Hr & Hw). destruct t; simpl.
  - unfold host_step, mbind, M_bind, gets, modify. simpl. rewrite Hf. simpl. intros [= <-]. unfold signal. destruct sp; simpl; by destruct r.
  - unfold ssd_step, lock_eq, lock_cq, mbind, M_bind, mret, M_ret, gets, modify, on_machine. simpl. intros E.
    destruct sp; simpl in E; repeat case_match; simplify_eq; simpl; by destruct r.
  - intros [= <-]. unfold signal. destruct sp; simpl; by destruct r.
Qed.

Lemma waits_run cfg `{Device} N R r rs l : forall s s', host_waits r rs s ->
  run_threads cfg N R MODE_1 l s = Ret (tt, s') -> host_waits r rs s'.
Proof.
  induction l as [|t l IH]; intros s s' Hs; simpl; [by intros [= <-]|]. unfold mbind, M_bind.
  destruct (take_turn cfg N R MODE_1 t s) as [[[] s1]| |] eqn:E; [|done|done]. apply IH. by eapply waits_turn.
Qed.
