(* ===== verification/ThreadProps.v ===== *)
(** * The threads: theorems

    Every interleaving of the thread of the host and the thread of the drive, in
    the two modes of [SSD_THREAD]. *)

From stdpp Require Import prelude gmap.
From Stdlib Require Import Ascii.
From S2P Require Import Prelude Config Blocks Mapping Device Perf SsdIo Gc Ftl Persist Ssd.
From S2P Require Import Tables Lists Victims Inv Collect Host Boot SsdLaws Timing SsdSim Space Session Example.
From S2P Require Import Firm FirmRing FirmWrite FirmFlush FirmQueue FirmServe FirmSession.
From S2P Require Import Threads ThreadTurns ThreadRefine ThreadSafe.

Local Open Scope Z_scope.

(** C10.  In mode 2 the threads do what the build without threads does.  Whatever
    the schedule, no thread runs into undefined behaviour, and running what is
    left of the requests without threads would give the state that the build
    without threads reaches.  A schedule that gives both threads enough turns,
    spurious wake-ups taken into account, brings the host to its end, with the
    machine in that state: there is no deadlock, and no signal is lost. *)
Theorem mode_2_refines cfg {D : Device} N R rs v0 v l : firm_submit_all cfg N R rs v0 = Ret (tt, v) ->
  wp (run_threads cfg N R MODE_2 l)
     (fun _ s => rest_all cfg N R s (machine s) = Ret (tt, v) /\
        ((18 * length rs + 2 + 3 * wakes l < rounds false false l)%nat -> todo s = [] /\ machine s = v))
     (threads_start rs v0).
Proof.
  intros Hv. eapply wp_mono; [by apply mode_2_run|]. intros ? s [Hs He]. split; [apply Hs|]. intros Hn.
  split; [by apply He|]. apply (ended_world cfg N R v s Hs). by apply He.
Qed.

Section Drive.
Context (cfg : config) (Hok : cfg_ok cfg) (HL : PLANES_PER_FLASH cfg = 1) {D : Device} {DL : DeviceLaws cfg D}.

(** C11.  In mode 1 the drive takes events out of the queue while the host puts
    others in.  For requests that fit, at every point of every schedule no thread
    has run into undefined behaviour, the buffers are well formed once the read
    in hand is completed, and every page of the disk or of a request that was
    made is on the disk or in the buffer.  When all requests are made and the
    queue is empty, the disk has just these pages. *)
Theorem mode_1_safe M T N R rs h w l :
  0 <= M < (BLOCK_NB cfg * FLASH_NB cfg - FLASH_NB cfg * PLANES_PER_FLASH cfg) * PAGE_NB cfg ->
  1 <= GC_VICTIM_NB cfg -> 0 < N < 2 ^ 31 -> 0 < R < 2 ^ 31 -> buffer_ok cfg M T N R ->
  Forall (bufferable T N R) rs -> ready cfg M h (length rs) w ->
  wp (run_threads cfg N R MODE_1 l)
     (fun _ s => data_ok cfg T N R (ready cfg M) rs h (in_hand (ssd_at s)) (requests_left s) (machine s) /\
        (requests_left s = [] -> in_hand (ssd_at s) = None -> e_queue (fst (machine s)) = [] ->
         exists h', ready cfg M h' 0 (snd (machine s)) /\
         forall lpn, is_Some (h_pages h' !! lpn) <-> is_Some (h_pages h !! lpn) \/ Exists (writes_page cfg lpn) rs))
     (threads_start rs (INIT_IO_BUFFER N R, w)).
Proof using Hok HL DL.
  intros HM HV HN HR Hbuf HF Hw. pose proof Hbuf as (_ & HT & _).
  pose proof (ftl_backend cfg Hok HL M HM HV T N R Hbuf) as BE.
  eapply wp_mono; [apply (mode_1_run cfg Hok T N R HN HR HT (ready cfg M) rs h)|].
  - by apply start_safe.
  - intros ? s [_ Hd]. split; [exact Hd|]. intros El Eh Eq. rewrite El, Eh in Hd. by apply (data_drained cfg T N R HN HR).
Qed.

End Drive.

(** C40.  Mode 1 has no way out for a host that found a buffer full: whatever the
    threads do from then on, and however often the drive empties the queue, the
    host waits, since nobody resets the flag. *)
Theorem mode_1_full_hangs cfg {D : Device} N R r rs l s s' : host_waits r rs s ->
  run_threads cfg N R MODE_1 l s = Ret (tt, s') -> host_at s' = h_spin /\ todo s' = r :: rs.
Proof. intros Hs E. apply (waits_run cfg N R r rs l s s' Hs) in E as (? & ? & _). done. Qed.

(** ** Threads of the small drive *)

Local Abbreviation small_T := 364.
Local Abbreviation small_G := (ready (DL := SsdLaws small small_ok) small small_use).

Definition thread_requests : list request := [Write 0 4; Write 2 4; Read 1 4; Write 8 3].

(** The drive and the host in turn, with some wake-ups. *)
Definition thread_turns : list turn := wake_up :: mjoin (replicate 90 [run_ssd; run_host]) ++ [wake_up].

Lemma thread_buffer_ok : buffer_ok small small_use small_T 4 8.
Proof. repeat split; by vm_compute. Qed.

Lemma thread_ready : exists w, d_state small_busy = w /\ small_G small_disk 4 w.
Proof.
  destruct small_busy_serves as (_ & _ & Hroom & Hw & n & HR & Hrep & Hreq & Hseq).
  destruct (d_state small_busy) as [s d]. exists (s, d). split; [done|]. split; [done|]. split; [done|]. exists n.
  do 3 (split; [done|]). lia.
Qed.

Lemma thread_backend : Backend small (SsdDevice small) small_T 4 8 small_G.
Proof. by apply (ftl_backend small small_ok eq_refl small_use small_room); [|exact thread_buffer_ok]. Qed.

Lemma thread_frames : 0 < 4 < 2 ^ 31 /\ 0 < 8 < 2 ^ 31.
Proof. done. Qed.

Lemma thread_sectors : small_T <= SECTOR_NB small.
Proof. by vm_compute. Qed.

Lemma thread_bufferable : Forall (bufferable small_T 4 8) thread_requests.
Proof. by repeat constructor. Qed.

Lemma thread_sequential w : small_G small_disk 4 w ->
  exists v, firm_submit_all (D := SsdDevice small) small 4 8 thread_requests (INIT_IO_BUFFER 4 8, w) = Ret (tt, v).
Proof.
  intros Hw. assert (buffered small_T 4 8 small_G small_disk (length thread_requests + 0) ∅ (INIT_IO_BUFFER 4 8, w)) as Hinit.
  { exists [], [], [], []. split; [by apply init_ok|]. split; [exact Hw|done]. }
  destruct (wp_run _ _ _ (submit_all_buffered small small_ok small_T 4 8 (proj1 thread_frames) (proj2 thread_frames) thread_sectors small_G
    (BE := thread_backend) thread_requests small_disk 0 ∅ _ thread_bufferable Hinit)) as ([] & v & E & _).
  by exists v.
Qed.

Lemma mode_2_refines_witness : exists w v, d_state small_busy = w /\
  firm_submit_all (D := SsdDevice small) small 4 8 thread_requests (INIT_IO_BUFFER 4 8, w) = Ret (tt, v) /\
  wp (run_threads (D := SsdDevice small) small 4 8 MODE_2 thread_turns) (fun _ s => todo s = [] /\ machine s = v)
     (threads_start (D := SsdDevice small) thread_requests (INIT_IO_BUFFER 4 8, w)).
Proof.
  destruct thread_ready as (w & Hd & Hw). destruct (thread_sequential w Hw) as [v E].
  exists w, v. split; [exact Hd|]. clear Hd. split; [exact E|].
  eapply wp_mono; [exact (mode_2_refines small 4 8 thread_requests _ v thread_turns E)|].
  intros ? s [_ H]. apply H. apply Nat.ltb_lt. by vm_compute.
Defined.

Lemma mode_1_safe_witness : exists w, d_state small_busy = w /\
  wp (run_threads (D := SsdDevice small) small 4 8 MODE_1 thread_turns)
     (fun _ s => data_ok small small_T 4 8 small_G thread_requests small_disk (in_hand (ssd_at s)) (requests_left s) (machine s) /\
        (requests_left s = [] -> in_hand (ssd_at s) = None -> e_queue (fst (machine s)) = [] ->
         exists h', small_G h' 0 (snd (machine s)) /\
         forall lpn, is_Some (h_pages h' !! lpn) <->
           is_Some (h_pages small_disk !! lpn) \/ Exists (writes_page small lpn) thread_requests))
     (threads_start (D := SsdDevice small) thread_requests (INIT_IO_BUFFER 4 8, w)).
Proof.
  destruct thread_ready as (w & Hd & Hw). exists w. split; [exact Hd|]. clear Hd.
  apply (mode_1_safe small small_ok eq_refl (DL := SsdLaws small small_ok) small_use small_T 4 8 thread_requests small_disk w thread_turns);
    [exact small_room|done|done|done|exact thread_buffer_ok|by repeat constructor|exact Hw].
Defined.

(** A write of four sectors fills the buffer before the drive has a turn. *)
Definition full_turns (w : ftl * module) : outcome (unit * threads (D := SsdDevice small)) :=
  run_threads (D := SsdDevice small) small 4 8 MODE_1 (replicate 20 run_host)
    (threads_start (D := SsdDevice small) [Write 0 4; Write 8 1] (INIT_IO_BUFFER 4 8, w)).

Definition full_state (w : ftl * module) : threads (D := SsdDevice small) :=
  match full_turns w with Ret (_, s) => s | _ => threads_start (D := SsdDevice small) [] (INIT_IO_BUFFER 4 8, w) end.

Definition waits_test (s : threads (D := SsdDevice small)) : bool :=
  match host_at s, todo s, ssd_at s with
  | h_spin, [Write 8 1], t_lock_eq => w_queue_full s =? 1
  | _, _, _ => false
  end.

Lemma waits_test_ok s : waits_test s = true -> host_waits (Write 8 1) [] s.
Proof.
  destruct s as [hp td sp eql cql rf wf v0]. unfold waits_test, host_waits. simpl.
  destruct hp; try done. repeat (case_match; try done). intros ->%Z.eqb_eq. done.
Qed.

Lemma full_state_waits w : full_turns w = Ret (tt, full_state w) /\ host_waits (Write 8 1) [] (full_state w).
Proof.
  assert (match full_turns w with Ret (_, s) => waits_test s | _ => false end = true) as H by by vm_compute.
  unfold full_state. destruct (full_turns w) as [[[] s]| |]; [|done|done]. split; [done|]. by apply waits_test_ok.
Qed.

Lemma mode_1_full_hangs_witness : full_turns (d_state small_busy) = Ret (tt, full_state (d_state small_busy)) /\
  forall l s', run_threads (D := SsdDevice small) small 4 8 MODE_1 l (full_state (d_state small_busy)) = Ret (tt, s') ->
    host_at s' = h_spin /\ todo s' = [Write 8 1].
Proof.
  generalize (d_state small_busy). intros w. split; [exact (proj1 (full_state_waits w))|].
  intros l s' E. exact (mode_1_full_hangs small 4 8 (Write 8 1) [] l _ s' (proj2 (full_state_waits w)) E).
Defined.
