(* ===== verification/Bytes.v ===== *)
(** * Bytes

    Numbers and texts as bytes, in the two orders, and buffers of bytes that are
    read and written at an index. *)

From stdpp Require Import prelude.
From Stdlib Require Import Ascii.
From S2P Require Import Prelude.

Local Open Scope Z_scope.

Definition u8 (z : Z) : Z := z mod 2 ^ 8.
Definition u16 (z : Z) : Z := z mod 2 ^ 16.

Definition is_byte (z : Z) : Prop := 0 <= z < 256.

Lemma u8_range z : 0 <= u8 z < 256.
Proof. by apply Z.mod_pos_bound. Qed.

Lemma u8_id z : 0 <= z < 256 -> u8 z = z.
Proof. apply Z.mod_small. Qed.

(** ** Numbers *)

(** The [n] lowest bytes, the lowest first. *)
Fixpoint bytes_le (n : nat) (v : Z) : list Z :=
  match n with
  | O => []
  | S n' => u8 v :: bytes_le n' (Z.shiftr v 8)
  end.

Fixpoint of_le (l : list Z) : Z :=
  match l with
  | [] => 0
  | b :: l' => b + 256 * of_le l'
  end.

(** The highest first. *)
Definition bytes_be (n : nat) (v : Z) : list Z := reverse (bytes_le n v).
Definition of_be (l : list Z) : Z := of_le (reverse l).

Lemma length_bytes_le n : forall v, length (bytes_le n v) = n.
Proof. induction n as [|n IH]; intros v; simpl; [done|]. by rewrite IH. Qed.

Lemma bytes_le_bytes n : forall v, Forall is_byte (bytes_le n v).
Proof. induction n as [|n IH]; intros v; simpl; [done|]. constructor; [apply u8_range|apply IH]. Qed.

Lemma of_bytes_le n : forall v, of_le (bytes_le n v) = v mod 256 ^ Z.of_nat n.
Proof.
  induction n as [|n IH]; intros v; simpl of_le; [by rewrite Z.mod_1_r|].
  rewrite IH, Nat2Z.inj_succ, Z.pow_succ_r by lia. unfold u8. rewrite Z.shiftr_div_pow2 by lia. change (2 ^ 8) with 256.
  rewrite (Z.rem_mul_r v 256) by lia. done.
Qed.

Lemma bytes_of_le l : Forall is_byte l -> bytes_le (length l) (of_le l) = l.
Proof.
  induction 1 as [|b l Hb _ IH]; simpl; [done|]. unfold is_byte in Hb. f_equal.
  - unfold u8. change (2 ^ 8) with 256. rewrite (Z.mul_comm 256), Z.mod_add by lia. by apply Z.mod_small.
  - rewrite Z.shiftr_div_pow2 by lia. change (2 ^ 8) with 256.
    rewrite (Z.mul_comm 256), Z.div_add, (Z.div_small b) by lia. exact IH.
Qed.

Lemma of_le_range l : Forall is_byte l -> 0 <= of_le l < 256 ^ zlen l.
Proof.
  induction 1 as [|b l Hb _ IH]; simpl of_le; [simpl; lia|]. unfold is_byte in Hb. cbn [length].
  rewrite Nat2Z.inj_succ, Z.pow_succ_r by lia. lia.
Qed.

Lemma of_bytes_be n v : of_be (bytes_be n v) = v mod 256 ^ Z.of_nat n.
Proof. unfold of_be, bytes_be. by rewrite reverse_involutive, of_bytes_le. Qed.

Lemma length_bytes_be n v : length (bytes_be n v) = n.
Proof. unfold bytes_be. by rewrite length_reverse, length_bytes_le. Qed.

(** ** Words of 16 bits *)

Definition words_bytes (ws : list Z) : list Z := concat (map (bytes_le 2) ws).

Fixpoint bytes_words (bs : list Z) : list Z :=
  match bs with
  | a :: b :: bs' => (a + 256 * b) :: bytes_words bs'
  | _ => []
  end.

Lemma words_bytes_cons w ws : words_bytes (w :: ws) = u8 w :: u8 (Z.shiftr w 8) :: words_bytes ws.
Proof. done. Qed.

Lemma words_bytes_app ws ws' : words_bytes (ws ++ ws') = words_bytes ws ++ words_bytes ws'.
Proof. unfold words_bytes. by rewrite map_app, concat_app. Qed.

Lemma length_words_bytes ws : length (words_bytes ws) = (2 * length ws)%nat.
Proof. induction ws as [|w ws IH]; [done|]. rewrite words_bytes_cons. simpl. lia. Qed.

Lemma words_bytes_bytes ws : Forall is_byte (words_bytes ws).
Proof.
  induction ws as [|w ws IH]; [constructor|]. rewrite words_bytes_cons.
  constructor; [apply u8_range|]. constructor; [apply u8_range|exact IH].
Qed.

Lemma bytes_words_app bs : forall n bs', length bs = (2 * n)%nat -> bytes_words (bs ++ bs') = bytes_words bs ++ bytes_words bs'.
Proof.
  intros n. revert bs. induction n as [|n IH]; intros bs bs' Hn.
  - by destruct bs.
  - destruct bs as [|a [|b bs]]; simpl in Hn; [lia|lia|]. simpl. f_equal. apply IH. lia.
Qed.

Lemma words_roundtrip ws : Forall (fun w => 0 <= w < 2 ^ 16) ws -> bytes_words (words_bytes ws) = ws.
Proof.
  induction 1 as [|w ws Hw _ IH]; [done|]. rewrite words_bytes_cons. simpl. rewrite IH. f_equal.
  pose proof (of_bytes_le 2 w) as H. simpl of_le in H. rewrite Z.mod_small in H by (simpl; lia). lia.
Qed.

Lemma length_bytes_words n : forall bs, length bs = (2 * n)%nat -> length (bytes_words bs) = n.
Proof.
  induction n as [|n IH]; intros bs Hn; [by destruct bs|]. destruct bs as [|a [|b bs]]; simpl in Hn; [lia|lia|].
  simpl. rewrite IH by lia. done.
Qed.

Lemma bytes_roundtrip n : forall bs, length bs = (2 * n)%nat -> Forall is_byte bs -> words_bytes (bytes_words bs) = bs.
Proof.
  induction n as [|n IH]; intros bs Hn Hb; [by destruct bs|]. destruct bs as [|a [|b bs]]; simpl in Hn; [lia|lia|].
  inversion_clear Hb as [|? ? Ha Hb']. inversion_clear Hb' as [|? ? Hb Hbs]. cbn [bytes_words]. rewrite words_bytes_cons, IH by (done || lia).
  pose proof (bytes_of_le [a; b] ltac:(by apply Forall_cons_2; [|apply Forall_cons_2; [|apply Forall_nil_2]])) as E. simpl of_le in E. simpl length in E.
  replace (a + 256 * b) with (a + 256 * (b + 256 * 0)) by lia. simpl bytes_le in E. by injection E as -> ->.
Qed.

(** ** Buffers *)

(** [n] bytes at index [p]. *)
Definition peek (p : Z) (n : nat) (buf : list Z) : option (list Z) :=
  if (0 <=? p) && (p + Z.of_nat n <=? zlen buf) then Some (take n (drop (Z.to_nat p) buf)) else None.

Definition poke (p : Z) (bs buf : list Z) : option (list Z) :=
  if (0 <=? p) && (p + zlen bs <=? zlen buf)
  then Some (take (Z.to_nat p) buf ++ bs ++ drop (Z.to_nat p + length bs) buf) else None.

(** The first bytes are replaced. *)
Definition fill (bs buf : list Z) : list Z := bs ++ drop (length bs) buf.

Lemma length_fill bs buf : (length bs <= length buf)%nat -> length (fill bs buf) = length buf.
Proof. intros H. unfold fill. rewrite length_app, length_drop. lia. Qed.

Lemma poke_app p bs buf : 0 <= p -> p + zlen bs <= zlen buf ->
  poke p bs buf = Some (take (Z.to_nat p) buf ++ bs ++ drop (Z.to_nat p + length bs) buf).
Proof. intros H1 H2. unfold poke. by rewrite (proj2 (Z.leb_le _ _) H1), (proj2 (Z.leb_le _ _) H2). Qed.

Lemma peek_app p n buf : 0 <= p -> p + Z.of_nat n <= zlen buf -> peek p n buf = Some (take n (drop (Z.to_nat p) buf)).
Proof. intros H1 H2. unfold peek. by rewrite (proj2 (Z.leb_le _ _) H1), (proj2 (Z.leb_le _ _) H2). Qed.

Lemma poke_fill bs buf : (length bs <= length buf)%nat -> poke 0 bs buf = Some (fill bs buf).
Proof. intros H. by rewrite poke_app by lia. Qed.

(** Bytes written one after the other. *)
Lemma poke_next pre bs buf : (length (pre ++ bs) <= length buf)%nat ->
  poke (zlen pre) bs (fill pre buf) = Some (fill (pre ++ bs) buf).
Proof.
  intros H. rewrite length_app in H. rewrite poke_app; [|lia|rewrite length_fill; lia]. f_equal. unfold fill. rewrite Nat2Z.id, take_app_length.
  rewrite <- drop_drop, drop_app_length, drop_drop, length_app, (assoc_L app). done.
Qed.

Lemma fill_nil buf : fill [] buf = buf.
Proof. done. Qed.

Lemma take_fill bs buf : take (length bs) (fill bs buf) = bs.
Proof. unfold fill. by rewrite take_app_length. Qed.

(** ** Memory *)

(** A memory is the byte at each address. *)
Definition mem_bytes (m : Z -> Z) (a : Z) (n : nat) : list Z := map (fun i => m (a + Z.of_nat i)) (seq 0 n).

Definition mem_store (a : Z) (bs : list Z) (m : Z -> Z) : Z -> Z := fun x =>
  if a <=? x then match bs !! Z.to_nat (x - a) with Some v => v | None => m x end else m x.

(** The bytes of a list of areas, given by address and length, in order. *)
Definition gather (m : Z -> Z) (areas : list (Z * Z)) : list Z :=
  concat (map (fun '(a, n) => mem_bytes m a (Z.to_nat n)) areas).

Fixpoint scatter (areas : list (Z * Z)) (bs : list Z) (m : Z -> Z) : Z -> Z :=
  match areas with
  | [] => m
  | (a, n) :: areas' => scatter areas' (drop (Z.to_nat n) bs) (mem_store a (take (Z.to_nat n) bs) m)
  end.

Lemma length_mem_bytes m a n : length (mem_bytes m a n) = n.
Proof. unfold mem_bytes. by rewrite length_map, length_seq. Qed.

Lemma mem_store_other a bs m x : (x < a \/ a + zlen bs <= x) -> mem_store a bs m x = m x.
Proof.
  intros H. unfold mem_store. destruct (Z.leb_spec a x); [|done]. by rewrite lookup_ge_None_2 by lia.
Qed.

Lemma mem_bytes_ext m m' a n : (forall x, a <= x < a + Z.of_nat n -> m x = m' x) -> mem_bytes m a n = mem_bytes m' a n.
Proof. intros H. apply map_ext_in. intros i Hi. apply in_seq in Hi. apply H. lia. Qed.

Lemma mem_bytes_store a bs m : mem_bytes (mem_store a bs m) a (length bs) = bs.
Proof.
  apply list_eq. intros i. unfold mem_bytes. rewrite list_lookup_fmap. destruct (decide (i < length bs)%nat) as [Hi|Hi].
  - rewrite lookup_seq_lt by done. simpl. unfold mem_store. rewrite (proj2 (Z.leb_le _ _)) by lia.
    replace (Z.to_nat (a + Z.of_nat i - a)) with i by lia. destruct (lookup_lt_is_Some_2 bs i Hi) as [v ->]. done.
  - rewrite lookup_seq_ge by lia. by rewrite lookup_ge_None_2 by lia.
Qed.

(** Two areas have no byte in common. *)
Definition apart (p q : Z * Z) : Prop := fst p + snd p <= fst q \/ fst q + snd q <= fst p.

Lemma scatter_other areas : forall bs m x, Forall (fun p => x < fst p \/ fst p + snd p <= x) areas ->
  Forall (fun p => 0 <= snd p) areas -> scatter areas bs m x = m x.
Proof.
  induction areas as [|[a n] areas IH]; intros bs m x Hx Hn; [done|].
  apply Forall_cons in Hx as [Hx Hxs]. apply Forall_cons in Hn as [Hn Hns]. simpl in *. rewrite IH by done.
  apply mem_store_other. rewrite length_take. lia.
Qed.

(** What is stored in areas that are apart is found there. *)
Lemma gather_scatter areas : forall bs m, ForallOrdPairs apart areas -> Forall (fun p => 0 <= snd p) areas ->
  zlen bs = foldr Z.add 0 (map snd areas) -> gather (scatter areas bs m) areas = bs.
Proof.
  induction areas as [|[a n] areas IH]; intros bs m Ha Hn Hl; [by destruct bs|].
  apply Forall_cons in Hn as [Hn Hns]. inversion_clear Ha as [|? ? Ha1 Ha2]. simpl in Hl, Hn. unfold gather in IH |- *. simpl.
  assert (0 <= foldr Z.add 0 (map snd areas)) as Hpos by (clear - Hns; induction Hns; simpl; lia).
  rewrite IH; [|done|done|rewrite length_drop; lia]. trans (take (Z.to_nat n) bs ++ drop (Z.to_nat n) bs); [f_equal|apply take_drop].
  rewrite (mem_bytes_ext _ (mem_store a (take (Z.to_nat n) bs) m)).
  - pose proof (mem_bytes_store a (take (Z.to_nat n) bs) m) as E. by rewrite length_take_le in E by lia.
  - intros x Hx. apply scatter_other; [|done]. eapply Forall_impl; [exact Ha1|]. intros [p l] H. unfold apart in H. simpl in *. lia.
Qed.
