(* ===== verification/Identify.v ===== *)
(** * What a drive tells of itself

    [padstr], [put_le16], [ide_identify] and [ide_cfata_identify] of
    [QEMU/hw/ide.c]: the 256 words a guest gets for [WIN_IDENTIFY], as functions of
    the geometry, the size and the serial number, and what a guest makes of them. *)

From stdpp Require Import prelude strings.
From Stdlib Require Import Ascii.
From Stdlib Require String.
From S2P Require Import Prelude Text Bytes.

Local Open Scope Z_scope.

(** ** Words *)

Definition char_code (c : ascii) : Z := Z.of_N (N_of_ascii c).

(** Character [i] of a text that is filled up with blanks. *)
Definition pad_char (src : list ascii) (i : nat) : Z := default 32 (char_code <$> src !! i).

(** The characters of each word are swapped. *)
Definition padstr (src : list ascii) (len : nat) : list Z := (fun i => pad_char src (Nat.lxor i 1)) <$> seq 0 len.

(** A sequence of calls of [put_le16], each with the index of the word. *)
Definition put_le16 (p : list Z) (iv : Z * Z) : list Z := <[Z.to_nat iv.1 := u16 iv.2]> p.

Definition put_all (t : list (Z * Z)) (p : list Z) : list Z := foldl put_le16 p t.

(** Words from index [i] on. *)
Definition put_words (i : Z) (ws : list Z) : list (Z * Z) := imap (fun j w => (i + Z.of_nat j, w)) ws.

Definition QEMU_VERSION : list ascii := chars "0.11.0".

(** ** The tables *)

Section Tables.
Context (cylinders heads sectors nb_sectors mult_sectors : Z) (drive_serial_str : list ascii).

Let oldsize : Z := u32 (cylinders * heads * sectors).

(** [SSD_IS_SUPPORT_TRIM] answers 0: the words for the trim command stay 0. *)
Definition identify_table : list (Z * Z) :=
  [(0, 0x0040); (1, cylinders); (3, heads); (4, 512 * sectors); (5, 512); (6, sectors)] ++
  put_words 10 (bytes_words (padstr drive_serial_str 20)) ++
  [(20, 3); (21, 512); (21, 0x0400); (22, 4)] ++
  put_words 23 (bytes_words (padstr QEMU_VERSION 8)) ++
  put_words 27 (bytes_words (padstr (chars "QEMU HARDDISK") 40)) ++
  [(47, Z.lor 0x8000 16); (48, 1); (49, 0xb00); (51, 0x200); (52, 0x200); (53, 7);
   (54, cylinders); (55, heads); (56, sectors); (57, oldsize); (58, Z.shiftr oldsize 16);
   (59, if mult_sectors =? 0 then 0 else Z.lor 0x100 mult_sectors);
   (60, nb_sectors); (61, Z.shiftr nb_sectors 16); (62, 0x07); (63, 0x07);
   (65, 120); (66, 120); (67, 120); (68, 120); (80, 0xf0); (81, 0x16); (82, 0x4000); (83, 0x7400); (84, 0x4000);
   (85, 0x4000); (86, 0x7400); (87, 0x4000); (88, 0x203f); (93, 0x6001);
   (100, nb_sectors); (101, Z.shiftr nb_sectors 16); (102, Z.shiftr nb_sectors 32); (103, Z.shiftr nb_sectors 48);
   (217, 0x01)].

Definition cfata_table : list (Z * Z) :=
  [(0, 0x848a); (1, cylinders); (3, heads); (6, sectors); (7, Z.shiftr nb_sectors 16); (8, nb_sectors)] ++
  put_words 10 (bytes_words (padstr drive_serial_str 20)) ++
  [(22, 0x0004)] ++
  put_words 23 (bytes_words (padstr QEMU_VERSION 8)) ++
  put_words 27 (bytes_words (padstr (chars "QEMU MICRODRIVE") 40)) ++
  [(47, Z.lor 0x8000 16); (49, 0x0f00); (51, 0x0002); (52, 0x0001); (53, 0x0003);
   (54, cylinders); (55, heads); (56, sectors); (57, oldsize); (58, Z.shiftr oldsize 16);
   (59, if mult_sectors =? 0 then 0 else Z.lor 0x100 mult_sectors);
   (60, nb_sectors); (61, Z.shiftr nb_sectors 16); (63, 0x0203); (64, 0x0001); (65, 0x0096); (66, 0x0096); (68, 0x00b4);
   (82, 0x400c); (83, 0x7068); (84, 0x4000); (85, 0x000c); (86, 0x7044); (87, 0x4000); (91, 0x4060);
   (129, 0x0002); (130, 0x0005); (131, 0x0001); (132, 0x0000); (160, 0x8100); (161, 0x8001)].

Definition identify_words : list Z := put_all identify_table (replicate 256 0).
Definition cfata_words : list Z := put_all cfata_table (replicate 256 0).

End Tables.

(** [WIN_SETFEATURES] 0x03: the words of the transfer modes, for the mode in the
    sector count register; [None] for a mode that is not known. *)
Definition transfer_mode (nsector : Z) : option (list (Z * Z)) :=
  let m := Z.shiftl 1 (Z.land nsector 0x07 + 8) in
  match Z.shiftr nsector 3 with
  | 0x00 | 0x01 => Some [(62, 0x07); (63, 0x07); (88, 0x3f)]
  | 0x02 => Some [(62, Z.lor 0x07 m); (63, 0x07); (88, 0x3f)]
  | 0x04 => Some [(62, 0x07); (63, Z.lor 0x07 m); (88, 0x3f)]
  | 0x08 => Some [(62, 0x07); (63, 0x07); (88, Z.lor 0x3f m)]
  | _ => None
  end.

(** ** What a guest makes of the words *)

Definition word_at (ws : list Z) (i : Z) : Z := default 0 (ws !! Z.to_nat i).

(** The number of sectors, with 28-bit and with 48-bit addresses. *)
Definition capacity_28 (ws : list Z) : Z := word_at ws 60 + 2 ^ 16 * word_at ws 61.
Definition capacity_48 (ws : list Z) : Z :=
  word_at ws 100 + 2 ^ 16 * word_at ws 101 + 2 ^ 32 * word_at ws 102 + 2 ^ 48 * word_at ws 103.

(** A text: the upper byte of a word is the first character. *)
Definition text_of (ws : list Z) (i : Z) (n : nat) : list Z :=
  concat (map (fun j => let w := word_at ws (i + Z.of_nat j) in [Z.shiftr w 8; u8 w]) (seq 0 n)).

(** ** The words of the tables *)

(** The last value put at an index. *)
Definition last_put (i : Z) (t : list (Z * Z)) : option Z :=
  foldl (fun v jw => if i =? jw.1 then Some jw.2 else v) None t.

Lemma length_put_all t : forall p, length (put_all t p) = length p.
Proof. induction t as [|[i v] t IH]; intros p; [done|]. unfold put_all in *. simpl. rewrite IH. apply length_insert. Qed.

Lemma put_all_app t t' p : put_all (t ++ t') p = put_all t' (put_all t p).
Proof. apply foldl_app. Qed.

Lemma put_all_lookup t p i : Forall (fun jw => 0 <= jw.1) t -> 0 <= i < zlen p ->
  put_all t p !! Z.to_nat i = match last_put i t with Some v => Some (u16 v) | None => p !! Z.to_nat i end.
Proof.
  intros Ht Hi. induction t as [|[j v] t IH] using rev_ind; [done|]. apply Forall_app in Ht as [Ht Hj].
  apply Forall_cons in Hj as [Hj _]. simpl in Hj. rewrite put_all_app. unfold last_put. rewrite foldl_app. simpl.
  unfold put_le16. simpl. destruct (Z.eqb_spec i j) as [->|Hne].
  - apply list_lookup_insert_eq. rewrite length_put_all. apply Nat2Z.inj_lt. lia.
  - assert (Z.to_nat j <> Z.to_nat i) by lia. rewrite list_lookup_insert_ne by done. by apply IH.
Qed.

Lemma word_at_put t p i v : Forall (fun jw => 0 <= jw.1) t -> 0 <= i < zlen p -> last_put i t = Some v ->
  word_at (put_all t p) i = u16 v.
Proof. intros Ht Hi Hv. unfold word_at. by rewrite put_all_lookup, Hv by done. Qed.

Lemma put_words_indices i ws : 0 <= i -> Forall (fun jw => 0 <= jw.1) (put_words i ws).
Proof.
  intros Hi. apply Forall_lookup_2. intros k x Hx. unfold put_words in Hx. rewrite list_lookup_imap in Hx.
  apply fmap_Some in Hx as (w & _ & ->). simpl. lia.
Qed.

Lemma identify_indices c h s nb m str : Forall (fun jw => 0 <= jw.1) (identify_table c h s nb m str).
Proof.
  assert (forall i ws, 0 <= i -> forallb (fun jw => 0 <=? jw.1) (put_words i ws) = true) as Hw.
  { intros i ws Hi. apply forallb_forall. intros x Hx%list_elem_of_In. apply Z.leb_le.
    by eapply (proj1 (Forall_forall _ _) (put_words_indices i ws Hi)). }
  apply Forall_forall. intros x Hx. apply Z.leb_le. revert x Hx.
  enough (forallb (fun jw => 0 <=? jw.1) (identify_table c h s nb m str) = true) as H.
  { intros x Hx%list_elem_of_In. by apply (proj1 (forallb_forall _ _) H). }
  unfold identify_table. rewrite !forallb_app, !Hw by lia. reflexivity.
Qed.

(** Sixteen bits at a time. *)
Lemma u16_split v k : 0 <= k -> 0 <= v -> u16 (Z.shiftr v k) + 2 ^ 16 * Z.shiftr v (k + 16) = Z.shiftr v k.
Proof.
  intros Hk Hv. unfold u16. rewrite !Z.shiftr_div_pow2, Z.pow_add_r by lia. rewrite <- Z.div_div by lia.
  pose proof (Z.div_mod (v / 2 ^ k) (2 ^ 16)). lia.
Qed.

Lemma u16_small v : 0 <= v < 2 ^ 16 -> u16 v = v.
Proof. apply Z.mod_small. Qed.

Lemma length_identify c h s nb m str : length (identify_words c h s nb m str) = 256%nat.
Proof. unfold identify_words. by rewrite length_put_all, length_replicate. Qed.

Lemma identify_word c h s nb m str i v : 0 <= i < 256 -> last_put i (identify_table c h s nb m str) = Some v ->
  word_at (identify_words c h s nb m str) i = u16 v.
Proof. intros Hi. apply word_at_put; [apply identify_indices|]. by rewrite length_replicate. Qed.

(** The words of a drive give its size. *)
Lemma identify_capacity c h s nb m str : 0 <= nb < 2 ^ 63 ->
  let ws := identify_words c h s nb m str in capacity_48 ws = nb /\ capacity_28 ws = u32 nb.
Proof.
  intros Hnb ws. pose proof (identify_word c h s nb m str) as H. fold ws in H. unfold capacity_48, capacity_28.
  rewrite (H 60 nb), (H 61 (Z.shiftr nb 16)), (H 100 nb), (H 101 (Z.shiftr nb 16)),
    (H 102 (Z.shiftr nb 32)), (H 103 (Z.shiftr nb 48)) by (lia || reflexivity). clear H.
  pose proof (u16_split nb 0 ltac:(lia) ltac:(lia)) as E0. pose proof (u16_split nb 16 ltac:(lia) ltac:(lia)) as E1.
  pose proof (u16_split nb 32 ltac:(lia) ltac:(lia)) as E2. change (0 + 16) with 16 in E0. change (16 + 16) with 32 in E1.
  change (32 + 16) with 48 in E2. rewrite Z.shiftr_0_r in E0. split.
  - rewrite (u16_small (Z.shiftr nb 48)); [lia|]. rewrite Z.shiftr_div_pow2 by lia.
    split; [apply Z.div_pos; lia|apply Z.div_lt_upper_bound; lia].
  - unfold u32. apply Zmod_unique with (q := Z.shiftr nb 32); [|lia].
    pose proof (Z.mod_pos_bound nb (2 ^ 16)). pose proof (Z.mod_pos_bound (Z.shiftr nb 16) (2 ^ 16)). unfold u16. lia.
Qed.

(** The serial number is given back, filled up with blanks. *)
Lemma pad_char_byte str i : is_byte (pad_char str i).
Proof.
  unfold pad_char, is_byte. destruct (str !! i) as [c|]; simpl; [|lia]. unfold char_code.
  pose proof (N_ascii_bounded c). lia.
Qed.

Lemma word_chars a b : is_byte a -> is_byte b -> Z.shiftr (u16 (b + 256 * a)) 8 = a /\ u8 (u16 (b + 256 * a)) = b.
Proof.
  unfold is_byte, u16, u8. intros Ha Hb. rewrite (Z.mod_small _ (2 ^ 16)) by lia. rewrite Z.shiftr_div_pow2 by lia.
  change (2 ^ 8) with 256. rewrite (Z.mul_comm 256), Z.div_add, Z.mod_add, Z.div_small, Z.mod_small by lia. lia.
Qed.

Lemma identify_serial c h s nb m str : text_of (identify_words c h s nb m str) 10 10 = pad_char str <$> seq 0 20.
Proof.
  assert (forall j : nat, (j < 10)%nat ->
    last_put (10 + Z.of_nat j) (identify_table c h s nb m str) = Some (pad_char str (2 * j + 1) + 256 * pad_char str (2 * j))) as H.
  { intros j Hj. do 10 (destruct j as [|j]; [reflexivity|]). lia. }
  unfold text_of. transitivity (concat (map (fun j => [pad_char str (2 * j); pad_char str (2 * j + 1)]) (seq 0 10))); [|reflexivity].
  f_equal. apply map_ext_in. intros j Hj%in_seq. cbv zeta.
  rewrite (identify_word c h s nb m str (10 + Z.of_nat j) _ ltac:(lia) (H j ltac:(lia))).
  destruct (word_chars (pad_char str (2 * j)) (pad_char str (2 * j + 1)) (pad_char_byte _ _) (pad_char_byte _ _)) as [-> ->]. done.
Qed.
