(* ===== verification/Ide.v ===== *)
(** * The disk controller of the virtual machine

    The part of [QEMU/hw/ide.c] that serves reads and writes of a disk, built for
    [TARGET_I386] without [F2FS_TEST]: the registers a guest writes, the transfer
    of data through the data port and by DMA, and the calls of [SSD_READ] and
    [SSD_WRITE] that make a disk of QEMU a simulated drive.

    The bytes that go through the data port are in the buffer of the drive; the
    bytes of a DMA transfer go between the memory of the guest and the block layer.
    What the controller calls of the rest of QEMU is the class [Machine]: the block
    layer, given by its answers and by what it makes of the writes so far, and the
    options of the command line.  The drives are disks or memory cards, not CD-ROMs. *)

From stdpp Require Import prelude.
From Stdlib Require Import Ascii.
From S2P Require Import Prelude Bytes Identify.

Local Open Scope Z_scope.

(** ** Constants *)

Definition ERR_STAT := 0x01.
Definition DRQ_STAT := 0x08.
Definition SEEK_STAT := 0x10.
Definition READY_STAT := 0x40.
Definition BUSY_STAT := 0x80.
Definition ABRT_ERR := 0x04.
Definition IDE_CMD_DISABLE_IRQ := 0x02.
Definition IDE_CMD_RESET := 0x04.
Definition MAX_MULT_SECTORS := 16.
Definition BM_STATUS_DMAING := 0x01.
Definition BM_STATUS_INT := 0x04.
Definition BM_STATUS_DMA_RETRY := 0x08.
Definition BM_STATUS_PIO_RETRY := 0x10.
Definition BM_CMD_START := 0x01.

(** ** The state *)

(** What is called at the end of a transfer through the data port. *)
Inductive transfer := EndStop | EndRead | EndWrite | EndDummy.

(** What is called at the end of a DMA transfer. *)
Inductive callback := ReadCallback | WriteCallback.

(** The registers of the task file. *)
Record task_file := TaskFile {
  feature : Z;
  nsector : Z;
  sector : Z;
  lcyl : Z;
  hcyl : Z;
  hob_feature : Z;
  hob_nsector : Z;
  hob_sector : Z;
  hob_lcyl : Z;
  hob_hcyl : Z;
  select : Z;
  lba48 : bool
}.

Definition set_feature v t := TaskFile v (nsector t) (sector t) (lcyl t) (hcyl t) (hob_feature t)
  (hob_nsector t) (hob_sector t) (hob_lcyl t) (hob_hcyl t) (select t) (lba48 t).
Definition set_nsector v t := TaskFile (feature t) v (sector t) (lcyl t) (hcyl t) (hob_feature t)
  (hob_nsector t) (hob_sector t) (hob_lcyl t) (hob_hcyl t) (select t) (lba48 t).
Definition set_sector v t := TaskFile (feature t) (nsector t) v (lcyl t) (hcyl t) (hob_feature t)
  (hob_nsector t) (hob_sector t) (hob_lcyl t) (hob_hcyl t) (select t) (lba48 t).
Definition set_lcyl v t := TaskFile (feature t) (nsector t) (sector t) v (hcyl t) (hob_feature t)
  (hob_nsector t) (hob_sector t) (hob_lcyl t) (hob_hcyl t) (select t) (lba48 t).
Definition set_hcyl v t := TaskFile (feature t) (nsector t) (sector t) (lcyl t) v (hob_feature t)
  (hob_nsector t) (hob_sector t) (hob_lcyl t) (hob_hcyl t) (select t) (lba48 t).
Definition set_hob_feature v t := TaskFile (feature t) (nsector t) (sector t) (lcyl t) (hcyl t) v
  (hob_nsector t) (hob_sector t) (hob_lcyl t) (hob_hcyl t) (select t) (lba48 t).
Definition set_hob_nsector v t := TaskFile (feature t) (nsector t) (sector t) (lcyl t) (hcyl t) (hob_feature t)
  v (hob_sector t) (hob_lcyl t) (hob_hcyl t) (select t) (lba48 t).
Definition set_hob_sector v t := TaskFile (feature t) (nsector t) (sector t) (lcyl t) (hcyl t) (hob_feature t)
  (hob_nsector t) v (hob_lcyl t) (hob_hcyl t) (select t) (lba48 t).
Definition set_hob_lcyl v t := TaskFile (feature t) (nsector t) (sector t) (lcyl t) (hcyl t) (hob_feature t)
  (hob_nsector t) (hob_sector t) v (hob_hcyl t) (select t) (lba48 t).
Definition set_hob_hcyl v t := TaskFile (feature t) (nsector t) (sector t) (lcyl t) (hcyl t) (hob_feature t)
  (hob_nsector t) (hob_sector t) (hob_lcyl t) v (select t) (lba48 t).
Definition set_select v t := TaskFile (feature t) (nsector t) (sector t) (lcyl t) (hcyl t) (hob_feature t)
  (hob_nsector t) (hob_sector t) (hob_lcyl t) (hob_hcyl t) v (lba48 t).
Definition set_lba48 v t := TaskFile (feature t) (nsector t) (sector t) (lcyl t) (hcyl t) (hob_feature t)
  (hob_nsector t) (hob_sector t) (hob_lcyl t) (hob_hcyl t) (select t) v.

(** The rest of the state that changes: the status, the data transfer, with the
    pointers as indices of the buffer, the interrupt line, as the number of times
    it was raised, the memory areas of a DMA transfer, and what the block layer was
    given to write, as sectors and bytes. *)
Record transfer_state := TransferState {
  status : Z;
  error : Z;
  mult_sectors : Z;
  req_nb_sectors : Z;
  io_buffer_index : Z;
  io_buffer_size : Z;
  end_transfer_func : transfer;
  data_ptr : Z;
  data_end : Z;
  is_read : bool;
  media_changed : bool;
  irq_count : Z;
  irq_raised : Z;
  io_buffer : list Z;
  sg : list (Z * Z);
  bdrv_writes : list (Z * list Z)
}.

Definition set_status v x := TransferState v (error x) (mult_sectors x) (req_nb_sectors x) (io_buffer_index x)
  (io_buffer_size x) (end_transfer_func x) (data_ptr x) (data_end x) (is_read x) (media_changed x)
  (irq_count x) (irq_raised x) (io_buffer x) (sg x) (bdrv_writes x).
Definition set_error v x := TransferState (status x) v (mult_sectors x) (req_nb_sectors x) (io_buffer_index x)
  (io_buffer_size x) (end_transfer_func x) (data_ptr x) (data_end x) (is_read x) (media_changed x)
  (irq_count x) (irq_raised x) (io_buffer x) (sg x) (bdrv_writes x).
Definition set_mult_sectors v x := TransferState (status x) (error x) v (req_nb_sectors x) (io_buffer_index x)
  (io_buffer_size x) (end_transfer_func x) (data_ptr x) (data_end x) (is_read x) (media_changed x)
  (irq_count x) (irq_raised x) (io_buffer x) (sg x) (bdrv_writes x).
Definition set_req_nb_sectors v x := TransferState (status x) (error x) (mult_sectors x) v (io_buffer_index x)
  (io_buffer_size x) (end_transfer_func x) (data_ptr x) (data_end x) (is_read x) (media_changed x)
  (irq_count x) (irq_raised x) (io_buffer x) (sg x) (bdrv_writes x).
Definition set_io_buffer_index v x := TransferState (status x) (error x) (mult_sectors x) (req_nb_sectors x) v
  (io_buffer_size x) (end_transfer_func x) (data_ptr x) (data_end x) (is_read x) (media_changed x)
  (irq_count x) (irq_raised x) (io_buffer x) (sg x) (bdrv_writes x).
Definition set_io_buffer_size v x := TransferState (status x) (error x) (mult_sectors x) (req_nb_sectors x)
  (io_buffer_index x) v (end_transfer_func x) (data_ptr x) (data_end x) (is_read x) (media_changed x)
  (irq_count x) (irq_raised x) (io_buffer x) (sg x) (bdrv_writes x).
Definition set_end_transfer_func v x := TransferState (status x) (error x) (mult_sectors x) (req_nb_sectors x)
  (io_buffer_index x) (io_buffer_size x) v (data_ptr x) (data_end x) (is_read x) (media_changed x)
  (irq_count x) (irq_raised x) (io_buffer x) (sg x) (bdrv_writes x).
Definition set_data_ptr v x := TransferState (status x) (error x) (mult_sectors x) (req_nb_sectors x)
  (io_buffer_index x) (io_buffer_size x) (end_transfer_func x) v (data_end x) (is_read x) (media_changed x)
  (irq_count x) (irq_raised x) (io_buffer x) (sg x) (bdrv_writes x).
Definition set_data_end v x := TransferState (status x) (error x) (mult_sectors x) (req_nb_sectors x)
  (io_buffer_index x) (io_buffer_size x) (end_transfer_func x) (data_ptr x) v (is_read x) (media_changed x)
  (irq_count x) (irq_raised x) (io_buffer x) (sg x) (bdrv_writes x).
Definition set_is_read v x := TransferState (status x) (error x) (mult_sectors x) (req_nb_sectors x)
  (io_buffer_index x) (io_buffer_size x) (end_transfer_func x) (data_ptr x) (data_end x) v (media_changed x)
  (irq_count x) (irq_raised x) (io_buffer x) (sg x) (bdrv_writes x).
Definition set_media_changed v x := TransferState (status x) (error x) (mult_sectors x) (req_nb_sectors x)
  (io_buffer_index x) (io_buffer_size x) (end_transfer_func x) (data_ptr x) (data_end x) (is_read x) v
  (irq_count x) (irq_raised x) (io_buffer x) (sg x) (bdrv_writes x).
Definition set_irq_count v x := TransferState (status x) (error x) (mult_sectors x) (req_nb_sectors x)
  (io_buffer_index x) (io_buffer_size x) (end_transfer_func x) (data_ptr x) (data_end x) (is_read x)
  (media_changed x) v (irq_raised x) (io_buffer x) (sg x) (bdrv_writes x).
Definition set_irq_raised v x := TransferState (status x) (error x) (mult_sectors x) (req_nb_sectors x)
  (io_buffer_index x) (io_buffer_size x) (end_transfer_func x) (data_ptr x) (data_end x) (is_read x)
  (media_changed x) (irq_count x) v (io_buffer x) (sg x) (bdrv_writes x).
Definition set_io_buffer v x := TransferState (status x) (error x) (mult_sectors x) (req_nb_sectors x)
  (io_buffer_index x) (io_buffer_size x) (end_transfer_func x) (data_ptr x) (data_end x) (is_read x)
  (media_changed x) (irq_count x) (irq_raised x) v (sg x) (bdrv_writes x).
Definition set_bdrv_writes v x := TransferState (status x) (error x) (mult_sectors x) (req_nb_sectors x)
  (io_buffer_index x) (io_buffer_size x) (end_transfer_func x) (data_ptr x) (data_end x) (is_read x)
  (media_changed x) (irq_count x) (irq_raised x) (io_buffer x) (sg x) v.
Definition set_sg v x := TransferState (status x) (error x) (mult_sectors x) (req_nb_sectors x)
  (io_buffer_index x) (io_buffer_size x) (end_transfer_func x) (data_ptr x) (data_end x) (is_read x)
  (media_changed x) (irq_count x) (irq_raised x) (io_buffer x) v (bdrv_writes x).

(** The state of the DMA engine, and the memory of the guest that it reaches, as the
    byte at each address. *)
Record BMDMAState := Bmdma {
  bm_cmd : Z;
  bm_status : Z;
  bm_addr : Z;
  cur_addr : Z;
  cur_prd_last : bool;
  cur_prd_addr : Z;
  cur_prd_len : Z;
  ide_if : bool;
  dma_cb : option callback;
  aiocb : bool;
  bm_sector_num : Z;
  bm_nsector : Z;
  memory : Z -> Z
}.

Definition set_bm_cmd v b := Bmdma v (bm_status b) (bm_addr b) (cur_addr b) (cur_prd_last b) (cur_prd_addr b)
  (cur_prd_len b) (ide_if b) (dma_cb b) (aiocb b) (bm_sector_num b) (bm_nsector b) (memory b).
Definition set_bm_status v b := Bmdma (bm_cmd b) v (bm_addr b) (cur_addr b) (cur_prd_last b) (cur_prd_addr b)
  (cur_prd_len b) (ide_if b) (dma_cb b) (aiocb b) (bm_sector_num b) (bm_nsector b) (memory b).
Definition set_bm_addr v b := Bmdma (bm_cmd b) (bm_status b) v (cur_addr b) (cur_prd_last b) (cur_prd_addr b)
  (cur_prd_len b) (ide_if b) (dma_cb b) (aiocb b) (bm_sector_num b) (bm_nsector b) (memory b).
Definition set_cur_addr v b := Bmdma (bm_cmd b) (bm_status b) (bm_addr b) v (cur_prd_last b) (cur_prd_addr b)
  (cur_prd_len b) (ide_if b) (dma_cb b) (aiocb b) (bm_sector_num b) (bm_nsector b) (memory b).
Definition set_cur_prd_last v b := Bmdma (bm_cmd b) (bm_status b) (bm_addr b) (cur_addr b) v (cur_prd_addr b)
  (cur_prd_len b) (ide_if b) (dma_cb b) (aiocb b) (bm_sector_num b) (bm_nsector b) (memory b).
Definition set_cur_prd_addr v b := Bmdma (bm_cmd b) (bm_status b) (bm_addr b) (cur_addr b) (cur_prd_last b) v
  (cur_prd_len b) (ide_if b) (dma_cb b) (aiocb b) (bm_sector_num b) (bm_nsector b) (memory b).
Definition set_cur_prd_len v b := Bmdma (bm_cmd b) (bm_status b) (bm_addr b) (cur_addr b) (cur_prd_last b)
  (cur_prd_addr b) v (ide_if b) (dma_cb b) (aiocb b) (bm_sector_num b) (bm_nsector b) (memory b).
Definition set_ide_if v b := Bmdma (bm_cmd b) (bm_status b) (bm_addr b) (cur_addr b) (cur_prd_last b)
  (cur_prd_addr b) (cur_prd_len b) v (dma_cb b) (aiocb b) (bm_sector_num b) (bm_nsector b) (memory b).
Definition set_dma_cb v b := Bmdma (bm_cmd b) (bm_status b) (bm_addr b) (cur_addr b) (cur_prd_last b)
  (cur_prd_addr b) (cur_prd_len b) (ide_if b) v (aiocb b) (bm_sector_num b) (bm_nsector b) (memory b).
Definition set_aiocb v b := Bmdma (bm_cmd b) (bm_status b) (bm_addr b) (cur_addr b) (cur_prd_last b)
  (cur_prd_addr b) (cur_prd_len b) (ide_if b) (dma_cb b) v (bm_sector_num b) (bm_nsector b) (memory b).
Definition set_bm_sector_num v b := Bmdma (bm_cmd b) (bm_status b) (bm_addr b) (cur_addr b) (cur_prd_last b)
  (cur_prd_addr b) (cur_prd_len b) (ide_if b) (dma_cb b) (aiocb b) v (bm_nsector b) (memory b).
Definition set_bm_nsector v b := Bmdma (bm_cmd b) (bm_status b) (bm_addr b) (cur_addr b) (cur_prd_last b)
  (cur_prd_addr b) (cur_prd_len b) (ide_if b) (dma_cb b) (aiocb b) (bm_sector_num b) v (memory b).
Definition set_memory v b := Bmdma (bm_cmd b) (bm_status b) (bm_addr b) (cur_addr b) (cur_prd_last b)
  (cur_prd_addr b) (cur_prd_len b) (ide_if b) (dma_cb b) (aiocb b) (bm_sector_num b) (bm_nsector b) v.

(** What a drive tells of itself, and the metadata of a memory card. *)
Record identity := Identity {
  cylinders : Z;
  drive_serial_str : list ascii;
  identify_set : bool;
  identify_data : list Z;
  mdata_size : Z;
  mdata_storage : list Z
}.

Definition set_identify (set : bool) (ws : list Z) i := Identity (cylinders i) (drive_serial_str i) set ws (mdata_size i) (mdata_storage i).
Definition set_mdata_storage v i := Identity (cylinders i) (drive_serial_str i) (identify_set i) (identify_data i) (mdata_size i) v.

(** The registers of a CD-ROM, which a disk has and does not use. *)
Record atapi_state := Atapi { sense_key : Z; asc : Z; cdrom_changed : Z }.

(** A drive of the controller; [cmd] is the control register, and [bs] tells
    whether there is a disk. *)
Record IDEState := IDE {
  tf : task_file;
  xf : transfer_state;
  cmd : Z;
  heads : Z;
  sectors : Z;
  nb_sectors : Z;
  bs : bool;
  is_cf : bool;
  ident : identity;
  atapi : atapi_state
}.

Definition set_tf v s := IDE v (xf s) (cmd s) (heads s) (sectors s) (nb_sectors s) (bs s) (is_cf s) (ident s) (atapi s).
Definition set_xf v s := IDE (tf s) v (cmd s) (heads s) (sectors s) (nb_sectors s) (bs s) (is_cf s) (ident s) (atapi s).
Definition set_ident v s := IDE (tf s) (xf s) (cmd s) (heads s) (sectors s) (nb_sectors s) (bs s) (is_cf s) v (atapi s).
Definition set_atapi v s := IDE (tf s) (xf s) (cmd s) (heads s) (sectors s) (nb_sectors s) (bs s) (is_cf s) (ident s) v.
Definition set_cmd v s := IDE (tf s) (xf s) v (heads s) (sectors s) (nb_sectors s) (bs s) (is_cf s) (ident s) (atapi s).

(** ** The surroundings *)

(** What the controller needs of the simulated drive: the two entry points, with
    the length first. *)
Class Disk := {
  disk : Type;
  ssd_read : Z -> Z -> M disk unit;
  ssd_write : Z -> Z -> M disk unit
}.

(** The bytes of [n] sectors. *)
Definition get_sectors (c : Z -> list Z) (a n : Z) : list Z := concat (map c (seqZ a n)).

(** An entry of the table of memory areas: address and size. *)
Definition prd_entry (m : Z -> Z) (a : Z) : Z * Z := (of_le (mem_bytes m a 4), of_le (mem_bytes m (a + 4) 4)).

(** [BlockInterfaceErrorAction] *)
Inductive error_action := BLOCK_ERR_REPORT | BLOCK_ERR_IGNORE | BLOCK_ERR_STOP_ENOSPC | BLOCK_ERR_STOP_ANY.

Definition ENOSPC := 28.

Section Drive.
Context {K : Disk}.

(** A drive, the DMA engine and the simulated drive. *)
Abbreviation unit_state := (IDEState * BMDMAState * disk)%type.

(** The rest of QEMU. *)
Class Machine := {
  is_ssd : bool;                          (* the file of the disk is that of the simulated drive *)
  bdrv_read : Z -> Z -> Z;                (* 0, or an error, for a sector and a length *)
  bdrv_write : Z -> Z -> Z;
  dma_submit : Z -> bool;                 (* whether [dma_bdrv_read] or [dma_bdrv_write] accepts the transfer *)
  drive_get_onerror : error_action;
  win2k_install_hack : bool;
  disk_bytes : list (Z * list Z) -> Z -> list Z   (* a sector of the disk, after these writes *)
}.

Context {Q : Machine}.

Definition get_tf : M unit_state task_file := gets (fun w => tf (fst (fst w))).
Definition get_xf : M unit_state transfer_state := gets (fun w => xf (fst (fst w))).
Definition get_bm : M unit_state BMDMAState := gets (fun w => snd (fst w)).
Definition get_drive : M unit_state IDEState := gets (fun w => fst (fst w)).
Definition mod_tf (f : task_file -> task_file) : M unit_state unit :=
  modify (fun w => (set_tf (f (tf (fst (fst w)))) (fst (fst w)), snd (fst w), snd w)).
Definition mod_xf (f : transfer_state -> transfer_state) : M unit_state unit :=
  modify (fun w => (set_xf (f (xf (fst (fst w)))) (fst (fst w)), snd (fst w), snd w)).
Definition mod_bm (f : BMDMAState -> BMDMAState) : M unit_state unit :=
  modify (fun w => (fst (fst w), f (snd (fst w)), snd w)).

Definition mod_id (f : identity -> identity) : M unit_state unit :=
  modify (fun w => (set_ident (f (ident (fst (fst w)))) (fst (fst w)), snd (fst w), snd w)).

(** The buffer of the drive. *)
Definition load_bytes (p : Z) (n : nat) : M unit_state (list Z) :=
  x ← get_xf;
  need (peek p n (io_buffer x)).
Definition store_bytes (p : Z) (bytes : list Z) : M unit_state unit :=
  x ← get_xf;
  buf ← need (poke p bytes (io_buffer x));
  mod_xf (set_io_buffer buf).

(** A pointer to the block driver that is used has to be there. *)
Definition need_disk : M unit_state unit :=
  s ← get_drive;
  if bs s then mret tt else undef.

Definition bit (x m : Z) : bool := negb (Z.land x m =? 0).

(** ** Status and interrupts *)

Definition ide_abort_command : M unit_state unit :=
  mod_xf (fun x => set_error ABRT_ERR (set_status (Z.lor READY_STAT ERR_STAT) x)).

Definition ide_set_irq : M unit_state unit :=
  s ← get_drive;
  if bit (cmd s) IDE_CMD_DISABLE_IRQ then mret tt else
  mod_bm (fun b => set_bm_status (Z.lor (bm_status b) BM_STATUS_INT) b) ;;
  mod_xf (fun x => set_irq_raised (irq_raised x + 1) x).

Definition ide_transfer_start (size : Z) (f : transfer) : M unit_state unit :=
  mod_xf (fun x => set_data_end size (set_data_ptr 0 (set_end_transfer_func f x))) ;;
  mod_xf (fun x => if bit (status x) ERR_STAT then x else set_status (Z.lor (status x) DRQ_STAT) x).

Definition ide_transfer_stop : M unit_state unit :=
  mod_xf (fun x => set_status (Z.land (status x) (Z.lnot DRQ_STAT))
    (set_data_end 0 (set_data_ptr 0 (set_end_transfer_func EndStop x)))).

Definition ide_rw_error : M unit_state unit := ide_abort_command ;; ide_set_irq.

Definition ide_dma_error : M unit_state unit :=
  ide_transfer_stop ;;
  mod_xf (fun x => set_status (Z.lor READY_STAT ERR_STAT) (set_error ABRT_ERR x)) ;;
  ide_set_irq.

(** ** The current sector *)

Definition ide_get_sector (s : IDEState) : Z :=
  let t := tf s in
  if bit (select t) 0x40 then
    if negb (lba48 t) then
      Z.lor (Z.lor (Z.lor (Z.shiftl (Z.land (select t) 0x0f) 24) (Z.shiftl (hcyl t) 16)) (Z.shiftl (lcyl t) 8)) (sector t)
    else
      Z.lor (Z.lor (Z.lor (Z.lor (Z.lor (Z.shiftl (hob_hcyl t) 40) (Z.shiftl (hob_lcyl t) 32)) (Z.shiftl (hob_sector t) 24))
        (Z.shiftl (hcyl t) 16)) (Z.shiftl (lcyl t) 8)) (sector t)
  else
    Z.lor (Z.shiftl (hcyl t) 8) (lcyl t) * heads s * sectors s +
      Z.land (select t) 0x0f * sectors s + (sector t - 1).

(** The division by the geometry has no result when the geometry is zero. *)
Definition ide_set_sector (n : Z) : M unit_state unit :=
  s ← get_drive;
  let t := tf s in
  if bit (select t) 0x40 then
    if negb (lba48 t) then
      mod_tf (fun t => set_sector (u8 n) (set_lcyl (u8 (Z.shiftr n 8)) (set_hcyl (u8 (Z.shiftr n 16))
        (set_select (u8 (Z.lor (Z.land (select t) 0xf0) (Z.shiftr n 24))) t))))
    else
      mod_tf (fun t => set_hob_hcyl (u8 (Z.shiftr n 40)) (set_hob_lcyl (u8 (Z.shiftr n 32))
        (set_hob_sector (u8 (Z.shiftr n 24)) (set_hcyl (u8 (Z.shiftr n 16)) (set_lcyl (u8 (Z.shiftr n 8)) (set_sector (u8 n) t))))))
  else
    if heads s * sectors s =? 0 then undef else
    let cyl := u32 (Z.quot n (heads s * sectors s)) in
    let r := u32 (Z.rem n (heads s * sectors s)) in
    mod_tf (fun t => set_sector (u8 (r mod sectors s + 1))
      (set_select (Z.lor (Z.land (select t) 0xf0) (Z.land (r / sectors s) 0x0f))
        (set_lcyl (u8 cyl) (set_hcyl (u8 (Z.shiftr cyl 8)) t)))).

(** ** The simulated drive *)

(** The length is converted to [unsigned int], the sector to [int32_t]. *)
Definition call_ssd (f : Z -> Z -> M disk unit) (n sector_num : Z) : M unit_state unit :=
  need_disk ;;
  if is_ssd then on_snd (f (u32 n) (i32 sector_num)) else mret tt.

(** ** Transfers through the data port *)

Definition read_sectors (ws : list (Z * list Z)) (sector_num n : Z) : list Z := get_sectors (disk_bytes ws) sector_num n.

Definition ide_sector_read : M unit_state unit :=
  mod_xf (fun x => set_error 0 (set_status (Z.lor READY_STAT SEEK_STAT) x)) ;;
  s ← get_drive;
  let sector_num := ide_get_sector s in
  let n := i32 (nsector (tf s)) in
  if n =? 0 then ide_transfer_stop else
  let n := if req_nb_sectors (xf s) <? n then req_nb_sectors (xf s) else n in
  let ret := bdrv_read sector_num n in
  need_disk ;;
  store_bytes 0 (read_sectors (bdrv_writes (xf s)) sector_num n) ;;
  call_ssd ssd_read n sector_num ;;
  if negb (ret =? 0) then ide_rw_error else
  ide_transfer_start (512 * n) EndRead ;;
  ide_set_irq ;;
  ide_set_sector (sector_num + n) ;;
  mod_tf (fun t => set_nsector (u32 (nsector t - n)) t).

(** The answer is whether the error has ended the command.  Stopping the virtual
    machine changes nothing here. *)
Definition ide_handle_write_error (err op : Z) : M unit_state bool :=
  match drive_get_onerror with
  | BLOCK_ERR_IGNORE => mret false
  | a =>
      let stop := match a with
                  | BLOCK_ERR_STOP_ENOSPC => err =? ENOSPC
                  | BLOCK_ERR_STOP_ANY => true
                  | _ => false
                  end in
      (if stop then mod_bm (fun b => set_bm_status (Z.lor (bm_status b) op) (set_ide_if true b))
       else if op =? BM_STATUS_DMA_RETRY then ide_dma_error else ide_rw_error) ;;
      mret true
  end.

(** The timer that raises the interrupt later for [win2k_install_hack] is left out. *)
Definition ide_sector_write : M unit_state unit :=
  mod_xf (set_status (Z.lor READY_STAT SEEK_STAT)) ;;
  s ← get_drive;
  let sector_num := ide_get_sector s in
  let n := i32 (nsector (tf s)) in
  let n := if req_nb_sectors (xf s) <? n then req_nb_sectors (xf s) else n in
  let ret := bdrv_write sector_num n in
  need_disk ;;
  bytes ← load_bytes 0 (Z.to_nat (512 * n));
  mod_xf (fun x => set_bdrv_writes (bdrv_writes x ++ [(sector_num, bytes)]) x) ;;
  stop ← (if negb (ret =? 0) then ide_handle_write_error (- ret) BM_STATUS_PIO_RETRY else mret false);
  if (stop : bool) then mret tt else
  call_ssd ssd_write n sector_num ;;
  mod_tf (fun t => set_nsector (u32 (nsector t - n)) t) ;;
  t ← get_tf;
  (if nsector t =? 0 then ide_transfer_stop else
   let n1 := i32 (nsector t) in
   let n1 := if req_nb_sectors (xf s) <? n1 then req_nb_sectors (xf s) else n1 in
   ide_transfer_start (512 * n1) EndWrite) ;;
  ide_set_sector (sector_num + n) ;;
  if win2k_install_hack then
    mod_xf (fun x => set_irq_count (u32 (irq_count x + 1)) x) ;;
    x ← get_xf;
    if irq_count x mod 16 =? 0 then mret tt else ide_set_irq
  else ide_set_irq.

(** The first four bytes, which the buffer has, are set. *)
Definition ide_dummy_transfer_stop : M unit_state unit :=
  mod_xf (fun x => set_io_buffer (fill [0xff; 0xff; 0xff; 0xff] (io_buffer x)) (set_data_end 0 (set_data_ptr 0 x))).

Definition end_transfer (f : transfer) : M unit_state unit :=
  match f with
  | EndStop => ide_transfer_stop
  | EndRead => ide_sector_read
  | EndWrite => ide_sector_write
  | EndDummy => ide_dummy_transfer_stop
  end.

(** The pointer moves on; at the end, the next step of the command is done. *)
Definition data_step (p : Z) : M unit_state unit :=
  mod_xf (set_data_ptr p) ;;
  x ← get_xf;
  if data_end x <=? p then end_transfer (end_transfer_func x) else mret tt.

(** An access of two or four bytes to the data port. *)
Definition data_write (width : nat) (val : Z) : M unit_state unit :=
  x ← get_xf;
  if negb (bit (status x) DRQ_STAT) then mret tt else
  store_bytes (data_ptr x) (bytes_le width val) ;;
  data_step (data_ptr x + Z.of_nat width).

Definition data_read (width : nat) : M unit_state Z :=
  x ← get_xf;
  if negb (bit (status x) DRQ_STAT) then mret 0 else
  bytes ← load_bytes (data_ptr x) width;
  data_step (data_ptr x + Z.of_nat width) ;;
  mret (of_le bytes).

Definition ide_data_writew (val : Z) : M unit_state unit := data_write 2 val.
Definition ide_data_readw : M unit_state Z := data_read 2.
Definition ide_data_writel (val : Z) : M unit_state unit := data_write 4 val.
Definition ide_data_readl : M unit_state Z := data_read 4.

(** ** Transfers by DMA *)

Definition qemu_sglist_init : M unit_state unit := mod_xf (set_sg []).
Definition qemu_sglist_add (base len : Z) : M unit_state unit := mod_xf (fun x => set_sg (sg x ++ [(base, len)]) x).

(** The loop over the table of memory areas; [size] is [io_buffer_size]. *)
Fixpoint dma_prepare_loop (fuel : nat) : M unit_state bool :=
  match fuel with
  | O => out_of_fuel
  | S fuel' =>
      b ← get_bm;
      if (cur_prd_len b =? 0) && (cur_prd_last b || (4096 <=? u32 (cur_addr b - bm_addr b)))
      then x ← get_xf; mret (negb (io_buffer_size x =? 0))
      else
        (if cur_prd_len b =? 0 then
           let '(addr, size) := prd_entry (memory b) (cur_addr b) in
           let len := Z.land size 0xfffe in
           mod_bm (fun b => set_cur_prd_last (bit size 0x80000000) (set_cur_prd_addr addr
             (set_cur_prd_len (if len =? 0 then 0x10000 else len) (set_cur_addr (u32 (cur_addr b + 8)) b))))
         else mret tt) ;;
        b ← get_bm;
        let l := cur_prd_len b in
        (if 0 <? l then
           qemu_sglist_add (cur_prd_addr b) l ;;
           mod_bm (fun b => set_cur_prd_len (u32 (cur_prd_len b - l)) (set_cur_prd_addr (u32 (cur_prd_addr b + l)) b)) ;;
           mod_xf (fun x => set_io_buffer_size (i32 (io_buffer_size x + l)) x)
         else mret tt) ;;
        dma_prepare_loop fuel'
  end.

(** A table has at most 512 entries of 8 bytes. *)
Definition prd_fuel : nat := 514.

Definition dma_buf_prepare : M unit_state bool :=
  qemu_sglist_init ;;
  mod_xf (set_io_buffer_size 0) ;;
  dma_prepare_loop prd_fuel.

(** The end of a DMA transfer. *)
Definition dma_eot : M unit_state unit :=
  mod_bm (fun b => set_aiocb false (set_ide_if false (set_dma_cb None
    (set_bm_status (Z.lor (Z.land (bm_status b) (Z.lnot BM_STATUS_DMAING)) BM_STATUS_INT) b)))).

(** The sectors of the last transfer are done; the answer is the next sector. *)
Definition dma_advance : M unit_state Z :=
  s ← get_drive;
  let n := Z.shiftr (io_buffer_size (xf s)) 9 in
  let sector_num := ide_get_sector s in
  if 0 <? n then
    ide_set_sector (sector_num + n) ;;
    mod_tf (fun t => set_nsector (u32 (nsector t - n)) t) ;;
    mret (sector_num + n)
  else mret sector_num.

(** All sectors are transferred. *)
Definition dma_done : M unit_state unit :=
  mod_xf (set_status (Z.lor READY_STAT SEEK_STAT)) ;;
  ide_set_irq ;;
  dma_eot.

(** The block layer moves the whole sectors of the areas as it accepts the transfer;
    one that it does not accept calls back at once with an error. *)
Definition sg_sectors (l : list (Z * Z)) : Z := Z.quot (foldr Z.add 0 (map snd l)) 512.

Definition dma_bdrv_read (sector_num : Z) : M unit_state bool :=
  x ← get_xf;
  mod_bm (fun b => set_aiocb (dma_submit sector_num) (if dma_submit sector_num
    then set_memory (scatter (sg x) (read_sectors (bdrv_writes x) sector_num (sg_sectors (sg x))) (memory b)) b else b)) ;;
  mret (dma_submit sector_num).

Definition dma_bdrv_write (sector_num : Z) : M unit_state bool :=
  b ← get_bm;
  mod_bm (set_aiocb (dma_submit sector_num)) ;;
  (if dma_submit sector_num then
     mod_xf (fun x => set_bdrv_writes (bdrv_writes x ++ [(sector_num, take (Z.to_nat (512 * sg_sectors (sg x))) (gather (memory b) (sg x)))]) x)
   else mret tt) ;;
  mret (dma_submit sector_num).

Definition ide_read_dma_cb (ret : Z) : M unit_state unit :=
  if ret <? 0 then ide_dma_error else
  sector_num ← dma_advance;
  t ← get_tf;
  if nsector t =? 0 then dma_done else
  let n := i32 (nsector t) in
  mod_xf (fun x => set_io_buffer_size (i32 (n * 512)) (set_io_buffer_index 0 x)) ;;
  more ← dma_buf_prepare;
  if negb more then dma_eot else
  call_ssd ssd_read n sector_num ;;
  ok ← dma_bdrv_read sector_num;
  if (ok : bool) then mret tt else ide_dma_error.

Fixpoint write_dma_loop (fuel : nat) (ret : Z) : M unit_state unit :=
  match fuel with
  | O => out_of_fuel
  | S fuel' =>
      stop ← (if ret <? 0 then ide_handle_write_error (- ret) BM_STATUS_DMA_RETRY else mret false);
      if (stop : bool) then mret tt else
      sector_num ← dma_advance;
      t ← get_tf;
      if nsector t =? 0 then dma_done else
      let n := i32 (nsector t) in
      mod_xf (set_io_buffer_size (i32 (n * 512))) ;;
      more ← dma_buf_prepare;
      if negb more then dma_eot else
      call_ssd ssd_write n sector_num ;;
      ok ← dma_bdrv_write sector_num;
      if (ok : bool) then mret tt else write_dma_loop fuel' (-1)
  end.

(** Each round takes entries from the table. *)
Definition ide_write_dma_cb (ret : Z) : M unit_state unit := write_dma_loop prd_fuel ret.

Definition run_callback (f : callback) (ret : Z) : M unit_state unit :=
  match f with ReadCallback => ide_read_dma_cb ret | WriteCallback => ide_write_dma_cb ret end.

Definition ide_dma_start (f : callback) : M unit_state unit :=
  s ← get_drive;
  mod_bm (fun b => set_bm_nsector (nsector (tf s)) (set_bm_sector_num (ide_get_sector s) (set_cur_prd_len 0
    (set_cur_prd_addr 0 (set_cur_prd_last false (set_dma_cb (Some f) (set_ide_if true b))))))) ;;
  b ← get_bm;
  if bit (bm_status b) BM_STATUS_DMAING then run_callback f 0 else mret tt.

Definition dma_status : Z := Z.lor (Z.lor (Z.lor READY_STAT SEEK_STAT) DRQ_STAT) BUSY_STAT.

Definition ide_sector_read_dma : M unit_state unit :=
  mod_xf (fun x => set_is_read true (set_io_buffer_size 0 (set_io_buffer_index 0 (set_status dma_status x)))) ;;
  ide_dma_start ReadCallback.

Definition ide_sector_write_dma : M unit_state unit :=
  mod_xf (fun x => set_is_read false (set_io_buffer_size 0 (set_io_buffer_index 0 (set_status dma_status x)))) ;;
  ide_dma_start WriteCallback.

Definition ide_dma_cancel : M unit_state unit :=
  mod_bm (fun b => if bit (bm_status b) BM_STATUS_DMAING
    then set_aiocb false (set_dma_cb None (set_ide_if false (set_bm_status (Z.land (bm_status b) (Z.lnot BM_STATUS_DMAING)) b)))
    else b).

Definition bmdma_cmd_writeb (val : Z) : M unit_state unit :=
  (if negb (bit val BM_CMD_START) then ide_dma_cancel else
   b ← get_bm;
   if bit (bm_status b) BM_STATUS_DMAING then mret tt else
   mod_bm (set_bm_status (Z.lor (bm_status b) BM_STATUS_DMAING)) ;;
   match dma_cb b with Some f => run_callback f 0 | None => mret tt end) ;;
  mod_bm (set_bm_cmd (Z.land val 0x09)).

(** The registers of the engine of a PIIX3. *)
Definition bmdma_readb (addr : Z) : M unit_state Z :=
  b ← get_bm;
  mret (match Z.land addr 3 with 0 => bm_cmd b | 2 => bm_status b | _ => 0xff end).

Definition bmdma_writeb (addr val : Z) : M unit_state unit :=
  if Z.land addr 3 =? 2 then
    mod_bm (fun b => set_bm_status (Z.lor (Z.lor (Z.land val 0x60) (Z.land (bm_status b) 1))
      (Z.land (Z.land (bm_status b) (Z.lnot val)) 0x06)) b)
  else mret tt.

(** The address of the table, by bytes, words or as a whole. *)
Definition addr_part (mask addr : Z) : M unit_state Z :=
  b ← get_bm;
  mret (Z.land (Z.shiftr (bm_addr b) (Z.land addr 3 * 8)) mask).

Definition merge_part (mask shift val a : Z) : Z :=
  Z.lor (Z.land a (Z.lnot (u32 (Z.shiftl mask shift)))) (Z.land (u32 (Z.shiftl (Z.land val mask) shift)) (Z.lnot 3)).

Definition set_addr_part (mask addr val : Z) : M unit_state unit :=
  mod_bm (fun b =>
    let a := merge_part mask (Z.land addr 3 * 8) val (bm_addr b) in
    set_cur_addr a (set_bm_addr a b)).

Definition bmdma_addr_readb (addr : Z) : M unit_state Z := addr_part 0xff addr.
Definition bmdma_addr_writeb (addr val : Z) : M unit_state unit := set_addr_part 0xff addr val.
Definition bmdma_addr_readw (addr : Z) : M unit_state Z := addr_part 0xffff addr.
Definition bmdma_addr_writew (addr val : Z) : M unit_state unit := set_addr_part 0xffff addr val.
Definition bmdma_addr_readl : M unit_state Z := b ← get_bm; mret (bm_addr b).

Definition bmdma_addr_writel (val : Z) : M unit_state unit :=
  mod_bm (fun b => set_cur_addr (Z.land val (Z.lnot 3)) (set_bm_addr (Z.land val (Z.lnot 3)) b)).

(** After an error that stopped the virtual machine. *)
Definition ide_dma_restart : M unit_state unit :=
  b ← get_bm;
  ide_set_sector (bm_sector_num b) ;;
  mod_xf (fun x => set_io_buffer_size 0 (set_io_buffer_index 0 x)) ;;
  mod_tf (set_nsector (bm_nsector b)) ;;
  mod_bm (fun b => set_dma_cb (Some WriteCallback) (set_cur_addr (bm_addr b) b)) ;;
  ide_dma_start WriteCallback.

Definition ide_dma_restart_bh : M unit_state unit :=
  b ← get_bm;
  if bit (bm_status b) BM_STATUS_DMA_RETRY then
    mod_bm (set_bm_status (Z.land (bm_status b) (Z.lnot BM_STATUS_DMA_RETRY))) ;; ide_dma_restart
  else if bit (bm_status b) BM_STATUS_PIO_RETRY then
    mod_bm (set_bm_status (Z.land (bm_status b) (Z.lnot BM_STATUS_PIO_RETRY))) ;; ide_sector_write
  else mret tt.

(** ** Commands *)

Definition ide_cmd_lba48_transform (ext : bool) : M unit_state unit :=
  mod_tf (set_lba48 ext) ;;
  mod_tf (fun t =>
    if negb ext then if nsector t =? 0 then set_nsector 256 t else t
    else if (nsector t =? 0) && (hob_nsector t =? 0) then set_nsector 65536 t
    else set_nsector (u32 (Z.lor (Z.shiftl (hob_nsector t) 8) (i32 (nsector t)))) t).

Definition abort_cmd : M unit_state unit := ide_abort_command ;; ide_set_irq.

Inductive command :=
| CmdRead | CmdWrite | CmdMultRead | CmdMultWrite | CmdReadDma | CmdWriteDma
| CmdVerify | CmdReadNativeMax | CmdRecal | CmdSetMult | CmdCheckPower | CmdTrim
| CmdIdentify | CmdSetFeatures | CmdFlush | CmdStandby | CmdSeek | CmdPIdentify | CmdDiagnose
| CfaExtError | CfaErase | CfaWearLevel | CfaTranslate | CfaMetadata | CfaSense | CmdUnknown.

(** The opcodes, and whether the command has 48-bit addresses. *)
Definition opcode (val : Z) : command * bool :=
  match val with
  | 0x20 | 0x21 => (CmdRead, false) | 0x24 => (CmdRead, true)
  | 0x30 | 0x31 | 0x38 | 0x3c => (CmdWrite, false) | 0x34 => (CmdWrite, true)
  | 0xc4 => (CmdMultRead, false) | 0x29 => (CmdMultRead, true)
  | 0xc5 | 0xcd => (CmdMultWrite, false) | 0x39 => (CmdMultWrite, true)
  | 0xc8 | 0xc9 => (CmdReadDma, false) | 0x25 => (CmdReadDma, true)
  | 0xca | 0xcb => (CmdWriteDma, false) | 0x35 => (CmdWriteDma, true)
  | 0x40 | 0x41 => (CmdVerify, false) | 0x42 => (CmdVerify, true)
  | 0xf8 => (CmdReadNativeMax, false) | 0x27 => (CmdReadNativeMax, true)
  | 0x10 | 0x91 => (CmdRecal, false)
  | 0xc6 => (CmdSetMult, false)
  | 0xe5 | 0x98 => (CmdCheckPower, false)
  | 0x06 => (CmdTrim, false)
  | 0xec => (CmdIdentify, false)
  | 0xef => (CmdSetFeatures, false)
  | 0xe7 | 0xea => (CmdFlush, false)
  | 0xe2 | 0x96 | 0xe0 | 0x94 | 0xe1 | 0x95 | 0xe3 | 0x97 | 0xe6 | 0x99 => (CmdStandby, false)
  | 0x70 => (CmdSeek, false)
  | 0xa1 => (CmdPIdentify, false)
  | 0x90 => (CmdDiagnose, false)
  | 0x03 => (CfaExtError, false)
  | 0xc0 => (CfaErase, false)
  | 0xf5 => (CfaWearLevel, false)
  | 0x87 => (CfaTranslate, false)
  | 0xb8 => (CfaMetadata, false)
  | 0xf0 => (CfaSense, false)
  | _ => (CmdUnknown, false)
  end.

Definition set_ready : M unit_state unit := mod_xf (set_status (Z.lor READY_STAT SEEK_STAT)).

Definition set_mult : M unit_state unit :=
  s ← get_drive;
  let n := nsector (tf s) in
  (if is_cf s && (n =? 0) then mod_xf (set_mult_sectors 0) ;; set_ready
   else if negb (Z.land n 0xff =? 0) && ((MAX_MULT_SECTORS <? Z.land n 0xff) || negb (Z.land n (u32 (n - 1)) =? 0))
   then ide_abort_command
   else mod_xf (set_mult_sectors (Z.land n 0xff)) ;; set_ready) ;;
  ide_set_irq.

(** The signature of a disk, or of no drive. *)
Definition ide_set_signature (s : IDEState) : IDEState :=
  let c := if bs s then 0 else 0xff in
  set_tf (set_hcyl c (set_lcyl c (set_sector 1 (set_nsector 1 (set_select (Z.land (select (tf s)) 0xf0) (tf s)))))) s.

(** *** Identification *)

Definition ide_identify : M unit_state unit :=
  s ← get_drive;
  let i := ident s in
  if identify_set i then store_bytes 0 (words_bytes (identify_data i)) else
  let p := identify_words (cylinders i) (heads s) (sectors s) (nb_sectors s) (mult_sectors (xf s)) (drive_serial_str i) in
  store_bytes 0 (words_bytes p) ;;
  mod_id (set_identify true p).

Definition ide_cfata_identify : M unit_state unit :=
  s ← get_drive;
  let i := ident s in
  (if identify_set i then mret tt else
   mod_id (set_identify true
     (cfata_words (cylinders i) (heads s) (sectors s) (nb_sectors s) (mult_sectors (xf s)) (drive_serial_str i)))) ;;
  s ← get_drive;
  store_bytes 0 (words_bytes (identify_data (ident s))).

(** The features that are accepted and do nothing. *)
Definition no_features : list Z :=
  [0xcc; 0x66; 0x02; 0x82; 0xaa; 0x55; 0x05; 0x85; 0x69; 0x67; 0x96; 0x9a; 0x42; 0xc2].

Definition set_features : M unit_state unit :=
  s ← get_drive;
  if negb (bs s) then abort_cmd else
  let feature := feature (tf s) in
  if bool_decide (feature ∈ no_features) then set_ready ;; ide_set_irq
  else if feature =? 0x03 then
    match transfer_mode (nsector (tf s)) with
    | Some t => mod_id (fun i => set_identify (identify_set i) (put_all t (identify_data i)) i) ;; set_ready ;; ide_set_irq
    | None => abort_cmd
    end
  else abort_cmd.

(** *** Memory cards *)

Definition cfa_translate : M unit_state unit :=
  mod_xf (fun x => set_status (Z.lor READY_STAT SEEK_STAT) (set_error 0 x)) ;;
  s ← get_drive;
  let t := tf s in
  let lba := ide_get_sector s in
  store_bytes 0 ([hcyl t; lcyl t; select t; sector t; u8 (Z.shiftr lba 16); u8 (Z.shiftr lba 8); u8 lba] ++
    replicate 19 0 ++ [0x01] ++ replicate 485 0) ;;
  ide_transfer_start 0x200 EndStop ;;
  ide_set_irq.

Definition ide_cfata_metadata_inquiry : M unit_state unit :=
  s ← get_drive;
  let size := mdata_size (ident s) in
  let spd := u32 (Z.shiftr (u32 (size - 1)) 9 + 1) in
  store_bytes 0 (words_bytes (put_all [(0, 0x0001); (1, 0x0000); (2, Z.b2z (media_changed (xf s))); (3, Z.land size 0xffff);
    (4, Z.shiftr size 16); (5, Z.land spd 0xffff); (6, Z.shiftr spd 16)] (replicate 256 0))).

(** The place in the metadata, which has to be an [int]; [None] beyond the end. *)
Definition metadata_offset : M unit_state (option Z) :=
  s ← get_drive;
  let off := Z.shiftl (Z.lor (Z.shiftl (hcyl (tf s)) 16) (lcyl (tf s))) 9 in
  if 2 ^ 31 <=? off then undef else
  mret (if u32 (mdata_size (ident s) + 2) <? off then None else Some off).

Definition metadata_length (off : Z) (s : IDEState) : nat :=
  Z.to_nat (Z.min (Z.min (u32 (mdata_size (ident s) - off)) (u32 (Z.shiftl (nsector (tf s)) 9))) (0x200 - 2)).

Definition metadata_error : M unit_state unit := mod_xf (fun x => set_error ABRT_ERR (set_status ERR_STAT x)).

Definition ide_cfata_metadata_read : M unit_state unit :=
  o ← metadata_offset;
  match o with
  | None => metadata_error
  | Some off =>
      s ← get_drive;
      data ← need (peek off (metadata_length off s) (mdata_storage (ident s)));
      store_bytes 0 (bytes_le 2 (Z.b2z (media_changed (xf s))) ++ data ++ replicate (510 - length data) 0)
  end.

Definition ide_cfata_metadata_write : M unit_state unit :=
  o ← metadata_offset;
  match o with
  | None => metadata_error
  | Some off =>
      mod_xf (set_media_changed false) ;;
      s ← get_drive;
      data ← load_bytes 2 (metadata_length off s);
      storage ← need (poke off data (mdata_storage (ident s)));
      mod_id (set_mdata_storage storage)
  end.

Definition metadata_transfer : M unit_state unit :=
  ide_transfer_start 0x200 EndStop ;; mod_xf (set_status 0) ;; ide_set_irq.

Definition cfa_metadata : M unit_state unit :=
  t ← get_tf;
  match feature t with
  | 0x02 => ide_cfata_metadata_inquiry ;; metadata_transfer
  | 0x03 => ide_cfata_metadata_read ;; metadata_transfer
  | 0x04 => ide_cfata_metadata_write ;; metadata_transfer
  | _ => abort_cmd
  end.

(** *** All commands *)

(** [SSD_IS_SUPPORT_TRIM] answers 0, so that a trim does nothing. *)
Definition ide_command (val : Z) : M unit_state unit :=
  s ← get_drive;
  let '(c, ext) := opcode val in
  match c with
  | CmdRead =>
      if negb (bs s) then abort_cmd else
      ide_cmd_lba48_transform ext ;; mod_xf (set_req_nb_sectors 1) ;; ide_sector_read
  | CmdWrite =>
      ide_cmd_lba48_transform ext ;;
      mod_xf (fun x => set_req_nb_sectors 1 (set_status (Z.lor SEEK_STAT READY_STAT) (set_error 0 x))) ;;
      ide_transfer_start 512 EndWrite ;; mod_xf (set_media_changed true)
  | CmdMultRead =>
      if mult_sectors (xf s) =? 0 then abort_cmd else
      ide_cmd_lba48_transform ext ;; mod_xf (set_req_nb_sectors (mult_sectors (xf s))) ;; ide_sector_read
  | CmdMultWrite =>
      if mult_sectors (xf s) =? 0 then abort_cmd else
      ide_cmd_lba48_transform ext ;;
      mod_xf (fun x => set_req_nb_sectors (mult_sectors x) (set_status (Z.lor SEEK_STAT READY_STAT) (set_error 0 x))) ;;
      t ← get_tf;
      let n := i32 (nsector t) in
      ide_transfer_start (512 * (if mult_sectors (xf s) <? n then mult_sectors (xf s) else n)) EndWrite ;;
      mod_xf (set_media_changed true)
  | CmdReadDma => if negb (bs s) then abort_cmd else ide_cmd_lba48_transform ext ;; ide_sector_read_dma
  | CmdWriteDma =>
      if negb (bs s) then abort_cmd else
      ide_cmd_lba48_transform ext ;; ide_sector_write_dma ;; mod_xf (set_media_changed true)
  | CmdVerify => ide_cmd_lba48_transform ext ;; set_ready ;; ide_set_irq
  | CmdReadNativeMax => ide_cmd_lba48_transform ext ;; ide_set_sector (nb_sectors s - 1) ;; set_ready ;; ide_set_irq
  | CmdRecal => mod_xf (set_error 0) ;; set_ready ;; ide_set_irq
  | CmdSetMult => set_mult
  | CmdCheckPower => mod_tf (set_nsector 0xff) ;; set_ready ;; ide_set_irq
  | CmdTrim => ide_set_irq
  | CmdIdentify =>
      (if bs s then (if is_cf s then ide_cfata_identify else ide_identify) ;; set_ready ;; ide_transfer_start 512 EndStop
       else ide_abort_command) ;;
      ide_set_irq
  | CmdSetFeatures => set_features
  | CmdFlush => set_ready ;; ide_set_irq
  | CmdStandby => mod_xf (set_status READY_STAT) ;; ide_set_irq
  | CmdSeek => set_ready ;; ide_set_irq
  | CmdPIdentify => ide_abort_command ;; ide_set_irq
  | CmdDiagnose =>
      modify (fun w => (ide_set_signature (fst (fst w)), snd (fst w), snd w)) ;;
      set_ready ;; mod_xf (set_error 0x01) ;; ide_set_irq
  | CfaExtError => if negb (is_cf s) then abort_cmd else mod_xf (set_error 0x09) ;; set_ready ;; ide_set_irq
  | CfaErase =>
      if negb (is_cf s) then abort_cmd else
      mod_xf (fun x => set_error 0 (set_media_changed true x)) ;; set_ready ;; ide_set_irq
  | CfaWearLevel =>
      if negb (is_cf s) then abort_cmd else
      mod_tf (set_nsector 0) ;; mod_xf (set_error 0) ;; set_ready ;; ide_set_irq
  | CfaTranslate => if negb (is_cf s) then abort_cmd else cfa_translate
  | CfaMetadata => if negb (is_cf s) then abort_cmd else cfa_metadata
  | CfaSense =>
      if negb (is_cf s) then abort_cmd else
      if negb (feature (tf s) =? 0x01) then abort_cmd else mod_tf (set_nsector 0x50) ;; set_ready ;; ide_set_irq
  | CmdUnknown => abort_cmd
  end.

(** ** The controller *)

(** Two drives with one DMA engine; [cur_drive] is the selected one. *)
Record controller := Controller {
  drive_0 : IDEState;
  drive_1 : IDEState;
  cur_drive : bool;
  bmdma : BMDMAState
}.

Definition current (c : controller) : IDEState := if cur_drive c then drive_1 c else drive_0 c.

(** What is done on the selected drive. *)
Definition on_current {A} (m : M unit_state A) : M (controller * disk) A := fun '(c, d) =>
  match m (current c, bmdma c, d) with
  | Ret (a, (s, b, d')) =>
      Ret (a, (if cur_drive c then Controller (drive_0 c) s true b else Controller s (drive_1 c) false b, d'))
  | Undef => Undef
  | OutOfFuel => OutOfFuel
  end.

(** A register is written in both drives. *)
Definition both (f : task_file -> task_file) : M (controller * disk) unit :=
  modify (fun '(c, d) => (Controller (set_tf (f (tf (drive_0 c))) (drive_0 c)) (set_tf (f (tf (drive_1 c))) (drive_1 c))
    (cur_drive c) (bmdma c), d)).

Definition ide_clear_hob : M (controller * disk) unit :=
  both (fun t => set_select (Z.land (select t) (Z.lnot (Z.shiftl 1 7))) t).

Definition busy (s : IDEState) : bool := bit (status (xf s)) (Z.lor BUSY_STAT DRQ_STAT).

(** ** Reset *)

(** The drive as it starts; it selects itself, which only matters for drive 0. *)
Definition ide_reset (s : IDEState) : IDEState :=
  let s := set_xf (set_status (Z.lor READY_STAT SEEK_STAT) (set_mult_sectors (if is_cf s then 0 else MAX_MULT_SECTORS) (xf s)))
    (set_tf (set_select 0xa0 (tf s)) s) in
  let s := ide_set_signature s in
  set_xf (set_media_changed false (set_io_buffer (fill [0xff; 0xff; 0xff; 0xff] (io_buffer (xf s)))
    (set_data_end 0 (set_data_ptr 0 (set_end_transfer_func EndDummy (xf s)))))) s.

(** The control register: a reset starts with the bit, and ends without it. *)
Definition ide_cmd_write (val : Z) : M (controller * disk) unit :=
  modify (fun '(c, d) =>
    let was := bit (cmd (drive_0 c)) IDE_CMD_RESET in
    let f := if negb was && bit val IDE_CMD_RESET then
               fun s => set_xf (set_error 0x01 (set_status (Z.lor BUSY_STAT SEEK_STAT) (xf s))) s
             else if was && negb (bit val IDE_CMD_RESET) then
               fun s => ide_set_signature (set_xf (set_status (Z.lor READY_STAT SEEK_STAT) (xf s)) s)
             else id in
    (Controller (set_cmd (u8 val) (f (drive_0 c))) (set_cmd (u8 val) (f (drive_1 c))) (cur_drive c) (bmdma c), d)).

(** ** The registers *)

(** There is no drive at all, or the selected one is missing. *)
Definition no_drive (c : controller) : bool := negb (bs (drive_0 c)) && negb (bs (drive_1 c)).
Definition no_selected (c : controller) : bool := no_drive c || cur_drive c && negb (bs (drive_1 c)).

Definition ide_status_read (c : controller) : Z := if no_selected c then 0 else status (xf (current c)).

(** What a guest reads; lowering the interrupt line is left out. *)
Definition ide_ioport_read (addr : Z) (c : controller) : Z :=
  let t := tf (current c) in
  match Z.land addr 7 with
  | 0 => 0xff
  | 1 => if no_selected c then 0 else error (xf (current c))
  | 2 => if no_drive c then 0 else Z.land (nsector t) 0xff
  | 3 => if no_drive c then 0 else sector t
  | 4 => if no_drive c then 0 else lcyl t
  | 5 => if no_drive c then 0 else hcyl t
  | 6 => if no_drive c then 0 else select t
  | _ => ide_status_read c
  end.

Definition ide_ioport_write (addr val : Z) : M (controller * disk) unit :=
  c ← gets fst;
  let addr := Z.land addr 7 in
  if negb (addr =? 7) && busy (current c) then mret tt else
  match addr with
  | 0 => mret tt
  | 1 => ide_clear_hob ;; both (fun t => set_feature (u8 val) (set_hob_feature (feature t) t))
  | 2 => ide_clear_hob ;; both (fun t => set_nsector val (set_hob_nsector (u8 (nsector t)) t))
  | 3 => ide_clear_hob ;; both (fun t => set_sector (u8 val) (set_hob_sector (sector t) t))
  | 4 => ide_clear_hob ;; both (fun t => set_lcyl (u8 val) (set_hob_lcyl (lcyl t) t))
  | 5 => ide_clear_hob ;; both (fun t => set_hcyl (u8 val) (set_hob_hcyl (hcyl t) t))
  | 6 =>
      modify (fun '(c, d) => (Controller
        (set_tf (set_select (u8 (Z.lor (Z.land val (Z.lnot 0x10)) 0xa0)) (tf (drive_0 c))) (drive_0 c))
        (set_tf (set_select (u8 (Z.lor (Z.lor val 0x10) 0xa0)) (tf (drive_1 c))) (drive_1 c))
        (bit (Z.shiftr val 4) 1) (bmdma c), d))
  | _ =>
      if cur_drive c && negb (bs (drive_1 c)) then mret tt else
      if busy (current c) && negb (val =? 0x08) then mret tt else
      on_current (ide_command val)
  end.

End Drive.
