(* ===== verification/IdeDisk.v ===== *)
(** * The disk behind the controller

    What the controller relies on of the block layer, and the requests that a
    command is split into: the bytes that they write are those of one write. *)

From stdpp Require Import prelude.
From S2P Require Import Prelude Bytes Ide.

Local Open Scope Z_scope.

(** ** Requests *)

(** The requests for [k] sectors, [q] at a time: length and sector. *)
Fixpoint chunks (fuel : nat) (q a k : Z) : list (Z * Z) :=
  match fuel with
  | O => []
  | S fuel' => if k <=? 0 then [] else (Z.min q k, a) :: chunks fuel' q (a + Z.min q k) (k - Z.min q k)
  end.

Definition requests (q a k : Z) : list (Z * Z) := chunks (Z.to_nat k) q a k.

Fixpoint run_requests `{Disk} (f : Z -> Z -> M disk unit) (l : list (Z * Z)) : M disk unit :=
  match l with
  | [] => mret tt
  | (n, a) :: l' => f n a ;; run_requests f l'
  end.

Lemma chunks_fuel q f : forall a k f', 0 < q -> k <= Z.of_nat f -> k <= Z.of_nat f' -> chunks f q a k = chunks f' q a k.
Proof.
  induction f as [|f IH]; intros a k f' Hq Hf Hf'; simpl.
  - destruct f'; simpl; [done|]. by destruct (Z.leb_spec k 0); [|lia].
  - destruct f' as [|f']; simpl; destruct (Z.leb_spec k 0); try done; [lia|]. f_equal. apply IH; lia.
Qed.

Lemma requests_cons q a k : 0 < q -> 0 < k ->
  requests q a k = (Z.min q k, a) :: requests q (a + Z.min q k) (k - Z.min q k).
Proof.
  intros Hq Hk. unfold requests. destruct (Z.to_nat k) as [|f] eqn:Ef; [lia|]. simpl.
  destruct (Z.leb_spec k 0); [lia|]. f_equal. apply chunks_fuel; lia.
Qed.

(** The bytes of each of the requests. *)
Fixpoint pieces (l : list (Z * Z)) (bytes : list Z) : list (Z * list Z) :=
  match l with
  | [] => []
  | (n, a) :: l' => (a, take (Z.to_nat (512 * n)) bytes) :: pieces l' (drop (Z.to_nat (512 * n)) bytes)
  end.

(** ** Sectors *)

(** The sectors of a disk with these bytes from sector [a] on. *)
Definition put_sectors (a : Z) (bytes : list Z) (c : Z -> list Z) (x : Z) : list Z :=
  if (a <=? x) && (512 * (x - a + 1) <=? zlen bytes) then take 512 (drop (Z.to_nat (512 * (x - a))) bytes) else c x.

Lemma get_sectors_app c a n m : 0 <= n -> 0 <= m -> get_sectors c a (n + m) = get_sectors c a n ++ get_sectors c (a + n) m.
Proof. intros Hn Hm. unfold get_sectors. by rewrite seqZ_app, map_app, concat_app by done. Qed.

Lemma length_get_sectors c a n : (forall x, zlen (c x) = 512) -> 0 <= n -> zlen (get_sectors c a n) = 512 * n.
Proof.
  intros Hc Hn. unfold get_sectors. replace (512 * n) with (512 * zlen (seqZ a n)) by (rewrite length_seqZ; lia).
  induction (seqZ a n) as [|x l IH]; [done|]. cbn [map concat length]. rewrite length_app. specialize (Hc x). lia.
Qed.

Lemma get_sectors_ext c c' a n : (forall x, a <= x < a + n -> c x = c' x) -> get_sectors c a n = get_sectors c' a n.
Proof. intros H. unfold get_sectors. f_equal. apply map_ext_in. intros x Hx. apply list_elem_of_In, elem_of_seqZ in Hx. apply H. lia. Qed.

(** What is put is got. *)
Lemma get_put_sectors c a bytes k : 0 <= k -> zlen bytes = 512 * k -> get_sectors (put_sectors a bytes c) a k = bytes.
Proof.
  intros Hk Hl. rewrite (get_sectors_ext _ (fun x => take 512 (drop (Z.to_nat (512 * (x - a))) bytes))).
  - clear c. revert a bytes Hl. pattern k. apply natlike_ind; [|clear k Hk; intros k Hk IH|done]; intros a bytes Hl.
    + by destruct bytes.
    + replace (Z.succ k) with (1 + k) by lia. rewrite get_sectors_app by lia. trans (take 512 bytes ++ drop 512 bytes); [|apply take_drop].
      f_equal.
      * unfold get_sectors. simpl. rewrite app_nil_r. by replace (Z.to_nat _) with 0%nat by lia.
      * rewrite <- (IH (a + 1) (drop 512 bytes)) by (rewrite length_drop; lia). apply get_sectors_ext. intros x Hx.
        rewrite drop_drop. do 2 f_equal. lia.
  - intros x Hx. unfold put_sectors. rewrite (proj2 (Z.leb_le _ _)) by lia. by rewrite (proj2 (Z.leb_le _ _)) by lia.
Qed.

(** Other sectors stay. *)
Lemma get_put_other c a bytes k b n : zlen bytes = 512 * k -> (b + n <= a \/ a + k <= b) ->
  get_sectors (put_sectors a bytes c) b n = get_sectors c b n.
Proof.
  intros Hl Ho. apply get_sectors_ext. intros x Hx. unfold put_sectors.
  destruct (Z.leb_spec a x); [|done]. by destruct (Z.leb_spec (512 * (x - a + 1)) (zlen bytes)); [lia|].
Qed.

Lemma put_nothing c a x : put_sectors a [] c x = c x.
Proof.
  unfold put_sectors. destruct (Z.leb_spec a x); [|done].
  by destruct (Z.leb_spec (512 * (x - a + 1)) (zlen (@nil Z))); [simpl in *; lia|].
Qed.

(** Two writes, one after the other, are one. *)
Lemma put_put_sectors c a bytes n x : 0 <= n -> 512 * n <= zlen bytes ->
  put_sectors (a + n) (drop (Z.to_nat (512 * n)) bytes) (put_sectors a (take (Z.to_nat (512 * n)) bytes) c) x = put_sectors a bytes c x.
Proof.
  intros Hn Hl. unfold put_sectors. rewrite length_drop, length_take_le by lia.
  destruct (Z.leb_spec (a + n) x), (Z.leb_spec a x); try lia; simpl; [| |done].
  - destruct (Z.leb_spec (512 * (x - (a + n) + 1)) (Z.of_nat (length bytes - Z.to_nat (512 * n)))), (Z.leb_spec (512 * (x - a + 1)) (zlen bytes)); try lia.
    + rewrite drop_drop. do 2 f_equal. lia.
    + by destruct (Z.leb_spec (512 * (x - a + 1)) (Z.of_nat (Z.to_nat (512 * n)))); [lia|].
  - destruct (Z.leb_spec (512 * (x - a + 1)) (Z.of_nat (Z.to_nat (512 * n)))); [|lia].
    destruct (Z.leb_spec (512 * (x - a + 1)) (zlen bytes)); [|lia].
    rewrite skipn_firstn_comm, take_take. f_equal. lia.
Qed.

(** ** The block layer *)

(** Reads and writes succeed; a sector has 512 bytes, those of the last write to it. *)
Class BlockLayer {K : Disk} (Q : Machine) : Prop := {
  reads_work : forall a n, bdrv_read a n = 0;
  writes_work : forall a n, bdrv_write a n = 0;
  transfers_work : forall a, dma_submit a = true;
  sector_length : forall ws a, zlen (disk_bytes ws a) = 512;
  write_law : forall ws a bytes x, disk_bytes (ws ++ [(a, bytes)]) x = put_sectors a bytes (disk_bytes ws) x
}.

Section Layer.
Context {K : Disk} {Q : Machine} {B : BlockLayer Q}.

Lemma put_sectors_ext a bytes c c' x : c x = c' x -> put_sectors a bytes c x = put_sectors a bytes c' x.
Proof. intros E. unfold put_sectors. by rewrite E. Qed.

Lemma put_pieces q n : forall a k bytes ws x, (Z.to_nat k <= n)%nat -> 0 < q -> 0 <= k -> zlen bytes = 512 * k ->
  disk_bytes (ws ++ pieces (requests q a k) bytes) x = put_sectors a bytes (disk_bytes ws) x.
Proof.
  induction n as [|n IH]; intros a k bytes ws x Hn Hq Hk Hl; (destruct (decide (k = 0)) as [->|Hne];
    [destruct bytes; [|simpl in Hl; lia]; rewrite put_nothing; unfold requests; simpl; by rewrite app_nil_r|]); [lia|].
  rewrite requests_cons by lia. cbn [pieces]. set (c := Z.min q k).
  replace (ws ++ (a, take (Z.to_nat (512 * c)) bytes) :: pieces (requests q (a + c) (k - c)) (drop (Z.to_nat (512 * c)) bytes))
    with ((ws ++ [(a, take (Z.to_nat (512 * c)) bytes)]) ++ pieces (requests q (a + c) (k - c)) (drop (Z.to_nat (512 * c)) bytes))
    by by rewrite <- app_assoc.
  rewrite IH by (rewrite ?length_drop; unfold c; lia). rewrite <- (put_put_sectors _ a bytes c) by (unfold c; lia).
  apply put_sectors_ext, write_law.
Qed.

(** All requests of a command write what one write would. *)
Lemma write_pieces q a k bytes ws x : 0 < q -> 0 <= k -> zlen bytes = 512 * k ->
  disk_bytes (ws ++ pieces (requests q a k) bytes) x = put_sectors a bytes (disk_bytes ws) x.
Proof. by apply (put_pieces q (Z.to_nat k)). Qed.

Lemma length_read_sectors ws a n : 0 <= n -> zlen (get_sectors (disk_bytes ws) a n) = 512 * n.
Proof. apply length_get_sectors. intros x. apply sector_length. Qed.

End Layer.
