(* ===== verification/IdeSector.v ===== *)
(** * Sector numbers in the task file

    [ide_set_sector] and [ide_get_sector] are inverse, for the three ways to
    address a sector. *)

From stdpp Require Import prelude.
From S2P Require Import Prelude Bytes Ide.

Local Open Scope Z_scope.

(** ** Bytes *)

Lemma lor_low k a b : 0 <= k -> 0 <= b < 2 ^ k -> Z.lor (Z.shiftl a k) b = a * 2 ^ k + b.
Proof.
  intros Hk Hb. assert (Z.land (Z.shiftl a k) b = 0) as H.
  { apply Z.bits_inj'. intros i Hi. rewrite Z.land_spec, Z.bits_0. destruct (Z.ltb_spec i k).
    - by rewrite Z.shiftl_spec_low.
    - destruct (decide (b = 0)) as [->|]; [by rewrite Z.bits_0, andb_false_r|].
      rewrite (Z.bits_above_log2 b), andb_false_r; [done|lia|].
      apply Z.log2_lt_pow2; [lia|]. assert (2 ^ k <= 2 ^ i) by (apply Z.pow_le_mono_r; lia). lia. }
  rewrite <- (Z.lxor_lor _ _ H), <- (Z.add_nocarry_lxor _ _ H), Z.shiftl_mul_pow2 by lia. done.
Qed.

Lemma lor_shift a b k : 0 <= k -> 0 <= b < 256 -> Z.lor (Z.shiftl a (k + 8)) (Z.shiftl b k) = Z.shiftl (a * 256 + b) k.
Proof.
  intros Hk Hb. rewrite lor_low; [|lia|].
  - rewrite !Z.shiftl_mul_pow2, Z.pow_add_r by lia. lia.
  - rewrite Z.shiftl_mul_pow2, Z.pow_add_r by lia. assert (0 < 2 ^ k) by lia. nia.
Qed.

Lemma bytes_split z : z = z / 256 * 256 + u8 z.
Proof. unfold u8. pose proof (Z.div_mod z 256 ltac:(lia)). change (2 ^ 8) with 256. lia. Qed.

Lemma shiftr_byte z k : 0 <= k -> Z.shiftr z (k + 8) = Z.shiftr z k / 256.
Proof. intros. rewrite !Z.shiftr_div_pow2, Z.pow_add_r by lia. by rewrite Z.div_div by lia. Qed.

(** The bytes of a number give it back. *)
Lemma of_bytes z k : 0 <= k -> Z.shiftr z (k + 8) * 256 + u8 (Z.shiftr z k) = Z.shiftr z k.
Proof. intros. rewrite shiftr_byte by done. symmetry. apply bytes_split. Qed.

Lemma shiftr_small z k : 0 <= k -> 0 <= z < 2 ^ (k + 8) -> u8 (Z.shiftr z k) = Z.shiftr z k.
Proof.
  intros Hk Hz. apply u8_id. rewrite Z.shiftr_div_pow2 by lia. rewrite Z.pow_add_r in Hz by lia.
  split; [apply Z.div_pos; lia|apply Z.div_lt_upper_bound; lia].
Qed.

Lemma of_bytes_at z k j : k = j + 8 -> 0 <= j -> Z.shiftr z k * 256 + u8 (Z.shiftr z j) = Z.shiftr z j.
Proof. intros ->. apply of_bytes. Qed.

(** ** The three modes *)

(** The sectors that can be addressed. *)
Definition limit (s : IDEState) : Z :=
  if bit (select (tf s)) 0x40 then if lba48 (tf s) then 2 ^ 48 else 2 ^ 28 else 65536 * (heads s * sectors s).

Definition geometry_ok (s : IDEState) : Prop :=
  0 <= select (tf s) < 256 /\ (bit (select (tf s)) 0x40 = false -> 1 <= heads s <= 16 /\ 1 <= sectors s <= 255).

(** The state with another current sector. *)
Definition at_sector (s : IDEState) (n : Z) (s' : IDEState) : Prop :=
  ide_get_sector s' = n /\ geometry_ok s' /\ limit s' = limit s /\ exists t, s' = set_tf t s /\
  nsector t = nsector (tf s) /\ lba48 t = lba48 (tf s) /\ feature t = feature (tf s) /\
  hob_nsector t = hob_nsector (tf s) /\ hob_feature t = hob_feature (tf s).

(** The upper half of the select register is left alone: all cases. *)
Definition upper_test (x y : Z) : bool :=
  let z := Z.lor (Z.land x 0xf0) y in
  (u8 z =? z) && (Z.land z 0x0f =? y) && Bool.eqb (bit z 0x40) (bit x 0x40) && (0 <=? z) && (z <? 256).

Lemma upper_all : forallb (fun x => forallb (upper_test x) (seqZ 0 16)) (seqZ 0 256) = true.
Proof. by vm_compute. Qed.

Lemma select_upper x y : 0 <= x < 256 -> 0 <= y < 16 -> let z := Z.lor (Z.land x 0xf0) y in
  u8 z = z /\ Z.land z 0x0f = y /\ bit z 0x40 = bit x 0x40 /\ 0 <= z < 256.
Proof.
  intros Hx Hy z. pose proof upper_all as H. rewrite forallb_forall in H.
  specialize (H x ltac:(apply list_elem_of_In, elem_of_seqZ; lia)). rewrite forallb_forall in H.
  specialize (H y ltac:(apply list_elem_of_In, elem_of_seqZ; lia)). unfold upper_test in H. fold z in H.
  repeat (apply andb_true_iff in H as [H ?]). rewrite eqb_true_iff in *. split_and!; (lia || done).
Qed.

Section Sector.
Context {K : Disk} {Q : Machine}.

Lemma set_sector_spec n s b d : geometry_ok s -> 0 <= n < limit s ->
  wp (ide_set_sector n) (fun _ w => at_sector s n (fst (fst w)) /\ snd (fst w) = b /\ snd w = d) (s, b, d).
Proof.
  intros [Hsel Hgeo] Hn. unfold ide_set_sector, get_drive, mod_tf, limit in *. wp_go. simpl.
  destruct (bit (select (tf s)) 64) eqn:Eb; [destruct (lba48 (tf s)) eqn:El|]; simpl negb; cbv iota.
  - wp_go. simpl. split; [|done]. unfold at_sector, geometry_ok, limit, ide_get_sector. simpl. rewrite Eb, El. simpl negb. cbv iota.
    split; [|split; [done|split; [done|]]].
    2:{ eexists. split; [reflexivity|]. done. }
    pose proof (u8_range n). pose proof (u8_range (Z.shiftr n 8)). pose proof (u8_range (Z.shiftr n 16)).
    pose proof (u8_range (Z.shiftr n 24)). pose proof (u8_range (Z.shiftr n 32)).
    rewrite (shiftr_small n 40) by lia. rewrite (lor_shift _ _ 32), (lor_shift _ _ 24), (lor_shift _ _ 16), (lor_shift _ _ 8) by done.
    rewrite lor_low by lia. rewrite (of_bytes_at n 40 32), (of_bytes_at n 32 24), (of_bytes_at n 24 16), (of_bytes_at n 16 8) by lia.
    symmetry. rewrite Z.shiftr_div_pow2 by lia. apply bytes_split.
  - destruct (select_upper (select (tf s)) (Z.shiftr n 24) Hsel) as (E1 & E2 & E3 & E4).
    { rewrite Z.shiftr_div_pow2 by lia. split; [apply Z.div_pos; lia|apply Z.div_lt_upper_bound; lia]. }
    wp_go. simpl. split; [|done]. unfold at_sector, geometry_ok, limit, ide_get_sector. simpl. rewrite E1, E3, Eb, El. simpl negb. cbv iota.
    split; [|split; [done|split; [done|]]].
    2:{ eexists. split; [reflexivity|]. done. }
    pose proof (u8_range n). pose proof (u8_range (Z.shiftr n 8)). pose proof (u8_range (Z.shiftr n 16)).
    rewrite E2, (lor_shift _ _ 16), (lor_shift _ _ 8) by done.
    rewrite lor_low by lia. rewrite (of_bytes_at n 24 16), (of_bytes_at n 16 8) by lia.
    symmetry. rewrite Z.shiftr_div_pow2 by lia. apply bytes_split.
  - destruct (Hgeo eq_refl) as [Hh Hs]. set (hs := heads s * sectors s) in *. assert (0 < hs) by (unfold hs; nia).
    destruct (Z.eqb_spec hs 0); [lia|]. rewrite Z.quot_div_nonneg, Z.rem_mod_nonneg by lia.
    pose proof (Z.mod_pos_bound n hs ltac:(lia)) as Hr. pose proof (Z.div_mod n hs ltac:(lia)) as Hdm.
    assert (0 <= n / hs < 65536) as Hc by (split; [apply Z.div_pos; lia|apply Z.div_lt_upper_bound; lia]).
    assert (hs <= 16 * 255) as Hhs by (unfold hs; nia). rewrite !u32_id by lia. set (r := n mod hs) in *.
    assert (0 <= r / sectors s < heads s) as Hq by (split; [apply Z.div_pos; lia|apply Z.div_lt_upper_bound; unfold hs in *; lia]).
    pose proof (Z.mod_pos_bound r (sectors s) ltac:(lia)) as Hm. pose proof (Z.div_mod r (sectors s) ltac:(lia)) as Hdr.
    assert (Z.land (r / sectors s) 15 = r / sectors s) as El by (rewrite (Z.land_ones _ 4), Z.mod_small; lia). rewrite El.
    destruct (select_upper (select (tf s)) (r / sectors s) Hsel ltac:(lia)) as (E1 & E2 & E3 & E4).
    wp_go. simpl. split; [|done]. unfold at_sector, geometry_ok, limit, ide_get_sector. simpl. rewrite E3, Eb.
    split; [|split; [done|split; [done|]]].
    2:{ eexists. split; [reflexivity|]. done. }
    rewrite E2, (shiftr_small _ 8) by lia. rewrite lor_low by (try lia; apply u8_range).
    rewrite (u8_id (r mod sectors s + 1)) by lia. rewrite Z.shiftr_div_pow2 by lia.
    change (2 ^ 8) with 256. rewrite <- (bytes_split (n / hs)). unfold hs in *. nia.
Qed.

End Sector.
