(* ===== verification/IdePio.v ===== *)
(** * Transfers through the data port

    A command that reads or writes [k] sectors from sector [a] on, [q] sectors per
    interrupt, and a guest that moves all words of them: the simulated drive gets
    the sectors once, in order, [q] at a time; the block layer gets the bytes that
    the guest writes, and the guest the bytes of the disk. *)

From stdpp Require Import prelude.
From S2P Require Import Prelude Bytes Ide IdeDisk IdeSector.

Local Open Scope Z_scope.

Section Pio.
Context {K : Disk} {Q : Machine} (Hssd : is_ssd = true).

Local Abbreviation unit_state := (IDEState * BMDMAState * disk)%type.

(** ** The words of a transfer *)

Fixpoint guest_writes (vs : list Z) : M unit_state unit :=
  match vs with [] => mret tt | v :: vs' => ide_data_writew v ;; guest_writes vs' end.

Fixpoint guest_reads (n : nat) : M unit_state (list Z) :=
  match n with O => mret [] | S n' => v ← ide_data_readw; vs ← guest_reads n'; mret (v :: vs) end.

Lemma guest_writes_app vs : forall vs' P w,
  wp (guest_writes vs) (fun _ w' => wp (guest_writes vs') P w') w -> wp (guest_writes (vs ++ vs')) P w.
Proof.
  induction vs as [|v vs IH]; intros vs' P w H; [exact H|]. simpl in H |- *. apply wp_bind_inv in H. apply wp_bind.
  eapply wp_mono; [exact H|]. intros ? w' Hw. by apply IH.
Qed.

Lemma guest_reads_S n P w :
  wp ide_data_readw (fun v w' => wp (guest_reads n) (fun vs w'' => P (v :: vs) w'') w') w -> wp (guest_reads (S n)) P w.
Proof.
  intros H. simpl. apply wp_bind. eapply wp_mono; [exact H|]. intros v w' Hw. apply wp_bind. eapply wp_mono; [exact Hw|].
  intros vs w'' Hw'. by apply wp_ret.
Qed.

Lemma guest_reads_app n : forall m P w,
  wp (guest_reads n) (fun vs w' => wp (guest_reads m) (fun vs' w'' => P (vs ++ vs') w'') w') w -> wp (guest_reads (n + m)) P w.
Proof.
  induction n as [|n IH]; intros m P w H; [exact H|]. simpl in H. apply wp_bind_inv in H. apply guest_reads_S.
  eapply wp_mono; [exact H|]. intros v w' Hw. apply wp_bind_inv in Hw. apply IH. eapply wp_mono; [exact Hw|]. by intros vs w'' Hw'.
Qed.

Definition with_ptr (p : Z) (s : IDEState) : IDEState := set_xf (set_data_ptr p (xf s)) s.
Definition with_buffer (buf : list Z) (s : IDEState) : IDEState := set_xf (set_io_buffer buf (xf s)) s.

(** A word at the pointer, and what follows. *)
Lemma write_word v s b d buf P : bit (status (xf s)) DRQ_STAT = true ->
  poke (data_ptr (xf s)) (bytes_le 2 v) (io_buffer (xf s)) = Some buf ->
  wp (if data_end (xf s) <=? data_ptr (xf s) + 2 then end_transfer (end_transfer_func (xf s)) else mret tt) P
     (with_ptr (data_ptr (xf s) + 2) (with_buffer buf s), b, d) ->
  wp (ide_data_writew v) P (s, b, d).
Proof.
  intros Hd Hb H. unfold ide_data_writew, data_write, store_bytes, data_step, get_xf, mod_xf. wp_go. simpl fst. rewrite Hd. simpl negb.
  cbv iota. wp_go. cbn in H |- *. exact H.
Qed.

Lemma read_word s b d bytes P : bit (status (xf s)) DRQ_STAT = true ->
  peek (data_ptr (xf s)) 2 (io_buffer (xf s)) = Some bytes ->
  wp (if data_end (xf s) <=? data_ptr (xf s) + 2 then end_transfer (end_transfer_func (xf s)) else mret tt)
     (fun _ w => P (of_le bytes) w) (with_ptr (data_ptr (xf s) + 2) s, b, d) ->
  wp ide_data_readw P (s, b, d).
Proof.
  intros Hd Hb H. unfold ide_data_readw, data_read, load_bytes, data_step, get_xf, mod_xf. wp_go. simpl fst. rewrite Hd. simpl negb.
  cbv iota. wp_go. cbn in H |- *. eapply wp_mono; [exact H|]. intros ? w Hw. by apply wp_ret.
Qed.

(** The last word of a block ends the transfer of the block. *)
Lemma writes_block vs : forall pre buf s b d P, vs <> [] -> bit (status (xf s)) DRQ_STAT = true ->
  io_buffer (xf s) = fill pre buf -> data_ptr (xf s) = zlen pre -> zlen pre + 2 * zlen vs = data_end (xf s) ->
  data_end (xf s) <= zlen buf ->
  wp (end_transfer (end_transfer_func (xf s))) P
     (with_ptr (data_end (xf s)) (with_buffer (fill (pre ++ words_bytes vs) buf) s), b, d) ->
  wp (guest_writes vs) P (s, b, d).
Proof.
  induction vs as [|v vs IH]; intros pre buf s b d P Hne Hdrq Hbuf Hp He Hl H; [done|]. cbn [length] in He. simpl guest_writes.
  assert (length (pre ++ bytes_le 2 v) <= length buf)%nat as Hfit by (rewrite length_app, length_bytes_le; lia).
  apply wp_bind. eapply (write_word v s b d); [done|rewrite Hp, Hbuf; by apply poke_next|]. rewrite Hp.
  destruct vs as [|v' vs].
  - destruct (Z.leb_spec (data_end (xf s)) (zlen pre + 2)); [|simpl in He; lia]. simpl guest_writes.
    replace (zlen pre + 2) with (data_end (xf s)) by (simpl in He; lia). eapply wp_mono; [exact H|]. intros [] w' Hw. by apply wp_ret.
  - cbn [length] in He. destruct (Z.leb_spec (data_end (xf s)) (zlen pre + 2)); [lia|]. apply wp_ret.
    apply (IH (pre ++ bytes_le 2 v) buf); try done; try (cbn [xf set_xf with_ptr with_buffer data_ptr data_end set_data_ptr set_io_buffer length];
      rewrite ?length_app, ?length_bytes_le; lia).
    rewrite <- app_assoc. change (bytes_le 2 v ++ words_bytes (v' :: vs)) with (words_bytes (v :: v' :: vs)).
    destruct s as [t x]; destruct x. exact H.
Qed.

Lemma reads_block n : forall s b d P, bit (status (xf s)) DRQ_STAT = true -> 0 <= data_ptr (xf s) ->
  data_ptr (xf s) + 2 * (Z.of_nat n + 1) = data_end (xf s) -> data_end (xf s) <= zlen (io_buffer (xf s)) ->
  wp (end_transfer (end_transfer_func (xf s)))
     (fun _ w => P (bytes_words (take (2 * S n) (drop (Z.to_nat (data_ptr (xf s))) (io_buffer (xf s))))) w)
     (with_ptr (data_end (xf s)) s, b, d) ->
  wp (guest_reads (S n)) P (s, b, d).
Proof.
  induction n as [|n IH]; intros s b d P Hdrq Hp He Hl H; apply guest_reads_S; (eapply read_word; [done|apply peek_app; lia|]).
  - destruct (Z.leb_spec (data_end (xf s)) (data_ptr (xf s) + 2)); [|lia]. replace (data_ptr (xf s) + 2) with (data_end (xf s)) by lia.
    eapply wp_mono; [exact H|]. intros [] w Hw. cbv beta in Hw |- *. apply wp_ret. change (2 * 1)%nat with 2%nat in Hw.
    destruct (drop (Z.to_nat (data_ptr (xf s))) (io_buffer (xf s))) as [|x [|y l]] eqn:E.
    1,2: apply (f_equal length) in E; rewrite length_drop in E; simpl in E; lia.
    simpl in Hw |- *. by replace (x + 256 * (y + 256 * 0)) with (x + 256 * y) by lia.
  - destruct (Z.leb_spec (data_end (xf s)) (data_ptr (xf s) + 2)); [lia|]. apply wp_ret.
    apply IH; simpl; [done|lia|lia|done|]. unfold with_ptr in *. destruct s as [t x]; destruct x. simpl in *.
    eapply wp_mono; [exact H|]. intros ? w Hw. cbv beta in Hw |- *.
    destruct (drop (Z.to_nat data_ptr) io_buffer) as [|x [|y l]] eqn:E.
    1,2: apply (f_equal length) in E; rewrite length_drop in E; simpl in E; lia.
    replace (Z.to_nat (data_ptr + 2)) with (Z.to_nat data_ptr + 2)%nat by lia. rewrite <- drop_drop, E. simpl drop. simpl take.
    replace (2 * S (S n))%nat with (S (S (2 * S n))) in Hw by lia. simpl take in Hw. simpl in Hw |- *.
    replace (x + 256 * (y + 256 * 0)) with (x + 256 * y) by lia. rewrite drop_0.
    by replace (S (n + S (n + 0))) with (n + S (S (n + 0)))%nat by lia.
Qed.

(** ** What no command changes *)

(** The memory of the guest, the address of the table, and whether the engine runs. *)
Definition engine_kept (b b' : BMDMAState) : Prop :=
  memory b' = memory b /\ bm_addr b' = bm_addr b /\ bit (bm_status b') BM_STATUS_DMAING = bit (bm_status b) BM_STATUS_DMAING.

(** The disk, the sectors per interrupt of a multiple command, and the size of the
    buffer. *)
Definition drive_kept (s s' : IDEState) : Prop :=
  bs s' = bs s /\ mult_sectors (xf s') = mult_sectors (xf s) /\ length (io_buffer (xf s')) = length (io_buffer (xf s)).

Definition kept (p p' : IDEState * BMDMAState) : Prop := drive_kept (fst p) (fst p') /\ engine_kept (snd p) (snd p').

Lemma kept_trans p1 p2 p3 : kept p1 p2 -> kept p2 p3 -> kept p1 p3.
Proof. unfold kept, drive_kept, engine_kept. intuition congruence. Qed.

(** ** Interrupts *)

(** Only the interrupt line has changed. *)
Definition quiet (w w' : unit_state) : Prop :=
  snd w' = snd w /\ engine_kept (snd (fst w)) (snd (fst w')) /\
  exists i c, fst (fst w') = set_xf (set_irq_raised i (set_irq_count c (xf (fst (fst w))))) (fst (fst w)).

Lemma quiet_refl w : quiet w w.
Proof. split; [done|]. split; [done|]. exists (irq_raised (xf (fst (fst w)))), (irq_count (xf (fst (fst w)))). destruct w as [[[t x] b] d]. by destruct x. Qed.

Lemma int_dmaing x : bit (Z.lor x BM_STATUS_INT) BM_STATUS_DMAING = bit x BM_STATUS_DMAING.
Proof. unfold bit. rewrite Z.land_lor_distr_l. change (Z.land BM_STATUS_INT BM_STATUS_DMAING) with 0. by rewrite Z.lor_0_r. Qed.

Lemma set_irq_quiet w : wp ide_set_irq (fun _ w' => quiet w w') w.
Proof.
  unfold ide_set_irq, get_drive, mod_bm, mod_xf. wp_go. case_match; wp_go; [apply quiet_refl|].
  split; [done|]. split; [split; [done|split; [done|apply int_dmaing]]|].
  simpl. exists (irq_raised (xf (fst (fst w))) + 1), (irq_count (xf (fst (fst w)))). destruct w as [[[t x] b] d]. by destruct x.
Qed.

Lemma write_irq_quiet w : wp (if win2k_install_hack then
    mod_xf (fun x => set_irq_count (u32 (irq_count x + 1)) x) ;;
    x ← get_xf;
    if irq_count x mod 16 =? 0 then mret tt else ide_set_irq
  else ide_set_irq) (fun _ w' => quiet w w') w.
Proof.
  destruct win2k_install_hack; [|apply set_irq_quiet]. unfold mod_xf, get_xf. wp_go. simpl.
  case_match; wp_go.
  - split; [done|]. split; [done|]. simpl. exists (irq_raised (xf (fst (fst w)))), (u32 (irq_count (xf (fst (fst w))) + 1)). destruct w as [[[t x] b] d]. by destruct x.
  - eapply wp_mono; [apply set_irq_quiet|]. intros ? w' (E & Ek & i & c & E'). split; [done|]. split; [done|]. simpl in E'. rewrite E'. exists i, c. done.
Qed.

(** ** Writes *)

(** There is a disk, and room for [q] sectors in the buffer. *)
Definition buffered (q : Z) (s : IDEState) : Prop := bs s = true /\ 512 * q <= zlen (io_buffer (xf s)).

(** The guest is to write the first of the blocks of [k] sectors. *)
Definition writing (q a k : Z) (s : IDEState) : Prop :=
  geometry_ok s /\ ide_get_sector s = a /\ nsector (tf s) = k /\ req_nb_sectors (xf s) = q /\
  bit (status (xf s)) DRQ_STAT = true /\ end_transfer_func (xf s) = EndWrite /\
  data_ptr (xf s) = 0 /\ data_end (xf s) = 512 * Z.min q k.

(** The command is done. *)
Definition finished (a : Z) (s : IDEState) : Prop :=
  geometry_ok s /\ ide_get_sector s = a /\ nsector (tf s) = 0 /\ status (xf s) = Z.lor READY_STAT SEEK_STAT.

Lemma kept_buffered q s b s' b' : kept (s, b) (s', b') -> buffered q s -> buffered q s'.
Proof. intros ((E1 & _ & E2) & _) [H1 H2]. simpl in *. split; congruence. Qed.

Context (Hwrite : forall a n, bdrv_write a n = 0).

Lemma min_if q k : (if q <? k then q else k) = Z.min q k.
Proof. destruct (Z.ltb_spec q k); lia. Qed.

Lemma need_disk_spec s b d P : bs s = true -> P tt (s, b, d) -> wp need_disk P (s, b, d).
Proof. intros Hb HP. unfold need_disk, get_drive. wp_go. simpl. rewrite Hb. by apply wp_ret. Qed.

Lemma call_ssd_spec f n a s b d d' P : bs s = true -> 0 <= n < 2 ^ 32 -> - 2 ^ 31 <= a < 2 ^ 31 ->
  f n a d = Ret (tt, d') -> P tt (s, b, d') -> wp (call_ssd f n a) P (s, b, d).
Proof using Hssd.
  intros Hb Hn Ha Hd HP. unfold call_ssd. apply wp_bind, need_disk_spec; [done|]. rewrite Hssd, u32_id, i32_id by lia.
  apply wp_on_snd. by eapply run_wp.
Qed.

Lemma sector_write_spec q a k s b d d' : geometry_ok s -> ide_get_sector s = a -> nsector (tf s) = k -> req_nb_sectors (xf s) = q ->
  buffered q s -> 0 < q -> 0 < k < 2 ^ 31 -> 0 <= a -> a + k < limit s -> a + k <= 2 ^ 31 ->
  ssd_write (Z.min q k) a d = Ret (tt, d') ->
  wp ide_sector_write (fun _ w => snd w = d' /\ limit (fst (fst w)) = limit s /\ kept (s, b) (fst w) /\
    bdrv_writes (xf (fst (fst w))) = bdrv_writes (xf s) ++ [(a, take (Z.to_nat (512 * Z.min q k)) (io_buffer (xf s)))] /\
    if k <=? q then finished (a + k) (fst (fst w)) else writing q (a + q) (k - q) (fst (fst w))) (s, b, d).
Proof using Hssd Hwrite.
  intros Hg Ha Hk Hq [Hb Hbuf] Hq0 Hk0 Ha0 Hlim H31 Hd. unfold ide_sector_write, get_drive, mod_xf, get_tf. wp_go. simpl.
  rewrite Hk, Hq, i32_id, min_if by lia. set (c := Z.min q k) in *. rewrite Hwrite. simpl negb. cbv iota.
  change (ide_get_sector (set_xf _ s)) with (ide_get_sector s). rewrite Ha.
  apply need_disk_spec; [done|]. apply wp_bind. unfold load_bytes, get_xf. wp_go. eapply wp_need; [simpl; apply peek_app; unfold c; lia|]. wp_go. simpl.
  rewrite drop_0. set (bytes := take _ (io_buffer (xf s))). apply (call_ssd_spec _ _ _ _ _ _ d'); [done|lia|lia|done|]. unfold mod_tf. wp_go. simpl.
  rewrite Hk, u32_id by lia.
  apply wp_mono with (P := fun _ w => snd w = d' /\ snd (fst w) = b /\ exists x, fst (fst w) = set_tf (set_nsector (k - c) (tf s)) (set_xf x s) /\
    req_nb_sectors x = q /\ mult_sectors x = mult_sectors (xf s) /\ io_buffer x = io_buffer (xf s) /\ bdrv_writes x = bdrv_writes (xf s) ++ [(a, bytes)] /\
    if k <=? q then status x = Z.lor READY_STAT SEEK_STAT else
      bit (status x) DRQ_STAT = true /\ end_transfer_func x = EndWrite /\ data_ptr x = 0 /\ data_end x = 512 * Z.min q (k - c)).
  { destruct (Z.eqb_spec (k - c) 0); destruct (Z.leb_spec k q); try (unfold c in *; lia).
    - unfold ide_transfer_stop, mod_xf. wp_go. simpl. split; [done|]. split; [done|]. eexists. split; [reflexivity|]. by split_and!.
    - unfold ide_transfer_start, mod_xf. wp_go. simpl. split; [done|]. split; [done|]. eexists. split; [reflexivity|]. simpl. rewrite i32_id, min_if by (unfold c; lia). by split_and!. }
  intros ? [[s1 b1] d1] (Ed & Eb1 & x & Es & Ex & Em & Ebuf & Ew & Hx). simpl in Ed, Eb1, Es. subst d1 s1 b1. apply wp_bind.
  eapply wp_mono; [apply (set_sector_spec (a + c)); [exact Hg|]|].
  { change (limit (set_tf _ _)) with (limit s). unfold c. lia. }
  intros ? [[s2 b2] d2] (Hs2 & Eb & Ed). simpl in Hs2, Eb, Ed. subst b2 d2.
  eapply wp_mono; [apply write_irq_quiet|]. intros ? [[s3 b3] d3] (E & Ek & i & ic & Es3). simpl in E, Ek, Es3. subst s3 d3. simpl.
  destruct Hs2 as (Hget & Hg2 & Hl2 & t & -> & Hn & _). simpl in Hn.
  split; [done|]. split; [exact Hl2|]. split; [split; [split_and!; simpl; congruence|exact Ek]|]. split; [done|]. destruct (Z.leb_spec k q).
  - assert (c = k) as Ec by (unfold c; lia). rewrite Ec in *. split_and!; try done; simpl; rewrite Hn; lia.
  - assert (c = q) as Ec by (unfold c; lia). rewrite Ec in *. destruct Hx as (? & ? & ? & ?). by split_and!.
Qed.

(** All words of a write. *)
Lemma write_run n : forall q a k vs s b d d', (Z.to_nat k <= n)%nat -> writing q a k s -> buffered q s ->
  zlen vs = 256 * k -> 0 < q -> 0 < k < 2 ^ 31 -> 0 <= a -> a + k < limit s -> a + k <= 2 ^ 31 ->
  run_requests ssd_write (requests q a k) d = Ret (tt, d') ->
  wp (guest_writes vs) (fun _ w => snd w = d' /\ finished (a + k) (fst (fst w)) /\ kept (s, b) (fst w) /\
    bdrv_writes (xf (fst (fst w))) = bdrv_writes (xf s) ++ pieces (requests q a k) (words_bytes vs)) (s, b, d).
Proof using Hssd Hwrite.
  induction n as [|n IH]; intros q a k vs s b d d' Hn (Hg & Ha & Hk & Hq & Hdrq & Hf & Hp & He) Hbuf Hvs Hq0 Hk0 Ha0 Hlim H31 Hd; [lia|].
  rewrite requests_cons in Hd |- * by lia. simpl in Hd. set (c := Z.min q k) in *.
  unfold mbind, M_bind in Hd. destruct (ssd_write c a d) as [[[] d1]| |] eqn:E1; [|done|done].
  set (vs1 := take (Z.to_nat (256 * c)) vs). set (vs2 := drop (Z.to_nat (256 * c)) vs).
  assert (zlen vs1 = 256 * c) as Hl1 by (unfold vs1; rewrite length_take; unfold c in *; lia).
  assert (zlen vs2 = 256 * (k - c)) as Hl2 by (unfold vs2; rewrite length_drop; unfold c in *; lia).
  assert (vs = vs1 ++ vs2) as Evs by (symmetry; apply take_drop). clearbody vs1 vs2. subst vs.
  assert (take (Z.to_nat (512 * c)) (words_bytes (vs1 ++ vs2)) = words_bytes vs1 /\
          drop (Z.to_nat (512 * c)) (words_bytes (vs1 ++ vs2)) = words_bytes vs2) as [Et Ed].
  { replace (Z.to_nat (512 * c)) with (length (words_bytes vs1)) by (rewrite length_words_bytes; lia).
    rewrite words_bytes_app. by rewrite take_app_length, drop_app_length. }
  cbn [pieces]. rewrite Et, Ed. apply guest_writes_app.
  apply (writes_block vs1 [] (io_buffer (xf s))); try done; [destruct vs1; [unfold c in *; simpl in Hl1; lia|done]|rewrite He; simpl; unfold c; lia| |].
  { rewrite He. destruct Hbuf. unfold c. lia. }
  rewrite Hf. simpl end_transfer. simpl app.
  assert (length (words_bytes vs1) <= length (io_buffer (xf s)))%nat as Hfit by (rewrite length_words_bytes; destruct Hbuf; unfold c in *; lia).
  eapply wp_mono; [apply (sector_write_spec q a k _ b d d1); try done|].
  { split; [apply Hbuf|]. simpl. rewrite length_fill by done. apply Hbuf. }
  intros ? [[s1 b1] d2] (Ed2 & Hl & Hkept & Hw1 & Hs). simpl in Ed2, Hl, Hs, Hw1. subst d2.
  assert (kept (s, b) (s1, b1)) as Hk1.
  { eapply kept_trans; [|exact Hkept]. split; [|done]. split_and!; try done. simpl. by rewrite length_fill. }
  change (limit (with_ptr _ (with_buffer _ s))) with (limit s) in Hl. fold c in Hw1.
  replace (Z.to_nat (512 * c)) with (length (words_bytes vs1)) in Hw1 by (rewrite length_words_bytes; lia). rewrite take_fill in Hw1.
  destruct (Z.leb_spec k q).
  - assert (c = k) as Ec by (unfold c; lia). rewrite Ec, Z.sub_diag in *. simpl in Hd. injection Hd as ->.
    destruct vs2; [|simpl in Hl2; lia]. simpl guest_writes. unfold requests. simpl. wp_go. done.
  - assert (c = q) as Ec by (unfold c; lia). rewrite Ec in *.
    eapply wp_mono; [apply (IH q (a + q) (k - q) vs2); try done; [lia|by eapply kept_buffered|lia..]|]. intros ? w (? & Hfin & Hk2 & Hw2). split; [done|].
    split; [by replace (a + k) with (a + q + (k - q)) by lia|]. split; [by eapply kept_trans|]. rewrite Hw2, Hw1. by rewrite <- app_assoc.
Qed.

(** ** Reads *)

Context (Hread : forall a n, bdrv_read a n = 0) (Hsector : forall ws a, zlen (disk_bytes ws a) = 512).

(** A block of [c] sectors is in the buffer, with these bytes; [k] sectors from [a] on are to follow. *)
Definition reading (q c a k : Z) (bytes : list Z) (s : IDEState) : Prop :=
  geometry_ok s /\ ide_get_sector s = a /\ nsector (tf s) = k /\ req_nb_sectors (xf s) = q /\
  bit (status (xf s)) DRQ_STAT = true /\ end_transfer_func (xf s) = EndRead /\
  data_ptr (xf s) = 0 /\ data_end (xf s) = 512 * c /\ take (Z.to_nat (512 * c)) (io_buffer (xf s)) = bytes.

Lemma set_xf_twice x y (s : IDEState) : set_xf x (set_xf y s) = set_xf x s.
Proof. done. Qed.

Lemma sector_read_last a s b d : geometry_ok s -> ide_get_sector s = a -> nsector (tf s) = 0 ->
  wp ide_sector_read (fun _ w => snd w = d /\ finished a (fst (fst w)) /\ kept (s, b) (fst w) /\
    bdrv_writes (xf (fst (fst w))) = bdrv_writes (xf s)) (s, b, d).
Proof.
  intros Hg Ha Hk. unfold ide_sector_read, get_drive, mod_xf. wp_go. simpl. rewrite Hk. simpl. unfold ide_transfer_stop, mod_xf. wp_go.
  by split_and!.
Qed.

Lemma sector_read_spec q a k s b d d' : geometry_ok s -> ide_get_sector s = a -> nsector (tf s) = k -> req_nb_sectors (xf s) = q ->
  buffered q s -> 0 < q -> 0 < k < 2 ^ 31 -> 0 <= a -> a + k < limit s -> a + k <= 2 ^ 31 ->
  ssd_read (Z.min q k) a d = Ret (tt, d') ->
  wp ide_sector_read (fun _ w => snd w = d' /\ limit (fst (fst w)) = limit s /\ kept (s, b) (fst w) /\
    bdrv_writes (xf (fst (fst w))) = bdrv_writes (xf s) /\
    reading q (Z.min q k) (a + Z.min q k) (k - Z.min q k) (read_sectors (bdrv_writes (xf s)) a (Z.min q k)) (fst (fst w))) (s, b, d).
Proof using Hssd Hread Hsector.
  intros Hg Ha Hk Hq [Hb Hbuf] Hq0 Hk0 Ha0 Hlim H31 Hd. unfold ide_sector_read, get_drive, mod_xf. wp_go. simpl.
  rewrite Hk, Hq, i32_id, min_if by lia. destruct (Z.eqb_spec k 0); [lia|]. set (c := Z.min q k) in *. rewrite Hread. simpl negb. cbv iota.
  change (ide_get_sector (set_xf _ s)) with (ide_get_sector s). rewrite Ha.
  pose proof (length_get_sectors (disk_bytes (bdrv_writes (xf s))) a c (Hsector _) ltac:(lia)) as Hlen. fold (read_sectors (bdrv_writes (xf s)) a c) in Hlen. wp_go. apply need_disk_spec; [done|].
  apply wp_bind. unfold store_bytes, get_xf, mod_xf. wp_go. eapply wp_need; [simpl; apply poke_fill; unfold c in *; lia|]. wp_go. simpl.
  apply (call_ssd_spec _ _ _ _ _ _ d'); [done|lia|lia|done|].
  unfold ide_transfer_start, mod_xf. wp_go. simpl.
  eapply wp_mono; [apply set_irq_quiet|]. intros ? [[s1 b1] d1] (E & Ek & i & ic & Es1). simpl in E, Ek, Es1. subst s1 d1.
  rewrite !set_xf_twice. set (x := set_irq_raised _ _).
  apply wp_bind. eapply wp_mono; [apply (set_sector_spec (a + c)); [exact Hg|]|].
  { change (limit (set_xf _ _)) with (limit s). unfold c. lia. }
  intros ? [[s2 b2] d2] (Hs2 & Eb & Ed). simpl in Hs2, Eb, Ed. subst b2 d2. unfold mod_tf. wp_go. simpl.
  destruct Hs2 as (Hget & Hg2 & Hl2 & t & -> & Hn & _). simpl in Hn. rewrite Hk in Hn.
  split; [done|]. split; [exact Hl2|]. split.
  { split; [|exact Ek]. split_and!; try done. simpl. rewrite length_fill; [done|]. unfold c in *. lia. }
  split; [done|]. split_and!; try done; simpl.
  - rewrite Hn. apply u32_id. unfold c. lia.
  - replace (Z.to_nat (512 * c)) with (length (read_sectors (bdrv_writes (xf s)) a c)) by lia. apply take_fill.
Qed.

Lemma read_run n : forall q c a k bytes s b d d', (Z.to_nat k <= n)%nat -> reading q c a k bytes s -> buffered q s -> c <= q ->
  0 < q -> 0 < c -> 0 <= k < 2 ^ 31 -> 0 <= a -> a + k < limit s -> a + k <= 2 ^ 31 ->
  run_requests ssd_read (requests q a k) d = Ret (tt, d') ->
  wp (guest_reads (256 * Z.to_nat (c + k))) (fun vs w => vs = bytes_words (bytes ++ read_sectors (bdrv_writes (xf s)) a k) /\
    snd w = d' /\ finished (a + k) (fst (fst w)) /\ kept (s, b) (fst w) /\
    bdrv_writes (xf (fst (fst w))) = bdrv_writes (xf s)) (s, b, d).
Proof using Hssd Hread Hsector.
  induction n as [|n IH]; intros q c a k bytes s b d d' Hn (Hg & Ha & Hk & Hq & Hdrq & Hf & Hp & He & Hby) Hbuf Hcq Hq0 Hc0 Hk0 Ha0 Hlim H31 Hd;
    (replace (256 * Z.to_nat (c + k))%nat with (S (256 * Z.to_nat c - 1) + 256 * Z.to_nat k)%nat by lia);
    apply guest_reads_app, reads_block; try done; try (rewrite ?Hp, ?He; destruct Hbuf; lia);
    rewrite Hf, Hp, drop_0; (replace (2 * S (256 * Z.to_nat c - 1))%nat with (Z.to_nat (512 * c)) by lia); rewrite Hby; simpl end_transfer;
    (destruct (decide (k = 0)) as [->|Hne];
      [injection Hd as <-; eapply wp_mono; [by apply (sector_read_last a)|]; intros ? w Hw; simpl; wp_go; rewrite app_nil_r, Z.add_0_r;
       unfold read_sectors, get_sectors; simpl; by rewrite app_nil_r|]);
    [lia|].
  rewrite requests_cons in Hd by lia. simpl in Hd. set (c' := Z.min q k) in *.
  unfold mbind, M_bind in Hd. destruct (ssd_read c' a d) as [[[] d1]| |] eqn:E1; [|done|done].
  eapply wp_mono; [apply (sector_read_spec q a k _ b d d1); try done; lia|].
  intros ? [[s1 b1] d2] (Ed & Hl & Hk1 & Hw1 & Hs). simpl in Ed, Hl, Hs, Hw1. subst d2.
  change (limit (with_ptr _ s)) with (limit s) in Hl. change (kept (s, b) (s1, b1)) in Hk1. fold c' in Hs.
  replace k with (c' + (k - c')) at 1 by lia.
  eapply wp_mono; [eapply (IH q c' (a + c') (k - c')); [lia|exact Hs|by eapply kept_buffered|unfold c'; lia..|exact Hd]|].
  intros vs w (-> & ? & Hfin & Hk2 & Hw2). rewrite Hw1. split.
  - unfold read_sectors. rewrite <- get_sectors_app by (unfold c'; lia). replace (c' + (k - c')) with k by lia.
    rewrite (bytes_words_app bytes (Z.to_nat (256 * c))); [done|]. rewrite <- Hby, length_take. destruct Hbuf. lia.
  - split; [done|]. split; [by replace (a + k) with (a + c' + (k - c')) by lia|]. split; [by eapply kept_trans|congruence].
Qed.

End Pio.
