(* ===== verification/IdePorts.v ===== *)
(** * The registers of the DMA engine

    A guest sets the address of the table of memory areas by bytes, by words or as a
    whole, which comes to the same. *)

From stdpp Require Import prelude.
From S2P Require Import Prelude Bytes Ide IdeDisk IdeSector IdePio.

Local Open Scope Z_scope.

Lemma merge_bit n k val a i : 0 <= n -> 0 <= k -> n + k <= 32 -> 0 <= i ->
  Z.testbit (merge_part (Z.ones n) k val a) i =
  if (k <=? i) && (i <? k + n) then Z.testbit val (i - k) && (2 <=? i) else Z.testbit a i.
Proof.
  intros Hn Hk Hnk Hi. unfold merge_part, u32. rewrite Z.lor_spec, !Z.land_spec, !Z.lnot_spec by lia.
  assert (Z.testbit 3 i = (i <? 2)) as E3.
  { change 3 with (Z.ones 2). rewrite Z.testbit_ones by lia. rewrite (proj2 (Z.leb_le 0 i)) by lia. done. }
  rewrite E3.
  assert (forall x, Z.testbit ((Z.shiftl (Z.land x (Z.ones n)) k) mod 2 ^ 32) i = (k <=? i) && (i <? k + n) && Z.testbit x (i - k)) as E.
  { intros x. destruct (Z.ltb_spec i 32).
    - rewrite Z.mod_pow2_bits_low by lia. destruct (Z.leb_spec k i); [|by rewrite Z.shiftl_spec_low].
      rewrite Z.shiftl_spec, Z.land_spec, Z.testbit_ones by lia. rewrite (proj2 (Z.leb_le 0 (i - k))) by lia.
      destruct (Z.ltb_spec (i - k) n), (Z.ltb_spec i (k + n)); try lia; simpl; by rewrite ?andb_true_r, ?andb_false_r.
    - rewrite Z.mod_pow2_bits_high by lia. destruct (Z.ltb_spec i (k + n)); [lia|]. by rewrite andb_false_r. }
  pose proof (E (-1)) as E1. rewrite Z.land_m1_l in E1. rewrite E, E1.
  destruct (Z.leb_spec k i); [rewrite Z.bits_m1 by lia|]; destruct (Z.ltb_spec i (k + n)); simpl; rewrite ?andb_true_r, ?andb_false_r, ?orb_false_r; try done.
  destruct (Z.leb_spec 2 i), (Z.ltb_spec i 2); try lia; done.
Qed.

Lemma high_bit v i : 0 <= v < 2 ^ 32 -> 32 <= i -> Z.testbit v i = false.
Proof. intros Hv Hi. rewrite <- (Z.mod_small v (2 ^ 32)) by lia. apply Z.mod_pow2_bits_high. lia. Qed.

Lemma low_cleared v i : 0 <= i -> Z.testbit (Z.land v (Z.lnot 3)) i = Z.testbit v i && (2 <=? i).
Proof.
  intros Hi. rewrite Z.land_spec, Z.lnot_spec by lia. change 3 with (Z.ones 2). rewrite Z.testbit_ones by lia. rewrite (proj2 (Z.leb_le 0 i)) by lia.
  simpl. by destruct (Z.ltb_spec i 2), (Z.leb_spec 2 i); try lia.
Qed.

Lemma merge_words v a : 0 <= v < 2 ^ 32 -> 0 <= a < 2 ^ 32 ->
  merge_part 0xffff 16 (Z.shiftr v 16) (merge_part 0xffff 0 v a) = Z.land v (Z.lnot 3).
Proof.
  intros Hv Ha. change 0xffff with (Z.ones 16). apply Z.bits_inj'. intros i Hi. rewrite low_cleared, !merge_bit by lia.
  destruct (Z.leb_spec 16 i), (Z.leb_spec 0 i), (Z.ltb_spec i (16 + 16)), (Z.ltb_spec i (0 + 16)); try lia; simpl;
    rewrite ?Z.shiftr_spec, ?Z.sub_0_r, ?Z.sub_add by lia; try done.
  by rewrite !high_bit by lia.
Qed.

Lemma merge_bytes v a : 0 <= v < 2 ^ 32 -> 0 <= a < 2 ^ 32 ->
  merge_part 0xff 24 (Z.shiftr v 24) (merge_part 0xff 16 (Z.shiftr v 16) (merge_part 0xff 8 (Z.shiftr v 8) (merge_part 0xff 0 v a))) = Z.land v (Z.lnot 3).
Proof.
  intros Hv Ha. change 0xff with (Z.ones 8). apply Z.bits_inj'. intros i Hi. rewrite low_cleared, !merge_bit by lia.
  destruct (Z.leb_spec 24 i), (Z.leb_spec 16 i), (Z.leb_spec 8 i), (Z.leb_spec 0 i), (Z.ltb_spec i (24 + 8)), (Z.ltb_spec i (16 + 8)), (Z.ltb_spec i (8 + 8)),
    (Z.ltb_spec i (0 + 8)); try lia; simpl; rewrite ?Z.shiftr_spec, ?Z.sub_0_r, ?Z.sub_add by lia; try done.
  by rewrite !high_bit by lia.
Qed.

(** The accesses that write all of the address. *)
Inductive width := ByByte | ByWord | AsLong.

Section Address.
Context {K : Disk}.

Definition guest_address (how : width) (v : Z) : M (IDEState * BMDMAState * disk) unit :=
  match how with
  | ByByte => bmdma_addr_writeb 0 v ;; bmdma_addr_writeb 1 (Z.shiftr v 8) ;; bmdma_addr_writeb 2 (Z.shiftr v 16) ;; bmdma_addr_writeb 3 (Z.shiftr v 24)
  | ByWord => bmdma_addr_writew 0 v ;; bmdma_addr_writew 2 (Z.shiftr v 16)
  | AsLong => bmdma_addr_writel v
  end.

Lemma address_spec how v s b d : 0 <= v < 2 ^ 32 -> 0 <= bm_addr b < 2 ^ 32 ->
  wp (guest_address how v) (fun _ w => w = (s, set_cur_addr (Z.land v (Z.lnot 3)) (set_bm_addr (Z.land v (Z.lnot 3)) b), d)) (s, b, d).
Proof.
  intros Hv Hb. destruct how; simpl guest_address; unfold bmdma_addr_writeb, bmdma_addr_writew, bmdma_addr_writel, set_addr_part, mod_bm; wp_go;
    cbn [fst snd bm_addr set_bm_addr set_cur_addr]; change (Z.land 0 3 * 8) with 0; change (Z.land 1 3 * 8) with 8;
    change (Z.land 2 3 * 8) with 16; change (Z.land 3 3 * 8) with 24; [| |done].
  - by rewrite (merge_bytes v _ Hv Hb).
  - by rewrite (merge_words v _ Hv Hb).
Qed.

End Address.
