(* ===== verification/IdeDma.v ===== *)
(** * Transfers by DMA

    A command of [k] sectors whose table of memory areas has room for just these
    sectors: the simulated drive gets one request for all of them, and the bytes go
    between the areas and the disk. *)

From stdpp Require Import prelude.
From S2P Require Import Prelude Bytes Ide IdeDisk IdeSector IdePio.

Local Open Scope Z_scope.

Section Dma.
Context {K : Disk} {Q : Machine} (Hssd : is_ssd = true) (Hsubmit : forall a, dma_submit a = true).

Local Abbreviation unit_state := (IDEState * BMDMAState * disk)%type.

Local Opaque prd_entry.

(** ** The table of memory areas *)

Definition prd_length (size : Z) : Z := let len := Z.land size 0xfffe in if len =? 0 then 0x10000 else len.

(** From address [a] on the memory has a table of these areas. *)
Fixpoint prd_table (m : Z -> Z) (a : Z) (l : list (Z * Z)) : Prop :=
  match l with
  | [] => False
  | (addr, n) :: l' => exists size, prd_entry m a = (addr, size) /\ prd_length size = n /\
      bit size 0x80000000 = (match l' with [] => true | _ => false end) /\
      match l' with [] => True | _ => prd_table m (a + 8) l' end
  end.

Lemma prd_length_range size : 0 < prd_length size <= 65536.
Proof.
  unfold prd_length. assert (Z.land size 65534 = Z.land size 65534 mod 2 ^ 16) as E by by rewrite <- Z.land_ones, <- Z.land_assoc.
  pose proof (Z.mod_pos_bound (Z.land size 65534) (2 ^ 16) ltac:(lia)).
  destruct (Z.eqb_spec (Z.land size 65534) 0); lia.
Qed.

Definition total (l : list (Z * Z)) : Z := foldr Z.add 0 (map snd l).

Lemma prd_total m l : forall a, prd_table m a l -> 0 < total l.
Proof.
  induction l as [|[addr n] l IH]; intros a; [done|]. intros (size & _ & <- & _ & H). pose proof (prd_length_range size).
  unfold total in *. simpl. destruct l as [|p l]; [simpl; lia|]. specialize (IH _ H). lia.
Qed.

Lemma prd_areas m l : forall a, prd_table m a l -> Forall (fun p => 0 < snd p) l.
Proof.
  induction l as [|[addr n] l IH]; intros a; [done|]. intros (size & _ & <- & _ & H). pose proof (prd_length_range size).
  constructor; [simpl; lia|]. destruct l as [|p l]; [constructor|]. by apply (IH (a + 8)).
Qed.

(** The engine has read the table; only its position, the list of areas and the size
    of the buffer have changed. *)
Definition prepared (s : IDEState) (b : BMDMAState) (d : disk) (l : list (Z * Z)) (size : Z) (w : unit_state) : Prop :=
  snd w = d /\ fst (fst w) = set_xf (set_sg l (set_io_buffer_size size (xf s))) s /\
  bm_status (snd (fst w)) = bm_status b /\ dma_cb (snd (fst w)) = dma_cb b /\ memory (snd (fst w)) = memory b /\
  bm_addr (snd (fst w)) = bm_addr b.

(** The engine is at the start of a table that ends within the page. *)
Definition table_ahead (l : list (Z * Z)) (b : BMDMAState) : Prop :=
  prd_table (memory b) (cur_addr b) l /\ cur_prd_len b = 0 /\ cur_prd_last b = false /\ bm_addr b <= cur_addr b /\
  8 * zlen l + (cur_addr b - bm_addr b) <= 4096 /\ 0 <= bm_addr b /\ bm_addr b + 4096 < 2 ^ 32.

Lemma prepare_loop_spec l : forall fuel s b d, table_ahead l b ->
  0 <= io_buffer_size (xf s) -> io_buffer_size (xf s) + total l < 2 ^ 31 -> (length l < fuel)%nat ->
  wp (dma_prepare_loop fuel) (fun more w => more = true /\ prepared s b d (sg (xf s) ++ l) (io_buffer_size (xf s) + total l) w) (s, b, d).
Proof.
  induction l as [|[addr n] l IH]; intros fuel s b d (Ht & Hlen & Hlast & Ha1 & Ha2 & Ha3 & Ha4) Hs1 Hs2 Hf; [done|].
  pose proof (prd_total _ _ _ Ht) as Hpos.
  destruct Ht as (size & He & Hn & Hbit & Ht). pose proof (prd_length_range size) as Hr. rewrite Hn in Hr.
  change (total ((addr, n) :: l)) with (n + total l) in *.
  destruct fuel as [|fuel]; [lia|]. simpl dma_prepare_loop. unfold get_bm, get_xf, mod_bm, mod_xf, qemu_sglist_add. wp_go. simpl fst. simpl snd.
  simpl length in *. rewrite Hlen, Hlast, u32_id by lia. destruct (Z.leb_spec 4096 (cur_addr b - bm_addr b)); [lia|]. simpl andb. cbv iota.
  rewrite He. simpl. wp_go. simpl. fold (prd_length size). rewrite Hn. rewrite (proj2 (Z.ltb_lt 0 n)) by lia. unfold mod_xf. wp_go. simpl.
  rewrite (u32_id (cur_addr b + 8)), Z.sub_diag by lia. change (u32 0) with 0.
  destruct l as [|p2 l].
  - change (total []) with 0 in *. rewrite i32_id by lia. destruct fuel as [|fuel]; [lia|]. simpl dma_prepare_loop. unfold get_bm, get_xf. wp_go. simpl.
    rewrite Hbit. simpl. wp_go. simpl. rewrite Z.add_0_r. split; [destruct (Z.eqb_spec (io_buffer_size (xf s) + n) 0); [lia|done]|]. by split_and!.
  - pose proof (prd_total _ _ _ Ht) as Hpos2. rewrite i32_id by lia. eapply wp_mono; [apply IH|].
    + split_and!; simpl in *; try done; lia.
    + simpl. lia.
    + simpl in *. lia.
    + simpl in *. lia.
    + intros more w [-> Hw]. split; [done|]. simpl in Hw. rewrite Z.add_assoc. rewrite <- app_assoc in Hw. exact Hw.
Qed.

Lemma prepare_spec l s b d : table_ahead l b -> total l < 2 ^ 31 ->
  wp dma_buf_prepare (fun more w => more = true /\ prepared s b d l (total l) w) (s, b, d).
Proof.
  intros Ht Hl. unfold dma_buf_prepare, qemu_sglist_init, mod_xf. wp_go. cbn [fst snd].
  eapply wp_mono; [apply (prepare_loop_spec l); try done|].
  - unfold prd_fuel. destruct Ht as (_ & _ & _ & ? & ? & _). lia.
  - intros more w [-> Hw]. split; [done|exact Hw].
Qed.

(** ** The callbacks *)

Lemma advance_none s b d : io_buffer_size (xf s) = 0 ->
  wp dma_advance (fun a w => a = ide_get_sector s /\ w = (s, b, d)) (s, b, d).
Proof. intros E. unfold dma_advance, get_drive. wp_go. simpl. rewrite E. simpl. by wp_go. Qed.

(** The transfer of [k] sectors from [a] on is under way. *)
Definition under_way (f : callback) (a k : Z) (s : IDEState) (b : BMDMAState) : Prop :=
  geometry_ok s /\ ide_get_sector s = a /\ nsector (tf s) = k /\ io_buffer_size (xf s) = 512 * k /\
  aiocb b = true /\ dma_cb b = Some f.

Definition ssd_call (f : callback) : Z -> Z -> M disk unit :=
  match f with ReadCallback => ssd_read | WriteCallback => ssd_write end.

Lemma write_cb_fuel : exists fuel, ide_write_dma_cb = write_dma_loop (S fuel).
Proof. by exists (pred prd_fuel). Qed.

(** The bytes of [k] sectors have gone from the disk to the areas, or to the disk. *)
Definition moved (f : callback) (a k : Z) (l : list (Z * Z)) (s s' : IDEState) (b b' : BMDMAState) : Prop :=
  match f with
  | ReadCallback => memory b' = scatter l (read_sectors (bdrv_writes (xf s)) a k) (memory b) /\ bdrv_writes (xf s') = bdrv_writes (xf s)
  | WriteCallback => memory b' = memory b /\ bdrv_writes (xf s') = bdrv_writes (xf s) ++ [(a, gather (memory b) l)]
  end.

Lemma sg_sectors_total l k : total l = 512 * k -> sg_sectors l = k.
Proof. intros E. unfold sg_sectors. fold (total l). rewrite E, Z.mul_comm. by apply Z.quot_mul. Qed.

Lemma length_gather m l : Forall (fun p => 0 < snd p) l -> zlen (gather m l) = total l.
Proof.
  induction 1 as [|[a n] l Hn _ IH]; [done|]. unfold gather, total in *. simpl in Hn |- *. rewrite length_app, length_mem_bytes. lia.
Qed.

Lemma bdrv_read_spec a k l s b d P : total l = 512 * k -> sg (xf s) = l ->
  (forall b', memory b' = scatter l (read_sectors (bdrv_writes (xf s)) a k) (memory b) -> aiocb b' = true ->
    bm_status b' = bm_status b -> dma_cb b' = dma_cb b -> bm_addr b' = bm_addr b -> P true (s, b', d)) ->
  wp (dma_bdrv_read a) P (s, b, d).
Proof using Hsubmit.
  intros Hl Hsg HP. unfold dma_bdrv_read, get_xf, mod_bm. wp_go. simpl. rewrite Hsubmit, Hsg, (sg_sectors_total l k Hl). by apply HP.
Qed.

Lemma bdrv_write_spec a k l s b d P : total l = 512 * k -> Forall (fun p => 0 < snd p) l -> sg (xf s) = l ->
  P true (set_xf (set_bdrv_writes (bdrv_writes (xf s) ++ [(a, gather (memory b) l)]) (xf s)) s, set_aiocb true b, d) ->
  wp (dma_bdrv_write a) P (s, b, d).
Proof using Hsubmit.
  intros Hl Hp Hsg HP. unfold dma_bdrv_write, get_bm, mod_bm, mod_xf. wp_go. simpl. rewrite Hsubmit. wp_go. simpl.
  rewrite Hsg, (sg_sectors_total l k Hl). rewrite take_ge; [exact HP|]. pose proof (length_gather (memory b) l Hp). lia.
Qed.

(** The first call of the callback starts the transfer. *)
Lemma callback_starts f l a k s b d d' : table_ahead l b -> total l = 512 * k -> geometry_ok s -> ide_get_sector s = a ->
  nsector (tf s) = k -> io_buffer_size (xf s) = 0 -> bs s = true -> 0 < k < 2 ^ 22 -> 0 <= a < 2 ^ 31 -> dma_cb b = Some f ->
  ssd_call f k a d = Ret (tt, d') ->
  wp (run_callback f 0) (fun _ w => snd w = d' /\ under_way f a k (fst (fst w)) (snd (fst w)) /\
    limit (fst (fst w)) = limit s /\ drive_kept s (fst (fst w)) /\ bm_addr (snd (fst w)) = bm_addr b /\ moved f a k l s (fst (fst w)) b (snd (fst w))) (s, b, d).
Proof using Hssd Hsubmit.
  intros Ht Hl Hg Ha Hk Hs Hb Hk0 Ha0 Hcb Hd. pose proof (prepare_spec l) as Hprep. pose proof (prd_areas _ _ _ (proj1 Ht)) as Hareas.
  destruct f; simpl run_callback; simpl ssd_call in Hd.
  - unfold ide_read_dma_cb. simpl. apply wp_bind. eapply wp_mono; [by apply advance_none|]. intros ? ? [-> ->].
    unfold get_tf, mod_xf. wp_go. simpl. rewrite Hk. destruct (Z.eqb_spec k 0); [lia|]. wp_go. simpl.
    eapply wp_mono; [apply Hprep; [done|lia]|]. intros more [[s1 b1] d1] (-> & E1 & E2 & E3 & E4 & E5 & E6). simpl in *. subst s1 d1.
    wp_go. rewrite (i32_id k), Ha by lia. apply (call_ssd_spec Hssd _ _ _ _ _ _ d'); [done|lia|lia|done|]. apply wp_bind.
    apply (bdrv_read_spec a k l); [done..|]. intros b2 F1 F2 F3 F4 F5. simpl in F1. apply wp_ret. simpl. split; [done|]. split; [|split; [done|]].
    + split_and!; try done; first [exact Hl|congruence].
    + split; [done|]. split; [congruence|]. split; [by rewrite <- E5|done].
  - destruct write_cb_fuel as [fuel ->]. cbn [write_dma_loop Z.ltb Z.compare]. apply wp_bind, wp_ret. cbv beta iota. apply wp_bind. eapply wp_mono; [by apply advance_none|]. intros ? ? [-> ->].
    unfold get_tf, mod_xf. wp_go. simpl. rewrite Hk. destruct (Z.eqb_spec k 0); [lia|]. wp_go. simpl.
    eapply wp_mono; [apply Hprep; [done|lia]|]. intros more [[s1 b1] d1] (-> & E1 & E2 & E3 & E4 & E5 & E6). simpl in *. subst s1 d1.
    wp_go. rewrite (i32_id k), Ha by lia. apply (call_ssd_spec Hssd _ _ _ _ _ _ d'); [done|lia|lia|done|]. apply wp_bind.
    apply (bdrv_write_spec a k l); [done..|]. apply wp_ret. simpl. split; [done|]. split; [|split; [done|]].
    + split_and!; try done; first [exact Hl|simpl; congruence].
    + split; [done|]. split; [done|]. split; [done|]. by rewrite <- E5.
Qed.

Lemma dmaing_cleared x : bit (Z.lor (Z.land x (Z.lnot BM_STATUS_DMAING)) BM_STATUS_INT) BM_STATUS_DMAING = false.
Proof.
  unfold bit. rewrite Z.land_lor_distr_l, <- Z.land_assoc, (Z.land_comm (Z.lnot _)), Z.land_lnot_diag, Z.land_0_r. done.
Qed.

(** The command is done, the engine has stopped, and the data stays where it is. *)
Definition ended (a : Z) (s : IDEState) (b : BMDMAState) (d : disk) (w : unit_state) : Prop :=
  snd w = d /\ finished a (fst (fst w)) /\ bit (bm_status (snd (fst w))) BM_STATUS_DMAING = false /\
  drive_kept s (fst (fst w)) /\ memory (snd (fst w)) = memory b /\ bm_addr (snd (fst w)) = bm_addr b /\
  bdrv_writes (xf (fst (fst w))) = bdrv_writes (xf s).

(** The last call of the callback ends the command. *)
Lemma callback_ends f a k s b d : under_way f a k s b -> 0 < k < 2 ^ 22 -> 0 <= a -> a + k < limit s ->
  wp (run_callback f 0) (fun _ w => ended (a + k) s b d w) (s, b, d).
Proof.
  intros (Hg & Ha & Hk & Hs & _ & _) Hk0 Ha0 Hlim.
  assert (wp (a' ← dma_advance; t ← get_tf; if nsector t =? 0 then dma_done else undef) (fun _ w => ended (a + k) s b d w) (s, b, d)) as H.
  { unfold dma_advance, get_drive. wp_go. simpl. rewrite Hs. replace (Z.shiftr (512 * k) 9) with k by (rewrite Z.shiftr_div_pow2 by lia; change (2 ^ 9) with 512; rewrite Z.mul_comm, Z.div_mul; lia).
    rewrite (proj2 (Z.ltb_lt 0 k)) by lia. rewrite Ha. wp_go. eapply wp_mono; [by apply (set_sector_spec (a + k)); [|lia]|].
    intros ? [[s1 b1] d1] (Hs1 & Eb & Ed). simpl in Hs1, Eb, Ed. subst b1 d1.
    destruct Hs1 as (Hget & Hg1 & Hl1 & t & -> & Hn & _). simpl in *.
    unfold mod_tf, get_tf. wp_go. simpl. rewrite Hn, Hk, Z.sub_diag. simpl. unfold dma_done, mod_xf. wp_go. simpl.
    eapply wp_mono; [apply set_irq_quiet|]. intros ? [[s2 b2] d2] (E & Ek & i & ic & Es). simpl in E, Ek, Es. subst s2 d2. destruct Ek as (Em & Ea & _).
    unfold dma_eot, mod_bm. wp_go. simpl. split; [done|]. split; [by split_and!|]. split; [apply dmaing_cleared|done]. }
  apply wp_bind_inv in H. destruct f; simpl run_callback.
  - unfold ide_read_dma_cb. simpl. apply wp_bind. eapply wp_mono; [exact H|]. intros a' w' H'. apply wp_bind_inv in H'. apply wp_bind.
    eapply wp_mono; [exact H'|]. intros t w'' H''. simpl in H''. by destruct (nsector t =? 0).
  - destruct write_cb_fuel as [fuel ->]. cbn [write_dma_loop Z.ltb Z.compare]. apply wp_bind, wp_ret. cbv beta iota. apply wp_bind. eapply wp_mono; [exact H|]. intros a' w' H'. apply wp_bind_inv in H'. apply wp_bind.
    eapply wp_mono; [exact H'|]. intros t w'' H''. simpl in H''. by destruct (nsector t =? 0).
Qed.

End Dma.
