(* ===== verification/IdeGuest.v ===== *)
(** * Commands of the guest

    What a guest writes to the ports to read or write [k] sectors from sector [a]
    on, with 28-bit or 48-bit addresses, and what the controller makes of it: the
    requests to the simulated drive, and where the bytes go. *)

From stdpp Require Import prelude.
From S2P Require Import Prelude Bytes Ide IdeDisk IdeSector IdePio IdePorts IdeDma.

Local Open Scope Z_scope.

(** ** The address in the registers *)

Definition max_sectors (ext : bool) : Z := if ext then 65536 else 256.
Definition max_address (ext : bool) : Z := if ext then 2 ^ 48 else 2 ^ 28.

(** The registers hold the sector and the number of sectors of a command. *)
Definition programmed (ext : bool) (a k : Z) (s : IDEState) : Prop :=
  let t := tf s in
  0 <= select t < 256 /\ bit (select t) 0x40 = true /\
  sector t = u8 a /\ lcyl t = u8 (Z.shiftr a 8) /\ hcyl t = u8 (Z.shiftr a 16) /\ nsector t = u8 k /\
  if ext then hob_sector t = u8 (Z.shiftr a 24) /\ hob_lcyl t = u8 (Z.shiftr a 32) /\ hob_hcyl t = u8 (Z.shiftr a 40) /\
    hob_nsector t = u8 (Z.shiftr k 8)
  else Z.land (select t) 0x0f = Z.shiftr a 24.

Lemma count_28 k : 1 <= k <= 256 -> (if u8 k =? 0 then 256 else u8 k) = k.
Proof. intros Hk. destruct (decide (k = 256)) as [->|]; [done|]. rewrite u8_id by lia. by destruct (Z.eqb_spec k 0); [lia|]. Qed.

Lemma count_48 k : 1 <= k <= 65536 ->
  (if (u8 k =? 0) && (u8 (Z.shiftr k 8) =? 0) then 65536
   else u32 (Z.lor (Z.shiftl (u8 (Z.shiftr k 8)) 8) (i32 (u8 k)))) = k.
Proof.
  intros Hk. destruct (decide (k = 65536)) as [->|]; [done|]. rewrite (shiftr_small k 8) by lia.
  pose proof (u8_range k). rewrite i32_id, lor_low by lia. rewrite Z.shiftr_div_pow2 by lia. change (2 ^ 8) with 256.
  rewrite <- bytes_split, u32_id by lia. destruct (Z.eqb_spec (u8 k) 0); [|done]. destruct (Z.eqb_spec (k / 256) 0); [|done].
  pose proof (bytes_split k). simpl. lia.
Qed.

Section Guest.
Context {K : Disk} {Q : Machine}.

Local Abbreviation unit_state := (IDEState * BMDMAState * disk)%type.

(** The command has its sector and its number of sectors. *)
Definition addressed (ext : bool) (a k : Z) (s : IDEState) : Prop :=
  geometry_ok s /\ ide_get_sector s = a /\ nsector (tf s) = k /\ limit s = max_address ext.

Lemma programmed_address ext a k s x : programmed ext a k s -> 0 <= a < max_address ext -> 1 <= k <= max_sectors ext ->
  let t := tf s in
  let n := if negb ext then if nsector t =? 0 then 256 else nsector t
           else if (nsector t =? 0) && (hob_nsector t =? 0) then 65536
           else u32 (Z.lor (Z.shiftl (hob_nsector t) 8) (i32 (nsector t))) in
  addressed ext a k (set_xf x (set_tf (set_nsector n (set_lba48 ext t)) s)).
Proof.
  intros (Hsel & Hbit & E1 & E2 & E3 & E4 & E5) Ha Hk t n. subst t.
  pose proof (u8_range a). pose proof (u8_range (Z.shiftr a 8)). pose proof (u8_range (Z.shiftr a 16)).
  unfold addressed, geometry_ok, limit, ide_get_sector. simpl. rewrite Hbit, E1, E2, E3.
  split; [done|]. destruct ext; simpl in Ha, Hk |- *.
  - destruct E5 as (F1 & F2 & F3 & F4). rewrite F1, F2, F3. split; [|split; [|done]].
    + pose proof (u8_range (Z.shiftr a 24)). pose proof (u8_range (Z.shiftr a 32)).
      rewrite (shiftr_small a 40) by lia. rewrite (lor_shift _ _ 32), (lor_shift _ _ 24), (lor_shift _ _ 16), (lor_shift _ _ 8) by done.
      rewrite lor_low by lia. rewrite (of_bytes_at a 40 32), (of_bytes_at a 32 24), (of_bytes_at a 24 16), (of_bytes_at a 16 8) by lia.
      symmetry. rewrite Z.shiftr_div_pow2 by lia. apply bytes_split.
    + unfold n. simpl. rewrite F4, E4. by apply count_48.
  - rewrite E5. split; [|split; [|done]].
    + rewrite (lor_shift _ _ 16), (lor_shift _ _ 8) by done.
      rewrite lor_low by lia. rewrite (of_bytes_at a 24 16), (of_bytes_at a 16 8) by lia.
      symmetry. rewrite Z.shiftr_div_pow2 by lia. apply bytes_split.
    + unfold n. simpl. rewrite E4. by apply count_28.
Qed.

Lemma transform_spec ext a k s b d : programmed ext a k s -> 0 <= a < max_address ext -> 1 <= k <= max_sectors ext ->
  wp (ide_cmd_lba48_transform ext) (fun _ w => exists t, w = (set_tf t s, b, d) /\
    forall x, addressed ext a k (set_xf x (set_tf t s))) (s, b, d).
Proof.
  intros Hp Ha Hk. pose proof (fun x => programmed_address ext a k s x Hp Ha Hk) as H. unfold ide_cmd_lba48_transform, mod_tf. wp_go.
  simpl in H |- *. eexists. split; [reflexivity|]. intros x. specialize (H x). destruct ext; simpl in *.
  - by destruct ((nsector (tf s) =? 0) && (hob_nsector (tf s) =? 0)).
  - destruct (nsector (tf s) =? 0); [done|]. destruct s as [t x0]; destruct t; exact H.
Qed.

(** ** Commands that move data through the data port *)

Context {B : BlockLayer Q} (Hssd : is_ssd = true).

(** The entry point of the simulated drive, for writing or reading. *)
Definition ssd_op (wr : bool) : Z -> Z -> M disk unit := if wr then ssd_write else ssd_read.

(** Whether a command writes, and the sectors per interrupt; [m] is
    [mult_sectors]. *)
Definition pio_call (c : command) (m : Z) : option (bool * Z) :=
  match c with
  | CmdRead => Some (false, 1)
  | CmdWrite => Some (true, 1)
  | CmdMultRead => Some (false, m)
  | CmdMultWrite => Some (true, m)
  | _ => None
  end.

Lemma start_writing ext q a k s : addressed ext a k s -> req_nb_sectors (xf s) = q ->
  bit (status (xf s)) DRQ_STAT = true -> end_transfer_func (xf s) = EndWrite -> data_ptr (xf s) = 0 ->
  data_end (xf s) = 512 * Z.min q k -> writing q a k s.
Proof. intros (? & ? & ? & ?) ? ? ? ? ?. by split_and!. Qed.

Lemma addressed_limit ext a k t s : (forall x, addressed ext a k (set_xf x (set_tf t s))) ->
  forall x, limit (set_xf x (set_tf t s)) = max_address ext.
Proof. intros H x. apply H. Qed.

(** A command is done: the drive is at sector [a], with these writes to the disk,
    and what no command changes is kept. *)
Definition done_at (a : Z) (ws : list (Z * list Z)) (p p' : IDEState * BMDMAState) : Prop :=
  finished a (fst p') /\ kept p p' /\ bdrv_writes (xf (fst p')) = ws.

Lemma read_words ext q a k s b d d' : addressed ext a k s -> req_nb_sectors (xf s) = q -> buffered q s -> 0 < q ->
  0 <= a -> 1 <= k < 2 ^ 31 -> a + k < max_address ext -> a + k <= 2 ^ 31 ->
  run_requests ssd_read (requests q a k) d = Ret (tt, d') ->
  wp ide_sector_read (fun _ w => wp (guest_reads (256 * Z.to_nat k)) (fun vs w =>
    vs = bytes_words (read_sectors (bdrv_writes (xf s)) a k) /\ snd w = d' /\ done_at (a + k) (bdrv_writes (xf s)) (s, b) (fst w)) w) (s, b, d).
Proof using B Hssd.
  intros (Hg & Ha & Hk & Hl) Hq Hbuf Hq0 Ha0 Hk0 Hlim H31 Hd. rewrite requests_cons in Hd by lia. simpl in Hd. set (c := Z.min q k) in *.
  unfold mbind, M_bind in Hd. destruct (ssd_read c a d) as [[[] d1]| |] eqn:E1; [|done|done].
  eapply wp_mono; [apply (sector_read_spec Hssd reads_work sector_length q a k s b d d1); try done; lia|].
  intros ? [[s1 b1] d2] (Ed & Hl1 & Hk1 & Hw1 & Hs). simpl in Ed, Hl1, Hs, Hw1. subst d2. fold c in Hs.
  replace k with (c + (k - c)) at 1 by lia.
  eapply wp_mono; [eapply (read_run Hssd reads_work sector_length (Z.to_nat (k - c)) q c (a + c) (k - c) _ s1 b1 d1 d');
    [lia|exact Hs|by eapply kept_buffered|unfold c; lia..|exact Hd]|].
  intros ? w (-> & ? & Hf & Hk2 & Hw2). rewrite Hw1 in *. split; [|split; [done|]].
  - unfold read_sectors. rewrite <- get_sectors_app by (unfold c; lia). by replace (c + (k - c)) with k by lia.
  - split; [by replace (a + k) with (a + c + (k - c)) by lia|]. split; [by eapply kept_trans|done].
Qed.

Lemma buffered_less q q' s : buffered q s -> q' <= q -> buffered q' s.
Proof. intros [? ?] ?. split; [done|lia]. Qed.

Lemma pio_call_count c m wr q : pio_call c m = Some (wr, q) -> 0 < q -> 0 <= m <= MAX_MULT_SECTORS -> q <= MAX_MULT_SECTORS.
Proof. unfold MAX_MULT_SECTORS. destruct c; simpl; intros [=]; subst; lia. Qed.

(** The commands that read, and the words the guest reads. *)
Lemma command_read op c ext q a k s b d d' : opcode op = (c, ext) -> pio_call c (mult_sectors (xf s)) = Some (false, q) ->
  programmed ext a k s -> buffered q s -> 0 < q -> 0 <= a -> 1 <= k <= max_sectors ext ->
  a + k < max_address ext -> a + k <= 2 ^ 31 -> run_requests ssd_read (requests q a k) d = Ret (tt, d') ->
  wp (ide_command op ;; guest_reads (256 * Z.to_nat k)) (fun vs w =>
    vs = bytes_words (read_sectors (bdrv_writes (xf s)) a k) /\ snd w = d' /\ done_at (a + k) (bdrv_writes (xf s)) (s, b) (fst w)) (s, b, d).
Proof using B Hssd.
  intros Hop Hc Hp Hbuf Hq Ha Hk Hlim H31 Hd. assert (k < 2 ^ 31) as Hk31 by (destruct ext; simpl in Hk; lia).
  pose proof (transform_spec ext a k s b d Hp ltac:(lia) Hk) as Ht.
  apply wp_bind. unfold ide_command, get_drive. apply wp_bind, wp_gets. cbv beta. rewrite Hop. simpl fst.
  destruct c; try done; injection Hc as <-; rewrite ?(proj1 Hbuf), ?(proj2 (Z.eqb_neq (mult_sectors (xf s)) 0)) by lia; simpl negb; cbv iota; apply wp_bind;
    (eapply wp_mono; [exact Ht|]); intros ? ? (t & -> & Hadd); unfold mod_xf; wp_go; simpl.
  - pose proof (read_words ext 1 a k (set_xf (set_req_nb_sectors 1 (xf s)) (set_tf t s)) b d d' (Hadd _) eq_refl Hbuf) as H. simpl in H. apply H; done || lia.
  - pose proof (read_words ext (mult_sectors (xf s)) a k (set_xf (set_req_nb_sectors (mult_sectors (xf s)) (xf s)) (set_tf t s)) b d d' (Hadd _) eq_refl Hbuf) as H.
    simpl in H. apply H; done || lia.
Qed.

(** The commands that write, and the words the guest writes. *)
Lemma command_write op c ext q a k vs s b d d' : opcode op = (c, ext) -> pio_call c (mult_sectors (xf s)) = Some (true, q) ->
  programmed ext a k s -> buffered q s -> zlen vs = 256 * k -> 0 < q -> 0 <= a -> 1 <= k <= max_sectors ext ->
  a + k < max_address ext -> a + k <= 2 ^ 31 -> run_requests ssd_write (requests q a k) d = Ret (tt, d') ->
  wp (ide_command op ;; guest_writes vs) (fun _ w => snd w = d' /\
    done_at (a + k) (bdrv_writes (xf s) ++ pieces (requests q a k) (words_bytes vs)) (s, b) (fst w)) (s, b, d).
Proof using B Hssd.
  intros Hop Hc Hp Hbuf Hvs Hq Ha Hk Hlim H31 Hd. assert (k < 2 ^ 31) as Hk31 by (destruct ext; simpl in Hk; lia).
  pose proof (transform_spec ext a k s b d Hp ltac:(lia) Hk) as Ht.
  apply wp_bind. unfold ide_command, get_drive. apply wp_bind, wp_gets. cbv beta. rewrite Hop. simpl fst.
  destruct c; try done; injection Hc as <-; rewrite ?(proj2 (Z.eqb_neq (mult_sectors (xf s)) 0)) by lia; apply wp_bind;
    (eapply wp_mono; [exact Ht|]); intros ? ? (t & -> & Hadd); unfold ide_transfer_start, mod_xf, get_tf; wp_go; simpl;
    pose proof (addressed_limit ext a k t s Hadd) as Hl.
  - match goal with |- wp _ _ (?s1, _, _) =>
      pose proof (write_run Hssd writes_work (Z.to_nat k) 1 a k vs s1 b d d' ltac:(lia)) as H; specialize (Hl (xf s1)); change (limit _) with (limit s1) in Hl end.
    eapply wp_mono; [apply H; try done; try lia; apply (start_writing ext); try done; [apply (Hadd _)|simpl; lia]|]. by intros ? w (? & ? & ? & ?).
  - pose proof (proj1 (proj2 (proj2 (Hadd (xf s))))) as Hn. simpl in Hn. rewrite Hn, i32_id, min_if by lia.
    match goal with |- wp _ _ (?s1, _, _) =>
      pose proof (write_run Hssd writes_work (Z.to_nat k) (mult_sectors (xf s)) a k vs s1 b d d' ltac:(lia)) as H; specialize (Hl (xf s1)); change (limit _) with (limit s1) in Hl end.
    eapply wp_mono; [apply H; try done; try lia; apply (start_writing ext); try done; apply (Hadd _)|]. by intros ? w (? & ? & ? & ?).
Qed.

(** ** Commands that move data by DMA *)

Definition dma_call (c : command) : option callback :=
  match c with
  | CmdReadDma => Some ReadCallback
  | CmdWriteDma => Some WriteCallback
  | _ => None
  end.

(** The engine is stopped, and has been given a table of these areas. *)
Definition table_given (l : list (Z * Z)) (b : BMDMAState) : Prop :=
  prd_table (memory b) (bm_addr b) l /\ cur_addr b = bm_addr b /\ bit (bm_status b) BM_STATUS_DMAING = false /\
  8 * zlen l <= 4096 /\ 0 <= bm_addr b /\ bm_addr b + 4096 < 2 ^ 32.

(** The transfer waits for the engine. *)
Definition waiting (f : callback) (a k : Z) (l : list (Z * Z)) (s : IDEState) (b : BMDMAState) : Prop :=
  table_ahead l b /\ geometry_ok s /\ ide_get_sector s = a /\ nsector (tf s) = k /\ io_buffer_size (xf s) = 0 /\
  dma_cb b = Some f /\ bit (bm_status b) BM_STATUS_DMAING = false /\ bs s = true.

Lemma dma_start_spec f a k l s b d : table_given l b -> geometry_ok s -> ide_get_sector s = a -> nsector (tf s) = k ->
  io_buffer_size (xf s) = 0 -> bs s = true ->
  wp (ide_dma_start f) (fun _ w => snd w = d /\ fst (fst w) = s /\ memory (snd (fst w)) = memory b /\ bm_addr (snd (fst w)) = bm_addr b /\ waiting f a k l s (snd (fst w))) (s, b, d).
Proof.
  intros (Ht & Hc & Hs & Hl & H0 & H1) Hg Ha Hk Hio Hb. unfold ide_dma_start, get_drive, mod_bm, get_bm. wp_go. simpl. rewrite Hs. wp_go.
  unfold waiting, table_ahead. simpl. rewrite Hc. split_and!; try done; lia.
Qed.

Lemma command_dma op c ext f a k l s b d : opcode op = (c, ext) -> dma_call c = Some f -> table_given l b ->
  programmed ext a k s -> bs s = true -> 0 <= a < max_address ext -> 1 <= k <= max_sectors ext ->
  wp (ide_command op) (fun _ w => snd w = d /\ limit (fst (fst w)) = max_address ext /\ waiting f a k l (fst (fst w)) (snd (fst w)) /\
    drive_kept s (fst (fst w)) /\ memory (snd (fst w)) = memory b /\ bm_addr (snd (fst w)) = bm_addr b /\
    bdrv_writes (xf (fst (fst w))) = bdrv_writes (xf s)) (s, b, d).
Proof.
  intros Hop Hc Htab Hp Hbs Ha Hk. pose proof (transform_spec ext a k s b d Hp Ha Hk) as Ht.
  unfold ide_command, get_drive. apply wp_bind, wp_gets. cbv beta. rewrite Hop. simpl fst.
  destruct c; try done; injection Hc as <-; rewrite Hbs; simpl negb; cbv iota; apply wp_bind;
    (eapply wp_mono; [exact Ht|]); intros ? ? (t & -> & Hadd).
  - unfold ide_sector_read_dma, mod_xf. wp_go. simpl. match goal with |- wp _ _ (?s1, _, _) => destruct (Hadd (xf s1)) as (? & ? & ? & ?) end.
    eapply wp_mono; [by apply (dma_start_spec ReadCallback a k l)|]. intros ? [[s2 b2] d2] (E1 & E2 & Em & Ea & Hw). simpl in *. by subst.
  - unfold ide_sector_write_dma, mod_xf. wp_go. simpl. match goal with |- wp _ _ (?s1, _, _) => destruct (Hadd (xf s1)) as (? & ? & ? & ?) end.
    eapply wp_mono; [by apply (dma_start_spec WriteCallback a k l)|]. intros ? [[s2 b2] d2] (E1 & E2 & Em & Ea & Hw). simpl in *. subst. wp_go. done.
Qed.

(** The command is done, the engine has stopped, and the bytes are where they go. *)
Definition dma_done_at (f : callback) (a k : Z) (l : list (Z * Z)) (p p' : IDEState * BMDMAState) : Prop :=
  finished (a + k) (fst p') /\ drive_kept (fst p) (fst p') /\ bit (bm_status (snd p')) BM_STATUS_DMAING = false /\
  moved f a k l (fst p) (fst p') (snd p) (snd p').

Lemma drive_kept_trans s1 s2 s3 : drive_kept s1 s2 -> drive_kept s2 s3 -> drive_kept s1 s3.
Proof. unfold drive_kept. intuition congruence. Qed.

Lemma moved_eq f a k l s1 s2 s b1 b2 b : memory b2 = memory b1 -> bdrv_writes (xf s2) = bdrv_writes (xf s1) ->
  moved f a k l s2 s b2 b -> moved f a k l s1 s b1 b.
Proof. intros E1 E2. unfold moved. by rewrite E1, E2. Qed.

(** The engine is started, and the transfer completes. *)
Lemma engine_runs f a k l s b d d' : waiting f a k l s b -> total l = 512 * k -> 1 <= k < 2 ^ 22 -> 0 <= a < 2 ^ 31 -> a + k < limit s ->
  ssd_call f k a d = Ret (tt, d') ->
  wp (bmdma_cmd_writeb BM_CMD_START ;; run_callback f 0) (fun _ w => snd w = d' /\ bm_addr (snd (fst w)) = bm_addr b /\ dma_done_at f a k l (s, b) (fst w)) (s, b, d).
Proof using B Hssd.
  intros (Ht & Hg & Ha & Hk & Hio & Hcb & Hs & Hb) Hl Hk0 Ha0 Hlim Hd. apply wp_bind. unfold bmdma_cmd_writeb. simpl negb. cbv iota.
  unfold get_bm, mod_bm. wp_go. simpl. rewrite Hs, Hcb. wp_go. simpl.
  eapply wp_mono; [apply (callback_starts Hssd transfers_work f l a k _ _ d d'); try done; lia|].
  intros ? [[s1 b1] d1] (E & Hu & El & Hk1 & Ea & Hm). simpl in E, Hu, El, Hk1, Ea, Hm. subst d1. cbv beta. wp_go. cbv beta. simpl fst. simpl snd.
  eapply wp_mono; [apply (callback_ends f a k); [exact Hu|lia|lia|simpl; lia]|]. intros ? w (? & Hf & ? & Hk2 & E1 & E3 & E2). simpl in E1, E3.
  split; [done|]. split; [congruence|]. split; [done|]. split; [by eapply drive_kept_trans|]. split; [done|].
  unfold moved in *. simpl in *. destruct f; by rewrite E1, E2.
Qed.

(** ** The ports *)

(** The guest selects drive 0 with linear addresses and writes the registers; the
    registers of a 48-bit command are written twice, the high bytes first. *)
Definition guest_registers (ext : bool) (a k : Z) : M (controller * disk) unit :=
  ide_ioport_write 6 (if ext then 0xe0 else Z.lor 0xe0 (Z.shiftr a 24)) ;;
  (if ext then
     ide_ioport_write 2 (u8 (Z.shiftr k 8)) ;; ide_ioport_write 3 (u8 (Z.shiftr a 24)) ;;
     ide_ioport_write 4 (u8 (Z.shiftr a 32)) ;; ide_ioport_write 5 (u8 (Z.shiftr a 40))
   else mret tt) ;;
  ide_ioport_write 2 (u8 k) ;; ide_ioport_write 3 (u8 a) ;;
  ide_ioport_write 4 (u8 (Z.shiftr a 8)) ;; ide_ioport_write 5 (u8 (Z.shiftr a 16)).

(** A command, and the words of its data. *)
Definition guest_pio_write (op : Z) (ext : bool) (a k : Z) (vs : list Z) : M (controller * disk) unit :=
  guest_registers ext a k ;;
  ide_ioport_write 7 op ;;
  on_current (guest_writes vs).

Definition guest_pio_read (op : Z) (ext : bool) (a k : Z) : M (controller * disk) (list Z) :=
  guest_registers ext a k ;;
  ide_ioport_write 7 op ;;
  on_current (guest_reads (256 * Z.to_nat k)).

(** A command whose data is moved by the engine, with its table at [p], an address that
    is written by parts or as a whole; the last step is the call of the block layer at the end of the transfer. *)
Definition guest_dma (how : width) (op : Z) (f : callback) (ext : bool) (a k p : Z) : M (controller * disk) unit :=
  on_current (guest_address how p) ;;
  guest_registers ext a k ;;
  ide_ioport_write 7 op ;;
  on_current (bmdma_cmd_writeb BM_CMD_START ;; run_callback f 0).

(** Neither the selected drive nor drive 0 is at work, and drive 0 is a disk. *)
Definition ready (c : controller) : Prop := busy (current c) = false /\ busy (drive_0 c) = false /\ bs (drive_0 c) = true.

(** A guest that sets and clears the reset bit gets a controller that is ready, and
    reads the signature of a disk. *)
Lemma reset_ready c d : bs (drive_0 c) = true -> cur_drive c = false -> bit (cmd (drive_0 c)) IDE_CMD_RESET = false ->
  wp (ide_cmd_write IDE_CMD_RESET ;; ide_cmd_write 0) (fun _ w => snd w = d /\ ready (fst w) /\
    map (fun n => ide_ioport_read n (fst w)) [2; 3; 4; 5; 7] = [1; 1; 0; 0; Z.lor READY_STAT SEEK_STAT]) (c, d).
Proof.
  intros Hb Hc Hr. unfold ide_cmd_write. wp_go. simpl. rewrite Hr. simpl. unfold ready, current, ide_ioport_read, ide_status_read, no_selected, no_drive, current.
  unfold ide_set_signature. simpl. rewrite !Hb, Hc. by split_and!.
Qed.

Lemma select_linear x : 0 <= x < 16 ->
  let v := Z.land (u8 (Z.lor (Z.land (Z.lor 0xe0 x) (Z.lnot 0x10)) 0xa0)) (Z.lnot (Z.shiftl 1 7)) in
  0 <= v < 256 /\ bit v 0x40 = true /\ Z.land v 0x0f = x /\ bit (Z.shiftr (Z.lor 0xe0 x) 4) 1 = false.
Proof.
  intros Hx. assert (x = 0 \/ x = 1 \/ x = 2 \/ x = 3 \/ x = 4 \/ x = 5 \/ x = 6 \/ x = 7 \/ x = 8 \/ x = 9 \/ x = 10 \/
    x = 11 \/ x = 12 \/ x = 13 \/ x = 14 \/ x = 15) by lia. by destruct_or!; subst x; vm_compute; split_and!.
Qed.

Lemma wp_on_current {A} (m : M unit_state A) P c d :
  wp m (fun a w => P a (if cur_drive c then Controller (drive_0 c) (fst (fst w)) true (snd (fst w))
    else Controller (fst (fst w)) (drive_1 c) false (snd (fst w)), snd w)) (current c, bmdma c, d) ->
  wp (on_current m) P (c, d).
Proof. unfold wp, on_current. by destruct (m _) as [[a [[s b] d']]| |]. Qed.

(** What a write to one of the ports 2 to 5 does to the registers. *)
Definition port_write (n : Z) (v : Z) (t : task_file) : task_file :=
  let t := set_select (Z.land (select t) (Z.lnot (Z.shiftl 1 7))) t in
  match n with
  | 2 => set_nsector v (set_hob_nsector (u8 (nsector t)) t)
  | 3 => set_sector (u8 v) (set_hob_sector (sector t) t)
  | 4 => set_lcyl (u8 v) (set_hob_lcyl (lcyl t) t)
  | _ => set_hcyl (u8 v) (set_hob_hcyl (hcyl t) t)
  end.

(** Drive 0 is selected; the registers of both drives are as given. *)
Definition selected (c : controller) (t t' : task_file) : controller :=
  Controller (set_tf t (drive_0 c)) (set_tf t' (drive_1 c)) false (bmdma c).

Lemma port_spec n v c t t' d P : n = 2 \/ n = 3 \/ n = 4 \/ n = 5 -> busy (drive_0 c) = false ->
  P tt (selected c (port_write n v t) (port_write n v t'), d) -> wp (ide_ioport_write n v) P (selected c t t', d).
Proof.
  intros Hn Hb HP. assert (busy (current (selected c t t')) = false) as Hb' by done.
  destruct_or! Hn; subst n; unfold ide_ioport_write, ide_clear_hob, both; apply wp_bind, wp_gets; cbv beta;
    simpl fst; rewrite Hb'; simpl; by wp_go.
Qed.

Lemma u8_u8 x : u8 (u8 x) = u8 x.
Proof. apply u8_id, u8_range. Qed.

Lemma hob_cleared x : Z.land (Z.land x (Z.lnot (Z.shiftl 1 7))) (Z.lnot (Z.shiftl 1 7)) = Z.land x (Z.lnot (Z.shiftl 1 7)).
Proof. by rewrite <- Z.land_assoc, Z.land_diag. Qed.

(** Steps over a write to a port, with the registers as values. *)
Ltac port_step :=
  lazymatch goal with
  | |- wp (ide_ioport_write _ _) _ _ => apply port_spec; [lia|done|];
      cbv beta iota zeta delta [port_write select nsector sector lcyl hcyl hob_nsector hob_sector hob_lcyl hob_hcyl feature hob_feature lba48
        set_select set_nsector set_sector set_lcyl set_hcyl set_hob_nsector set_hob_sector set_hob_lcyl set_hob_hcyl]
  | |- wp (mret _) _ _ => apply wp_ret; cbv beta
  | |- wp (_ ≫= _) _ _ => apply wp_bind
  end.

(** The registers are written, and nothing else has changed. *)
Lemma registers_spec ext a k c d : ready c -> 0 <= a < max_address ext ->
  wp (guest_registers ext a k) (fun _ w => exists t t', programmed ext a k (set_tf t (drive_0 c)) /\
    w = (selected c t t', d)) (c, d).
Proof.
  intros (Hb & Hb0 & _) Ha.
  assert (0 <= (if ext then 0 else Z.shiftr a 24) < 16) as Hx.
  { destruct ext; [lia|]. rewrite Z.shiftr_div_pow2 by lia. simpl in Ha. split; [apply Z.div_pos; lia|apply Z.div_lt_upper_bound; lia]. }
  unfold guest_registers.
  replace (if ext then 0xe0 else Z.lor 0xe0 (Z.shiftr a 24)) with (Z.lor 0xe0 (if ext then 0 else Z.shiftr a 24)) by by destruct ext.
  destruct (select_linear _ Hx) as (Hr & Hlin & Hlow & H0). apply wp_bind. unfold ide_ioport_write at 1.
  apply wp_bind, wp_gets. cbv beta. simpl fst. rewrite Hb. simpl andb. cbv iota. apply wp_modify. rewrite H0.
  fold (selected c (set_select (u8 (Z.lor (Z.land (Z.lor 0xe0 (if ext then 0 else Z.shiftr a 24)) (Z.lnot 0x10)) 0xa0)) (tf (drive_0 c)))
    (set_select (u8 (Z.lor (Z.lor (Z.lor 0xe0 (if ext then 0 else Z.shiftr a 24)) 0x10) 0xa0)) (tf (drive_1 c)))).
  destruct (tf (drive_0 c)) as [f n s l h hf hn hs hl hh e b]. destruct (tf (drive_1 c)) as [f' n' s' l' h' hf' hn' hs' hl' hh' e' b']. set (sel := u8 (Z.lor (Z.land _ _) _)) in *. set (sel' := u8 (Z.lor (Z.lor _ _) _)).
  clearbody sel sel'. destruct ext; repeat port_step;
    (eexists _, _; split; [|reflexivity]); unfold programmed; cbn [tf set_tf select nsector sector lcyl hcyl hob_nsector hob_sector hob_lcyl hob_hcyl]; rewrite !hob_cleared, ?u8_u8; split_and!; first [done|apply Hr].
Qed.

Lemma ready_busy c t t' : ready c -> busy (current (selected c t t')) = false.
Proof. by intros (_ & ? & _). Qed.

(** The command is given to drive 0. *)
Lemma port_command op c t t' d P : ready c ->
  wp (ide_command op) (fun _ w => P tt (Controller (fst (fst w)) (set_tf t' (drive_1 c)) false (snd (fst w)), snd w))
     (set_tf t (drive_0 c), bmdma c, d) ->
  wp (ide_ioport_write 7 op) P (selected c t t', d).
Proof.
  intros Hr H. unfold ide_ioport_write. apply wp_bind, wp_gets. cbv beta. simpl fst. rewrite ready_busy by done. simpl.
  apply wp_on_current. eapply wp_mono; [exact H|]. by intros [] w Hw.
Qed.

(** Drive 0 is selected; what it and the engine were is not lost. *)
Definition unit_0 (c : controller) : IDEState * BMDMAState := (drive_0 c, bmdma c).

(** A guest reads or writes through the data port. *)
Lemma guest_read_spec op o ext q a k c d d' : opcode op = (o, ext) -> pio_call o (mult_sectors (xf (drive_0 c))) = Some (false, q) ->
  ready c -> buffered q (drive_0 c) -> 0 < q -> 0 <= a -> 1 <= k <= max_sectors ext -> a + k < max_address ext -> a + k <= 2 ^ 31 ->
  run_requests ssd_read (requests q a k) d = Ret (tt, d') ->
  wp (guest_pio_read op ext a k) (fun vs w => vs = bytes_words (read_sectors (bdrv_writes (xf (drive_0 c))) a k) /\ snd w = d' /\
    cur_drive (fst w) = false /\ done_at (a + k) (bdrv_writes (xf (drive_0 c))) (unit_0 c) (unit_0 (fst w))) (c, d).
Proof using B Hssd.
  intros Hop Hc Hr Hbuf Hq Ha Hk Hlim H31 Hd. unfold guest_pio_read. apply wp_bind.
  eapply wp_mono; [apply (registers_spec ext a k); [done|lia]|]. intros ? ? (t & t' & Hp & ->). apply wp_bind, port_command; [done|].
  pose proof (command_read op o ext q a k (set_tf t (drive_0 c)) (bmdma c) d d' Hop Hc Hp Hbuf Hq Ha Hk Hlim H31 Hd) as H.
  apply wp_bind_inv in H. eapply wp_mono; [exact H|]. intros ? [[s1 b1] d1] Hw. apply wp_on_current. eapply wp_mono; [exact Hw|].
  by intros vs w' (? & ? & ? & ? & ?).
Qed.

Lemma guest_write_spec op o ext q a k vs c d d' : opcode op = (o, ext) -> pio_call o (mult_sectors (xf (drive_0 c))) = Some (true, q) ->
  ready c -> buffered q (drive_0 c) -> zlen vs = 256 * k -> 0 < q -> 0 <= a -> 1 <= k <= max_sectors ext -> a + k < max_address ext ->
  a + k <= 2 ^ 31 -> run_requests ssd_write (requests q a k) d = Ret (tt, d') ->
  wp (guest_pio_write op ext a k vs) (fun _ w => snd w = d' /\ cur_drive (fst w) = false /\
    done_at (a + k) (bdrv_writes (xf (drive_0 c)) ++ pieces (requests q a k) (words_bytes vs)) (unit_0 c) (unit_0 (fst w))) (c, d).
Proof using B Hssd.
  intros Hop Hc Hr Hbuf Hvs Hq Ha Hk Hlim H31 Hd. unfold guest_pio_write. apply wp_bind.
  eapply wp_mono; [apply (registers_spec ext a k); [done|lia]|]. intros ? ? (t & t' & Hp & ->). apply wp_bind, port_command; [done|].
  pose proof (command_write op o ext q a k vs (set_tf t (drive_0 c)) (bmdma c) d d' Hop Hc Hp Hbuf Hvs Hq Ha Hk Hlim H31 Hd) as H.
  apply wp_bind_inv in H. eapply wp_mono; [exact H|]. intros ? [[s1 b1] d1] Hw. apply wp_on_current. eapply wp_mono; [exact Hw|].
  by intros ? w' (? & ? & ? & ?).
Qed.

(** A guest reads or writes by DMA. *)
Lemma guest_dma_spec how op o ext f a k p l c d d' : opcode op = (o, ext) -> dma_call o = Some f -> ready c ->
  bit (bm_status (bmdma c)) BM_STATUS_DMAING = false -> 0 <= bm_addr (bmdma c) < 2 ^ 32 -> prd_table (memory (bmdma c)) p l -> Z.land p 3 = 0 -> 0 <= p -> p + 4096 < 2 ^ 32 ->
  8 * zlen l <= 4096 -> total l = 512 * k ->
  0 <= a -> 1 <= k <= max_sectors ext -> a + k < max_address ext -> a < 2 ^ 31 -> ssd_call f k a d = Ret (tt, d') ->
  wp (guest_dma how op f ext a k p) (fun _ w => snd w = d' /\ cur_drive (fst w) = false /\ bm_addr (bmdma (fst w)) = p /\
    dma_done_at f a k l (unit_0 c) (unit_0 (fst w))) (c, d).
Proof using B Hssd.
  intros Hop Hc Hr Hs Hba Hp H3 Hp0 Hp1 Hl Htot Ha Hk Hlim H31 Hd. unfold guest_dma. apply wp_bind, wp_on_current.
  eapply wp_mono; [apply (address_spec how p); lia|]. intros ? ? ->. simpl.
  assert (Z.land p (Z.lnot 3) = p) as ->.
  { rewrite <- Z.ldiff_land. rewrite <- (Z.lor_ldiff_and p 3) at 2. by rewrite H3, Z.lor_0_r. }
  set (c1 := if cur_drive c then _ else _). assert (ready c1 /\ drive_0 c1 = drive_0 c /\ bmdma c1 = set_cur_addr p (set_bm_addr p (bmdma c))) as (Hr1 & E0 & Eb).
  { unfold c1. destruct Hr as (? & ? & ?). unfold ready, current in *. by destruct (cur_drive c). }
  apply wp_bind. eapply wp_mono; [apply (registers_spec ext a k c1 d Hr1); lia|]. intros ? ? (t & t' & Hpr & ->). apply wp_bind, port_command; [done|].
  eapply wp_mono; [apply (command_dma op o ext f a k l); try done; [|apply Hr1|lia]|].
  { rewrite Eb. by split_and!. }
  intros ? [[s1 b1] d1] (Ed & El & Hw & Hk1 & Em & Eadd & Ew). simpl in Ed, El, Hw, Hk1, Em, Eadd, Ew. subst d1. apply wp_on_current. simpl.
  eapply wp_mono; [apply (engine_runs f a k l s1 b1 d d' Hw Htot); try done; rewrite ?El; destruct ext; simpl in *; lia|].
  intros ? w' (? & Ea1 & Hf & Hk2 & ? & Hm). rewrite Eb in Eadd. split; [done|]. split; [done|]. split; [simpl in *; congruence|]. split; [done|].
  rewrite E0 in Hk1, Ew. rewrite Eb in Em.
  split; [by eapply drive_kept_trans|]. split; [done|]. by eapply moved_eq.
Qed.

End Guest.
