(* ===== verification/IdeIdentify.v ===== *)
(** * The identification of a drive

    A guest that asks drive 0 to identify itself, and one that sets the transfer
    mode: the words that the guest reads through the data port. *)

From stdpp Require Import prelude.
From S2P Require Import Prelude Bytes Identify Ide IdeDisk IdeSector IdePio IdeDma IdeGuest.

Local Open Scope Z_scope.

(** ** The words *)

(** What a disk tells: what it has told before, or what it is. *)
Definition told (s : IDEState) : list Z :=
  let i := ident s in
  if identify_set i then identify_data i
  else identify_words (cylinders i) (heads s) (sectors s) (nb_sectors s) (mult_sectors (xf s)) (drive_serial_str i).

Definition are_words (ws : list Z) : Prop := length ws = 256%nat /\ Forall (fun w => 0 <= w < 2 ^ 16) ws.

Lemma put_all_words t : forall p, Forall (fun w => 0 <= w < 2 ^ 16) p -> Forall (fun w => 0 <= w < 2 ^ 16) (put_all t p).
Proof.
  induction t as [|[i v] t IH]; intros p Hp; [done|]. unfold put_all in *. simpl. apply IH. unfold put_le16. simpl.
  apply Forall_insert; [done|]. by apply Z.mod_pos_bound.
Qed.

Lemma identify_are_words c h s nb m str : are_words (identify_words c h s nb m str).
Proof.
  split; [apply length_identify|]. apply put_all_words. apply Forall_replicate. lia.
Qed.

Lemma told_words s : (identify_set (ident s) = true -> are_words (identify_data (ident s))) -> are_words (told s).
Proof. intros H. unfold told. destruct (identify_set (ident s)); [by apply H|apply identify_are_words]. Qed.

Section Identify.
Context {K : Disk} {Q : Machine}.

Local Abbreviation unit_state := (IDEState * BMDMAState * disk)%type.

(** ** The command *)

(** The words are in the buffer, and are what the drive will tell from now on. *)
Definition telling (ws : list Z) (s s' : IDEState) : Prop :=
  exists t x i, s' = set_ident i (set_xf x (set_tf t s)) /\ identify_set i = true /\ identify_data i = ws /\
    bit (status x) DRQ_STAT = true /\ end_transfer_func x = EndStop /\ data_ptr x = 0 /\ data_end x = 512 /\
    io_buffer x = fill (words_bytes ws) (io_buffer (xf s)) /\ status x = Z.lor (Z.lor READY_STAT SEEK_STAT) DRQ_STAT.

Lemma store_words ws s b d P : are_words ws -> 512 <= zlen (io_buffer (xf s)) ->
  P tt (set_xf (set_io_buffer (fill (words_bytes ws) (io_buffer (xf s))) (xf s)) s, b, d) ->
  wp (store_bytes 0 (words_bytes ws)) P (s, b, d).
Proof.
  intros [Hl _] Hb HP. unfold store_bytes, get_xf, mod_xf. wp_go. eapply wp_need; [apply poke_fill; rewrite length_words_bytes; simpl; lia|]. by wp_go.
Qed.

Lemma identify_spec t s b d : bs s = true -> is_cf s = false -> 512 <= zlen (io_buffer (xf s)) -> are_words (told s) ->
  wp (ide_command 0xec) (fun _ w => snd w = d /\ telling (told s) s (fst (fst w))) (set_tf t s, b, d).
Proof.
  intros Hbs Hcf Hbuf Hw. unfold ide_command, get_drive. apply wp_bind, wp_gets. cbv beta. simpl opcode. cbv iota. simpl fst.
  change (bs (set_tf t s)) with (bs s). change (is_cf (set_tf t s)) with (is_cf s). rewrite Hbs, Hcf.
  apply wp_bind, wp_bind. apply wp_mono with (P := fun _ w => exists x i, w = (set_ident i (set_xf x (set_tf t s)), b, d) /\
    identify_set i = true /\ identify_data i = told s /\ io_buffer x = fill (words_bytes (told s)) (io_buffer (xf s))).
  - unfold ide_identify, get_drive, mod_id. apply wp_bind, wp_gets. cbv beta zeta. simpl fst. change (ident (set_tf t s)) with (ident s).
    unfold told in *. cbv zeta in Hw. destruct (identify_set (ident s)) eqn:Es.
    + apply store_words; [done|done|]. exists (set_io_buffer (fill (words_bytes (identify_data (ident s))) (io_buffer (xf s))) (xf s)), (ident s). by destruct s.
    + apply wp_bind, store_words; [exact Hw|done|]. wp_go. eexists _, _. by split.
  - intros ? ? (x & i & -> & E1 & E2 & E3). unfold set_ready, ide_transfer_start, mod_xf. wp_go. cbn [fst snd].
    eapply wp_mono; [apply set_irq_quiet|]. intros ? [[s1 b1] d1] (E & _ & ir & ic & Es1). cbn [fst snd] in E, Es1. subst s1 d1. split; [done|].
    exists t, (set_irq_raised ir (set_irq_count ic (set_status (Z.lor (Z.lor READY_STAT SEEK_STAT) DRQ_STAT)
      (set_data_end 512 (set_data_ptr 0 (set_end_transfer_func EndStop (set_status (Z.lor READY_STAT SEEK_STAT) x))))))), i.
    by split_and!.
Qed.

(** The words are read, and the drive is at rest. *)
Lemma told_read ws s s' b d : are_words ws -> telling ws s s' -> 512 <= zlen (io_buffer (xf s)) ->
  wp (guest_reads 256) (fun vs w => vs = ws /\ snd w = d /\ told (fst (fst w)) = ws /\ identify_set (ident (fst (fst w))) = true /\
    status (xf (fst (fst w))) = Z.lor READY_STAT SEEK_STAT) (s', b, d).
Proof.
  intros [Hl Hr] (t & x & i & -> & E1 & E2 & E3 & E4 & E5 & E6 & E7 & E8) Hbuf. apply (reads_block 255); simpl.
  - done.
  - lia.
  - lia.
  - rewrite E6, E7, length_fill; [done|]. rewrite length_words_bytes. lia.
  - rewrite E4. simpl end_transfer. unfold ide_transfer_stop, mod_xf. wp_go. simpl. rewrite E5, E7, drop_0. split; [|split; [done|]].
    + change 512%nat with (2 * 256)%nat. rewrite <- Hl, <- length_words_bytes, take_fill. by apply words_roundtrip.
    + unfold told. simpl. rewrite E1. split; [done|]. split; [done|]. by rewrite E8.
Qed.

(** ** The ports *)

Definition guest_identify : M (controller * disk) (list Z) :=
  ide_ioport_write 6 0xe0 ;;
  ide_ioport_write 7 0xec ;;
  on_current (guest_reads 256).

Lemma select_0 c d : ready c ->
  wp (ide_ioport_write 6 0xe0) (fun _ w => exists t t', w = (selected c t t', d)) (c, d).
Proof.
  intros (Hb & _ & _). unfold ide_ioport_write. apply wp_bind, wp_gets. cbv beta. simpl fst. rewrite Hb. simpl andb. cbv iota. apply wp_modify.
  eexists _, _. reflexivity.
Qed.

Lemma guest_identify_spec c d : ready c -> is_cf (drive_0 c) = false -> 512 <= zlen (io_buffer (xf (drive_0 c))) ->
  (identify_set (ident (drive_0 c)) = true -> are_words (identify_data (ident (drive_0 c)))) ->
  wp guest_identify (fun ws w => ws = told (drive_0 c) /\ snd w = d /\ told (drive_0 (fst w)) = ws /\
    identify_set (ident (drive_0 (fst w))) = true /\ cur_drive (fst w) = false /\
    status (xf (drive_0 (fst w))) = Z.lor READY_STAT SEEK_STAT) (c, d).
Proof.
  intros Hr Hcf Hbuf Hset. pose proof (told_words _ Hset) as Hw. unfold guest_identify. apply wp_bind.
  eapply wp_mono; [by apply select_0|]. intros ? ? (t & t' & ->). apply wp_bind, port_command; [done|].
  eapply wp_mono; [by apply (identify_spec t (drive_0 c)); [apply Hr|..]|]. intros ? [[s1 b1] d1] [E Ht]. simpl in E, Ht. subst d1.
  apply wp_on_current. eapply wp_mono; [by eapply told_read|]. by intros vs w (-> & ? & ? & ? & ?).
Qed.

(** ** The transfer mode *)

(** The guest sets the mode: the code of the feature and the mode in the registers. *)
Definition guest_set_mode (mode : Z) : M (controller * disk) unit :=
  ide_ioport_write 6 0xe0 ;;
  ide_ioport_write 1 0x03 ;;
  ide_ioport_write 2 mode ;;
  ide_ioport_write 7 0xef.

Lemma guest_set_mode_spec mode words c d : ready c -> transfer_mode mode = Some words ->
  wp (guest_set_mode mode) (fun _ w => snd w = d /\ ready (fst w) /\ exists t x, drive_0 (fst w) =
    set_ident (set_identify (identify_set (ident (drive_0 c))) (put_all words (identify_data (ident (drive_0 c)))) (ident (drive_0 c)))
      (set_xf x (set_tf t (drive_0 c))) /\ io_buffer x = io_buffer (xf (drive_0 c)) /\
      mult_sectors x = mult_sectors (xf (drive_0 c))) (c, d).
Proof.
  intros Hr Hm. unfold guest_set_mode. apply wp_bind. eapply wp_mono; [by apply select_0|]. intros ? ? (t & t' & ->). apply wp_bind.
  unfold ide_ioport_write at 1. apply wp_bind, wp_gets. cbv beta. simpl fst. rewrite (ready_busy c t t' Hr). simpl andb. cbv iota.
  unfold ide_clear_hob, both. change (Z.land 1 7) with 1. cbv iota. apply wp_bind, wp_modify, wp_modify. apply wp_bind.
  apply (port_spec 2 mode c); [lia|apply Hr|]. apply port_command; [done|].
  unfold ide_command, get_drive. apply wp_bind, wp_gets. cbv beta. simpl opcode. cbv iota. unfold set_features, get_drive. apply wp_bind, wp_gets. cbv beta. simpl fst.
  change (bs (set_tf _ (drive_0 c))) with (bs (drive_0 c)). rewrite (proj2 (proj2 Hr)). simpl negb. cbv iota zeta.
  simpl feature. change (bool_decide (u8 3 ∈ no_features)) with false. change (u8 3 =? 3) with true. cbv iota. simpl nsector. rewrite Hm.
  unfold set_ready, mod_id, mod_xf. wp_go. cbn [fst snd].
  eapply wp_mono; [apply set_irq_quiet|]. intros ? [[s1 b1] d1] (E & _ & ir & ic & Es1). cbn [fst snd] in E, Es1. subst s1 d1. simpl.
  split; [done|]. split; [by destruct Hr as (? & ? & ?); split_and!|]. eexists _, (set_irq_raised ir (set_irq_count ic (set_status (Z.lor READY_STAT SEEK_STAT) (xf (drive_0 c))))).
  by split.
Qed.

(** What the drive tells after the mode was set. *)
Definition told_with (ts : list (Z * Z)) (s : IDEState) : list Z := if identify_set (ident s) then put_all ts (told s) else told s.

Lemma told_mode ts s t x : mult_sectors x = mult_sectors (xf s) ->
  told (set_ident (set_identify (identify_set (ident s)) (put_all ts (identify_data (ident s))) (ident s)) (set_xf x (set_tf t s))) = told_with ts s.
Proof. intros E. unfold told, told_with, told. simpl. rewrite E. by destruct (identify_set (ident s)). Qed.

Lemma mode_identify_spec mode ts c d : ready c -> is_cf (drive_0 c) = false -> 512 <= zlen (io_buffer (xf (drive_0 c))) ->
  (identify_set (ident (drive_0 c)) = true -> are_words (identify_data (ident (drive_0 c)))) -> transfer_mode mode = Some ts ->
  wp (guest_set_mode mode ;; guest_identify) (fun ws w => snd w = d /\ ws = told_with ts (drive_0 c)) (c, d).
Proof.
  intros Hr Hcf Hbuf Hset Hm. apply wp_bind. eapply wp_mono; [by eapply guest_set_mode_spec|].
  intros ? [c1 d1] (E & Hr1 & t & x & E1 & E2 & E3). simpl in E, Hr1, E1. subst d1.
  eapply wp_mono; [apply (guest_identify_spec c1); [done|by rewrite E1|rewrite E1; simpl; by rewrite E2|rewrite E1; simpl]|].
  - intros Hs. destruct (Hset Hs) as [Hl Hw]. split; [by rewrite length_put_all|by apply put_all_words].
  - intros ws w (-> & ? & _). split; [done|]. rewrite E1. by apply told_mode.
Qed.

End Identify.
