(* ===== verification/IdeSave.v ===== *)
(** * Snapshots of the controllers

    [ide_save], [ide_load], [pci_ide_save] and [pci_ide_load] of [QEMU/hw/ide.c],
    with the file operations of [QEMU/savevm.c] and the PCI part of [QEMU/hw/pci.c]:
    the bytes of a snapshot, and what is found again in it. *)

From stdpp Require Import prelude.
From S2P Require Import Prelude Bytes Ide IdeSector.

Local Open Scope Z_scope.

(** ** The file *)

Definition qemu_put_be32 (v : Z) : list Z := [u8 (Z.shiftr v 24); u8 (Z.shiftr v 16); u8 (Z.shiftr v 8); u8 v].
Definition qemu_put_be64 (v : Z) : list Z := qemu_put_be32 (Z.shiftr v 32) ++ qemu_put_be32 v.

(** At the end of the file all bytes are 0. *)
Definition qemu_get_byte : M (list Z) Z := fun f => match f with [] => Ret (0, []) | b :: f' => Ret (b, f') end.

Definition qemu_get_be32 : M (list Z) Z :=
  a ← qemu_get_byte; b ← qemu_get_byte; c ← qemu_get_byte; d ← qemu_get_byte;
  mret (Z.lor (Z.lor (Z.lor (Z.shiftl a 24) (Z.shiftl b 16)) (Z.shiftl c 8)) d).

Definition qemu_get_be64 : M (list Z) Z :=
  a ← qemu_get_be32; b ← qemu_get_be32;
  mret (Z.lor (Z.shiftl a 32) b).

Definition i64 (z : Z) : Z := (z + 2 ^ 63) mod 2 ^ 64 - 2 ^ 63.

(** What is missing in the file stays as it was. *)
Definition qemu_get_buffer (old : list Z) : M (list Z) (list Z) := fun f =>
  let got := take (length old) f in Ret (got ++ drop (length got) old, drop (length old) f).

(** ** A drive *)

Definition ide_save (s : IDEState) : list Z :=
  let t := tf s in
  qemu_put_be32 (mult_sectors (xf s)) ++
  qemu_put_be32 (Z.b2z (identify_set (ident s))) ++
  (if identify_set (ident s) then words_bytes (identify_data (ident s)) else []) ++
  [u8 (feature t); u8 (error (xf s))] ++
  qemu_put_be32 (nsector t) ++
  map u8 [sector t; lcyl t; hcyl t; hob_feature t; hob_nsector t; hob_sector t; hob_lcyl t; hob_hcyl t; select t;
    status (xf s); Z.b2z (lba48 t); sense_key (atapi s); asc (atapi s); cdrom_changed (atapi s)].

Definition SENSE_UNIT_ATTENTION := 6.
Definition ASC_MEDIUM_MAY_HAVE_CHANGED := 0x28.

Definition ide_load (version_id : Z) (s : IDEState) : M (list Z) IDEState :=
  mult ← qemu_get_be32;
  set ← qemu_get_be32;
  data ← (if set =? 0 then mret (identify_data (ident s)) else
          bs ← qemu_get_buffer (words_bytes (identify_data (ident s))); mret (bytes_words bs));
  feature ← qemu_get_byte; error ← qemu_get_byte; nsector ← qemu_get_be32;
  sector ← qemu_get_byte; lcyl ← qemu_get_byte; hcyl ← qemu_get_byte;
  hob_feature ← qemu_get_byte; hob_nsector ← qemu_get_byte; hob_sector ← qemu_get_byte;
  hob_lcyl ← qemu_get_byte; hob_hcyl ← qemu_get_byte; select ← qemu_get_byte; status ← qemu_get_byte; lba48 ← qemu_get_byte;
  key ← qemu_get_byte; code ← qemu_get_byte;
  changed ← (if version_id =? 3 then qemu_get_byte
             else mret (if (key =? SENSE_UNIT_ATTENTION) && (code =? ASC_MEDIUM_MAY_HAVE_CHANGED) then 1 else cdrom_changed (atapi s)));
  mret (set_atapi (Atapi key code changed)
    (set_ident (set_identify (negb (set =? 0)) data (ident s))
      (set_xf (set_status status (set_error error (set_mult_sectors (i32 mult) (xf s))))
        (set_tf (TaskFile feature nsector sector lcyl hcyl hob_feature hob_nsector hob_sector hob_lcyl hob_hcyl select (negb (lba48 =? 0))) s)))).

(** ** The controllers *)

(** The part that all PCI devices have: the configuration, with what of it has to
    match and what can be written, and the interrupt lines. *)
Record pci_device := PciDevice {
  pci_config : list Z;
  cmask : list Z;
  wmask : list Z;
  irq_state : list Z
}.

Definition pci_device_save (p : pci_device) : list Z :=
  qemu_put_be32 2 ++ map u8 (pci_config p) ++ concat (map qemu_put_be32 (irq_state p)).

Definition EINVAL := 22.

(** The bytes agree where they have to. *)
Definition same_config (new : list Z) (p : pci_device) : bool :=
  forallb (fun '(n, (o, (c, w))) => Z.land (Z.land (Z.lxor n o) c) (Z.lnot w) =? 0)
    (zip new (zip (pci_config p) (zip (cmask p) (wmask p)))).

(** The answer is 0 or an error; the ports that are mapped again are left out. *)
Definition pci_device_load (p : pci_device) : M (list Z) (Z * pci_device) :=
  version_id ← qemu_get_be32;
  if 2 <? version_id then mret (- EINVAL, p) else
  config ← qemu_get_buffer (pci_config p);
  if negb (same_config config p) then mret (- EINVAL, p) else
  irqs ← (if 2 <=? version_id then
            a ← qemu_get_be32; b ← qemu_get_be32; c ← qemu_get_be32; d ← qemu_get_be32; mret (map i32 [a; b; c; d])
          else mret (irq_state p));
  mret (0, PciDevice config (cmask p) (wmask p) irqs).

(** Two channels of two drives and an engine each. *)
Record pci_ide := PciIde {
  pci : pci_device;
  channel_0 : controller;
  channel_1 : controller
}.

(** [ifidx] is the drive that the engine works for, or 0. *)
Definition bmdma_save (ifidx : Z) (b : BMDMAState) : list Z :=
  [u8 (bm_cmd b); u8 (bm_status b)] ++ qemu_put_be32 (bm_addr b) ++ qemu_put_be64 (bm_sector_num b) ++ qemu_put_be32 (bm_nsector b) ++
  [u8 (if ide_if b then ifidx else 0)].

Definition bmdma_load (b : BMDMAState) : M (list Z) BMDMAState :=
  cmd ← qemu_get_byte; status ← qemu_get_byte; addr ← qemu_get_be32; sector_num ← qemu_get_be64; nsector ← qemu_get_be32;
  ifidx ← qemu_get_byte;
  mret (set_ide_if true (set_bm_nsector nsector (set_bm_sector_num (i64 sector_num) (set_bm_addr addr (set_bm_status status (set_bm_cmd cmd b)))))).

Definition interface_save (c : controller) : list Z := [u8 (cmd (drive_0 c)); Z.b2z (cur_drive c)].

Definition interface_load (c : controller) : M (list Z) controller :=
  cmd ← qemu_get_byte; selected ← qemu_get_byte;
  mret (Controller (set_cmd cmd (drive_0 c)) (drive_1 c) (negb (selected =? 0)) (bmdma c)).

Definition pci_ide_save (ifidx0 ifidx1 : Z) (d : pci_ide) : list Z :=
  let c0 := channel_0 d in
  let c1 := channel_1 d in
  pci_device_save (pci d) ++
  bmdma_save ifidx0 (bmdma c0) ++ bmdma_save ifidx1 (bmdma c1) ++
  interface_save c0 ++ interface_save c1 ++
  ide_save (drive_0 c0) ++ ide_save (drive_1 c0) ++ ide_save (drive_0 c1) ++ ide_save (drive_1 c1).

Definition pci_ide_load (version_id : Z) (d : pci_ide) : M (list Z) (Z * pci_ide) :=
  if negb (version_id =? 2) && negb (version_id =? 3) then mret (- EINVAL, d) else
  '(ret, p) ← pci_device_load (pci d);
  if ret <? 0 then mret (ret, PciIde p (channel_0 d) (channel_1 d)) else
  let c0 := channel_0 d in
  let c1 := channel_1 d in
  b0 ← bmdma_load (bmdma c0);
  b1 ← bmdma_load (bmdma c1);
  c0 ← interface_load (Controller (drive_0 c0) (drive_1 c0) (cur_drive c0) b0);
  c1 ← interface_load (Controller (drive_0 c1) (drive_1 c1) (cur_drive c1) b1);
  d00 ← ide_load version_id (drive_0 c0);
  d01 ← ide_load version_id (drive_1 c0);
  d10 ← ide_load version_id (drive_0 c1);
  d11 ← ide_load version_id (drive_1 c1);
  mret (0, PciIde p (Controller d00 d01 (cur_drive c0) b0) (Controller d10 d11 (cur_drive c1) b1)).

(** ** What is found again *)

Lemma get_byte_spec x f P : P x f -> wp qemu_get_byte P (x :: f).
Proof. by intros H. Qed.

Lemma be32_value v : 0 <= v < 2 ^ 32 ->
  Z.lor (Z.lor (Z.lor (Z.shiftl (u8 (Z.shiftr v 24)) 24) (Z.shiftl (u8 (Z.shiftr v 16)) 16)) (Z.shiftl (u8 (Z.shiftr v 8)) 8)) (u8 v) = v.
Proof.
  intros Hv. pose proof (u8_range v). pose proof (u8_range (Z.shiftr v 8)). pose proof (u8_range (Z.shiftr v 16)). rewrite (shiftr_small v 24) by lia.
  rewrite (lor_shift _ _ 16), (lor_shift _ _ 8) by done. rewrite lor_low by lia. rewrite (of_bytes_at v 24 16), (of_bytes_at v 16 8) by lia.
  symmetry. rewrite Z.shiftr_div_pow2 by lia. apply bytes_split.
Qed.

Lemma get_be32_spec v f P : 0 <= v < 2 ^ 32 -> P v f -> wp qemu_get_be32 P (qemu_put_be32 v ++ f).
Proof. intros Hv HP. unfold qemu_get_be32, qemu_put_be32. simpl app. do 4 (apply wp_bind, get_byte_spec). apply wp_ret. by rewrite be32_value. Qed.

Lemma get_be64_spec v f P : 0 <= v < 2 ^ 63 -> P v f -> wp qemu_get_be64 P (qemu_put_be64 v ++ f).
Proof.
  intros Hv HP. unfold qemu_get_be64, qemu_put_be64. rewrite <- app_assoc. assert (0 <= Z.shiftr v 32 < 2 ^ 32).
  { rewrite Z.shiftr_div_pow2 by lia. split; [apply Z.div_pos; lia|apply Z.div_lt_upper_bound; lia]. }
  apply wp_bind, get_be32_spec; [done|]. apply wp_bind.
  assert (qemu_put_be32 v = qemu_put_be32 (v mod 2 ^ 32)) as ->.
  { unfold qemu_put_be32, u8. assert (forall k, 0 <= k <= 24 -> Z.shiftr (v mod 2 ^ 32) k mod 2 ^ 8 = Z.shiftr v k mod 2 ^ 8) as E.
    { intros k Hk. apply Z.bits_inj'. intros i Hi. destruct (decide (i < 8)).
      - rewrite !Z.mod_pow2_bits_low, !Z.shiftr_spec, Z.mod_pow2_bits_low by lia. done.
      - by rewrite !Z.mod_pow2_bits_high by lia. }
    rewrite <- !E by lia. pose proof (E 0 ltac:(lia)) as E0. rewrite !Z.shiftr_0_r in E0. by rewrite E0. }
  apply get_be32_spec; [by apply Z.mod_pos_bound|]. apply wp_ret. rewrite lor_low; [|lia|by apply Z.mod_pos_bound].
  rewrite Z.shiftr_div_pow2 by lia. rewrite (Z.mul_comm (v / 2 ^ 32)), <- Z.div_mod by lia. done.
Qed.

Lemma get_buffer_spec new old f P : length new = length old -> P new f -> wp (qemu_get_buffer old) P (new ++ f).
Proof.
  intros Hl HP. unfold wp, qemu_get_buffer. rewrite <- Hl, take_app_length, drop_app_length, Hl, drop_all, app_nil_r. done.
Qed.

(** The registers are within their widths, and the words that were told are words. *)
Definition regs_ok (s : IDEState) : Prop :=
  let t := tf s in
  Forall is_byte [feature t; error (xf s); sector t; lcyl t; hcyl t; hob_feature t; hob_nsector t; hob_sector t; hob_lcyl t; hob_hcyl t;
    select t; status (xf s); sense_key (atapi s); asc (atapi s); cdrom_changed (atapi s)] /\
  0 <= nsector t < 2 ^ 32 /\ 0 <= mult_sectors (xf s) < 2 ^ 31 /\
  (identify_set (ident s) = true -> length (identify_data (ident s)) = 256%nat /\ Forall (fun w => 0 <= w < 2 ^ 16) (identify_data (ident s))).

(** A drive with the registers of the drive that was saved. *)
Definition drive_restored (s s0 : IDEState) : IDEState :=
  set_atapi (atapi s)
    (set_ident (set_identify (identify_set (ident s)) (if identify_set (ident s) then identify_data (ident s) else identify_data (ident s0)) (ident s0))
      (set_xf (set_status (status (xf s)) (set_error (error (xf s)) (set_mult_sectors (mult_sectors (xf s)) (xf s0)))) (set_tf (tf s) s0))).

Lemma u8_byte x : is_byte x -> u8 x = x.
Proof. apply u8_id. Qed.

Lemma ide_load_spec s s0 f P : regs_ok s -> length (identify_data (ident s0)) = 256%nat ->
  P (drive_restored s s0) f -> wp (ide_load 3 s0) P (ide_save s ++ f).
Proof.
  intros (Hb & Hn & Hm & Hd) H0 HP. unfold ide_load, ide_save. rewrite <- !app_assoc.
  apply wp_bind, get_be32_spec; [lia|]. apply wp_bind, get_be32_spec; [destruct (identify_set (ident s)); simpl; lia|].
  apply wp_bind. eapply wp_mono with (P := fun data f' => data = (if identify_set (ident s) then identify_data (ident s) else identify_data (ident s0)) /\
    f' = [u8 (feature (tf s)); u8 (error (xf s))] ++ qemu_put_be32 (nsector (tf s)) ++ map u8 [sector (tf s); lcyl (tf s); hcyl (tf s);
      hob_feature (tf s); hob_nsector (tf s); hob_sector (tf s); hob_lcyl (tf s); hob_hcyl (tf s); select (tf s);
      status (xf s); Z.b2z (lba48 (tf s)); sense_key (atapi s); asc (atapi s); cdrom_changed (atapi s)] ++ f).
  { destruct (identify_set (ident s)); simpl Z.eqb; cbv iota; [|by apply wp_ret]. destruct (Hd eq_refl) as [Hl Hw].
    apply wp_bind, get_buffer_spec; [by rewrite !length_words_bytes, Hl, H0|]. apply wp_ret. by rewrite words_roundtrip. }
  intros data f' [-> ->]. simpl app. do 2 (apply wp_bind, get_byte_spec). apply wp_bind, get_be32_spec; [done|]. simpl app.
  do 13 (apply wp_bind, get_byte_spec). simpl Z.eqb. cbv iota. apply wp_bind, get_byte_spec. apply wp_ret.
  repeat (apply Forall_cons in Hb as [? Hb]). rewrite !u8_byte by (done || (destruct (lba48 (tf s)); by unfold is_byte)). rewrite i32_id by lia.
  unfold drive_restored in HP. destruct s as [t x cm h se nb bb cf i at_]. destruct t, at_. simpl in *. by destruct lba48, (identify_set i).
Qed.

(** The engine with the registers that were saved; no transfer goes on. *)
Definition engine_restored (b b0 : BMDMAState) : BMDMAState :=
  set_ide_if true (set_bm_nsector (bm_nsector b) (set_bm_sector_num (bm_sector_num b) (set_bm_addr (bm_addr b)
    (set_bm_status (bm_status b) (set_bm_cmd (bm_cmd b) b0))))).

Definition engine_ok (b : BMDMAState) : Prop :=
  is_byte (bm_cmd b) /\ is_byte (bm_status b) /\ 0 <= bm_addr b < 2 ^ 32 /\ 0 <= bm_sector_num b < 2 ^ 63 /\ 0 <= bm_nsector b < 2 ^ 32.

Lemma bmdma_load_spec ifidx b b0 f P : engine_ok b -> P (engine_restored b b0) f -> wp (bmdma_load b0) P (bmdma_save ifidx b ++ f).
Proof.
  intros (H1 & H2 & H3 & H4 & H5) HP. unfold bmdma_load, bmdma_save. rewrite <- !app_assoc. simpl app.
  do 2 (apply wp_bind, get_byte_spec). apply wp_bind, get_be32_spec; [done|]. apply wp_bind, get_be64_spec; [done|].
  apply wp_bind, get_be32_spec; [done|]. apply wp_bind, get_byte_spec, wp_ret. rewrite !u8_byte by done.
  assert (i64 (bm_sector_num b) = bm_sector_num b) as -> by (unfold i64; rewrite Z.mod_small by lia; lia). exact HP.
Qed.

Definition selected_restored (c c0 : controller) (b : BMDMAState) : controller :=
  Controller (set_cmd (cmd (drive_0 c)) (drive_0 c0)) (drive_1 c0) (cur_drive c) b.

Lemma interface_load_spec c c0 f P : is_byte (cmd (drive_0 c)) -> P (selected_restored c c0 (bmdma c0)) f ->
  wp (interface_load c0) P (interface_save c ++ f).
Proof.
  intros Hc HP. unfold interface_load, interface_save. simpl app. do 2 (apply wp_bind, get_byte_spec). apply wp_ret.
  rewrite u8_byte by done. unfold selected_restored in HP. by destruct (cur_drive c).
Qed.

(** A device that can take the place of the one that was saved. *)
Definition pci_fits (p p0 : pci_device) : Prop :=
  length (pci_config p) = length (pci_config p0) /\ Forall is_byte (pci_config p) /\ same_config (pci_config p) p0 = true /\
  exists a b c d, irq_state p = [a; b; c; d] /\ Forall (fun i => 0 <= i < 2 ^ 31) [a; b; c; d].

Lemma pci_load_spec p p0 f P : pci_fits p p0 -> P (0, PciDevice (pci_config p) (cmask p0) (wmask p0) (irq_state p)) f ->
  wp (pci_device_load p0) P (pci_device_save p ++ f).
Proof.
  intros (Hl & Hb & Hs & a & b & c & d & E & Hi) HP. unfold pci_device_load, pci_device_save. rewrite <- !app_assoc, E.
  apply wp_bind, get_be32_spec; [lia|]. simpl Z.ltb. cbv iota.
  assert (map u8 (pci_config p) = pci_config p) as -> by (clear - Hb; induction Hb as [|x l Hx _ IH]; simpl; [done|by rewrite u8_byte, IH]).
  apply wp_bind, get_buffer_spec; [done|]. rewrite Hs. simpl negb. simpl Z.leb. cbv iota. cbn [map concat]. rewrite app_nil_r, <- !app_assoc.
  repeat (apply Forall_cons in Hi as [? Hi]). apply wp_bind. do 4 (apply wp_bind, get_be32_spec; [lia|]). apply wp_ret. apply wp_ret.
  rewrite E in HP. simpl map. by rewrite !i32_id by lia.
Qed.

(** ** The whole snapshot *)

Definition channel_ok (c : controller) : Prop :=
  regs_ok (drive_0 c) /\ regs_ok (drive_1 c) /\ is_byte (cmd (drive_0 c)) /\ engine_ok (bmdma c).

(** The words of the identification have their size. *)
Definition channel_fits (c : controller) : Prop :=
  length (identify_data (ident (drive_0 c))) = 256%nat /\ length (identify_data (ident (drive_1 c))) = 256%nat.

Definition channel_restored (c c0 : controller) : controller :=
  Controller (drive_restored (drive_0 c) (set_cmd (cmd (drive_0 c)) (drive_0 c0))) (drive_restored (drive_1 c) (drive_1 c0)) (cur_drive c)
    (engine_restored (bmdma c) (bmdma c0)).

Definition pci_restored (d d0 : pci_ide) : pci_ide :=
  PciIde (PciDevice (pci_config (pci d)) (cmask (pci d0)) (wmask (pci d0)) (irq_state (pci d)))
    (channel_restored (channel_0 d) (channel_0 d0)) (channel_restored (channel_1 d) (channel_1 d0)).

Lemma pci_ide_load_spec i j d d0 f : pci_fits (pci d) (pci d0) -> channel_ok (channel_0 d) -> channel_ok (channel_1 d) ->
  channel_fits (channel_0 d0) -> channel_fits (channel_1 d0) ->
  wp (pci_ide_load 3 d0) (fun r f' => r = (0, pci_restored d d0) /\ f' = f) (pci_ide_save i j d ++ f).
Proof.
  intros Hp (H00 & H01 & Hc0 & Hb0) (H10 & H11 & Hc1 & Hb1) [F00 F01] [F10 F11]. unfold pci_ide_load, pci_ide_save. simpl negb. simpl andb. cbv iota.
  rewrite <- !app_assoc. apply wp_bind, pci_load_spec; [done|]. simpl Z.ltb. cbv iota zeta.
  do 2 (apply wp_bind, bmdma_load_spec; [done|]). do 2 (apply wp_bind, interface_load_spec; [done|]).
  do 4 (apply wp_bind, ide_load_spec; [done|done|]). by apply wp_ret.
Qed.

(** What a guest can tell of a controller: the registers. *)
Lemma restored_registers c c0 n : bs (drive_0 c0) = bs (drive_0 c) -> bs (drive_1 c0) = bs (drive_1 c) ->
  ide_ioport_read n (channel_restored c c0) = ide_ioport_read n c.
Proof.
  intros E0 E1. unfold ide_ioport_read, ide_status_read, no_selected, no_drive, current. simpl. rewrite E0, E1.
  by destruct (cur_drive c).
Qed.
