(* ===== verification/IdeSession.v ===== *)
(** * Sessions of a guest

    A guest that uses the controller: commands through the data port and by DMA,
    in any order, with what it stores in its memory in between.  To the guest this
    is a disk of sectors and a memory; the simulated drive gets the requests. *)

From stdpp Require Import prelude gmap.
From S2P Require Import Prelude Config Blocks Mapping Device Perf SsdIo Gc Ftl Persist Ssd.
From S2P Require Import Host Boot SsdLaws Timing SsdSim Space Session Bytes Ide IdeDisk IdeSector IdePio IdePorts IdeDma IdeGuest.

Local Open Scope Z_scope.

(** ** The simulated drive behind the controller *)

#[export] Instance SsdDisk `{Clock} : Disk := {| disk := drive; ssd_read := SSD_READ; ssd_write := SSD_WRITE |}.

Definition ask (wr : bool) (n a : Z) : request := if wr then Write a n else Read a n.

(** The requests for [k] sectors from [a] on, [q] at a time. *)
Definition asked (wr : bool) (q a k : Z) : list request := map (fun '(n, a) => ask wr n a) (requests q a k).

Definition writes (f : callback) : bool := match f with ReadCallback => false | WriteCallback => true end.

Lemma run_asked `{Clock} wr l : run_requests (ssd_op wr) l = submit_all (map (fun '(n, a) => ask wr n a) l).
Proof. induction l as [|[n a] l IH]; simpl; [done|]. rewrite IH. by destruct wr. Qed.

Lemma call_asked `{Clock} f n a : ssd_call f n a = submit (ask (writes f) n a).
Proof. by destruct f. Qed.

(** ** What a guest does *)

(** The opcode, the sector and the number of sectors, and the words, or how the engine
    is given the address of the table of areas, the address and the areas. *)
Inductive guest_op :=
| PioWrite (op a k : Z) (vs : list Z)
| PioRead (op a k : Z)
| DmaMove (how : width) (f : callback) (op a k p : Z) (areas : list (Z * Z))
| Store (p : Z) (bytes : list Z).

Definition is_ext (op : Z) : bool := snd (opcode op).

(** The requests of an operation, with [m] sectors per interrupt. *)
Definition op_asks (m : Z) (o : guest_op) : list request :=
  match o with
  | PioWrite op a k _ | PioRead op a k => match pio_call (fst (opcode op)) m with Some (wr, q) => asked wr q a k | None => [] end
  | DmaMove _ f _ a k _ _ => [ask (writes f) k a]
  | Store _ _ => []
  end.

(** The disk and the memory, as the guest sees them. *)
Record view := View { v_disk : Z -> list Z; v_memory : Z -> Z }.

(** What an operation does to them, and the words the guest reads. *)
Definition view_step (o : guest_op) (v : view) : list Z * view :=
  match o with
  | PioWrite _ a k vs => ([], View (put_sectors a (words_bytes vs) (v_disk v)) (v_memory v))
  | PioRead _ a k => (bytes_words (get_sectors (v_disk v) a k), v)
  | DmaMove _ ReadCallback _ a k _ areas => ([], View (v_disk v) (scatter areas (get_sectors (v_disk v) a k) (v_memory v)))
  | DmaMove _ WriteCallback _ a k _ areas => ([], View (put_sectors a (gather (v_memory v) areas) (v_disk v)) (v_memory v))
  | Store p bytes => ([], View (v_disk v) (mem_store p bytes (v_memory v)))
  end.

Fixpoint view_run (os : list guest_op) (v : view) : list (list Z) * view :=
  match os with
  | [] => ([], v)
  | o :: os' =>
      let '(out, v') := view_step o v in
      let '(outs, v'') := view_run os' v' in
      (out :: outs, v'')
  end.

(** The sectors can be addressed. *)
Definition in_reach (ext : bool) (a k : Z) : Prop :=
  0 <= a /\ 1 <= k <= max_sectors ext /\ a + k < max_address ext /\ a + k <= 2 ^ 31.

(** The opcode is that of a command of this kind, the words or the areas are for just
    the sectors, and the simulated drive takes the requests. *)
Definition pio_ok (fit : request -> Prop) (wr : bool) (m op a k : Z) : Prop :=
  in_reach (is_ext op) a k /\
  match pio_call (fst (opcode op)) m with Some (wr', q) => wr' = wr /\ 0 < q /\ Forall fit (asked wr q a k) | None => False end.

Definition op_ok (fit : request -> Prop) (m : Z) (v : view) (o : guest_op) : Prop :=
  match o with
  | PioWrite op a k vs => pio_ok fit true m op a k /\ zlen vs = 256 * k
  | PioRead op a k => pio_ok fit false m op a k
  | DmaMove _ f op a k p areas =>
      in_reach (is_ext op) a k /\ dma_call (fst (opcode op)) = Some f /\ fit (ask (writes f) k a) /\
      prd_table (v_memory v) p areas /\ Z.land p 3 = 0 /\ 0 <= p /\ p + 4096 < 2 ^ 32 /\ 8 * zlen areas <= 4096 /\ total areas = 512 * k
  | Store _ _ => True
  end.

Fixpoint ops_ok (fit : request -> Prop) (m : Z) (v : view) (os : list guest_op) : Prop :=
  match os with
  | [] => True
  | o :: os' => op_ok fit m v o /\ ops_ok fit m (snd (view_step o v)) os'
  end.

Section Sessions.
Context (cfg : config) (Hok : cfg_ok cfg) (HL : PLANES_PER_FLASH cfg = 1) {C : Clock} {CL : ClockLaws C}.
Context (M : Z) (HM : 0 <= M < (BLOCK_NB cfg * FLASH_NB cfg - FLASH_NB cfg * PLANES_PER_FLASH cfg) * PAGE_NB cfg).
Context (HV : 1 <= GC_VICTIM_NB cfg) {Q : Machine} {B : BlockLayer Q} (Hssd : is_ssd = true).

Definition guest_do (o : guest_op) : Prelude.M (controller * disk) (list Z) :=
  match o with
  | PioWrite op a k vs => guest_pio_write op (is_ext op) a k vs ;; mret []
  | PioRead op a k => guest_pio_read op (is_ext op) a k
  | DmaMove how f op a k p _ => guest_dma how op f (is_ext op) a k p ;; mret []
  | Store p bytes =>
      modify (fun '(c, d) => (Controller (drive_0 c) (drive_1 c) (cur_drive c)
        (set_memory (mem_store p bytes (memory (bmdma c))) (bmdma c)), d)) ;;
      mret []
  end.

Fixpoint guest_run (os : list guest_op) : Prelude.M (controller * disk) (list (list Z)) :=
  match os with
  | [] => mret []
  | o :: os' => out ← guest_do o; outs ← guest_run os'; mret (out :: outs)
  end.

(** The controller is between two commands. *)
Definition settled (m : Z) (c : controller) : Prop :=
  ready c /\ bit (bm_status (bmdma c)) BM_STATUS_DMAING = false /\ 0 <= bm_addr (bmdma c) < 2 ^ 32 /\ buffered MAX_MULT_SECTORS (drive_0 c) /\
  mult_sectors (xf (drive_0 c)) = m /\ 0 <= m <= MAX_MULT_SECTORS.

Definition shows (c : controller) (v : view) : Prop :=
  (forall x, disk_bytes (bdrv_writes (xf (drive_0 c))) x = v_disk v x) /\ memory (bmdma c) = v_memory v.

(** An operation is done, as the guest sees it. *)
Definition op_done (m : Z) (h : host) (j : Z) (o : guest_op) (v : view) (out : list Z) (w : controller * drive) : Prop :=
  out = fst (view_step o v) /\ settled m (fst w) /\ shows (fst w) (snd (view_step o v)) /\
  serves cfg M (foldl (host_submit cfg) h (op_asks m o)) (j + zlen (op_asks m o)) (snd w).

Lemma finished_settled m c c' a : settled m c -> cur_drive c' = false -> finished a (drive_0 c') -> drive_kept (drive_0 c) (drive_0 c') ->
  bit (bm_status (bmdma c')) BM_STATUS_DMAING = false -> 0 <= bm_addr (bmdma c') < 2 ^ 32 -> settled m c'.
Proof.
  intros ((_ & _ & Hb) & _ & _ & Hbuf & Hm & Hm') Hc (_ & _ & _ & Hs) (E1 & E2 & E3) Hd Ha. unfold settled, ready, current, busy. rewrite Hc, Hs.
  destruct Hbuf. split; [split_and!; [done|done|congruence]|]. split; [done|]. split; [done|]. split; [split; [congruence|lia]|]. split; [congruence|done].
Qed.

Lemma asked_run wr q a k h j d : Forall (fits cfg M) (asked wr q a k) -> serves cfg M h j d -> j + zlen (asked wr q a k) < 2 ^ 32 ->
  exists d', run_requests (ssd_op wr) (requests q a k) d = Ret (tt, d') /\
    serves cfg M (foldl (host_submit cfg) h (asked wr q a k)) (j + zlen (asked wr q a k)) d'.
Proof using Hok HL HM HV CL.
  intros Hfit Hs Hj. pose proof (submit_all_serves cfg Hok HL M HM HV (asked wr q a k) h j d Hfit Hs Hj) as H.
  unfold asked in H at 1. rewrite <- run_asked in H. destruct (wp_run _ _ _ H) as ([] & d' & Hd & Hd'). by exists d'.
Qed.

Lemma pio_buffered m c op wr q : settled m c -> pio_call (fst (opcode op)) m = Some (wr, q) -> 0 < q -> buffered q (drive_0 c).
Proof. intros (_ & _ & _ & Hbuf & _ & Hm) Hc Hq. eapply buffered_less; [done|]. by eapply pio_call_count. Qed.

Lemma opcode_ext op : opcode op = (fst (opcode op), is_ext op).
Proof. unfold is_ext. by destruct (opcode op). Qed.

Lemma write_done m op a k vs c v h j d : op_ok (fits cfg M) m v (PioWrite op a k vs) -> settled m c -> shows c v -> serves cfg M h j d ->
  j + zlen (op_asks m (PioWrite op a k vs)) < 2 ^ 32 ->
  wp (guest_do (PioWrite op a k vs)) (op_done m h j (PioWrite op a k vs) v) (c, d).
Proof using Hok HL HM HV CL Hssd B.
  intros [[(Ha & Hk & Hlim & H31) Hc] Hvs] Hset [Hd Hm] Hs Hj. unfold op_done. simpl in Hj |- *. destruct (pio_call _ m) as [[wr q]|] eqn:Ec; [|done].
  destruct Hc as (-> & Hq & Hfit). destruct (asked_run true q a k h j d Hfit Hs Hj) as (d' & Hrun & Hs').
  pose proof (proj1 (proj2 (proj2 (proj2 (proj2 Hset))))) as Em. apply wp_bind.
  eapply wp_mono; [apply (guest_write_spec (K := SsdDisk) Hssd op _ _ q a k vs c d d' (opcode_ext op)); try done; [by rewrite Em|apply Hset|by eapply pio_buffered]|].
  intros ? [c1 d1] (E & Hcur & Hf & (Hkd & Hke & Hka & Hkb) & Hw). simpl in E. subst d1. apply wp_ret. split; [done|]. split; [|split; [|done]].
  - eapply finished_settled; try done; simpl in Hkb, Hka |- *; rewrite ?Hkb, ?Hka; apply Hset.
  - split; [|simpl in *; congruence]. intros x. simpl in Hw |- *. rewrite Hw, write_pieces; [by apply put_sectors_ext|done|lia|rewrite length_words_bytes; lia].
Qed.

Lemma read_done m op a k c v h j d : op_ok (fits cfg M) m v (PioRead op a k) -> settled m c -> shows c v -> serves cfg M h j d ->
  j + zlen (op_asks m (PioRead op a k)) < 2 ^ 32 -> wp (guest_do (PioRead op a k)) (op_done m h j (PioRead op a k) v) (c, d).
Proof using Hok HL HM HV CL Hssd B.
  intros [(Ha & Hk & Hlim & H31) Hc] Hset [Hd Hm] Hs Hj. unfold op_done. simpl in Hj |- *. destruct (pio_call _ m) as [[wr q]|] eqn:Ec; [|done].
  destruct Hc as (-> & Hq & Hfit). destruct (asked_run false q a k h j d Hfit Hs Hj) as (d' & Hrun & Hs').
  pose proof (proj1 (proj2 (proj2 (proj2 (proj2 Hset))))) as Em.
  eapply wp_mono; [apply (guest_read_spec (K := SsdDisk) Hssd op _ _ q a k c d d' (opcode_ext op)); try done; [by rewrite Em|apply Hset|by eapply pio_buffered]|].
  intros ? [c1 d1] (-> & E & Hcur & Hf & (Hkd & Hke & Hka & Hkb) & Hw). simpl in E, Hw. subst d1. split; [|split; [|split; [|done]]].
  - f_equal. apply get_sectors_ext. auto.
  - eapply finished_settled; try done; simpl in Hkb, Hka |- *; rewrite ?Hkb, ?Hka; apply Hset.
  - split; [|simpl in *; congruence]. intros x. simpl. by rewrite Hw.
Qed.

Lemma dma_done_op m how f op a k p areas c v h j d : op_ok (fits cfg M) m v (DmaMove how f op a k p areas) -> settled m c -> shows c v -> serves cfg M h j d ->
  j + 1 < 2 ^ 32 -> wp (guest_do (DmaMove how f op a k p areas)) (op_done m h j (DmaMove how f op a k p areas) v) (c, d).
Proof using Hok HL HM HV CL Hssd B.
  intros ((Ha & Hk & Hlim & H31) & Hc & Hfit & Hp & H3 & Hp0 & Hp1 & Hl & Ht) Hset [Hd Hm] Hs Hj. unfold op_done. simpl.
  pose proof (submit_serves cfg Hok HL M HM HV (ask (writes f) k a) h j d Hfit Hs ltac:(lia)) as H.
  rewrite <- call_asked in H. destruct (wp_run _ _ _ H) as ([] & d' & E & Hd'). rewrite <- Hm in Hp. apply wp_bind.
  eapply wp_mono; [apply (guest_dma_spec (K := SsdDisk) Hssd how op _ _ f a k p areas c d d' (opcode_ext op)); try done; [apply Hset|apply Hset|apply Hset|lia]|].
  intros ? [c1 d1] (E1 & Hcur & Haddr & Hf & Hkd & Hb & Hmoved). simpl in E1. subst d1. apply wp_ret. split; [by destruct f|]. split; [eapply finished_settled; try done; simpl in Haddr |- *; lia|]. split; [|done].
  destruct f; destruct Hmoved as [Em Ew]; simpl in Em, Ew; split; simpl.
  - intros x. by rewrite Ew.
  - rewrite Em, Hm. f_equal. by apply get_sectors_ext.
  - intros x. rewrite Ew, write_law, Hm. by apply put_sectors_ext.
  - by rewrite Em.
Qed.

Lemma store_done m p bytes c v h j d : settled m c -> shows c v -> serves cfg M h j d ->
  wp (guest_do (Store p bytes)) (op_done m h j (Store p bytes) v) (c, d).
Proof.
  intros Hset [Hd Hm] Hs. simpl. wp_go. split; [done|]. split; [done|]. simpl. rewrite Z.add_0_r. split; [|done].
  split; [done|]. simpl. by rewrite Hm.
Qed.

(** One operation. *)
Lemma guest_does m o c v h j d : op_ok (fits cfg M) m v o -> settled m c -> shows c v -> serves cfg M h j d ->
  j + zlen (op_asks m o) < 2 ^ 32 -> wp (guest_do o) (op_done m h j o v) (c, d).
Proof using Hok HL HM HV CL Hssd B.
  destruct o; intros; [by apply write_done|by apply read_done|by apply dma_done_op|by apply store_done].
Qed.

(** All operations of a session. *)
Lemma guest_runs m os : forall c v h j d, ops_ok (fits cfg M) m v os -> settled m c -> shows c v -> serves cfg M h j d ->
  j + zlen (concat (map (op_asks m) os)) < 2 ^ 32 ->
  wp (guest_run os) (fun outs w => outs = fst (view_run os v) /\ settled m (fst w) /\ shows (fst w) (snd (view_run os v)) /\
    serves cfg M (foldl (host_submit cfg) h (concat (map (op_asks m) os))) (j + zlen (concat (map (op_asks m) os))) (snd w)) (c, d).
Proof using Hok HL HM HV CL Hssd B.
  induction os as [|o os IH]; intros c v h j d Hos Hset Hsh Hs Hj; simpl in *.
  { wp_go. by rewrite Z.add_0_r. }
  destruct Hos as [Ho Hos]. rewrite length_app in Hj. apply wp_bind.
  eapply wp_mono; [apply (guest_does m o c v h j d); (done || lia)|]. intros out [c1 d1] (-> & Hset1 & Hsh1 & Hs1). apply wp_bind.
  eapply wp_mono; [eapply (IH c1); [exact Hos|exact Hset1|exact Hsh1|exact Hs1|lia]|]. intros outs [c2 d2] (-> & Hset2 & Hsh2 & Hs2). apply wp_ret.
  destruct (view_step o v) as [out v1]. simpl in *. destruct (view_run os v1) as [outs v2]. split; [done|]. split; [done|]. split; [done|].
  rewrite foldl_app, length_app, Nat2Z.inj_add, Z.add_assoc. exact Hs2.
Qed.

End Sessions.
