(* ===== verification/IdeInit.v ===== *)
(** * Power on

    [ide_init2] and [pci_piix3_ide_init] of [QEMU/hw/ide.c], with the geometry that
    [QEMU/block.c] guesses for a disk: the controllers as a machine starts, over the
    simulated drive that [SSD_INIT] starts. *)

From stdpp Require Import prelude gmap strings.
From Stdlib Require Import Ascii.
From S2P Require Import Prelude Config Text Blocks Mapping Device Perf SsdIo Gc Ftl Persist Ssd.
From S2P Require Import Host Boot SsdLaws Timing SsdSim Space Session Bytes Ide IdeDisk IdeSector IdePio IdePorts IdeDma IdeGuest IdeSession.

Local Open Scope Z_scope.

(** ** The geometry of a disk *)

(** A disk: its length in bytes or an error, the geometry and the translation of
    addresses that were given with it, or 0, and its serial number. *)
Record block_driver := BlockDriver {
  bd_length : Z;
  bd_cyls : Z;
  bd_heads : Z;
  bd_secs : Z;
  bd_translation : Z;
  bd_serial : list ascii
}.

Definition BIOS_ATA_TRANSLATION_AUTO := 0.
Definition BIOS_ATA_TRANSLATION_NONE := 1.
Definition BIOS_ATA_TRANSLATION_LBA := 2.
Definition BIOS_ATA_TRANSLATION_LARGE := 3.

Definition set_geometry_hint (g : Z * Z * Z) (b : block_driver) : block_driver :=
  BlockDriver (bd_length b) (fst (fst g)) (snd (fst g)) (snd g) (bd_translation b) (bd_serial b).
Definition set_translation_hint (t : Z) (b : block_driver) : block_driver :=
  BlockDriver (bd_length b) (bd_cyls b) (bd_heads b) (bd_secs b) t (bd_serial b).

Definition bdrv_get_geometry (b : block_driver) : Z := if bd_length b <? 0 then 0 else Z.shiftr (bd_length b) 9.

(** An entry of the partition table, in the first sector. *)
Definition partition_lchs (nb : Z) (buf : list Z) (i : Z) : option (Z * Z * Z) :=
  let byte j := default 0 (buf !! Z.to_nat (0x1be + 16 * i + j)) in
  if (of_le [byte 12; byte 13; byte 14; byte 15] =? 0) || (byte 5 =? 0) then None else
  let heads := byte 5 + 1 in
  let sectors := Z.land (byte 6) 63 in
  if sectors =? 0 then None else
  let cylinders := i32 (nb / (heads * sectors)) in
  if (cylinders <? 1) || (16383 <? cylinders) then None else Some (cylinders, heads, sectors).

Fixpoint first_lchs (nb : Z) (buf : list Z) (l : list Z) : option (Z * Z * Z) :=
  match l with
  | [] => None
  | i :: l' => match partition_lchs nb buf i with Some g => Some g | None => first_lchs nb buf l' end
  end.

(** [ret] is the answer of [bdrv_read] for the first sector. *)
Definition guess_disk_lchs (b : block_driver) (ret : Z) (buf : list Z) : option (Z * Z * Z) :=
  if ret <? 0 then None else
  if negb (default 0 (buf !! 510%nat) =? 0x55) || negb (default 0 (buf !! 511%nat) =? 0xaa) then None else
  first_lchs (bdrv_get_geometry b) buf [0; 1; 2; 3].

Definition default_geometry (nb : Z) : Z * Z * Z :=
  let cylinders := i32 (nb / (16 * 63)) in
  (if 16383 <? cylinders then 16383 else if cylinders <? 2 then 2 else cylinders, 16, 63).

Definition bdrv_guess_geometry (b : block_driver) (ret : Z) (buf : list Z) : (Z * Z * Z) * block_driver :=
  let auto := bd_translation b =? BIOS_ATA_TRANSLATION_AUTO in
  if negb (bd_cyls b =? 0) then ((bd_cyls b, bd_heads b, bd_secs b), b) else
  let '(g, b) :=
    match guess_disk_lchs b ret buf with
    | Some (c, h, s) =>
        if 16 <? h then
          let g := default_geometry (bdrv_get_geometry b) in
          (g, if auto then set_translation_hint (if fst (fst g) * snd (fst g) <=? 131072 then BIOS_ATA_TRANSLATION_LARGE else BIOS_ATA_TRANSLATION_LBA) b
              else b)
        else ((c, h, s), if auto then set_translation_hint BIOS_ATA_TRANSLATION_NONE b else b)
    | None => (default_geometry (bdrv_get_geometry b), b)
    end in
  (g, set_geometry_hint g b).

Definition lchs_ok (g : Z * Z * Z) : Prop :=
  1 <= fst (fst g) <= 16383 /\ 1 <= snd (fst g) <= 16 /\ 1 <= snd g <= 63.

Lemma land_63 x : 0 <= Z.land x 63 <= 63.
Proof. change 63 with (Z.ones 6) at 1 2. rewrite Z.land_ones by lia. pose proof (Z.mod_pos_bound x (2 ^ 6)). lia. Qed.

Lemma partition_lchs_spec nb buf i c h s : Forall is_byte buf -> partition_lchs nb buf i = Some (c, h, s) ->
  1 <= c <= 16383 /\ 1 <= h /\ 1 <= s <= 63.
Proof.
  intros Hb E. unfold partition_lchs in E. cbv zeta in E. destruct (_ =? 0) eqn:E1 in E; [done|]. destruct (_ =? 0) eqn:E2 in E; [done|].
  destruct (_ =? 0) eqn:E3 in E; [done|]. destruct (_ <? 1) eqn:E4 in E; [done|]. destruct (16383 <? _) eqn:E5 in E; [done|].
  injection E as <- <- <-. apply Z.ltb_ge in E4, E5. apply Z.eqb_neq in E3.
  split; [done|]. split; [|pose proof (land_63 (default 0 (buf !! Z.to_nat (446 + 16 * i + 6)))); lia].
  destruct (buf !! Z.to_nat (446 + 16 * i + 5)) as [x|] eqn:Ex; simpl; [|lia].
  pose proof (Forall_lookup_1 _ _ _ _ Hb Ex) as Hx. unfold is_byte in Hx. lia.
Qed.

Lemma first_lchs_spec nb buf l c h s : Forall is_byte buf -> first_lchs nb buf l = Some (c, h, s) -> 1 <= c <= 16383 /\ 1 <= h /\ 1 <= s <= 63.
Proof.
  intros Hb. induction l as [|i l IH]; [done|]. simpl. destruct (partition_lchs nb buf i) as [g|] eqn:E; [|done].
  intros [= ->]. by eapply partition_lchs_spec.
Qed.

(** A geometry that is guessed can be used: neither heads nor sectors are zero. *)
Lemma guess_geometry_spec b ret buf : Forall is_byte buf -> bd_cyls b = 0 -> lchs_ok (fst (bdrv_guess_geometry b ret buf)).
Proof.
  intros Hb Hc. unfold bdrv_guess_geometry, lchs_ok. rewrite Hc. simpl negb. cbv iota.
  assert (forall nb, 1 <= fst (fst (default_geometry nb)) <= 16383) as Hd.
  { intros nb. unfold default_geometry. cbv zeta. generalize (i32 (nb / (16 * 63))). intros c. simpl. destruct (Z.ltb_spec 16383 c), (Z.ltb_spec c 2); lia. }
  destruct (guess_disk_lchs b ret buf) as [[[c h] s]|] eqn:E; [|simpl; specialize (Hd (bdrv_get_geometry b)); simpl in Hd; lia].
  destruct (Z.ltb_spec 16 h); [simpl; specialize (Hd (bdrv_get_geometry b)); simpl in Hd; lia|]. unfold guess_disk_lchs in E.
  destruct (ret <? 0); [done|]. destruct (_ || _); [done|]. apply first_lchs_spec in E; [|done]. simpl. lia.
Qed.

(** ** The drives *)

Definition IDE_DMA_BUF_SECTORS := 256.

(** At least five digits. *)
Definition print_05 (n : Z) : list ascii := let l := print_int n [] in replicate (5 - length l) (digit 0) ++ l.

Definition serial_text (given : list ascii) (drive_serial : Z) : list ascii :=
  match take 21 given with [] => chars "QM" ++ print_05 drive_serial | s => s end.

Section Init.
Context `{Clock} {Q : Machine}.

(** A drive as it is set up and reset; the memory is cleared, but not the buffer. *)
Definition new_drive (hd : option block_driver) (given : list ascii) (drive_serial : Z) (buffer : list Z) : IDEState :=
  let '(c, h, s) := match hd with Some b => fst (bdrv_guess_geometry b (bdrv_read 0 1) (disk_bytes [] 0)) | None => (0, 0, 0) end in
  let nb := match hd with Some b => bdrv_get_geometry b | None => 0 end in
  ide_reset (IDE (TaskFile 0 0 0 0 0 0 0 0 0 0 0 false)
    (TransferState 0 0 0 0 0 0 EndDummy 0 0 false false 0 0 buffer [] []) 0 h s nb (bool_decide (is_Some hd)) false
    (Identity c (serial_text given drive_serial) false (replicate 256 0) 0 []) (Atapi 0 0 0)).

(** Both can be used to address sectors. *)
Lemma new_drive_geometry b text n buf : bd_cyls b = 0 -> Forall is_byte (disk_bytes [] 0) ->
  1 <= heads (new_drive (Some b) text n buf) <= 16 /\ 1 <= sectors (new_drive (Some b) text n buf) <= 255.
Proof.
  intros Hc Hb. destruct (guess_geometry_spec b (bdrv_read 0 1) (disk_bytes [] 0) Hb Hc) as (_ & Hh & Hs). unfold new_drive.
  destruct (fst (bdrv_guess_geometry b _ _)) as [[c h] s]. simpl in *. lia.
Qed.

Definition new_engine (mem : Z -> Z) : BMDMAState := Bmdma 0 0 0 0 false 0 0 false None false 0 0 mem.

(** A disk or none with its serial number, and what is in the buffer. *)
Record slot := Slot { hd : option block_driver; given : list ascii; junk : list Z }.

(** The answer is also the next serial number; [conf] is the configuration file of the
    simulated drive. *)
Definition ide_init2 (conf : option (list ascii)) (mem : Z -> Z) (s0 s1 : slot) (drive_serial : Z) : M drive (controller * Z) :=
  SSD_INIT conf ;;
  mret (Controller (new_drive (hd s0) (given s0) drive_serial (junk s0)) (new_drive (hd s1) (given s1) (drive_serial + 1) (junk s1))
    false (new_engine mem), drive_serial + 2).

(** The two controllers of a machine. *)
Definition pci_piix3_ide_init (conf : option (list ascii)) (mem : Z -> Z) (s0 s1 s2 s3 : slot) : M drive (controller * controller) :=
  '(c0, n) ← ide_init2 conf mem s0 s1 1;
  '(c1, _) ← ide_init2 conf mem s2 s3 n;
  mret (c0, c1).

(** ** What a machine starts with *)

(** A slot with a disk, and the buffer that was allocated. *)
Definition filled (s : slot) : Prop := is_Some (hd s) /\ zlen (junk s) = 512 * IDE_DMA_BUF_SECTORS + 4.

Lemma new_drive_spec s n : filled s -> let d := new_drive (hd s) (given s) n (junk s) in
  busy d = false /\ bs d = true /\ buffered MAX_MULT_SECTORS d /\ mult_sectors (xf d) = MAX_MULT_SECTORS /\ bdrv_writes (xf d) = [].
Proof.
  intros [[b Hb] Hj] d. unfold d, new_drive, buffered, MAX_MULT_SECTORS, IDE_DMA_BUF_SECTORS in *. rewrite Hb. clear d.
  destruct (fst (bdrv_guess_geometry b _ _)) as [[c h] se]. rewrite bool_decide_eq_true_2 by by eexists.
  split; [done|]. split; [done|]. split; [|done]. split; [done|]. cbn [ide_reset ide_set_signature xf set_xf set_tf set_media_changed set_io_buffer set_data_end set_data_ptr set_end_transfer_func set_status set_mult_sectors io_buffer].
  rewrite length_fill; [lia|]. simpl. lia.
Qed.

Context (cfg : config) (Hok : cfg_ok cfg) (M : Z).

(** The simulated drive is started once. *)
Lemma init_again conf h j d : serves cfg M h j d -> wp (SSD_INIT conf) (fun _ d' => d' = d) d.
Proof. intros (_ & Hi & _). unfold SSD_INIT, FTL_INIT. wp_go. rewrite Hi. simpl. by wp_go. Qed.

Lemma init_spec conf mem s0 s1 s2 s3 h j d : filled s0 -> (wp (SSD_INIT conf) (fun _ d' => serves cfg M h j d') d) ->
  wp (pci_piix3_ide_init conf mem s0 s1 s2 s3) (fun cs d' => serves cfg M h j d' /\ settled MAX_MULT_SECTORS (fst cs) /\
    shows (fst cs) (View (disk_bytes []) mem)) d.
Proof.
  intros Hs0 Hinit. destruct (new_drive_spec s0 1 Hs0) as (Hbusy & Hbs & Hbuf & Hm & Hw).
  unfold pci_piix3_ide_init, ide_init2. apply wp_bind, wp_bind. eapply wp_mono; [exact Hinit|]. intros [] d1 Hd1. cbv beta in Hd1.
  apply wp_ret. cbv beta iota. apply wp_bind, wp_bind. eapply wp_mono; [by eapply init_again|]. intros [] d2 ->.
  apply wp_ret. cbv beta iota. apply wp_ret. split; [done|]. split.
  - split; [done|]. split; [done|]. split; [done|]. split; [exact Hbuf|]. split; [exact Hm|]. by unfold MAX_MULT_SECTORS.
  - split; [|done]. intros x. cbn [fst drive_0]. by rewrite Hw.
Qed.

End Init.
