(* ===== verification/IdeProps.v ===== *)
(** * The disk controller: theorems

    What a guest asks through the ports of the controller reaches the simulated
    drive, and the drive serves it. *)

From stdpp Require Import prelude gmap strings.
From S2P Require Import Prelude Config Blocks Mapping Device Perf SsdIo Gc Ftl Persist Ssd.
From S2P Require Import Host Boot SsdLaws Timing SsdSim Space Session Example Text.
From S2P Require Import Bytes Identify Ide IdeDisk IdeSector IdePio IdePorts IdeDma IdeGuest IdeIdentify IdeSave IdeSession IdeInit.

Local Open Scope Z_scope.

Lemma retry_bits x : bit x BM_STATUS_DMA_RETRY = false -> bit (Z.lor x BM_STATUS_PIO_RETRY) BM_STATUS_DMA_RETRY = false.
Proof. unfold bit. rewrite Z.land_lor_distr_l. change (Z.land BM_STATUS_PIO_RETRY _) with 0. by rewrite Z.lor_0_r. Qed.

Lemma retry_set x : bit (Z.lor x BM_STATUS_PIO_RETRY) BM_STATUS_PIO_RETRY = true.
Proof.
  unfold bit. rewrite Z.land_lor_distr_l. destruct (Z.eqb_spec (Z.lor (Z.land x BM_STATUS_PIO_RETRY) (Z.land BM_STATUS_PIO_RETRY BM_STATUS_PIO_RETRY)) 0) as [E|]; [|done].
  by apply Z.lor_eq_0_iff in E as [_ E].
Qed.

Section Theorems.
Context (cfg : config) (Hok : cfg_ok cfg) (HL : PLANES_PER_FLASH cfg = 1) {C : Clock} {CL : ClockLaws C}.
Context (M : Z) (HM : 0 <= M < (BLOCK_NB cfg * FLASH_NB cfg - FLASH_NB cfg * PLANES_PER_FLASH cfg) * PAGE_NB cfg).
Context (HV : 1 <= GC_VICTIM_NB cfg) {Q : Machine} {B : BlockLayer Q} (Hssd : is_ssd = true).

(** A guest has a disk.  For any sequence of reads and writes through the data
    port and by DMA, and of stores to the memory in between, every command ends, and
    the words the guest reads, the sectors of the disk and the memory are those of a
    disk of sectors with a memory; the simulated drive gets the requests for the
    sectors in order, and serves them. *)
Theorem guest_session m os c v h j d : ops_ok (fits cfg M) m v os -> settled m c -> shows c v -> serves cfg M h j d ->
  j + zlen (concat (map (op_asks m) os)) < 2 ^ 32 ->
  wp (guest_run os) (fun outs w => outs = fst (view_run os v) /\ settled m (fst w) /\ shows (fst w) (snd (view_run os v)) /\
    serves cfg M (foldl (host_submit cfg) h (concat (map (op_asks m) os))) (j + zlen (concat (map (op_asks m) os))) (snd w)) (c, d).
Proof using Hok HL HM HV CL Hssd B. by apply guest_runs. Qed.

(** C2.  From power on, a guest has a disk.  The controllers are set up and the
    simulated drive is started, once, although each of the two controllers starts it;
    every session of the guest then gives the words, the disk and the memory of a disk
    of sectors with the content of the image, and the drive serves its requests. *)
Theorem machine_session conf mem s0 s1 s2 s3 t os : INIT_SSD_CONFIG conf = Ret cfg -> filled s0 ->
  ops_ok (fits cfg M) MAX_MULT_SECTORS (View (disk_bytes []) mem) os ->
  zlen (concat (map (op_asks MAX_MULT_SECTORS) os)) < 2 ^ 32 ->
  wp (pci_piix3_ide_init conf mem s0 s1 s2 s3) (fun cs d => wp (guest_run os) (fun outs w =>
    outs = fst (view_run os (View (disk_bytes []) mem)) /\ shows (fst w) (snd (view_run os (View (disk_bytes []) mem))) /\
    serves cfg M (foldl (host_submit cfg) (Host ∅ 0) (concat (map (op_asks MAX_MULT_SECTORS) os)))
      (zlen (concat (map (op_asks MAX_MULT_SECTORS) os))) (snd w)) (fst cs, d)) (start t no_files).
Proof using Hok HL HM HV CL Hssd B.
  intros Hconf Hs0 Hos Hlen. eapply wp_mono; [by apply (init_spec cfg M conf mem s0 s1 s2 s3 (Host ∅ 0) 0); [|apply init_serves]|].
  intros cs d (Hs & Hset & Hsh). eapply wp_mono; [apply (guest_runs cfg Hok HL M HM HV Hssd _ os (fst cs) _ (Host ∅ 0) 0 d Hos Hset Hsh Hs Hlen)|].
  by intros outs w (? & _ & ? & ?).
Qed.


(** C13.  A guest reads back what it wrote.  Words that the guest writes through the
    data port with any of the write commands are those it reads with any of the read
    commands, also after a read or write of other sectors by DMA in between. *)
Theorem guest_reads_back m op op' a k vs how f op2 b n p areas c v h j d :
  ops_ok (fits cfg M) m v [PioWrite op a k vs; DmaMove how f op2 b n p areas; PioRead op' a k] -> Forall (fun w => 0 <= w < 2 ^ 16) vs ->
  b + n <= a \/ a + k <= b -> settled m c -> shows c v -> serves cfg M h j d ->
  j + zlen (concat (map (op_asks m) [PioWrite op a k vs; DmaMove how f op2 b n p areas; PioRead op' a k])) < 2 ^ 32 ->
  wp (guest_run [PioWrite op a k vs; DmaMove how f op2 b n p areas; PioRead op' a k]) (fun outs w => outs = [[]; []; vs]) (c, d).
Proof using Hok HL HM HV CL Hssd B.
  intros Hops Hvs Hother Hset Hsh Hs Hj. eapply wp_mono; [by eapply guest_runs|]. intros outs w (-> & _).
  destruct Hops as ([[(? & ? & _) _] Hl] & ((_ & Hk & _) & _ & _ & Hp & _ & _ & _ & _ & Ht) & _). simpl. do 2 f_equal.
  assert (get_sectors (put_sectors a (words_bytes vs) (v_disk v)) a k = words_bytes vs) as E by (apply get_put_sectors; [|rewrite length_words_bytes]; lia).
  destruct f; simpl; [|rewrite (get_put_other _ _ _ n); [|rewrite (length_gather _ areas); [done|by eapply prd_areas]|lia]];
    by rewrite E, words_roundtrip.
Qed.

(** C14.  A guest writes the drive through the data port.  The guest writes the
    address and the number of sectors to the ports, with 28-bit or 48-bit addresses,
    then the command, and all words of the data.  The drive gets the sectors once, in
    order, one at a time or [mult_sectors] at a time, and serves them; the block layer
    gets the bytes of each request; the controller ends ready for the next command
    with its registers at the sector after the last. *)
Theorem guest_pio_served op o ext q a k vs c h j d :
  opcode op = (o, ext) -> pio_call o (mult_sectors (xf (drive_0 c))) = Some (true, q) -> ready c -> buffered q (drive_0 c) -> 0 < q ->
  0 <= a -> 1 <= k <= max_sectors ext -> a + k < max_address ext -> a + k <= 2 ^ 31 -> zlen vs = 256 * k ->
  Forall (fits cfg M) (asked true q a k) -> serves cfg M h j d -> j + zlen (asked true q a k) < 2 ^ 32 ->
  wp (guest_pio_write op ext a k vs) (fun _ w =>
    serves cfg M (foldl (host_submit cfg) h (asked true q a k)) (j + zlen (asked true q a k)) (snd w) /\
    done_at (a + k) (bdrv_writes (xf (drive_0 c)) ++ pieces (requests q a k) (words_bytes vs)) (unit_0 c) (unit_0 (fst w))) (c, d).
Proof using Hok HL HM HV CL Hssd B.
  intros Hop Hc Hr Hbuf Hq Ha Hk Hlim H31 Hvs Hfit Hs Hj. destruct (asked_run cfg Hok HL M HM HV true q a k h j d Hfit Hs Hj) as (d' & Hrun & Hs').
  eapply wp_mono; [by apply (guest_write_spec (K := SsdDisk) Hssd op o ext q a k vs c d d')|]. by intros ? w (-> & _ & ?).
Qed.

(** C15.  A guest reads and writes the drive by DMA.  The guest gives the engine,
    by bytes, by words or as a whole, the address of
    a table of memory areas that has room for just the sectors, writes the
    registers and the command, and starts the engine.  The drive gets one request
    with all sectors and serves it; the bytes go from the areas to the block layer,
    or from the sectors of the disk to the areas; at the end of the transfer the
    engine has stopped and the controller is ready for the next command. *)
Theorem guest_dma_served how op o ext f a k p l c h j d :
  opcode op = (o, ext) -> dma_call o = Some f -> ready c ->
  bit (bm_status (bmdma c)) BM_STATUS_DMAING = false -> 0 <= bm_addr (bmdma c) < 2 ^ 32 -> prd_table (memory (bmdma c)) p l -> Z.land p 3 = 0 -> 0 <= p -> p + 4096 < 2 ^ 32 ->
  8 * zlen l <= 4096 -> total l = 512 * k ->
  0 <= a < 2 ^ 31 -> 1 <= k <= max_sectors ext -> a + k < max_address ext ->
  fits cfg M (ask (writes f) k a) -> serves cfg M h j d -> j < 2 ^ 32 - 1 ->
  wp (guest_dma how op f ext a k p) (fun _ w =>
    serves cfg M (host_submit cfg h (ask (writes f) k a)) (j + 1) (snd w) /\
    dma_done_at f a k l (unit_0 c) (unit_0 (fst w))) (c, d).
Proof using Hok HL HM HV CL Hssd B.
  intros Hop Hc Hr Hs Hba Hp H3 Hp0 Hp1 Hl Ht Ha Hk Hlim Hfit Hd Hj.
  pose proof (submit_serves cfg Hok HL M HM HV (ask (writes f) k a) h j d Hfit Hd Hj) as H.
  rewrite <- call_asked in H. destruct (wp_run _ _ _ H) as ([] & d' & E & Hd').
  eapply wp_mono; [apply (guest_dma_spec (K := SsdDisk) Hssd how op o ext f a k p l c d d'); (done || lia)|]. by intros ? w (-> & _ & _ & ?).
Qed.

End Theorems.

Section Identification.
Context {K : Disk} {Q : Machine}.

(** C18.  A drive tells what it is.  A guest that asks drive 0 for its identification
    gets 256 words that give the number of sectors, with 48-bit addresses and, modulo
    2^32, with 28-bit addresses, and the serial number, filled up with blanks; the
    controller is then ready for the next command, and the drive tells the same when
    it is asked again. *)
Theorem guest_identified c d : ready c -> is_cf (drive_0 c) = false -> 512 <= zlen (io_buffer (xf (drive_0 c))) ->
  identify_set (ident (drive_0 c)) = false -> 0 <= nb_sectors (drive_0 c) < 2 ^ 63 ->
  wp guest_identify (fun ws w => snd w = d /\ capacity_48 ws = nb_sectors (drive_0 c) /\ capacity_28 ws = u32 (nb_sectors (drive_0 c)) /\
    text_of ws 10 10 = map (pad_char (drive_serial_str (ident (drive_0 c)))) (seq 0 20) /\
    status (xf (drive_0 (fst w))) = Z.lor READY_STAT SEEK_STAT /\ told (drive_0 (fst w)) = ws) (c, d).
Proof.
  intros Hr Hcf Hbuf Hset Hnb. eapply wp_mono; [apply guest_identify_spec; try done; by rewrite Hset|].
  intros ws w (-> & ? & E & _ & _ & ?). unfold told at 1 2 3. rewrite Hset.
  destruct (identify_capacity (cylinders (ident (drive_0 c))) (heads (drive_0 c)) (sectors (drive_0 c)) (nb_sectors (drive_0 c))
    (mult_sectors (xf (drive_0 c))) (drive_serial_str (ident (drive_0 c))) Hnb) as [E1 E2].
  split; [done|]. split; [exact E1|]. split; [exact E2|]. split; [apply identify_serial|]. split; [done|]. exact E.
Qed.

(** C39.  The transfer mode that a guest sets is in the words of the drive only when
    the drive has told them before.  The mode goes to the words that are kept; the
    first identification makes these again, so that a mode set before it is lost. *)
Theorem mode_told mode ts c d : ready c -> is_cf (drive_0 c) = false -> 512 <= zlen (io_buffer (xf (drive_0 c))) ->
  (identify_set (ident (drive_0 c)) = true -> are_words (identify_data (ident (drive_0 c)))) -> transfer_mode mode = Some ts ->
  wp (guest_set_mode mode ;; guest_identify) (fun ws w => snd w = d /\
    ws = if identify_set (ident (drive_0 c)) then put_all ts (told (drive_0 c)) else told (drive_0 c)) (c, d).
Proof. apply mode_identify_spec. Qed.

End Identification.

(** C17.  A snapshot gives the controllers back.  When a device that has the same disks
    and buffers loads what [pci_ide_save] wrote, all of it is read, the guest reads the
    same from every register of both channels, and a controller between two commands is
    between two commands again. *)
Theorem snapshot_restored i j m d d0 f : pci_fits (pci d) (pci d0) -> channel_ok (channel_0 d) -> channel_ok (channel_1 d) ->
  channel_fits (channel_0 d0) -> channel_fits (channel_1 d0) ->
  map bs [drive_0 (channel_0 d0); drive_1 (channel_0 d0); drive_0 (channel_1 d0); drive_1 (channel_1 d0)] =
    map bs [drive_0 (channel_0 d); drive_1 (channel_0 d); drive_0 (channel_1 d); drive_1 (channel_1 d)] ->
  length (io_buffer (xf (drive_0 (channel_0 d0)))) = length (io_buffer (xf (drive_0 (channel_0 d)))) ->
  wp (pci_ide_load 3 d0) (fun r f' => fst r = 0 /\ f' = f /\
    (forall n, ide_ioport_read n (channel_0 (snd r)) = ide_ioport_read n (channel_0 d)) /\
    (forall n, ide_ioport_read n (channel_1 (snd r)) = ide_ioport_read n (channel_1 d)) /\
    (settled m (channel_0 d) -> settled m (channel_0 (snd r)))) (pci_ide_save i j d ++ f).
Proof.
  intros Hp H0 H1 F0 F1 [= E1 E2 E3 E4] El. eapply wp_mono; [by apply pci_ide_load_spec|]. intros r f' [-> ->]. split; [done|]. split; [done|].
  split; [by intros n; apply restored_registers|]. split; [by intros n; apply restored_registers|].
  intros ((Hb & Hb0 & Hbs) & Hd & Ha & [_ Hbuf] & Hm). unfold settled, ready, buffered, current in *. simpl. rewrite El, E1.
  split; [|done]. split; [|done]. by destruct (cur_drive (channel_0 d)).
Qed.

Section Registers.
Context {K : Disk}.

(** C37.  The current sector survives the registers.  On a drive with the geometry that
    is guessed for its disk, whatever its partition table says, [ide_set_sector] spreads
    a sector over the registers, in the 28-bit, 48-bit and cylinder-head-sector forms,
    so that [ide_get_sector] gives it back, for all sectors of the form; the other
    registers, the engine and the drive are left alone. *)
Theorem sector_roundtrip {Q : Machine} disk_ text j buf n s b d : bd_cyls disk_ = 0 -> Forall is_byte (disk_bytes [] 0) ->
  heads s = heads (new_drive (Some disk_) text j buf) -> sectors s = sectors (new_drive (Some disk_) text j buf) ->
  0 <= select (tf s) < 256 -> 0 <= n < limit s ->
  wp (ide_set_sector n) (fun _ w => at_sector s n (fst (fst w)) /\ snd (fst w) = b /\ snd w = d) (s, b, d).
Proof.
  intros Hc Hb Hh Hs Hsel Hn. apply set_sector_spec; [|done]. split; [done|]. intros _. rewrite Hh, Hs. by apply new_drive_geometry.
Qed.

(** The machine stops at each failed write, and is started again as [Q']. *)
Context {Q Q' : Machine} (Hstop : drive_get_onerror (Machine := Q) = BLOCK_ERR_STOP_ANY).
Context (Hssd : is_ssd (Machine := Q') = true) (Hwrite : forall a n, bdrv_write (Machine := Q') a n = 0).

(** C38.  A write that fails is done again.  When the block layer fails and the
    machine is to stop at errors, [ide_sector_write] does not call the simulated
    drive; when the machine goes on, [ide_dma_restart_bh] does the whole write: the
    drive gets the sectors once, and the command ends, or goes on, as if there had
    been no error. *)
Theorem failed_write_retried q a k s b d d' : bdrv_write (Machine := Q) a (Z.min q k) <> 0 ->
  bit (bm_status b) BM_STATUS_DMA_RETRY = false ->
  geometry_ok s -> ide_get_sector s = a -> nsector (tf s) = k -> req_nb_sectors (xf s) = q -> buffered q s ->
  0 < q -> 0 < k < 2 ^ 31 -> 0 <= a -> a + k < limit s -> a + k <= 2 ^ 31 -> ssd_write (Z.min q k) a d = Ret (tt, d') ->
  wp (ide_sector_write (Q := Q)) (fun _ w => snd w = d /\
    wp (ide_dma_restart_bh (Q := Q')) (fun _ w' => snd w' = d' /\
      if k <=? q then finished (a + k) (fst (fst w')) else writing q (a + q) (k - q) (fst (fst w'))) w) (s, b, d).
Proof using Hstop Hssd Hwrite.
  intros Hfail Hb Hg Ha Hk Hq Hbuf Hq0 Hk0 Ha0 Hlim H31 Hd. unfold ide_sector_write at 1, ide_handle_write_error, get_drive, mod_xf, mod_bm, load_bytes, get_xf. wp_go. simpl.
  change (ide_get_sector (set_xf _ s)) with (ide_get_sector s). rewrite Hk, Hq, Ha, i32_id, min_if by lia.
  rewrite (proj2 (Z.eqb_neq _ _) Hfail), Hstop. apply need_disk_spec; [apply Hbuf|]. apply wp_bind. wp_go.
  eapply wp_need; [apply peek_app; [lia|simpl; destruct Hbuf; lia]|]. wp_go. simpl. wp_go. split; [done|]. unfold ide_dma_restart_bh, get_bm, mod_bm. wp_go. simpl.
  rewrite (retry_bits _ Hb), retry_set. wp_go. simpl.
  eapply wp_mono; [apply (sector_write_spec Hssd Hwrite q a k _ _ d d'); done|]. intros ? w (? & _ & _ & _ & ?). done.
Qed.

End Registers.

(** ** A machine *)

(** A disk that counts the sectors written. *)
Definition count_disk : Disk := {| disk := Z; ssd_read _ _ := mret tt; ssd_write n _ := modify (Z.add n) |}.

(** The block layer over a disk of zeros. *)
Definition plain_disk (ws : list (Z * list Z)) (x : Z) : list Z :=
  foldl (fun old w => put_sectors (fst w) (snd w) (fun _ => old) x) (replicate 512 0) ws.

(** A machine whose writes succeed or fail. *)
Definition pc (K : Disk) (works : bool) : Machine := {|
  is_ssd := true;
  bdrv_read _ _ := 0;
  bdrv_write _ _ := if works then 0 else -5;
  dma_submit _ := true;
  drive_get_onerror := BLOCK_ERR_STOP_ANY;
  win2k_install_hack := false;
  disk_bytes := plain_disk
|}.

#[local] Instance pc_layer (K : Disk) : BlockLayer (pc K true).
Proof.
  split; try done.
  - intros ws a. change (zlen (plain_disk ws a) = 512). induction ws as [|[b bytes] ws IH] using rev_ind; [done|].
    unfold plain_disk in *. rewrite foldl_app. simpl. unfold put_sectors. destruct (Z.leb_spec b a); [|done]. simpl.
    destruct (Z.leb_spec (512 * (a - b + 1)) (zlen bytes)); [|done]. rewrite length_take, length_drop. lia.
  - intros ws a bytes x. simpl. unfold plain_disk at 1. by rewrite foldl_app.
Qed.

(** A drive with interrupts after each two sectors, at rest at sector [a] of a
    command of [k] sectors, and the engine at rest. *)
Definition pc_drive (a k : Z) : IDEState :=
  IDE (TaskFile 0 k a 0 0 0 0 0 0 0 0xe0 false)
      (TransferState 0x50 0 2 2 0 0 EndWrite 0 0 false false 0 0 (replicate (Z.to_nat 8196) 0) [] []) 0 16 63 1024 true false
      (Identity 1 (chars "QM00001"%string) false (replicate 256 0) 0 []) (Atapi 0 0 0).

(** The memory has a table of one area of three sectors at 0x2000. *)
Definition pc_memory : Z -> Z := mem_store 0x2000 [0; 0; 1; 0; 0; 6; 0; 0x80] (fun _ => 0).
Definition pc_engine : BMDMAState := Bmdma 0 0 0 0 false 0 0 false None false 0 0 pc_memory.
Definition pc_controller : controller := Controller (pc_drive 0 0) (pc_drive 0 0) false pc_engine.

Lemma pc_settled : settled 2 pc_controller.
Proof. unfold settled, ready, buffered, MAX_MULT_SECTORS. split_and!; try done; lia. Qed.

Lemma pc_shows K : shows (Q := pc K true) pc_controller (View (fun _ => replicate 512 0) pc_memory).
Proof. done. Qed.

Lemma small_fits s l : small_accepts s l = true -> (s + l <=? 364) && (zlen (touched small s l) <=? 2) = true ->
  fits small small_use (Write s l).
Proof.
  rewrite andb_true_iff. intros Ha [H1 H2]. split; [by apply small_request|]. apply Z.leb_le in H1, H2. split.
  - change (small_use * SECTORS_PER_PAGE small) with 364. done.
  - change (share small small_use) with 6. change (PAGE_NB small) with 8. lia.
Qed.

(** The guest stores data in the area of its table, writes it by DMA, and reads the
    first of the three sectors through the data port. *)
Definition pc_ops : list guest_op :=
  [Store 0x10000 (replicate 1536 7); DmaMove ByWord WriteCallback 0xca 0 3 0x2000 [(0x10000, 1536)]; PioRead 0x20 0 1].

Lemma pc_ops_ok : ops_ok (fits small small_use) 2 (View (fun _ => replicate 512 0) pc_memory) pc_ops.
Proof.
  split; [done|]. split; [|split; [|done]].
  - split; [unfold in_reach; simpl; lia|]. split; [done|]. split; [by apply small_fits|]. split; [exists 0x80000600; by vm_compute|].
    simpl. split_and!; (done || lia).
  - split; [unfold in_reach; simpl; lia|]. simpl. split; [done|]. split; [lia|]. apply Forall_singleton. by apply small_request.
Qed.

Lemma guest_session_witness :
  wp (guest_run (Q := pc SsdDisk true) pc_ops) (fun outs w => outs = [[]; []; replicate 256 0x0707] /\
    serves small small_use (host_write small 0 3 small_disk) 112 (snd w)) (pc_controller, small_busy).
Proof.
  eapply wp_mono.
  - apply (guest_session small small_ok eq_refl small_use small_room ltac:(done) (Q := pc SsdDisk true) eq_refl
      2 pc_ops pc_controller _ small_disk 110 small_busy pc_ops_ok pc_settled (pc_shows _) small_busy_serves). reflexivity.
  - intros outs w (-> & _ & _ & Hs). split; [by vm_compute|exact Hs].
Defined.

(** The guest writes sector 10, reads sectors 0 to 2 by DMA, and reads sector 10. *)
Lemma guest_reads_back_witness :
  wp (guest_run (Q := pc SsdDisk true) [PioWrite 0x30 10 1 (replicate 256 0x1234);
    DmaMove ByByte ReadCallback 0x25 0 3 0x2000 [(0x10000, 1536)]; PioRead 0xc4 10 1])
    (fun outs w => outs = [[]; []; replicate 256 0x1234]) (pc_controller, small_busy).
Proof.
  apply (guest_reads_back small small_ok eq_refl small_use small_room ltac:(done) (Q := pc SsdDisk true) eq_refl
    2 0x30 0xc4 10 1 (replicate 256 0x1234) ByByte ReadCallback 0x25 0 3 0x2000 [(0x10000, 1536)] pc_controller
    (View (fun _ => replicate 512 0) pc_memory) small_disk 110 small_busy);
    [|apply Forall_replicate; lia|lia|exact pc_settled|apply pc_shows|exact small_busy_serves|reflexivity].
  split; [|split; [|split; [|done]]].
  - split; [|reflexivity]. split; [unfold in_reach; simpl; lia|]. simpl. split; [done|]. split; [lia|]. apply Forall_singleton. by apply small_fits.
  - split; [unfold in_reach; simpl; lia|]. split; [done|]. split; [by apply small_request|]. split; [exists 0x80000600; by vm_compute|].
    simpl. split_and!; (done || lia).
  - split; [unfold in_reach; simpl; lia|]. simpl. split; [done|]. split; [lia|]. apply Forall_singleton. by apply small_request.
Defined.

(** The guest writes sectors 0 to 2 with [WIN_MULTWRITE]: two requests. *)
Lemma guest_pio_served_witness :
  wp (guest_pio_write (Q := pc SsdDisk true) 0xc5 false 0 3 (replicate 768 9)) (fun _ w =>
    serves small small_use (host_write small 2 1 (host_write small 0 2 small_disk)) 112 (snd w) /\
    done_at 3 [(0, words_bytes (replicate 512 9)); (2, words_bytes (replicate 256 9))] (unit_0 pc_controller) (unit_0 (fst w)))
    (pc_controller, small_busy).
Proof.
  apply (guest_pio_served small small_ok eq_refl small_use small_room ltac:(done) (Q := pc SsdDisk true) eq_refl
    0xc5 CmdMultWrite false 2 0 3 (replicate 768 9) pc_controller small_disk 110 small_busy);
    [reflexivity|reflexivity|apply pc_settled|eapply buffered_less; [apply pc_settled|done]|lia|lia|simpl; lia|simpl; lia|lia|reflexivity| |exact small_busy_serves|reflexivity].
  apply Forall_cons; split; [by apply small_fits|]. apply Forall_cons; split; [by apply small_fits|apply Forall_nil_2].
Defined.

(** The guest writes them with [WIN_WRITEDMA_EXT]: one request. *)
Lemma guest_dma_served_witness :
  wp (guest_dma (Q := pc SsdDisk true) AsLong 0x35 WriteCallback true 0 3 0x2000) (fun _ w =>
    serves small small_use (host_write small 0 3 small_disk) 111 (snd w) /\
    dma_done_at (Q := pc SsdDisk true) WriteCallback 0 3 [(0x10000, 1536)] (unit_0 pc_controller) (unit_0 (fst w))) (pc_controller, small_busy).
Proof.
  apply (guest_dma_served small small_ok eq_refl small_use small_room ltac:(done) (Q := pc SsdDisk true) eq_refl
    AsLong 0x35 CmdWriteDma true WriteCallback 0 3 0x2000 [(0x10000, 1536)] pc_controller small_disk 110 small_busy);
    [reflexivity|reflexivity|apply pc_settled|reflexivity|simpl; lia|exists 0x80000600; by vm_compute|reflexivity|lia|lia|simpl; lia
    |reflexivity|lia|simpl; lia|simpl; lia|by apply small_fits|exact small_busy_serves|lia].
Defined.

Lemma guest_identified_witness :
  wp (guest_identify (K := count_disk) (Q := pc count_disk true)) (fun ws w => snd w = 5 /\ capacity_48 ws = 1024 /\ capacity_28 ws = 1024 /\
    text_of ws 10 10 = [81; 77; 48; 48; 48; 48; 49] ++ replicate 13 32 /\
    status (xf (drive_0 (fst w))) = Z.lor READY_STAT SEEK_STAT /\ told (drive_0 (fst w)) = ws) (pc_controller, 5).
Proof.
  apply (guest_identified (K := count_disk) (Q := pc count_disk true) pc_controller 5); [apply pc_settled|done|by vm_compute|done|done].
Defined.

(** A mode set before the first identification is not told. *)
Lemma mode_told_witness :
  wp (guest_set_mode (K := count_disk) (Q := pc count_disk true) 0x42 ;; guest_identify (K := count_disk) (Q := pc count_disk true)) (fun ws w => snd w = 5 /\
    word_at ws 88 = 0x203f) (pc_controller, 5).
Proof.
  eapply wp_mono; [apply (mode_told (K := count_disk) (Q := pc count_disk true) 0x42 [(62, 0x07); (63, 0x07); (88, Z.lor 0x3f 0x400)]
    pc_controller 5); [apply pc_settled|done|by vm_compute|done|done]|].
  intros ws w [? ->]. split; [done|]. by vm_compute.
Defined.

(** A disk of 1024 sectors without a partition table. *)
Lemma sector_roundtrip_witness :
  wp (ide_set_sector (K := count_disk) 0x123456) (fun _ w => at_sector (pc_drive 0 1) 0x123456 (fst (fst w)) /\
    snd (fst w) = pc_engine /\ snd w = 0) (pc_drive 0 1, pc_engine, 0).
Proof.
  apply (sector_roundtrip (K := count_disk) (Q := pc count_disk true) (BlockDriver 524288 0 0 0 0 []) [] 1 [] 0x123456 (pc_drive 0 1) pc_engine 0);
    [done|apply Forall_replicate; done|done|done|simpl; lia|by vm_compute].
Defined.

Lemma failed_write_retried_witness :
  wp (ide_sector_write (K := count_disk) (Q := pc count_disk false)) (fun _ w => snd w = 5 /\
    wp (ide_dma_restart_bh (K := count_disk) (Q := pc count_disk true)) (fun _ w' => snd w' = 7 /\
      writing 2 9 1 (fst (fst w'))) w) (pc_drive 7 3, pc_engine, 5).
Proof.
  apply (failed_write_retried (K := count_disk) (Q := pc count_disk false) (Q' := pc count_disk true)
    eq_refl eq_refl (fun _ _ => eq_refl) 2 7 3 (pc_drive 7 3) pc_engine 5 7); done.
Defined.

(** A machine with one disk of 1024 sectors, and one without a serial number. *)
Definition pc_slot : slot := Slot (Some (BlockDriver 524288 0 0 0 0 [])) [] (replicate (Z.to_nat 131076) 0).
Definition no_slot : slot := Slot None [] (replicate (Z.to_nat 131076) 0).

Lemma pc_filled : filled pc_slot.
Proof. split; [by eexists|]. cbn [pc_slot junk]. by rewrite length_replicate, Z2Nat.id. Qed.

Lemma machine_session_witness :
  wp (pci_piix3_ide_init (Q := pc SsdDisk true) (Some small_conf) pc_memory pc_slot no_slot no_slot no_slot) (fun cs d =>
    wp (guest_run (Q := pc SsdDisk true) pc_ops) (fun outs w => outs = [[]; []; replicate 256 0x0707] /\
      serves small small_use (host_write small 0 3 (Host ∅ 0)) 2 (snd w)) (fst cs, d)) (start 0 no_files).
Proof.
  eapply wp_mono.
  - apply (machine_session small small_ok eq_refl small_use small_room ltac:(done) (Q := pc SsdDisk true) eq_refl
      (Some small_conf) pc_memory pc_slot no_slot no_slot no_slot 0 pc_ops small_init pc_filled); [|reflexivity].
    split; [done|]. split; [|split; [|done]]; [apply pc_ops_ok|]. split; [unfold in_reach; simpl; lia|].
    simpl. split; [done|]. split; [lia|]. apply Forall_singleton. by apply small_request.
  - intros cs d Hw. eapply wp_mono; [exact Hw|]. intros outs w (-> & _ & Hs). split; [by vm_compute|exact Hs].
Defined.



(** A device with a configuration of zeros, one with this machine and one that has just
    been set up. *)
Definition pc_pci : pci_device := PciDevice (replicate 256 0) (replicate 256 0) (replicate 256 0) [0; 0; 0; 0].
Definition pc_device (a k : Z) : pci_ide := PciIde pc_pci (Controller (pc_drive a k) (pc_drive a k) false pc_engine) pc_controller.

Lemma pc_regs a k : is_byte a -> 0 <= k < 256 -> regs_ok (pc_drive a k).
Proof. unfold is_byte. intros Ha Hk. split; [repeat (apply Forall_cons_2; [simpl; unfold is_byte; lia|]); apply Forall_nil_2|]. split; [simpl; lia|]. split; [simpl; lia|done]. Qed.

Lemma pc_channel a k : is_byte a -> 0 <= k < 256 -> channel_ok (Controller (pc_drive a k) (pc_drive a k) false pc_engine).
Proof.
  intros Ha Hk. split; [by apply pc_regs|]. split; [by apply pc_regs|]. split; [by simpl|]. split_and!; simpl; by unfold is_byte.
Qed.

Lemma snapshot_restored_witness :
  wp (pci_ide_load 3 (pc_device 0 0)) (fun r f' => fst r = 0 /\ f' = [1; 2; 3] /\
    ide_ioport_read 3 (channel_0 (snd r)) = 77 /\ settled 2 (channel_0 (snd r))) (pci_ide_save 0 0 (pc_device 77 5) ++ [1; 2; 3]).
Proof.
  eapply wp_mono.
  - apply (snapshot_restored 0 0 2 (pc_device 77 5) (pc_device 0 0) [1; 2; 3]);
      [|by apply pc_channel|by apply pc_channel|done|done|done|done].
    split; [done|]. split; [apply Forall_replicate; done|]. split; [by vm_compute|]. exists 0, 0, 0, 0. split; [done|].
    repeat (apply Forall_cons_2; [lia|]). apply Forall_nil_2.
  - intros r f' (? & ? & E & _ & Hs). split; [done|]. split; [done|]. rewrite E. split; [done|]. apply Hs. apply pc_settled.
Defined.
