(* ===== verification/CacheProps.v ===== *)
(** * The mapping cache: theorems

    The choice of a victim, the well-formedness of the cache, and the answers of
    the translation layer through the cache. *)

From stdpp Require Import prelude gmap strings.
From Stdlib Require Import Ascii.
From Stdlib Require String.
From S2P Require Import Prelude Config Blocks Mapping Device Perf SsdIo Gc Ftl Persist Ssd.
From S2P Require Import Tables Lists Victims Inv Collect Host Boot SsdLaws Timing SsdSim Space Session Example Cache FirmRing.

Local Open Scope Z_scope.

Section Clock.
Context (size : Z) (Hsize : 0 < size < 2 ^ 31).

(** [c'] is [c] after the hand has passed over [j] entries. *)
Record swept (c : cache) (j : Z) (c' : cache) : Prop := {
  sw_hand : clock_hand c' = adv size (clock_hand c) j;
  sw_idx : zlen (cache_idx_table c') = size;
  sw_bits i : 0 <= i < size -> aget (cache_idx_table c') (adv size (clock_hand c) i) =
    (if i <? j then with_clock 0 else id) <$> aget (cache_idx_table c) (adv size (clock_hand c) i);
  sw_rest : c' = set_clock_hand (clock_hand c') (set_idx_table (cache_idx_table c') c)
}.

(** The entry [k] steps from the hand is the first one with a clear bit, or the
    first one of all when no bit is clear. *)
Definition second_chance (c : cache) (k : Z) : Prop :=
  0 <= k <= size /\
  (forall i e, 0 <= i < k -> aget (cache_idx_table c) (adv size (clock_hand c) i) = Some e -> clock_bit e <> 0) /\
  (k < size -> forall e, aget (cache_idx_table c) (adv size (clock_hand c) k) = Some e -> clock_bit e = 0).

Lemma hand_step p : 0 <= p < size ->
  (if p =? u32 size then 0 else p) = p /\ (if u32 (p + 1) =? u32 size then 0 else u32 (p + 1)) = adv size p 1.
Proof using Hsize.
  intros Hp. rewrite !u32_id by lia. rewrite (proj2 (Z.eqb_neq p size)) by lia. split; [done|].
  by rewrite <- next_adv.
Qed.

Lemma swept_step c j c1 e v l : swept c j c1 -> 0 <= j < size -> aget (cache_idx_table c1) (adv size (clock_hand c) j) = Some e ->
  aset (cache_idx_table c1) (adv size (clock_hand c) j) (with_clock v e) = Some l -> v = 0 ->
  swept c (j + 1) (set_idx_table l (set_clock_hand (adv size (clock_hand c) (j + 1)) c1)).
Proof.
  intros [H1 H2 H3 H4] Hj He Hl ->. split; simpl.
  - done.
  - apply aset_length in Hl. lia.
  - intros i Hi. rewrite (aget_aset _ _ _ _ _ Hl). case_decide as Hd.
    + apply adv_inj in Hd; [|lia..]. subst i. rewrite H3 in He by lia. rewrite Z.ltb_irrefl in He.
      rewrite (proj2 (Z.ltb_lt j (j + 1))) by lia. destruct (aget _ _); [|done]. injection He as <-. done.
    + rewrite H3 by done. assert (i <> j) by (intros ->; done).
      by replace (i <? j + 1) with (i <? j) by (apply eq_true_iff_eq; rewrite !Z.ltb_lt; lia).
  - by rewrite H4.
Qed.

Definition chosen (c : cache) (v : Z) (c' : cache) : Prop := exists k c1 e,
  second_chance c k /\ v = adv size (clock_hand c) k /\ swept c k c1 /\ aget (cache_idx_table c1) v = Some e /\
  aset (cache_idx_table c1) v (with_clock 1 e) = Some (cache_idx_table c') /\
  c' = set_idx_table (cache_idx_table c') (set_clock_hand (adv size v 1) c1).

Lemma select_loop_spec c : zlen (cache_idx_table c) = size -> forall fuel j c1, 0 <= j <= size -> size < j + Z.of_nat fuel ->
  swept c j c1 ->
  (forall i e, 0 <= i < j -> aget (cache_idx_table c) (adv size (clock_hand c) i) = Some e -> clock_bit e <> 0) ->
  wp (select_loop size fuel) (chosen c) c1.
Proof using Hsize.
  intros HlS. induction fuel as [|fuel IH]; intros j c1 Hj Hf Hsw Hset; [lia|]. simpl select_loop. wp_go.
  pose proof Hsw as [Hh Hl Hb Hr]. set (p := adv size (clock_hand c) j) in *.
  assert (0 <= p < size) as Hp by (apply adv_range; lia). rewrite Hh. destruct (hand_step p Hp) as [E1 E2]. rewrite E1, E2.
  assert (adv size p 1 = adv size (clock_hand c) (j + 1)) as Ep by (unfold p; apply adv_adv).
  destruct (aget_range (cache_idx_table c1) p) as [e He]; [lia|]. unfold rd. wp_go.
  destruct (aset_range (cache_idx_table c1) p (with_clock 0 e)) as [l0 Hl0]; [lia|].
  destruct (aset_range (cache_idx_table c1) p (with_clock 1 e)) as [l1 Hl1]; [lia|].
  destruct (decide (j = size)) as [->|HjS].
  - assert (clock_bit e = 0) as Hz.
    { assert (p = adv size (clock_hand c) 0) as Ep0 by (unfold p, adv; rewrite <- Zplus_mod_idemp_r, Z_mod_same_full; done).
      rewrite Ep0, Hb in He by lia. rewrite (proj2 (Z.ltb_lt 0 size)) in He by lia.
      destruct (aget (cache_idx_table c) _); [|done]. by injection He as <-. }
    rewrite Hz. simpl. unfold wr. wp_go. exists size, c1, e. split; [split; [lia|]; split; [done|intros; lia]|]. by split_and!.
  - assert (aget (cache_idx_table c) p = Some e) as Hce.
    { unfold p in He |- *. rewrite Hb, Z.ltb_irrefl in He by lia. by destruct (aget (cache_idx_table c) _). }
    destruct (Z.eqb_spec (clock_bit e) 0) as [Hz|Hz]; simpl negb; cbv iota; unfold wr; wp_go.
    + exists j, c1, e. split; [split; [lia|]; split; [done|]|by split_and!]. intros _ e' He'. unfold p in Hce. congruence.
    + rewrite Ep. apply (IH (j + 1)); [lia|lia| |].
      * eapply swept_step; [exact Hsw|lia|exact He|exact Hl0|done].
      * intros i e' Hi He'. destruct (decide (i = j)) as [->|]; [|apply (Hset i); [lia|done]]. unfold p in Hce. congruence.
Qed.

Lemma select_spec c : zlen (cache_idx_table c) = size -> 0 <= clock_hand c < size ->
  wp (CACHE_SELECT_VICTIM size) (chosen c) c.
Proof using Hsize.
  intros Hl Hh. apply (select_loop_spec c Hl _ 0 c); [lia|lia| |lia]. split.
  - by rewrite adv_0.
  - done.
  - intros i Hi. rewrite (proj2 (Z.ltb_ge i 0)) by lia. by destruct (aget _ _).
  - by destruct c.
Qed.

(** C35.  [CACHE_SELECT_VICTIM] returns, after at most one turn of the hand and
    one step: the victim is the first entry from the hand on whose clock bit is
    clear, or the one at the hand when none is.  The bits the hand passed over are
    clear, that of the victim is set, and the hand is behind the victim; nothing
    else changes. *)
Theorem victim_second_chance c : zlen (cache_idx_table c) = size -> 0 <= clock_hand c < size ->
  wp (CACHE_SELECT_VICTIM size) (chosen c) c.
Proof using Hsize. apply select_spec. Qed.

End Clock.

Section Maps.
Context (cfg : config) (Hok : cfg_ok cfg) (size : Z) (Hsize : 0 < size < 2 ^ 31).
Context {X : Type} (CELL_READ CELL_WRITE : Z -> Z -> Z -> Z -> Z -> M X Z).

(** The commands of the flash module return. *)
Hypothesis read_returns : forall f b p o t x, wp (CELL_READ f b p o t) (fun _ _ => True) x.
Hypothesis write_returns : forall f b p o t x, wp (CELL_WRITE f b p o t) (fun _ _ => True) x.

Local Abbreviation maps := (MAP_ENTRY_NB cfg).
Local Abbreviation per_page := (MAP_ENTRIES_PER_PAGE cfg).

(** The tables of the cache: what an entry or a map page refers to exists. *)
Record cache_ok (c : cache) : Prop := {
  co_idx : zlen (cache_idx_table c) = size;
  co_map : zlen (map_state_table c) = maps;
  co_hand : 0 <= clock_hand c < size;
  co_num : Forall (fun e => 0 <= map_num e < maps) (cache_idx_table c);
  co_entry : Forall (fun m => is_cached m <> 0 -> exists i, cache_entry m = Some i /\ 0 <= i < size) (map_state_table c)
}.

Lemma aset_Forall {A} (P : A -> Prop) l i x l' : Forall P l -> P x -> aset l i x = Some l' -> Forall P l'.
Proof. intros Hl Hx [_ ->]%aset_inv. by apply Forall_insert. Qed.

Lemma aget_Forall {A} (P : A -> Prop) l i x : Forall P l -> aget l i = Some x -> P x.
Proof. intros Hl Hx%aget_elem. rewrite Forall_forall in Hl. auto. Qed.

(** Entries and states may change as long as they stay well formed. *)
Lemma set_entry_ok c i e l : cache_ok c -> aset (cache_idx_table c) i e = Some l -> 0 <= map_num e < maps ->
  cache_ok (set_idx_table l c).
Proof.
  intros [] Hl He. split; simpl; try done; [apply aset_length in Hl; lia|by eapply aset_Forall].
Qed.

Lemma set_state_ok c i m l : cache_ok c -> aset (map_state_table c) i m = Some l ->
  (is_cached m <> 0 -> exists i, cache_entry m = Some i /\ 0 <= i < size) -> cache_ok (set_map_state_table l c).
Proof.
  intros [] Hl He. split; simpl; try done; [apply aset_length in Hl; lia|by eapply aset_Forall].
Qed.

Lemma select_ok c : cache_ok c -> wp (CACHE_SELECT_VICTIM size) (fun v c' => 0 <= v < size /\ cache_ok c' /\
  map_state_table c' = map_state_table c /\ inverse_page_mapping_table c' = inverse_page_mapping_table c) c.
Proof using Hsize.
  intros [H1 H2 H3 H4 H5]. eapply wp_mono; [by apply (select_spec size Hsize)|].
  intros v c' (k & c1 & e & _ & -> & [Hh Hl Hb Hr] & He & Hs & Ec').
  assert (0 <= adv size (clock_hand c) k < size) as Hv by (apply adv_range; lia).
  assert (Forall (fun e => 0 <= map_num e < maps) (cache_idx_table c1)) as Hnum.
  { apply Forall_lookup. intros n x Hx. rewrite <- aget_nat in Hx. pose proof (aget_Some_range _ _ _ Hx) as Hn.
    rewrite Hl in Hn. set (i := (Z.of_nat n - clock_hand c) mod size).
    assert (adv size (clock_hand c) i = Z.of_nat n) as Ei.
    { unfold i, adv. rewrite Zplus_mod_idemp_r. replace (_ + _) with (Z.of_nat n) by lia. apply Z.mod_small. lia. }
    rewrite <- Ei, Hb in Hx by (apply Z.mod_pos_bound; lia). rewrite Ei in Hx.
    destruct (aget (cache_idx_table c) (Z.of_nat n)) as [y|] eqn:Hy; [|done].
    apply (aget_Forall _ _ _ _ H4) in Hy. destruct (i <? k); injection Hx as <-; done. }
  rewrite Ec', Hr. split; [done|]. split; [|done]. split; simpl; try done.
  - apply aset_length in Hs. lia.
  - apply adv_range. lia.
  - eapply aset_Forall; [exact Hnum| |exact Hs]. simpl. by eapply aget_Forall in Hnum.
Qed.

Local Abbreviation with_space := (fun s : ftl => lists_ok cfg s /\ 0 < free_pages cfg s).

(** What the cache leaves of the translation layer and of the other map. *)
Definition kept (c : cache) (s : ftl) (w : cache * (ftl * X)) : Prop :=
  cache_ok (fst w) /\ inverse_page_mapping_table (fst w) = inverse_page_mapping_table c /\
  lists_ok cfg (fst (snd w)) /\ same_tables s (fst (snd w)).

Lemma new_map_page s : with_space s ->
  wp (GET_NEW_PAGE cfg VICTIM_OVERALL (EMPTY_TABLE_ENTRY_NB cfg)) (fun r s' => r <> None /\ lists_ok cfg s' /\ same_tables s s') s.
Proof using Hok.
  intros [Hl Hf]. eapply wp_mono; [apply (get_new_page cfg Hok s); [done|by left]|].
  intros [p|] s' (H1 & H2 & _ & H3); [done|lia].
Qed.

Lemma evict_ok c s x : cache_ok c -> with_space s ->
  wp (CACHE_EVICT_MAP cfg size CELL_WRITE) (fun v w => 0 <= v < size /\ kept c s w) (c, (s, x)).
Proof using Hok Hsize write_returns.
  intros Hc Hs. unfold CACHE_EVICT_MAP, on_cache, on_maps. wp_go. eapply wp_mono; [by apply select_ok|].
  intros v c1 (Hv & Hc1 & Hm & Hinv). wp_go. pose proof Hc1 as []. destruct (aget_range (cache_idx_table c1) v) as [e He]; [lia|].
  unfold rd. wp_go. pose proof (aget_Forall _ _ _ _ co_num0 He) as Hn. simpl in Hn.
  apply wp_mono with (P := fun _ w => kept c s w).
  { destruct (negb (update_bit e =? 0)).
    - wp_go. eapply wp_mono; [by apply new_map_page|]. intros [p|] s' (Hr & Hl' & Hst); [|done]. wp_go.
      unfold WRITE_MAP, on_flash, on_cache. wp_go. eapply wp_mono; [apply write_returns|]. intros ? x' _. wp_go. simpl map_state_table.
      destruct (aget_range (map_state_table c1) (map_num e)) as [m Hme]; [lia|].
      destruct (aset_range (map_state_table c1) (map_num e) (MapState p (is_cached m) (cache_entry m))) as [l Hl]; [lia|].
      eapply wp_need; [exact Hme|]. unfold wr. wp_go. split; [|by split_and!]. simpl.
      assert (cache_ok (set_map_data (cache_map_data c1 ++ [MapData p (cached e)]) (u32 (cache_map_data_nb c1 + 1)) c1)) as Hc2 by by split.
      eapply (set_state_ok _ (map_num e)); [exact Hc2|exact Hl|]. simpl. by eapply aget_Forall in co_entry0.
    - wp_go. split; [done|]. split; [done|]. split; [apply Hs|done]. }
  intros ? [c2 [s2 x2]] (Hc2 & Hi2 & Hl2 & Hs2). simpl in *. pose proof Hc2 as [].
  destruct (aget_range (map_state_table c2) (map_num e)) as [m Hme]; [lia|].
  destruct (aset_range (map_state_table c2) (map_num e) (MapState (map_ppn m) 0 None)) as [l Hl]; [lia|].
  destruct (aset_range (cache_idx_table c2) v (CacheIdx 0 0 (map_type e) 0 (cached e))) as [l2 Hl2']; [lia|].
  wp_go. unfold wr. wp_go. split; [done|].
  split; [|by split_and!]. eapply (set_entry_ok (set_map_state_table l c2)); [|exact Hl2'|simpl; lia]. by eapply set_state_ok.
Qed.

(** ** Loading a map page *)

Context (Hper : 0 < per_page) (Hmaps : maps <= 2 ^ 29).

Definition map_table (type : Z) (c : cache) (s : ftl) : list Z :=
  if type =? MAP then mapping_table s else inverse_page_mapping_table c.

(** The tables have the entries of all map pages. *)
Definition maps_ok (c : cache) (s : ftl) : Prop :=
  zlen (mapping_table s) = PAGE_MAPPING_ENTRY_NB cfg /\ zlen (inverse_page_mapping_table c) = PAGE_MAPPING_ENTRY_NB cfg.

Lemma entries_range : 0 < PAGE_MAPPING_ENTRY_NB cfg < 2 ^ 31.
Proof using Hok. rewrite (ok_pme _ Hok). pose proof (ok_pages Hok). destruct Hok. nia. Qed.

Lemma map_page_range i : 0 <= i < maps -> 0 <= i * per_page /\ i * per_page + per_page <= PAGE_MAPPING_ENTRY_NB cfg.
Proof using Hok Hper.
  intros Hi. pose proof entries_range. unfold MAP_ENTRY_NB in Hi. rewrite u32_id in Hi by lia.
  pose proof (Z.mul_div_le (PAGE_MAPPING_ENTRY_NB cfg) per_page Hper). nia.
Qed.

Lemma map_page_get type i c s : maps_ok c s -> 0 <= i < maps ->
  map_page cfg (i32 (i * per_page)) (map_table type c s) =
    Some (take (Z.to_nat per_page) (drop (Z.to_nat (i * per_page)) (map_table type c s))).
Proof using Hok Hper.
  intros [H1 H2] Hi. pose proof entries_range. pose proof (map_page_range i Hi) as Hr. rewrite i32_id by lia. unfold map_page.
  assert (zlen (map_table type c s) = PAGE_MAPPING_ENTRY_NB cfg) as -> by (unfold map_table; by destruct (type =? MAP)).
  rewrite (proj2 (Z.leb_le 0 _)) by lia. by rewrite (proj2 (Z.leb_le _ (PAGE_MAPPING_ENTRY_NB cfg))) by lia.
Qed.

(** The cache knows that its entry [v] is map page [i]. *)
Definition resident (i type v : Z) (c : cache) : Prop :=
  exists e m, aget (cache_idx_table c) v = Some e /\ map_num e = i /\ map_type e = type /\
    aget (map_state_table c) i = Some m /\ is_cached m <> 0 /\ cache_entry m = Some v.

Lemma lookup_spec i type c : cache_ok c -> 0 <= i < maps -> type = MAP \/ type = INV_MAP ->
  wp (LOOKUP_CACHE i type) (fun r c' => c' = c /\
    match r with Some v => resident i type v c | None => forall v, ~ resident i type v c end) c.
Proof.
  intros [] Hi Ht. destruct (aget_range (map_state_table c) i) as [m Hm]; [lia|].
  pose proof (aget_Forall _ _ _ _ co_entry0 Hm) as He. simpl in He. unfold LOOKUP_CACHE, rd. wp_go.
  destruct (Z.eqb_spec (is_cached m) 0) as [Hz|Hz]; simpl negb; cbv iota.
  { wp_go. split; [done|]. intros v (e & m' & _ & _ & _ & Hm' & Hz' & _). congruence. }
  destruct (He Hz) as (v & Hv & Hr). rewrite Hv. wp_go. destruct (aget_range (cache_idx_table c) v) as [e Hev]; [lia|]. wp_go.
  assert (forall b : bool, b = (map_type e =? type) && (map_num e =? i) -> c = c /\
    match (if b then Some v else None) with Some v => resident i type v c | None => forall v, ~ resident i type v c end) as Hb.
  { intros b ->. split; [done|]. destruct ((map_type e =? type) && (map_num e =? i)) eqn:E.
    - apply andb_true_iff in E as [?%Z.eqb_eq ?%Z.eqb_eq]. by exists e, m.
    - intros v' (e' & m' & H1 & H2 & H3 & H4 & H5 & H6). assert (e' = e) as -> by congruence.
      rewrite H2, H3, !Z.eqb_refl in E. done. }
  destruct Ht as [->| ->]; simpl; wp_go; by apply Hb.
Qed.

(** Map page [i] is in entry [v], with a copy of the table. *)
Definition inserted (i type : Z) (c : cache) (s : ftl) (v : Z) (w : cache * (ftl * X)) : Prop :=
  kept c s w /\ resident i type v (fst w) /\
  exists e, aget (cache_idx_table (fst w)) v = Some e /\ clock_bit e = 1 /\ update_bit e = 0 /\
    cached e = take (Z.to_nat per_page) (drop (Z.to_nat (i * per_page)) (map_table type c s)).

(** Map page [i] is in entry [v]; if it was not in the cache before, it is a copy
    of the table. *)
Definition loaded (i type : Z) (c : cache) (s : ftl) (v : Z) (w : cache * (ftl * X)) : Prop :=
  kept c s w /\ resident i type v (fst w) /\
  exists e, aget (cache_idx_table (fst w)) v = Some e /\ clock_bit e = 1 /\
    ((forall v', ~ resident i type v' c) -> update_bit e = 0 /\
      cached e = take (Z.to_nat per_page) (drop (Z.to_nat (i * per_page)) (map_table type c s))).

Lemma insert_ok i type v c s x : cache_ok c -> lists_ok cfg s -> maps_ok c s -> 0 <= i < maps -> 0 <= v < size ->
  type = MAP \/ type = INV_MAP ->
  wp (CACHE_INSERT_MAP cfg CELL_READ i type v) (inserted i type c s) (c, (s, x)).
Proof using Hok read_returns Hper Hmaps.
  intros Hc Hs Hm Hi Hv Ht. pose proof Hc as []. unfold CACHE_INSERT_MAP, on_cache, on_maps, on_flash.
  destruct (aget_range (cache_idx_table c) v) as [e He]; [lia|]. destruct (aget_range (map_state_table c) i) as [m Hme]; [lia|].
  set (d := take (Z.to_nat per_page) (drop (Z.to_nat (i * per_page)) (map_table type c s))).
  pose proof (map_page_get type i c s Hm Hi) as Hp. fold d in Hp. unfold rd. wp_go.
  apply wp_mono with (P := fun e' w => w = (c, (s, x)) /\ map_type e' = type /\ cached e' = d).
  { destruct Ht as [->| ->]; simpl; wp_go; done. }
  intros e' ? (-> & Hty & Hd). wp_go. eapply wp_mono; [apply read_returns|]. intros ? x' _. wp_go. unfold wr.
  set (e2 := CacheIdx _ _ _ _ _). set (m2 := MapState _ _ _).
  destruct (aset_range (cache_idx_table c) v e2) as [l Hl]; [lia|]. destruct (aset_range (map_state_table c) i m2) as [k Hk]; [lia|].
  wp_go. assert (i mod 2 ^ 29 = i) as Hmod by (apply Z.mod_small; lia).
  split; [split; [|by split_and!]|split].
  - eapply (set_state_ok (set_idx_table l c) i m2); [|exact Hk|intros _; by exists v].
    eapply set_entry_ok; [exact Hc|exact Hl|]. simpl. lia.
  - exists e2, m2. simpl. split; [by eapply aget_aset_eq|]. split; [done|]. split; [done|]. split; [by eapply aget_aset_eq|]. done.
  - exists e2. simpl. split; [by eapply aget_aset_eq|]. done.
Qed.

Lemma get_map_ok i type c s x : cache_ok c -> with_space s -> maps_ok c s -> 0 <= i < maps ->
  type = MAP \/ type = INV_MAP ->
  wp (CACHE_GET_MAP cfg size CELL_READ CELL_WRITE i type) (loaded i type c s) (c, (s, x)).
Proof using Hok Hsize read_returns write_returns Hper Hmaps.
  intros Hc Hs Hm Hi Ht. unfold CACHE_GET_MAP, on_cache. wp_go. eapply wp_mono; [by apply lookup_spec|].
  intros [v|] ? [-> Hr].
  - destruct Hr as (e & m & H1 & H2 & H3 & H4 & H5 & H6). unfold rd, wr. wp_go.
    destruct (aset_range (cache_idx_table c) v (with_clock 1 e)) as [l Hl]; [by eapply aget_Some_range|]. wp_go.
    pose proof (aget_aset_eq _ _ _ _ Hl) as Hg. split; [split; [|split; [done|split; [apply Hs|done]]]|split].
    + eapply set_entry_ok; [exact Hc|exact Hl|]. simpl. eapply (aget_Forall _ _ _ _ (co_num _ Hc) H1).
    + by exists (with_clock 1 e), m.
    + exists (with_clock 1 e). split; [done|]. split; [done|]. intros Hno. exfalso. apply (Hno v). by exists e, m.
  - wp_go. eapply wp_mono; [by apply evict_ok|]. intros v [c1 [s1 x1]] (Hv & Hc1 & Hi1 & Hl1 & Hst). simpl in *.
    assert (mapping_table s1 = mapping_table s) as Em by apply Hst.
    assert (maps_ok c1 s1) as Hm1 by (unfold maps_ok; by rewrite Em, Hi1).
    eapply wp_mono; [by apply insert_ok|]. intros v' w ((K1 & K2 & K3 & K4) & H2 & e & H3 & H4 & H5 & H6).
    assert (map_table type c1 s1 = map_table type c s) as Et by (unfold map_table; by rewrite Em, Hi1).
    split; [split; [done|split; [congruence|split; [done|]]]|split; [done|]].
    + by eapply same_tables_trans.
    + exists e. split; [done|]. split; [done|]. intros _. by rewrite <- Et.
Qed.


(** The cache is transparent: [CACHE_GET_PPN] answers the entry of the
    mapping table, as [GET_MAPPING_INFO] does without a cache, and
    [CACHE_UPDATE_PPN] changes the entry of the mapping table, as
    [UPDATE_NEW_PAGE_MAPPING] does, and marks the map page in the cache as
    updated. *)
Theorem cache_transparent lpn ppn c s x : cache_ok c -> lists_ok cfg s -> 0 < free_pages cfg s -> maps_ok c s ->
  0 <= lpn < maps * per_page ->
  wp (CACHE_GET_PPN cfg size CELL_READ CELL_WRITE lpn)
     (fun r w => aget (mapping_table s) lpn = Some r /\ kept c s w) (c, (s, x)) /\
  wp (CACHE_UPDATE_PPN cfg size CELL_READ CELL_WRITE lpn ppn)
     (fun r w => r = SUCCESS /\ cache_ok (fst w) /\ aset (mapping_table s) lpn ppn = Some (mapping_table (fst (snd w))) /\
        exists v e, resident (lpn / per_page) MAP v (fst w) /\ aget (cache_idx_table (fst w)) v = Some e /\ update_bit e = 1)
     (c, (s, x)).
Proof using Hok Hsize read_returns write_returns Hper Hmaps.
  intros Hc Hl Hf Hm Hlpn. pose proof (map_page_range (maps - 1)) as Hr. pose proof entries_range. destruct Hm as [Hm1 Hm2].
  assert (0 < maps) by nia. assert (0 <= lpn / per_page < maps) as Hi.
  { split; [apply Z.div_pos; lia|]. apply Z.div_lt_upper_bound; lia. }
  destruct (aget_range (mapping_table s) lpn) as [p Hp]; [nia|]. destruct (aset_range (mapping_table s) lpn ppn) as [t Ht]; [nia|].
  assert (u32 lpn = lpn) as Hu by (apply u32_id; nia).
  split; [unfold CACHE_GET_PPN, on_maps|unfold CACHE_UPDATE_PPN, on_cache, on_maps]; rewrite Hu; wp_go;
    (eapply wp_mono; [apply (get_map_ok _ MAP c s x); try done; by left|]); intros v [c1 [s1 x1]] (Hk & Hres & Hrest);
    pose proof Hk as (Hc1 & _ & _ & (Em & _)); simpl in *; wp_go.
  - unfold GET_MAPPING_INFO, rd. wp_go. rewrite Em. eapply wp_need; [exact Hp|]. done.
  - destruct Hres as (e & m & H1 & H2 & H3 & H4 & H5 & H6). unfold mark_updated, rd, wr. wp_go. set (e' := CacheIdx _ _ _ _ _).
    destruct (aset_range (cache_idx_table c1) v e') as [l He']; [by eapply aget_Some_range|]. wp_go. rewrite Em.
    eapply wp_need; [exact Ht|]. wp_go. split; [done|]. split.
    { eapply set_entry_ok; [exact Hc1|exact He'|]. simpl. by eapply aget_Forall in H1; [|apply Hc1]. }
    split; [done|]. exists v, e'. pose proof (aget_aset_eq _ _ _ _ He') as Hg. split; [by exists e', m|done].
Qed.

End Maps.

(** ** A small cache

    The small drive with pages of 64 bytes, so that a map page has 16 entries and
    the mapping table 8 map pages, and a cache of two entries, both updated. *)

Definition tiny_conf : list ascii := String.list_ascii_of_string
  "FLASH_NB 2
BLOCK_NB 8
PLANES_PER_FLASH 1
PAGE_SIZE 64
SECTOR_SIZE 16
PAGE_NB 8
CHANNEL_NB 2
"%string.

Definition tiny : config := Eval vm_compute in
  match INIT_SSD_CONFIG (Some tiny_conf) with
  | Ret c => c
  | _ => config_of globals0 derived0
  end.

Lemma tiny_init : INIT_SSD_CONFIG (Some tiny_conf) = Ret tiny.
Proof. vm_compute. reflexivity. Qed.

Lemma tiny_ok : cfg_ok tiny.
Proof. split; vm_compute; try done. by exists 8. Qed.

Definition tiny_drive : drive := result (SSD_INIT (Some tiny_conf)) (start 0 no_files).

Lemma tiny_tables : exists s, fst (d_state tiny_drive) = s /\ lists_ok tiny s /\ 0 < free_pages tiny s /\
  zlen (mapping_table s) = PAGE_MAPPING_ENTRY_NB tiny.
Proof.
  assert (serves tiny 0 (Host ∅ 0) 0 tiny_drive) as Hd.
  { apply (wp_result _ (serves tiny 0 (Host ∅ 0) 0)). apply (init_serves tiny tiny_ok). exact tiny_init. }
  destruct Hd as (_ & _ & [_ Hf] & _ & n & _ & [[Ht Hl _ _ _ _ _] _] & _).
  exists (fst (d_state tiny_drive)). split; [reflexivity|]. split; [exact Hl|]. split; [|exact (t_mapping _ _ Ht)].
  change (PAGE_NB tiny) with 8 in Hf. lia.
Qed.

Definition tiny_map (i : Z) : cache_idx_entry := CacheIdx i 1 MAP 1 (replicate 16 (-1)).

Definition tiny_cache : cache :=
  Cache [tiny_map 3; tiny_map 4]
    (replicate 3 (MapState 0 0 None) ++ [MapState 1 1 (Some 0); MapState 2 1 (Some 1)] ++ replicate 3 (MapState 0 0 None))
    1 [] 0 (replicate 128 (-1)).

(** Commands of a flash module that keeps no state. *)
Definition no_cell (f b p o t : Z) : M unit Z := mret SUCCESS.

Lemma no_cell_returns f b p o t x : wp (no_cell f b p o t) (fun _ _ => True) x.
Proof. done. Qed.

Lemma tiny_cache_ok : cache_ok tiny 2 tiny_cache.
Proof.
  split; [done|done|done|by repeat constructor|]. repeat constructor; simpl; try done; intros _; [by exists 0|by exists 1].
Qed.

Lemma tiny_maps_ok s : zlen (mapping_table s) = PAGE_MAPPING_ENTRY_NB tiny -> maps_ok tiny tiny_cache s.
Proof. by split. Qed.

Lemma two_entries : 0 < 2 < 2 ^ 31.
Proof. done. Qed.

Lemma victim_second_chance_witness : wp (CACHE_SELECT_VICTIM 2) (chosen 2 tiny_cache) tiny_cache.
Proof. apply (victim_second_chance 2 two_entries tiny_cache); done. Defined.


Lemma cache_transparent_witness : exists s, fst (d_state tiny_drive) = s /\
  wp (CACHE_GET_PPN tiny 2 no_cell no_cell 100)
     (fun r w => aget (mapping_table s) 100 = Some r /\ kept tiny 2 tiny_cache s w) (tiny_cache, (s, tt)) /\
  wp (CACHE_UPDATE_PPN tiny 2 no_cell no_cell 100 7)
     (fun r w => r = SUCCESS /\ cache_ok tiny 2 (fst w) /\
        aset (mapping_table s) 100 7 = Some (mapping_table (fst (snd w))) /\
        exists v e, resident (100 / MAP_ENTRIES_PER_PAGE tiny) MAP v (fst w) /\
          aget (cache_idx_table (fst w)) v = Some e /\ update_bit e = 1)
     (tiny_cache, (s, tt)).
Proof.
  destruct tiny_tables as (s & Hd & Hl & Hf & Hm). exists s. split; [exact Hd|]. clear Hd.
  apply (cache_transparent tiny tiny_ok 2 two_entries no_cell no_cell no_cell_returns no_cell_returns);
    [done|done|exact tiny_cache_ok|exact Hl|exact Hf|by apply tiny_maps_ok|done].
Defined.
