(* ===== verification/Monitor.v ===== *)
(** * The log and the monitor

    [SSD_MODULE/ssd_log_manager.c]: what the drive, built with [MONITOR_ON], sends
    to the monitor; and [MONITOR/SSD_MONITOR_PM/form1.ui.h]: the window that
    counts and shows it.  What the window uses of Qt is the class [Qt], with the
    documented behaviour as [QtLaws]. *)

From stdpp Require Import prelude gmap strings.
From Stdlib Require Import SpecFloat Ascii.
From Stdlib Require String.
From S2P Require Import Prelude Config Text Device.

Local Open Scope Z_scope.

(** ** The log manager *)

(** [client_open] tells whether [clientSock] is a connection, and [stream] is what
    has been sent on it. *)
Record log_manager := LogManager {
  g_init_log_server : bool;
  g_server_create : bool;
  client_open : bool;
  send_cnt : Z;
  stream : list ascii
}.

Definition log0 : log_manager := LogManager false false false 0 [].

(** [room n] tells whether the socket takes a byte at once after [n] calls of
    [send]; [bind_ok] whether the port is free. *)
Class Socket := { room : Z -> bool; bind_ok : bool }.

Section Log.
Context {K : Socket}.

(** [MNT_DEBUG] is defined, so that the server returns when the port is taken. *)
Definition THREAD_SERVER : M log_manager unit :=
  if negb bind_ok then mret tt
  else modify (fun g => LogManager (g_init_log_server g) true true (send_cnt g) (stream g)).

Definition INIT_LOG_MANAGER : M log_manager unit :=
  g ← gets id;
  if g_init_log_server g then mret tt else
  THREAD_SERVER ;;
  modify (fun g => LogManager true (g_server_create g) (client_open g) (send_cnt g) (stream g)).

Definition TERM_LOG_MANAGER : M log_manager unit :=
  modify (fun g => LogManager (g_init_log_server g) (g_server_create g) false (send_cnt g) (stream g)).

(** [send]: nothing is sent on a socket that is closed. *)
Definition send (l : list ascii) : M log_manager unit :=
  modify (fun g => LogManager (g_init_log_server g) (g_server_create g) (client_open g) (send_cnt g)
    (if client_open g then stream g ++ l else stream g)).

(** The text waits for room in the socket; the newline does not. *)
Definition WRITE_LOG (szLog : list ascii) : M log_manager unit :=
  g ← gets id;
  if negb (g_server_create g) then mret tt else
  send szLog ;;
  (if room (send_cnt g + 1) then send [newline] else mret tt) ;;
  modify (fun g => LogManager (g_init_log_server g) (g_server_create g) (client_open g) (send_cnt g + 2) (stream g)).

(** The argument is [clientSock]. *)
Definition THREAD_CLIENT : M log_manager unit := send (chars "test" ++ [newline]).

End Log.

(** ** What the drive sends *)

Definition read_message (length : Z) : list ascii := chars "READ PAGE " ++ print_int (i32 length) (chars " ").
Definition write_message (length : Z) : list ascii := chars "WRITE PAGE " ++ print_int (i32 length) (chars " ").
Definition pages_message (write_page_nb : Z) : list ascii := chars "WB CORRECT " ++ print_int write_page_nb [].
Definition gc_message : list ascii := chars "GC ".
Definition copies_message (copy_page_nb : Z) : list ascii := chars "WB AMP " ++ print_int copy_page_nb [].
Definition erase_message : list ascii := chars "ERASE " ++ print_int 1 [].
Definition read_bw_message (bw : double) : list ascii := chars "READ BW " ++ print_fixed 6 bw ++ chars " ".
Definition write_bw_message (bw : double) : list ascii := chars "WRITE BW " ++ print_fixed 6 bw ++ chars " ".
Definition util_message (ssd_util : double) : list ascii := chars "UTIL " ++ print_fixed 6 ssd_util ++ chars " ".

Definition messages (e : event) : list (list ascii) :=
  match e with
  | ReadDone l => [read_message l]
  | WriteDone l n => [write_message l; pages_message n]
  | Collected n => [gc_message; copies_message n]
  | Erased => [erase_message]
  | ReadAverage b => [read_bw_message b]
  | WriteAverage b u => [write_bw_message b; util_message u]
  end.

Fixpoint log_all `{Socket} (l : list (list ascii)) : M log_manager unit :=
  match l with
  | [] => mret tt
  | m :: l' => WRITE_LOG m ;; log_all l'
  end.

(** ** The monitor *)

(** [readLine], if [canReadLine], and [QStringList::split] at blanks. *)
Class Qt := {
  read_line : list ascii -> option (list ascii * list ascii);
  split : list ascii -> list (list ascii)
}.

(** A line ends with its newline; the words are not empty. *)
Class QtLaws (T : Qt) := {
  read_line_some l r : newline ∉ l -> read_line (l ++ newline :: r) = Some (l ++ [newline], r);
  read_line_none l : newline ∉ l -> read_line l = None;
  split_blank l : split (" "%char :: l) = split l;
  split_word w l : w <> [] -> " "%char ∉ w -> split (w ++ " "%char :: l) = w :: split l;
  split_last w : w <> [] -> " "%char ∉ w -> split w = [w]
}.

(** The window: its integer variables and its texts, each under its name, the
    registers, and what has arrived on the socket. *)
Record Form1 := Form {
  f_ints : gmap string Z;
  f_texts : gmap string (list ascii);
  access_time_reg_mon : list Z;
  access_type_reg_mon : list Z;
  sock : list ascii
}.

Definition f_int (f : Form1) (k : string) : Z := default 0 (f_ints f !! k).
Definition f_text (f : Form1) (k : string) : list ascii := default [] (f_texts f !! k).

Definition set_int (k : string) (z : Z) (f : Form1) : Form1 :=
  Form (<[k := z]> (f_ints f)) (f_texts f) (access_time_reg_mon f) (access_type_reg_mon f) (sock f).
Definition set_text (k : string) (t : list ascii) (f : Form1) : Form1 :=
  Form (f_ints f) (<[k := t]> (f_texts f)) (access_time_reg_mon f) (access_type_reg_mon f) (sock f).
Definition set_regs (time type : list Z) (f : Form1) : Form1 := Form (f_ints f) (f_texts f) time type (sock f).
Definition set_sock (l : list ascii) (f : Form1) : Form1 :=
  Form (f_ints f) (f_texts f) (access_time_reg_mon f) (access_type_reg_mon f) l.

(** [int] and [long]. *)
Definition fits_int (z : Z) : bool := (- 2 ^ 31 <=? z) && (z <? 2 ^ 31).
Definition fits_long (z : Z) : bool := (- 2 ^ 63 <=? z) && (z <? 2 ^ 63).

(** Adds to a variable, as far as the type goes, and shows it. *)
Definition count (fits : Z -> bool) (k txt : string) (z : Z) : M Form1 unit :=
  v ← gets (fun f => f_int f k);
  if negb (fits (v + z)) then undef else
  modify (fun f => set_text txt (print_int (v + z) []) (set_int k (v + z) f)).

(** [unsigned int] wraps around. *)
Definition count_unsigned (k txt : string) (z : Z) : M Form1 unit :=
  v ← gets (fun f => f_int f k);
  modify (fun f => set_text txt (print_int (u32 (v + z)) []) (set_int k (u32 (v + z)) f)).

(** [sprintf] to a buffer of 128 bytes, and the text is shown. *)
Definition show_double (k : nat) (txt : string) (d : double) : M Form1 unit :=
  if 128 <=? zlen (print_fixed k d) then undef else modify (set_text txt (print_fixed k d)).

(** A word of the line; there is nothing after the last. *)
Definition word (ws : list (list ascii)) (i : nat) : M Form1 (list ascii) := need (ws !! i).

Definition says (w : list ascii) (s : string) : bool := bool_decide (w = chars s).

(** ** Start *)

(** The keys of [ssd.conf] the monitor reads. *)
Definition monitor_keys : list string := ["FLASH_NB"; "PLANES_PER_FLASH"; "CELL_PROGRAM_DELAY"]%string.

Fixpoint read_conf (fuel : nat) (l : list ascii) : M Form1 unit :=
  match fuel with
  | O => out_of_fuel
  | S fuel' =>
      match fscanf_s l with
      | None => mret tt
      | Some (w, r) =>
          if 1024 <=? zlen w then undef else
          let k := String.string_of_list_ascii (c_str w) in
          if bool_decide (k ∈ monitor_keys) then
            let '(v, r') := fscanf_d r in
            match v with Some z => modify (set_int k z) | None => mret tt end ;;
            read_conf fuel' r'
          else read_conf fuel' r
      end
  end.

(** The variables [init_var] sets to zero. *)
Definition zeroed : list string :=
  ["WriteSecCount"; "ReadSecCount"; "WriteCount"; "ReadCount"; "PowCount"; "RandMergeCount"; "SeqMergeCount";
   "ExchangeCount"; "WriteSectorCount"; "TrimEffect"; "TrimCount"; "WrittenCorrectCount"; "WriteAmpCount";
   "GCStarted"; "GC_NB"; "TimeProg"]%string.

(** [WriteTime] and [ReadTime], which nothing reads, are left out. *)
Definition init_var (conf : option (list ascii)) : M Form1 unit :=
  match conf with Some l => read_conf (S (length l)) l | None => mret tt end ;;
  modify (fun f => foldr (fun k => set_int k 0) f zeroed) ;;
  f ← gets id;
  let n := f_int f "FLASH_NB" * f_int f "PLANES_PER_FLASH" in
  if negb (fits_int n) then undef else
  modify (set_regs (replicate (Z.to_nat n) 0) (replicate (Z.to_nat n) 0)).

Definition init (conf : option (list ascii)) : M Form1 unit := init_var conf ;; modify (set_sock []).

(** The texts [btnInit_clicked] sets to 0. *)
Definition zero_texts : list string :=
  ["txtWriteCount"; "txtWriteSpeed"; "txtWriteSectorCount"; "txtReadCount"; "txtReadSpeed"; "txtReadSectorCount";
   "txtGarbageCollectionNB"; "txtGarbageCollection"; "txtGCStart"; "txtTrimCount"; "txtTrimEffect";
   "txtWrittenBlockCount"; "txtWriteAmpCount"]%string.

Definition btnInit_clicked (conf : option (list ascii)) : M Form1 unit :=
  init_var conf ;;
  modify (fun f => set_text "txtDebug" [] (foldr (fun k => set_text k (chars "0")) f zero_texts)).

(** ** Messages *)

Section Receive.
Context {T : Qt}.

(** A variable without a value has no sum. *)
Definition converted {A} (o : option A) : M Form1 A := need o.

(** [sscanf] to an element of an array; nothing is stored without a number. *)
Definition store (l : list Z) (i : Z) (o : option Z) : M Form1 (list Z) :=
  if (i <? 0) || (zlen l <=? i) then undef else
  mret (match o with Some z => <[Z.to_nat i := z]> l | None => l end).

Definition on_power (ws : list (list ascii)) : M Form1 unit :=
  w1 ← word ws 1; regst ← converted (sscanf_d w1);
  times ← gets access_time_reg_mon;
  w2 ← word ws 2; time ← store times regst (sscanf_lld w2);
  types ← gets access_type_reg_mon;
  w3 ← word ws 3; type ← store types regst (sscanf_d w3);
  modify (set_regs time type).

(** [WRITE] and [READ]; [sec], [cnt] and the texts are those of the command. *)
Definition on_transfer (sec cnt txtSec txtCnt txtSpeed : string) (ws : list (list ascii)) : M Form1 unit :=
  w1 ← word ws 1;
  if says w1 "PAGE" then
    w2 ← word ws 2; length ← converted (sscanf_u w2);
    count_unsigned sec txtSec length ;;
    count fits_int cnt txtCnt 1
  else if says w1 "BW" then
    w2 ← word ws 2; time ← converted (sscanf_lf w2);
    if dbl_is_zero time then mret tt else show_double 3 txtSpeed time
  else mret tt.

Definition on_wb (ws : list (list ascii)) : M Form1 unit :=
  w2 ← word ws 2;
  let wb := default 0 (sscanf_lld w2) in
  w1 ← word ws 1;
  if says w1 "CORRECT" then count fits_long "WrittenCorrectCount" "txtWrittenBlockCount" wb
  else count fits_long "WriteAmpCount" "txtWriteAmpCount" wb.

Definition on_trim (ws : list (list ascii)) : M Form1 unit :=
  w1 ← word ws 1;
  if says w1 "INSERT" then count fits_int "TrimCount" "txtTrimCount" 1
  else w2 ← word ws 2; count fits_int "TrimEffect" "txtTrimEffect" (default 0 (sscanf_d w2)).

Definition on_util (ws : list (list ascii)) : M Form1 unit :=
  w1 ← word ws 1; show_double 6 "txtSsdUtil" (default (S754_zero false) (sscanf_lf w1)).

(** The command of a line, by its first word. *)
Definition on_command (w0 : list ascii) (ws : list (list ascii)) : M Form1 unit :=
  if says w0 "POWER" then on_power ws
  else if says w0 "WRITE" then on_transfer "WriteSecCount" "WriteCount" "txtWriteSectorCount" "txtWriteCount" "txtWriteSpeed" ws
  else if says w0 "READ" then on_transfer "ReadSecCount" "ReadCount" "txtReadSectorCount" "txtReadCount" "txtReadSpeed" ws
  else if says w0 "READF" then w1 ← word ws 1; mret tt
  else if says w0 "GC" then count fits_long "GC_NB" "txtGarbageCollectionNB" 1
  else if says w0 "WB" then on_wb ws
  else if says w0 "TRIM" then on_trim ws
  else if says w0 "UTIL" then on_util ws
  else mret tt.

(** One line. *)
Definition on_line (szCmd : list ascii) : M Form1 unit :=
  let ws := split szCmd in
  w0 ← word ws 0;
  on_command w0 ws ;;
  modify (set_text "txtDebug" szCmd).

Fixpoint receive_loop (fuel : nat) : M Form1 unit :=
  match fuel with
  | O => out_of_fuel
  | S fuel' =>
      f ← gets id;
      match read_line (sock f) with
      | None => mret tt
      | Some (szCmd, r) => modify (set_sock r) ;; on_line szCmd ;; receive_loop fuel'
      end
  end.

(** Each round takes a line. *)
Definition onReceive : M Form1 unit := f ← gets id; receive_loop (S (length (sock f))).

(** Bytes arrive, and the slot is called. *)
Definition receive (l : list ascii) : M Form1 unit :=
  modify (fun f => set_sock (sock f ++ l) f) ;; onReceive.

End Receive.

(** ** The other slots *)

Definition onTimer : M Form1 unit := count fits_long "TimeProg" "txtTimeProg" 1.

(** The file [btnSave_clicked] writes. *)
Definition btnSave_clicked (f : Form1) : list ascii :=
  let item name k := chars name ++ ascii_of_nat 9 :: print_int (f_int f k) [newline] in
  item "Write Request" "WriteCount" ++
  item "Write Sector" "WriteSectorCount" ++ [newline] ++
  item "Read Request" "ReadCount" ++
  item "Read Sector" "ReadSecCount" ++ [newline] ++
  chars "Garbage Collection" ++ [newline] ++
  item "  Count" "GC_NB" ++
  item "  Exchange" "ExchangeCount" ++
  item "  Sector Count" "GCStarted" ++ [newline] ++
  item "TRIM Count" "TrimCount" ++
  item "TRIM effect" "TrimEffect" ++ [newline] ++
  item "Write Amplification" "WriteAmpCount" ++
  item "Written Page" "WrittenCorrectCount" ++
  item "Run-time[ms]" "TimeProg".
