(* ===== verification/MonitorProps.v ===== *)
(** * The log and the monitor: theorems

    Whatever the drive logs, and however the socket cuts it into pieces, the
    window counts it and shows the counts. *)

From stdpp Require Import prelude gmap strings.
From Stdlib Require Import SpecFloat Ascii.
From Stdlib Require String.
From S2P Require Import Prelude Config Text Device Monitor.

Local Open Scope Z_scope.

(** ** The socket of the window *)

(** What a step does has nothing to do with what waits on the socket. *)
Definition blind {A} (m : M Form1 A) : Prop := forall l f,
  m (set_sock l f) = match m f with Ret (a, f') => Ret (a, set_sock l f') | Undef => Undef | OutOfFuel => OutOfFuel end.

Lemma blind_ret {A} (a : A) : blind (mret a).
Proof. done. Qed.

Lemma blind_bind {A B} (m : M Form1 A) (k : A -> M Form1 B) : blind m -> (forall a, blind (k a)) -> blind (m ≫= k).
Proof. intros Hm Hk l f. unfold mbind, M_bind. rewrite Hm. destruct (m f) as [[a f']| |]; [apply Hk|done|done]. Qed.

Lemma blind_undef {A} : blind (undef : M Form1 A).
Proof. done. Qed.

Lemma blind_need {A} (o : option A) : blind (need o).
Proof. by destruct o. Qed.

Lemma blind_gets {A} (g : Form1 -> A) : (forall l f, g (set_sock l f) = g f) -> blind (gets g).
Proof. intros H l f. unfold gets. by rewrite H. Qed.

Lemma blind_modify h : (forall l f, h (set_sock l f) = set_sock l (h f)) -> blind (modify h).
Proof. intros H l f. unfold modify. by rewrite H. Qed.

(** Looks through the steps. *)
Ltac blind_go := repeat first [progress intros|apply blind_bind|apply blind_ret|apply blind_undef|apply blind_need
  |apply blind_gets; done|apply blind_modify; done|case_match].

Lemma set_sock_id f : set_sock (sock f) f = f.
Proof. by destruct f. Qed.

Lemma blind_sock {A} (m : M Form1 A) f a f' : blind m -> m f = Ret (a, f') -> sock f' = sock f.
Proof.
  intros Hm E. specialize (Hm (sock f) f). rewrite set_sock_id, E in Hm. injection Hm as Hm.
  by rewrite Hm.
Qed.

Section Monitor.
Context {T : Qt} {TL : QtLaws T}.

Lemma on_line_blind l : blind (on_line l).
Proof.
  unfold on_line, on_command, on_power, on_transfer, on_wb, on_trim, on_util, count, count_unsigned, show_double, word, converted, store.
  blind_go.
Qed.

(** The next line of the socket, if there is one. *)
Lemma next_line l : ((newline ∉ l) /\ read_line l = None) \/
  exists a r, l = a ++ newline :: r /\ (newline ∉ a) /\ forall b, read_line (l ++ b) = Some (a ++ [newline], r ++ b).
Proof using TL.
  destruct (decide (newline ∈ l)) as [(a & r & -> & Ha)%list_elem_of_split_l|Hn].
  - right. exists a, r. split; [done|]. split; [done|]. intros b. rewrite <- app_assoc. simpl. by apply read_line_some.
  - left. split; [done|]. by apply read_line_none.
Qed.

Lemma receive_fuel n : forall m f, (length (sock f) < n)%nat -> (length (sock f) < m)%nat -> receive_loop n f = receive_loop m f.
Proof using TL.
  induction n as [|n IH]; intros [|m] f Hn Hm; try lia. simpl. unfold mbind, M_bind, gets, id. 
  destruct (next_line (sock f)) as [[_ ->]|(a & r & E & _ & H)]; [done|]. specialize (H []). rewrite !app_nil_r in H. rewrite H. simpl.
  destruct (on_line (a ++ [newline]) (set_sock r f)) as [[[] f']| |] eqn:El; [|done|done].
  apply (blind_sock _ _ _ _ (on_line_blind _)) in El. rewrite E, length_app in Hn, Hm. simpl in *. apply IH; rewrite El; simpl; lia.
Qed.

(** Bytes that arrive in two pieces are received like one piece. *)
Lemma receive_loop_app n : forall b f, (length (sock f) < n)%nat -> (receive_loop n ;; receive b) f = receive b f.
Proof using TL.
  induction n as [|n IH]; intros b f Hn; [lia|]. unfold receive at 2, onReceive. simpl. unfold mbind, M_bind, gets, id, modify. simpl.
  destruct (next_line (sock f)) as [[_ ->]|(a & r & E & _ & H)]; [done|]. rewrite H. specialize (H []). rewrite !app_nil_r in H. rewrite H. simpl.
  change (set_sock (r ++ b) (set_sock (sock f ++ b) f)) with (set_sock (r ++ b) f).
  rewrite (on_line_blind _ r f), (on_line_blind _ (r ++ b) f). destruct (on_line (a ++ [newline]) f) as [[[] f']| |]; [|done|done].
  rewrite E, length_app in Hn. simpl in Hn.
  rewrite (receive_fuel (length (sock f ++ b)) (S (length (r ++ b))) (set_sock (r ++ b) f')); simpl; [|rewrite E, !length_app; simpl; lia|lia].
  specialize (IH b (set_sock r f')). simpl in IH. unfold mbind, M_bind in IH. rewrite IH by lia.
  unfold receive, onReceive, mbind, M_bind, modify, gets, id. simpl. done.
Qed.

Lemma receive_app a b f : (receive a ;; receive b) f = receive (a ++ b) f.
Proof using TL.
  pose proof (receive_loop_app (S (length (sock f ++ a))) b (set_sock (sock f ++ a) f) ltac:(simpl; lia)) as H.
  transitivity (receive b (set_sock (sock f ++ a) f)); [exact H|].
  unfold receive, mbind, M_bind, modify. simpl. by rewrite <- app_assoc.
Qed.

(** The pieces of a stream arrive one after the other. *)
Fixpoint receive_all (chunks : list (list ascii)) : M Form1 unit :=
  match chunks with
  | [] => mret tt
  | c :: chunks' => receive c ;; receive_all chunks'
  end.

Lemma receive_nil f : newline ∉ sock f -> receive [] f = Ret (tt, f).
Proof using TL.
  intros H. unfold receive, onReceive, mbind, M_bind, modify, gets, id. simpl. unfold mbind, M_bind, gets, id. simpl. rewrite app_nil_r, set_sock_id.
  by rewrite read_line_none.
Qed.

(** What is left on the socket is not a line. *)
Lemma receive_loop_rest n : forall f f', receive_loop n f = Ret (tt, f') -> newline ∉ sock f'.
Proof using TL.
  induction n as [|n IH]; intros f f'; [done|]. simpl. unfold mbind, M_bind, gets, id.
  destruct (next_line (sock f)) as [[H ->]|(a & r & _ & _ & H)]; [by intros [= <-]|].
  specialize (H []). rewrite !app_nil_r in H. rewrite H. simpl. destruct (on_line _ _) as [[[] f1]| |]; [apply IH|done|done].
Qed.

Lemma receive_rest a f f' : receive a f = Ret (tt, f') -> newline ∉ sock f'.
Proof using TL. apply receive_loop_rest. Qed.

Lemma receive_all_concat chunks : forall f, newline ∉ sock f -> receive_all chunks f = receive (concat chunks) f.
Proof using TL.
  induction chunks as [|c chunks IH]; intros f Hf; simpl; [by rewrite receive_nil|].
  rewrite <- receive_app. unfold mbind, M_bind. destruct (receive c f) as [[[] f']| |] eqn:E; [|done|done].
  apply IH. by apply (receive_rest c f).
Qed.

(** ** Lines *)

(** A message and its newline. *)
Definition line (m : list ascii) : list ascii := m ++ [newline].

Lemma receive_line m f : newline ∉ m -> sock f = [] -> receive (line m) f = on_line (line m) f.
Proof using TL.
  intros Hm Hf. change (receive (line m) f) with (receive_loop (S (length (sock f ++ line m))) (set_sock (sock f ++ line m) f)).
  rewrite Hf. cbn [app receive_loop]. unfold mbind, M_bind, gets, modify, id. simpl sock. unfold line at 1.
  rewrite (read_line_some m [] Hm). change (set_sock [] (set_sock (line m) f)) with (set_sock [] f).
  replace (set_sock [] f) with f by (rewrite <- Hf; by rewrite set_sock_id). fold (line m).
  destruct (on_line (line m) f) as [[[] f']| |] eqn:E; [|done|done]. apply (blind_sock _ _ _ _ (on_line_blind _)) in E.
  rewrite Hf in E. rewrite (receive_fuel _ 1); [|rewrite E; unfold line; rewrite length_app; simpl; lia|rewrite E; simpl; lia].
  simpl. unfold mbind, M_bind, gets, id. rewrite E, read_line_none by by intros ?%not_elem_of_nil. done.
Qed.

Fixpoint run_lines (ms : list (list ascii)) : M Form1 unit :=
  match ms with
  | [] => mret tt
  | m :: ms' => on_line (line m) ;; run_lines ms'
  end.

(** All lines of a list of messages. *)
Lemma receive_lines ms : forall f P, sock f = [] -> Forall (fun m => newline ∉ m) ms ->
  wp (run_lines ms) (fun _ f' => P f') f -> wp (receive (concat (map line ms))) (fun _ f' => P f' /\ sock f' = []) f.
Proof using TL.
  induction ms as [|m ms IH]; intros f P Hf Hms H; simpl in *.
  - unfold wp. rewrite receive_nil by (rewrite Hf; by intros ?%not_elem_of_nil). done.
  - apply Forall_cons in Hms as [Hm Hms]. unfold wp. rewrite <- receive_app. unfold mbind, M_bind. rewrite receive_line by done. apply wp_bind_inv in H.
    unfold wp in H at 1. destruct (on_line (line m) f) as [[[] f1]| |] eqn:E; [|done|done].
    apply (blind_sock _ _ _ _ (on_line_blind _)) in E. apply IH; [by rewrite E|done|exact H].
Qed.

(** ** What is counted *)

(** Sectors and requests written and read, pages written for the host and for the
    collector, and rounds of the collector. *)
Record tally := Tally {
  t_write_sectors : Z;
  t_writes : Z;
  t_read_sectors : Z;
  t_reads : Z;
  t_pages : Z;
  t_copies : Z;
  t_rounds : Z
}.

Definition add_event (t : tally) (e : event) : tally :=
  let '(Tally ws w rs r p c g) := t in
  match e with
  | ReadDone l => Tally ws w (rs + l) (r + 1) p c g
  | WriteDone l n => Tally (ws + l) (w + 1) rs r (p + n) c g
  | Collected n => Tally ws w rs r p (c + n) (g + 1)
  | _ => t
  end.

(** The counts fit the variables; sectors wrap around. *)
Definition tally_fits (t : tally) : Prop :=
  t_writes t < 2 ^ 31 /\ t_reads t < 2 ^ 31 /\ t_pages t < 2 ^ 63 /\ t_copies t < 2 ^ 63 /\ t_rounds t < 2 ^ 63.

Definition tally_positive (t : tally) : Prop :=
  0 <= t_writes t /\ 0 <= t_reads t /\ 0 <= t_pages t /\ 0 <= t_copies t /\ 0 <= t_rounds t.

(** The text of a bandwidth that was sent fits the buffer of the window. *)
Definition bandwidth_ok (b : double) : bool :=
  match sscanf_lf (print_fixed 6 b) with Some d => zlen (print_fixed 3 d) <? 128 | None => false end.
Definition util_ok (u : double) : bool :=
  match sscanf_lf (print_fixed 6 u) with Some d => zlen (print_fixed 6 d) <? 128 | None => false end.

Definition event_ok (e : event) : Prop :=
  match e with
  | ReadDone l => 0 <= l < 2 ^ 31
  | WriteDone l n => 0 <= l < 2 ^ 31 /\ 0 <= n < 2 ^ 31
  | Collected n => 0 <= n < 2 ^ 31
  | Erased => True
  | ReadAverage b => bandwidth_ok b = true
  | WriteAverage b u => bandwidth_ok b = true /\ util_ok u = true
  end.

(** The texts and the variables they show. *)
Definition shown : list (string * string) :=
  [("txtWriteSectorCount", "WriteSecCount"); ("txtWriteCount", "WriteCount"); ("txtReadSectorCount", "ReadSecCount");
   ("txtReadCount", "ReadCount"); ("txtWrittenBlockCount", "WrittenCorrectCount"); ("txtWriteAmpCount", "WriteAmpCount");
   ("txtGarbageCollectionNB", "GC_NB")]%string.

(** The window has counted and shows the tally. *)
Definition agrees (t : tally) (f : Form1) : Prop :=
  f_int f "WriteSecCount" = u32 (t_write_sectors t) /\ f_int f "WriteCount" = t_writes t /\
  f_int f "ReadSecCount" = u32 (t_read_sectors t) /\ f_int f "ReadCount" = t_reads t /\
  f_int f "WrittenCorrectCount" = t_pages t /\ f_int f "WriteAmpCount" = t_copies t /\ f_int f "GC_NB" = t_rounds t /\
  Forall (fun '(txt, k) => f_text f txt = print_int (f_int f k) []) shown.

Lemma add_event_positive t e : tally_positive t -> event_ok e -> tally_positive (add_event t e).
Proof. destruct t, e; unfold tally_positive; simpl; lia. Qed.

Lemma add_event_fits t e : tally_positive t -> event_ok e -> tally_fits (add_event t e) -> tally_fits t.
Proof. destruct t, e; unfold tally_fits, tally_positive; simpl; lia. Qed.

Lemma tally_fits_all es : forall t, tally_positive t -> Forall event_ok es -> tally_fits (foldl add_event t es) -> tally_fits t.
Proof.
  induction es as [|e es IH]; intros t Ht Hes H; [done|]. apply Forall_cons in Hes as [He Hes].
  apply (add_event_fits t e); [done..|]. apply IH; [by apply add_event_positive|done|exact H].
Qed.

(** ** The words of the messages *)

(** Neither a blank nor a newline. *)
Definition plain (c : ascii) : Prop := c <> " "%char /\ c <> newline.

Definition is_plain (w : list ascii) : Prop := w <> [] /\ Forall plain w.

Lemma plain_blank w : Forall plain w -> " "%char ∉ w.
Proof. intros Hw H. rewrite Forall_forall in Hw. by apply Hw in H as [? _]. Qed.

Lemma plain_newline w : Forall plain w -> newline ∉ w.
Proof. intros Hw H. rewrite Forall_forall in Hw. by apply Hw in H as [_ ?]. Qed.

Lemma digit_plain c : is_digit c -> plain c.
Proof. intros [d Hd]. by split; intros ->. Qed.

Lemma digits_plain l : Forall is_digit l -> Forall plain l.
Proof. intros H. eapply Forall_impl; [exact H|apply digit_plain]. Qed.

Lemma print_plain v : 0 <= v -> is_plain (print_int v []).
Proof. intros Hv. split; [apply print_int_ne|]. by apply digits_plain, print_int_digits. Qed.

Lemma padded_digits k : forall n acc, Forall is_digit acc -> Forall is_digit (padded k n acc).
Proof.
  induction k as [|k IH]; intros n acc Ha; simpl; [done|]. apply IH. constructor; [|done].
  exists (n mod 10). apply digit_val_digit, Z.mod_pos_bound. lia.
Qed.

Lemma round_nonneg n d : 0 <= n -> 0 < d -> 0 <= round_half_even n d.
Proof.
  intros Hn Hd. unfold round_half_even. pose proof (Z.div_pos n d Hn Hd). pose proof (Z.mod_pos_bound (n / d) 2 ltac:(lia)).
  repeat case_match; lia.
Qed.

Lemma fixed_plain k d : is_plain (print_fixed k d).
Proof.
  assert (forall s : bool, Forall plain (if s then chars "-" else [])) as Hs by (intros []; repeat constructor; done).
  assert (forall n, Forall plain (chars "." ++ padded k n [])) as Hp.
  { intros n. constructor; [done|]. by apply digits_plain, padded_digits. }
  split.
  { destruct d as [[]|[]| |s m e]; try done. cbn [print_fixed]. intros [_ H]%app_eq_nil. rewrite decimal_app in H. by apply app_eq_nil in H as [_ H]. }
  destruct d as [s|s| |s m e]; cbn [print_fixed].
  - apply Forall_app. split; [done|]. constructor; [done|]. apply Hp.
  - apply Forall_app. split; [done|]. repeat constructor; done.
  - repeat constructor; done.
  - apply Forall_app. split; [done|]. rewrite decimal_app. apply Forall_app. split; [|apply Hp].
    apply digits_plain, decimal_digits; [|done]. apply Z.div_pos; [|apply Z.pow_pos_nonneg; lia].
    destruct (Z.leb_spec 0 e); [|apply round_nonneg]; try (apply Z.pow_pos_nonneg; lia); repeat apply Z.mul_nonneg_nonneg; try lia; apply Z.pow_nonneg; lia.
Qed.

(** ** The effect of the messages *)

Lemma f_int_set k z f k' : f_int (set_int k z f) k' = if String.eqb k k' then z else f_int f k'.
Proof.
  unfold f_int, set_int. simpl. destruct (String.eqb_spec k k') as [->|H]; [by rewrite lookup_insert_eq|by rewrite lookup_insert_ne].
Qed.

Lemma f_text_set k t f k' : f_text (set_text k t f) k' = if String.eqb k k' then t else f_text f k'.
Proof.
  unfold f_text, set_text. simpl. destruct (String.eqb_spec k k') as [->|H]; [by rewrite lookup_insert_eq|by rewrite lookup_insert_ne].
Qed.

Lemma f_int_text k t f k' : f_int (set_text k t f) k' = f_int f k'.
Proof. done. Qed.

Lemma f_text_int k z f k' : f_text (set_int k z f) k' = f_text f k'.
Proof. done. Qed.

Lemma split_next w l : is_plain w -> split (w ++ " "%char :: l) = w :: split l.
Proof using TL. intros [Hne Hw]. apply split_word; [done|by apply plain_blank]. Qed.

Lemma split_end w : w <> [] -> (" "%char ∉ w) -> split w = [w].
Proof using TL. apply split_last. Qed.

Lemma word_plain s : forallb (fun c => negb (Ascii.eqb c " ") && negb (Ascii.eqb c newline)) (chars s) = true -> chars s <> [] -> is_plain (chars s).
Proof.
  intros H Hne. split; [done|]. apply Forall_forall. intros c Hc. rewrite forallb_forall in H.
  apply list_elem_of_In, H, andb_true_iff in Hc as [H1 H2]. by split; intros ->.
Qed.

(** The words of a line whose first word is [w0]. *)
Lemma words_4 w0 w1 w2 : is_plain w0 -> is_plain w1 -> is_plain w2 ->
  split (line (w0 ++ " "%char :: w1 ++ " "%char :: w2 ++ [" "%char])) = [w0; w1; w2; [newline]].
Proof using TL.
  intros H0 H1 H2. unfold line. repeat (rewrite <- app_assoc; simpl). rewrite !split_next by done. rewrite split_end; [done|done|].
  by intros ?%list_elem_of_singleton.
Qed.

Lemma words_3 w0 w1 w2 : is_plain w0 -> is_plain w1 -> is_plain w2 ->
  split (line (w0 ++ " "%char :: w1 ++ " "%char :: w2)) = [w0; w1; w2 ++ [newline]].
Proof using TL.
  intros H0 H1 H2. unfold line. repeat (rewrite <- app_assoc; simpl). rewrite !split_next by done. rewrite split_end; [done| |].
  - by destruct w2.
  - intros [H|H%list_elem_of_singleton]%elem_of_app; [|done]. by apply plain_blank in H; [|apply H2].
Qed.

Lemma count_spec fits k txt z f : fits (f_int f k + z) = true ->
  count fits k txt z f = Ret (tt, set_text txt (print_int (f_int f k + z) []) (set_int k (f_int f k + z) f)).
Proof. intros H. unfold count, mbind, M_bind, gets, modify. by rewrite H. Qed.

Lemma word_bind {A} ws i w (k : list ascii -> M Form1 A) f : ws !! i = Some w -> (word ws i ≫= k) f = k w f.
Proof. intros H. unfold word, need, mbind, M_bind. by rewrite H. Qed.

Lemma converted_bind {A B} o (a : A) (k : A -> M Form1 B) f : o = Some a -> (converted o ≫= k) f = k a f.
Proof. by intros ->. Qed.

Lemma transfer_page sec cnt txtSec txtCnt txtSpeed w0 l r f : 0 <= l < 2 ^ 31 -> sec <> cnt ->
  fits_int (f_int f cnt + 1) = true ->
  on_transfer sec cnt txtSec txtCnt txtSpeed (w0 :: chars "PAGE" :: print_int l [] :: r) f = Ret (tt,
    set_text txtCnt (print_int (f_int f cnt + 1) []) (set_int cnt (f_int f cnt + 1)
      (set_text txtSec (print_int (u32 (f_int f sec + l)) []) (set_int sec (u32 (f_int f sec + l)) f)))).
Proof.
  intros Hl Hne Hf. unfold on_transfer. rewrite (word_bind _ 1 (chars "PAGE")) by done.
  change (says (chars "PAGE") "PAGE") with true. cbv iota. rewrite (word_bind _ 2 (print_int l [])) by done.
  rewrite (converted_bind _ l) by (apply sscanf_u_print; (done || lia)).
  set (f1 := set_text txtSec _ _). change (count_unsigned sec txtSec l ≫= _) with (fun f => count fits_int cnt txtCnt 1 (set_text txtSec (print_int (u32 (f_int f sec + l)) []) (set_int sec (u32 (f_int f sec + l)) f))).
  cbv beta. fold f1. assert (f_int f1 cnt = f_int f cnt) as E.
  { unfold f1. rewrite f_int_text, f_int_set. by rewrite (proj2 (String.eqb_neq sec cnt) Hne). }
  rewrite count_spec; rewrite E; done.
Qed.

Lemma transfer_bw sec cnt txtSec txtCnt txtSpeed w0 b r f : bandwidth_ok b = true ->
  on_transfer sec cnt txtSec txtCnt txtSpeed (w0 :: chars "BW" :: print_fixed 6 b :: r) f = Ret (tt, f) \/
  exists t, on_transfer sec cnt txtSec txtCnt txtSpeed (w0 :: chars "BW" :: print_fixed 6 b :: r) f = Ret (tt, set_text txtSpeed t f).
Proof.
  unfold bandwidth_ok, on_transfer. rewrite (word_bind _ 1 (chars "BW")) by done.
  change (says (chars "BW") "PAGE") with false. change (says (chars "BW") "BW") with true. cbv iota.
  rewrite (word_bind _ 2 (print_fixed 6 b)) by done.
  destruct (sscanf_lf (print_fixed 6 b)) as [d|]; [|done]. intros Hd%Z.ltb_lt. rewrite (converted_bind _ d) by done.
  destruct (dbl_is_zero d); [by left|]. right. exists (print_fixed 3 d). unfold show_double. by rewrite (proj2 (Z.leb_gt _ _)).
Qed.

Lemma on_line_run m w0 ws f f1 : split (line m) = w0 :: ws -> on_command w0 (w0 :: ws) f = Ret (tt, f1) ->
  on_line (line m) f = Ret (tt, set_text "txtDebug" (line m) f1).
Proof.
  intros Hs Hc. unfold on_line. rewrite Hs, (word_bind _ 0 w0) by done. unfold mbind, M_bind, modify. by rewrite Hc.
Qed.

(** Texts that show no count. *)
Lemma agrees_text t f k v : forallb (fun p => negb (String.eqb k (fst p))) shown = true -> agrees t f -> agrees t (set_text k v f).
Proof.
  intros Hk (? & ? & ? & ? & ? & ? & ? & Hs). split_and!; try done. rewrite Forall_forall in Hs |- *. intros [txt v'] Hin.
  rewrite forallb_forall in Hk. specialize (Hk _ (proj1 (list_elem_of_In _ _) Hin)). specialize (Hs _ Hin). simpl in *.
  rewrite f_int_text, f_text_set. by destruct (String.eqb k txt).
Qed.

(** Checks the counts after an update, one by one. *)
Ltac agrees_go := unfold agrees, shown; split_and!; repeat first [apply Forall_nil_2|apply Forall_cons_2];
  repeat first [rewrite f_int_text|rewrite f_int_set|rewrite f_text_set|rewrite f_text_int];
  cbn [String.eqb Ascii.eqb Bool.eqb fst snd t_write_sectors t_writes t_read_sectors t_reads t_pages t_copies t_rounds].

Lemma u32_add x a b : x = u32 a -> u32 (x + b) = u32 (a + b).
Proof. intros ->. unfold u32. by rewrite Zplus_mod_idemp_l. Qed.

#[local] Opaque f_int f_text print_int u32.

(** Takes an agreement apart, and puts the new one together. *)
Ltac agrees_by := intros (? & ? & ? & ? & ? & ? & ? & Hs); unfold shown in Hs; rewrite !Forall_cons in Hs;
  destruct Hs as (? & ? & ? & ? & ? & ? & ? & _);
  cbn [t_write_sectors t_writes t_read_sectors t_reads t_pages t_copies t_rounds] in *; agrees_go;
  first [assumption|reflexivity|congruence|by apply u32_add].

Lemma agrees_read ws w rs r p c g l f : agrees (Tally ws w rs r p c g) f ->
  agrees (Tally ws w (rs + l) (r + 1) p c g)
    (set_text "txtReadCount" (print_int (f_int f "ReadCount" + 1) []) (set_int "ReadCount" (f_int f "ReadCount" + 1)
      (set_text "txtReadSectorCount" (print_int (u32 (f_int f "ReadSecCount" + l)) [])
        (set_int "ReadSecCount" (u32 (f_int f "ReadSecCount" + l)) f)))).
Proof. agrees_by. Qed.

Lemma agrees_write ws w rs r p c g l f : agrees (Tally ws w rs r p c g) f ->
  agrees (Tally (ws + l) (w + 1) rs r p c g)
    (set_text "txtWriteCount" (print_int (f_int f "WriteCount" + 1) []) (set_int "WriteCount" (f_int f "WriteCount" + 1)
      (set_text "txtWriteSectorCount" (print_int (u32 (f_int f "WriteSecCount" + l)) [])
        (set_int "WriteSecCount" (u32 (f_int f "WriteSecCount" + l)) f)))).
Proof. agrees_by. Qed.

Lemma agrees_pages ws w rs r p c g n f : agrees (Tally ws w rs r p c g) f ->
  agrees (Tally ws w rs r (p + n) c g) (set_text "txtWrittenBlockCount" (print_int (f_int f "WrittenCorrectCount" + n) [])
    (set_int "WrittenCorrectCount" (f_int f "WrittenCorrectCount" + n) f)).
Proof. agrees_by. Qed.

Lemma agrees_copies ws w rs r p c g n f : agrees (Tally ws w rs r p c g) f ->
  agrees (Tally ws w rs r p (c + n) g) (set_text "txtWriteAmpCount" (print_int (f_int f "WriteAmpCount" + n) [])
    (set_int "WriteAmpCount" (f_int f "WriteAmpCount" + n) f)).
Proof. agrees_by. Qed.

Lemma agrees_rounds ws w rs r p c g f : agrees (Tally ws w rs r p c g) f ->
  agrees (Tally ws w rs r p c (g + 1)) (set_text "txtGarbageCollectionNB" (print_int (f_int f "GC_NB" + 1) [])
    (set_int "GC_NB" (f_int f "GC_NB" + 1) f)).
Proof. agrees_by. Qed.

#[local] Transparent f_int f_text print_int u32.

(** ** Each message *)

(** The line of the message is received, and the window agrees with the tally. *)
Definition received (t t' : tally) (m : list ascii) : Prop := forall f, agrees t f ->
  exists f', on_line (line m) f = Ret (tt, f') /\ agrees t' f'.

Lemma received_by m t t' w0 ws : split (line m) = w0 :: ws ->
  (forall f, agrees t f -> exists f', on_command w0 (w0 :: ws) f = Ret (tt, f') /\ agrees t' f') -> received t t' m.
Proof.
  intros Hs H f Hf. destruct (H f Hf) as (f' & Hc & Hf'). exists (set_text "txtDebug" (line m) f').
  split; [by apply (on_line_run _ w0 ws)|]. by apply agrees_text.
Qed.

Ltac plain_word := apply word_plain; [reflexivity|done].

Lemma read_received ws w rs r p c g l : 0 <= l < 2 ^ 31 -> 0 <= r -> r + 1 < 2 ^ 31 ->
  received (Tally ws w rs r p c g) (Tally ws w (rs + l) (r + 1) p c g) (read_message l).
Proof using TL.
  intros Hl Hr0 Hr1. eapply received_by.
  - replace (read_message l) with (chars "READ" ++ " "%char :: chars "PAGE" ++ " "%char :: print_int l [] ++ [" "%char]).
    + apply words_4; [plain_word|plain_word|apply print_plain; lia].
    + unfold read_message. rewrite i32_id by lia. by rewrite (print_int_app l (chars " ")).
  - intros f Hf. eexists. split; [|by apply (agrees_read _ _ _ _ _ _ _ l f)]. apply transfer_page; [done|done|].
    destruct Hf as (_ & _ & _ & -> & _). unfold fits_int. simpl. lia.
Qed.

Lemma write_received ws w rs r p c g l : 0 <= l < 2 ^ 31 -> 0 <= w -> w + 1 < 2 ^ 31 ->
  received (Tally ws w rs r p c g) (Tally (ws + l) (w + 1) rs r p c g) (write_message l).
Proof using TL.
  intros Hl Hw0 Hw1. eapply received_by.
  - replace (write_message l) with (chars "WRITE" ++ " "%char :: chars "PAGE" ++ " "%char :: print_int l [] ++ [" "%char]).
    + apply words_4; [plain_word|plain_word|apply print_plain; lia].
    + unfold write_message. rewrite i32_id by lia. by rewrite (print_int_app l (chars " ")).
  - intros f Hf. eexists. split; [|by apply (agrees_write _ _ _ _ _ _ _ l f)]. apply transfer_page; [done|done|].
    destruct Hf as (_ & -> & _). unfold fits_int. simpl. lia.
Qed.

(** [WB] with a second word. *)
Lemma wb_run w1 n f : 0 <= n < 2 ^ 31 ->
  on_wb [chars "WB"; w1; print_int n [] ++ [newline]] f =
    (if says w1 "CORRECT" then count fits_long "WrittenCorrectCount" "txtWrittenBlockCount" n
     else count fits_long "WriteAmpCount" "txtWriteAmpCount" n) f.
Proof.
  intros Hn. unfold on_wb. rewrite (word_bind _ 2 (print_int n [] ++ [newline])) by done. rewrite <- print_int_app.
  rewrite (sscanf_lld_print n [newline]) by (done || lia). by rewrite (word_bind _ 1 w1).
Qed.

Lemma pages_received ws w rs r p c g n : 0 <= n < 2 ^ 31 -> 0 <= p -> p + n < 2 ^ 63 ->
  received (Tally ws w rs r p c g) (Tally ws w rs r (p + n) c g) (pages_message n).
Proof using TL.
  intros Hn Hp0 Hp1. eapply received_by.
  - change (pages_message n) with (chars "WB" ++ " "%char :: chars "CORRECT" ++ " "%char :: print_int n []).
    apply words_3; [plain_word|plain_word|apply print_plain; lia].
  - intros f Hf. eexists. split; [|by apply (agrees_pages _ _ _ _ _ _ _ n f)]. transitivity (on_wb [chars "WB"; chars "CORRECT"; print_int n [] ++ [newline]] f); [done|].
    rewrite wb_run by done. apply count_spec. destruct Hf as (_ & _ & _ & _ & -> & _). unfold fits_long. simpl. lia.
Qed.

Lemma copies_received ws w rs r p c g n : 0 <= n < 2 ^ 31 -> 0 <= c -> c + n < 2 ^ 63 ->
  received (Tally ws w rs r p c g) (Tally ws w rs r p (c + n) g) (copies_message n).
Proof using TL.
  intros Hn Hc0 Hc1. eapply received_by.
  - change (copies_message n) with (chars "WB" ++ " "%char :: chars "AMP" ++ " "%char :: print_int n []).
    apply words_3; [plain_word|plain_word|apply print_plain; lia].
  - intros f Hf. eexists. split; [|by apply (agrees_copies _ _ _ _ _ _ _ n f)]. transitivity (on_wb [chars "WB"; chars "AMP"; print_int n [] ++ [newline]] f); [done|].
    rewrite wb_run by done. apply count_spec. destruct Hf as (_ & _ & _ & _ & _ & -> & _). unfold fits_long. simpl. lia.
Qed.

Lemma gc_received ws w rs r p c g : 0 <= g -> g + 1 < 2 ^ 63 ->
  received (Tally ws w rs r p c g) (Tally ws w rs r p c (g + 1)) gc_message.
Proof using TL.
  intros Hg0 Hg1. eapply received_by.
  - change (line gc_message) with (chars "GC" ++ " "%char :: [newline]). rewrite split_next by plain_word.
    rewrite split_end; [done|done|by intros ?%list_elem_of_singleton].
  - intros f Hf. eexists. split; [|by apply (agrees_rounds _ _ _ _ _ _ _ f)]. apply count_spec.
    destruct Hf as (_ & _ & _ & _ & _ & _ & -> & _). unfold fits_long. simpl. lia.
Qed.

(** Messages that change no count. *)
Lemma erase_received t : received t t erase_message.
Proof using TL.
  eapply received_by.
  - change (line erase_message) with (chars "ERASE" ++ " "%char :: chars "1" ++ [newline]). rewrite split_next by plain_word.
    rewrite split_end; [done|done|]. intros H. by repeat (apply elem_of_cons in H as [H|H]); [..|apply not_elem_of_nil in H].
  - intros f Hf. by exists f.
Qed.

Lemma read_bw_received t b : bandwidth_ok b = true -> received t t (read_bw_message b).
Proof using TL.
  intros Hb. eapply received_by.
  - change (read_bw_message b) with (chars "READ" ++ " "%char :: chars "BW" ++ " "%char :: print_fixed 6 b ++ [" "%char]).
    apply words_4; [plain_word|plain_word|apply fixed_plain].
  - intros f Hf. destruct (transfer_bw "ReadSecCount" "ReadCount" "txtReadSectorCount" "txtReadCount" "txtReadSpeed" (chars "READ") b [[newline]] f Hb) as [E|[x E]];
      eexists; (split; [exact E|]); [done|by apply agrees_text].
Qed.

Lemma write_bw_received t b : bandwidth_ok b = true -> received t t (write_bw_message b).
Proof using TL.
  intros Hb. eapply received_by.
  - change (write_bw_message b) with (chars "WRITE" ++ " "%char :: chars "BW" ++ " "%char :: print_fixed 6 b ++ [" "%char]).
    apply words_4; [plain_word|plain_word|apply fixed_plain].
  - intros f Hf. destruct (transfer_bw "WriteSecCount" "WriteCount" "txtWriteSectorCount" "txtWriteCount" "txtWriteSpeed" (chars "WRITE") b [[newline]] f Hb) as [E|[x E]];
      eexists; (split; [exact E|]); [done|by apply agrees_text].
Qed.

Lemma util_received t u : util_ok u = true -> received t t (util_message u).
Proof using TL.
  unfold util_ok. destruct (sscanf_lf (print_fixed 6 u)) as [d|] eqn:Ed; [|done]. intros Hd%Z.ltb_lt. eapply received_by.
  - change (line (util_message u)) with (chars "UTIL" ++ " "%char :: (print_fixed 6 u ++ chars " ") ++ [newline]).
    rewrite <- app_assoc. simpl app at 3. rewrite !split_next; [|apply fixed_plain|plain_word]. rewrite split_end; [done|done|by intros ?%list_elem_of_singleton].
  - intros f Hf. exists (set_text "txtSsdUtil" (print_fixed 6 d) f). split; [|by apply agrees_text].
    transitivity (on_util [chars "UTIL"; print_fixed 6 u; [newline]] f); [done|]. unfold on_util. rewrite (word_bind _ 1 (print_fixed 6 u)) by done.
    rewrite Ed. simpl default. unfold show_double. by rewrite (proj2 (Z.leb_gt _ _)).
Qed.

(** All messages of an event. *)
Fixpoint received_all (t t' : tally) (ms : list (list ascii)) : Prop :=
  match ms with
  | [] => t = t'
  | m :: ms' => exists t1, received t t1 m /\ received_all t1 t' ms'
  end.

Lemma received_run ms : forall t t' f, received_all t t' ms -> agrees t f -> wp (run_lines ms) (fun _ f' => agrees t' f') f.
Proof.
  induction ms as [|m ms IH]; intros t t' f; simpl.
  - intros -> Hf. by wp_go.
  - intros (t1 & Hm & Hms) Hf. destruct (Hm f Hf) as (f1 & E & Hf1). apply wp_bind. unfold wp at 1. rewrite E. by apply (IH t1).
Qed.

Lemma received_app ms1 : forall ms2 t t1 t2, received_all t t1 ms1 -> received_all t1 t2 ms2 -> received_all t t2 (ms1 ++ ms2).
Proof. induction ms1 as [|m ms1 IH]; intros ms2 t t1 t2; simpl; [by intros ->|]. intros (t3 & ? & ?) ?. exists t3. split; [done|]. by apply (IH _ _ t1). Qed.

Lemma event_received t e : event_ok e -> tally_positive t -> tally_fits (add_event t e) -> received_all t (add_event t e) (messages e).
Proof using TL.
  destruct t as [ws w rs r p c g]. unfold tally_positive, tally_fits. destruct e as [l|l n|n| |b|b u]; simpl; intros He Hp Hf.
  - eexists. split; [apply read_received; lia|done].
  - eexists. split; [apply write_received; lia|]. eexists. split; [apply pages_received; lia|done].
  - eexists. split; [apply gc_received; lia|]. eexists. split; [apply copies_received; lia|done].
  - eexists. split; [apply erase_received|done].
  - eexists. split; [by apply read_bw_received|done].
  - destruct He. eexists. split; [by apply write_bw_received|]. eexists. split; [by apply util_received|done].
Qed.

Lemma events_received es : forall t, Forall event_ok es -> tally_positive t -> tally_fits (foldl add_event t es) ->
  received_all t (foldl add_event t es) (concat (map messages es)).
Proof using TL.
  induction es as [|e es IH]; intros t Hes Ht Hf; simpl in *; [done|]. apply Forall_cons in Hes as [He Hes].
  pose proof (add_event_positive _ _ Ht He). apply (received_app _ _ _ (add_event t e)); [|by apply IH].
  apply event_received; [done|done|]. by apply (tally_fits_all es).
Qed.

(** No message has a newline. *)
Lemma chars_newline s : forallb (fun c => negb (Ascii.eqb c newline)) (chars s) = true -> newline ∉ chars s.
Proof. intros H Hc. rewrite forallb_forall in H. apply list_elem_of_In, H in Hc. by rewrite Ascii.eqb_refl in Hc. Qed.

Lemma number_newline v : newline ∉ print_int v [].
Proof.
  unfold print_int. destruct (Z.ltb_spec v 0); [|by apply plain_newline, digits_plain, decimal_digits].
  apply not_elem_of_cons. split; [done|]. apply plain_newline, digits_plain, decimal_digits; [lia|done].
Qed.

Lemma event_newline e : Forall (fun m => newline ∉ m) (messages e).
Proof.
  assert (forall s, forallb (fun c => negb (Ascii.eqb c newline)) (chars s) = true -> forall l, newline ∉ l -> newline ∉ chars s ++ l) as Hc.
  { intros s Hs l Hl [H|H]%elem_of_app; [|done]. by apply chars_newline in H. }
  assert (forall v, newline ∉ print_int v (chars " ")) as Hn.
  { intros v. rewrite print_int_app. intros [H|H]%elem_of_app; [by apply number_newline in H|by apply chars_newline in H]. }
  assert (forall d, newline ∉ print_fixed 6 d ++ chars " ") as Hd.
  { intros d [H|H]%elem_of_app; [|by apply chars_newline in H]. revert H. apply plain_newline, fixed_plain. }
  destruct e; repeat (apply Forall_cons; split); try apply Forall_nil_2; try (apply Hc; [done|]); auto using number_newline.
  by apply chars_newline.
Qed.

Lemma events_newline es : Forall (fun m => newline ∉ m) (concat (map messages es)).
Proof. induction es as [|e es IH]; simpl; [done|]. apply Forall_app. split; [apply event_newline|done]. Qed.

End Monitor.

(** ** The log *)

Lemma log_all_stream `{Socket} ms : forall g, (forall n, room n = true) -> g_server_create g = true -> client_open g = true ->
  wp (log_all ms) (fun _ g' => stream g' = stream g ++ concat (map line ms)) g.
Proof.
  induction ms as [|m ms IH]; intros g Hr Hg Ho; simpl; [wp_go; by rewrite app_nil_r|].
  apply wp_bind. unfold WRITE_LOG, send. wp_go. unfold id. rewrite Hg, Hr. simpl. wp_go. simpl.
  eapply wp_mono; [by apply IH|]. intros ? g' E. simpl in E. rewrite E, !Ho. unfold line. by rewrite !app_assoc.
Qed.

(** What is logged is received and counted. *)
Lemma monitor_counts_log `{Socket} {T : Qt} {TL : QtLaws T} es t f g :
  (forall n, room n = true) -> g_server_create g = true -> client_open g = true -> sock f = [] -> agrees t f -> tally_positive t ->
  Forall event_ok es -> tally_fits (foldl add_event t es) ->
  wp (log_all (concat (map messages es))) (fun _ g' => exists bytes, stream g' = stream g ++ bytes /\
    forall chunks, concat chunks = bytes ->
      wp (receive_all chunks) (fun _ f' => agrees (foldl add_event t es) f' /\ sock f' = []) f) g.
Proof.
  intros Hr Hg Ho Hs Hf Ht Hes Hfit. eapply wp_mono; [by apply log_all_stream|]. intros ? g' E.
  exists (concat (map line (concat (map messages es)))). split; [done|]. intros chunks Hc.
  assert (newline ∉ sock f) as Hn by (rewrite Hs; by intros ?%not_elem_of_nil). unfold wp. rewrite receive_all_concat, Hc by done.
  apply receive_lines; [done|apply events_newline|by apply (received_run _ t), Hf; apply events_received].
Qed.

(** The monitor counts what the drive does.  The drive, connected to the
    monitor by a socket with room, logs any sequence of reads, writes, erasures and
    rounds of the collector.  However the socket cuts the bytes into pieces, the
    window receives them without undefined behaviour; it has then counted all
    requests, sectors, pages and rounds, modulo the width of the sector counts, and
    shows the counts. *)
Theorem monitor_counts `{Socket} {T : Qt} {TL : QtLaws T} es t f g :
  (forall n, room n = true) -> g_server_create g = true -> client_open g = true -> sock f = [] -> agrees t f -> tally_positive t ->
  Forall event_ok es -> tally_fits (foldl add_event t es) ->
  wp (log_all (concat (map messages es))) (fun _ g' => exists bytes, stream g' = stream g ++ bytes /\
    forall chunks, concat chunks = bytes ->
      wp (receive_all chunks) (fun _ f' => agrees (foldl add_event t es) f' /\ sock f' = []) f) g.
Proof. apply monitor_counts_log. Qed.

(** ** A window *)

(** Lines and words as Qt documents them. *)
Fixpoint first_line (l : list ascii) : option (list ascii * list ascii) :=
  match l with
  | [] => None
  | c :: l' => if Ascii.eqb c newline then Some ([newline], l') else
      match first_line l' with Some (a, r) => Some (c :: a, r) | None => None end
  end.

(** [w] is the word so far, from its end. *)
Fixpoint blank_words (w : list ascii) (l : list ascii) : list (list ascii) :=
  match l with
  | [] => if bool_decide (w = []) then [] else [rev w]
  | c :: l' => if Ascii.eqb c " " then if bool_decide (w = []) then blank_words [] l' else rev w :: blank_words [] l'
               else blank_words (c :: w) l'
  end.

#[export] Instance qt : Qt := {| read_line := first_line; split := blank_words [] |}.

Lemma blank_words_app w : forall v l, " "%char ∉ w -> blank_words v (w ++ l) = blank_words (rev w ++ v) l.
Proof.
  induction w as [|c w IH]; intros v l Hw; [done|]. apply not_elem_of_cons in Hw as [Hc Hw]. simpl.
  destruct (Ascii.eqb_spec c " "); [done|]. rewrite IH by done. by rewrite <- app_assoc.
Qed.

Lemma rev_ne (w : list ascii) : w <> [] -> rev w ++ [] <> [].
Proof. destruct w as [|c w]; [done|]. simpl. intros _ H. rewrite app_nil_r in H. by apply app_eq_nil in H as [_ H]. Qed.

#[export] Instance qt_laws : QtLaws qt.
Proof.
  split.
  - intros l r. induction l as [|c l IH]; intros Hl; simpl; [done|]. apply not_elem_of_cons in Hl as [Hc Hl].
    destruct (Ascii.eqb_spec c newline); [done|]. simpl in IH. by rewrite IH.
  - intros l. induction l as [|c l IH]; intros Hl; simpl; [done|]. apply not_elem_of_cons in Hl as [Hc Hl].
    destruct (Ascii.eqb_spec c newline); [done|]. simpl in IH. by rewrite IH.
  - done.
  - intros w l Hne Hw. simpl. rewrite blank_words_app by done. simpl. rewrite bool_decide_false by by apply rev_ne.
    by rewrite app_nil_r, rev_involutive.
  - intros w Hne Hw. simpl. rewrite <- (app_nil_r w) at 1. rewrite blank_words_app by done. simpl. rewrite bool_decide_false by by apply rev_ne.
    by rewrite app_nil_r, rev_involutive.
Qed.

(** A socket that always has room. *)
#[export] Instance wide : Socket := {| room _ := true; bind_ok := true |}.

(** The window at its start, and a log that is connected. *)
Definition window : Form1 :=
  match (init None ;; btnInit_clicked None) (Form ∅ ∅ [] [] []) with Ret (_, f) => f | _ => Form ∅ ∅ [] [] [] end.
Definition log : log_manager := match INIT_LOG_MANAGER log0 with Ret (_, g) => g | _ => log0 end.

Lemma window_agrees : agrees (Tally 0 0 0 0 0 0 0) window.
Proof. unfold agrees. split_and!; try reflexivity. repeat first [apply Forall_nil_2|apply Forall_cons_2]; reflexivity. Qed.

(** A write of eight sectors in two pages, a read of four sectors, and a round of
    the collector that copies three pages and erases a block. *)
Lemma monitor_counts_witness :
  let es := [WriteDone 8 2; WriteAverage (dbl_of_Z 3) (dbl_of_Z 1); ReadDone 4; Erased; Collected 3] in
  wp (log_all (concat (map messages es))) (fun _ g' => exists bytes, stream g' = stream log ++ bytes /\
    forall chunks, concat chunks = bytes ->
      wp (receive_all chunks) (fun _ f' => agrees (Tally 8 1 4 1 2 3 1) f' /\ sock f' = []) window) log.
Proof.
  intros es. apply (monitor_counts es (Tally 0 0 0 0 0 0 0) window log);
    [done|reflexivity|reflexivity|reflexivity|exact window_agrees|by split_and!| |by split_and!].
  unfold es. repeat first [apply Forall_nil_2|apply Forall_cons_2]; simpl; try lia; by split_and!.
Defined.
