(* ===== verification/Monitored.v ===== *)
(** * The drive and its monitor together

    The log of a session, as the monitor receives it, tells what the host asked
    for and what the collector added: the pages it shows as written and copied are
    those the free pages of the drive have lost. *)

From stdpp Require Import prelude gmap strings.
From Stdlib Require Import Ascii.
From S2P Require Import Prelude Config Text Blocks Mapping Device Perf SsdIo Gc Ftl Persist Ssd.
From S2P Require Import Tables Lists Victims Inv Collect Host Boot Reload SsdLaws Timing SsdSim Space Session Example.
From S2P Require Import Monitor MonitorProps.

Local Open Scope Z_scope.

Definition tally0 : tally := Tally 0 0 0 0 0 0 0.

(** ** What the host asks for *)

(** The events of the requests themselves: a write and its pages, a read of data
    that is there. *)
Fixpoint host_events (cfg : config) (h : host) (rs : list request) : list event :=
  match rs with
  | [] => []
  | Write s l :: rs' => WriteDone l (zlen (touched cfg s l)) :: host_events cfg (host_write cfg s l h) rs'
  | Read s l :: rs' => match host_read cfg s l h with Some _ => [ReadDone l] | None => [] end ++ host_events cfg h rs'
  end.

Definition host_tally (cfg : config) (h : host) (rs : list request) : tally :=
  foldl add_event tally0 (host_events cfg h rs).

(** The same with the work of the collector. *)
Definition with_rounds (t : tally) (copies rounds : Z) : tally :=
  Tally (t_write_sectors t) (t_writes t) (t_read_sectors t) (t_reads t) (t_pages t) (t_copies t + copies) (t_rounds t + rounds).

(** ** Tallies *)

Lemma tally_ftl es : forall t, foldl add_event t es = foldl add_event t (filter (fun e => ftl_event e = true) es).
Proof.
  induction es as [|e es IH]; intros t; [done|]. simpl. rewrite filter_cons. case_decide as He; simpl; rewrite IH; [done|].
  f_equal. by destruct t, e.
Qed.

Lemma tally_rounds ms : forall t, foldl add_event t (Collected <$> ms) = with_rounds t (sum_with id ms) (zlen ms).
Proof.
  induction ms as [|m ms IH]; intros [ws w rs r p c g]; [unfold with_rounds; simpl; by rewrite !Z.add_0_r|].
  simpl. rewrite IH. unfold with_rounds. simpl. f_equal; lia.
Qed.

Lemma with_rounds_event t c g e : (forall m, e <> Collected m) -> add_event (with_rounds t c g) e = with_rounds (add_event t e) c g.
Proof. intros H. destruct t, e as [| |m| | |]; try done. by destruct (H m). Qed.

Lemma with_rounds_twice t c g c' g' : with_rounds (with_rounds t c g) c' g' = with_rounds t (c + c') (g + g').
Proof. destruct t. unfold with_rounds. simpl. f_equal; lia. Qed.

Lemma sum_rest P ms : sum_with (fun m => P - m) ms = P * zlen ms - sum_with id ms.
Proof. induction ms as [|m ms IH]; simpl; [lia|]. rewrite IH. change (id m) with m. lia. Qed.

Lemma sum_copies P ms : Forall (fun m => 0 <= m < P) ms -> 0 <= sum_with id ms <= P * zlen ms.
Proof. induction 1 as [|m ms Hm _ IH]; simpl; [lia|]. change (id m) with m. lia. Qed.

Section Monitored.
Context (cfg : config) (Hok : cfg_ok cfg) (HL : PLANES_PER_FLASH cfg = 1) {C : Clock} {CL : ClockLaws C}.

Local Abbreviation P := (PAGE_NB cfg).

Context (M : Z) (HM : 0 <= M < (BLOCK_NB cfg * FLASH_NB cfg - FLASH_NB cfg * PLANES_PER_FLASH cfg) * P)
  (HV : 1 <= GC_VICTIM_NB cfg).

(** All that the drive has given to [WRITE_LOG]. *)
Definition log_of (d : drive) : list event := log_events (fst (snd (d_state d))).

(** The log tallies what the host asked for, [t], and some rounds; the free pages
    are those of an empty drive less the pages logged, plus a block a round. *)
Record accounts (t : tally) (d : drive) : Prop := {
  a_rounds : exists copies rounds, foldl add_event tally0 (log_of d) = with_rounds t copies rounds /\
    0 <= copies <= P * rounds /\ 0 <= rounds <= t_writes t * GC_VICTIM_NB cfg /\
    free_pages cfg (fst (d_state d)) + t_pages t + copies = npages cfg + P * rounds;
  a_events : Forall event_ok (drive_log d)
}.

Lemma log_of_drive d : foldl add_event tally0 (log_of d) = foldl add_event tally0 (drive_log d).
Proof. apply tally_ftl. Qed.

Lemma touched_lt s l : request_ok cfg s l -> 0 <= l < 2 ^ 31 /\ 0 <= zlen (touched cfg s l) < 2 ^ 31.
Proof using Hok. intros Hr. pose proof (request_end cfg Hok s l Hr). destruct Hr as (? & ? & ? & ?). lia. Qed.

Lemma accounts_write t s l d d' : request_ok cfg s l -> accounts t d ->
  write_logged cfg s l (fst (d_state d)) (fst (d_state d')) (drive_log d) (drive_log d') ->
  accounts (add_event t (WriteDone l (zlen (touched cfg s l)))) d'.
Proof using Hok HV.
  intros Hr [(c & g & Ht & Hc & Hg & Hf) He] (ms & Hms & Hlen & Hf' & El).
  destruct (touched_lt s l Hr). pose proof (sum_copies P ms Hms). rewrite sum_rest in Hf'. split.
  - exists (c + sum_with id ms), (g + zlen ms). rewrite log_of_drive in Ht |- *.
    rewrite El, !foldl_app, Ht, tally_rounds, with_rounds_twice. split.
    + cbn [foldl]. by apply with_rounds_event.
    + destruct t as [ws w rs r p c0 g0]. simpl in *. split; [lia|]. split; [nia|lia].
  - rewrite El. apply Forall_app. split; [done|]. apply Forall_app. split; [|apply Forall_singleton; by split].
    apply Forall_fmap. eapply Forall_impl; [exact Hms|]. intros m Hm. cbv beta in Hm. change (0 <= m < 2 ^ 31).
    pose proof (ok_page_lt Hok) as (HP & _ & _). lia.
Qed.

Lemma accounts_read t s l h d d' : request_ok cfg s l -> accounts t d -> submit_logged cfg h (Read s l) d d' ->
  accounts (foldl add_event t match host_read cfg s l h with Some _ => [ReadDone l] | None => [] end) d'.
Proof using Hok.
  intros Hr [(c & g & Ht & Hc & Hg & Hf) He] [Es El]. destruct (touched_lt s l Hr). split.
  - exists c, g. rewrite log_of_drive in Ht |- *. rewrite El, foldl_app, Ht, Es.
    destruct (host_read cfg s l h); cbn [foldl]; [|done]. split; [by apply with_rounds_event|].
    by destruct t as [ws w rs r p c0 g0].
  - rewrite El. apply Forall_app. split; [done|]. destruct (host_read cfg s l h); [by apply Forall_singleton|done].
Qed.

Lemma submit_all_accounts rs : forall h k t d, Forall (fits cfg M) rs -> serves cfg M h k d -> k + zlen rs < 2 ^ 32 ->
  accounts t d ->
  wp (submit_all rs) (fun _ d' => serves cfg M (foldl (host_submit cfg) h rs) (k + zlen rs) d' /\
    accounts (foldl add_event t (host_events cfg h rs)) d') d.
Proof using Hok HL HM HV CL.
  induction rs as [|r rs IH]; intros h k t d Hrs Hd Hk Ha; cbn [submit_all foldl length].
  { wp_go. by rewrite Z.add_0_r. }
  apply Forall_cons in Hrs as [Hr Hrs]. cbn [length] in Hk. apply wp_bind.
  eapply wp_mono; [apply (submit_logs cfg Hok HL M HM HV); try done; lia|]. intros ? d1 [Hd1 Hl1].
  assert (exists es, host_events cfg h (r :: rs) = es ++ host_events cfg (host_submit cfg h r) rs /\
    accounts (foldl add_event t es) d1) as (es & -> & Ha1).
  { destruct r as [s l|s l].
    - exists [WriteDone l (zlen (touched cfg s l))]. split; [done|]. by apply (accounts_write t s l d); [apply Hr|..].
    - eexists. split; [done|]. by apply (accounts_read t s l h d). }
  rewrite foldl_app. replace (k + Z.of_nat (S (length rs))) with (k + 1 + zlen rs) by lia. apply IH; (done || lia).
Qed.

Lemma init_accounts conf t : INIT_SSD_CONFIG conf = Ret cfg ->
  wp (SSD_INIT conf) (fun _ d => serves cfg M (Host ∅ 0) 0 d /\ accounts tally0 d) (start t no_files).
Proof using Hok.
  intros Hconf. apply wp_conj; [by apply (init_serves cfg Hok M conf t)|].
  eapply (ftl_init_run cfg Hok); [done|by apply init_tables_spec|]. intros s w (_ & _ & Hfree) [_ Hl].
  split; [|unfold drive_log; simpl; by rewrite Hl]. exists 0, 0. rewrite log_of_drive. unfold drive_log. simpl. rewrite Hl.
  split; [done|]. split; [lia|]. split; [lia|]. rewrite Hfree. unfold npages. lia.
Qed.

(** The counts fit the variables of the window. *)
Lemma host_tally_bounds rs : forall h t, tally_positive t -> Forall (fits cfg M) rs ->
  let t' := foldl add_event t (host_events cfg h rs) in
  tally_positive t' /\ t_writes t' <= t_writes t + zlen rs /\ t_reads t' <= t_reads t + zlen rs /\
  t_pages t' <= t_pages t + P * zlen rs /\ t_copies t' = t_copies t /\ t_rounds t' = t_rounds t.
Proof using Hok HL HM.
  pose proof (ok_page _ Hok). induction rs as [|r rs IH]; intros h t Ht Hrs; cbn [host_events foldl length]; cbv zeta.
  { rewrite Z.mul_0_r, !Z.add_0_r. by split_and!. }
  apply Forall_cons in Hrs as [Hr Hrs]. destruct r as [s l|s l].
  - destruct Hr as (Hr & _ & Hfit). destruct (share_range cfg Hok HL M HM) as [_ Hsh]. cbn [foldl].
    destruct (IH (host_write cfg s l h) (add_event t (WriteDone l (zlen (touched cfg s l))))) as (H1 & H2); [|done|].
    + destruct t. unfold tally_positive in *. simpl in *. lia.
    + split; [done|]. destruct t. simpl in *. lia.
  - rewrite foldl_app.
    destruct (IH h (foldl add_event t match host_read cfg s l h with Some _ => [ReadDone l] | None => [] end)) as (H1 & H2); [|done|].
    + destruct t, (host_read cfg s l h); unfold tally_positive in *; simpl in *; lia.
    + split; [done|]. destruct t, (host_read cfg s l h); simpl in *; lia.
Qed.

End Monitored.

(** C12.  The monitor shows what the drive has done.  A new drive serves any
    requests that fit; it is connected to the monitor by a socket with room.
    Whatever pieces the socket cuts the log into, the window receives it without
    undefined behaviour and shows the requests, sectors and pages the host asked
    for, and the rounds and copies of the collector, in agreement with the drive:
    the free pages are those of the empty drive less the pages shown as written
    and as copied, plus a block for each round shown.  The averages have to fit
    the buffers of the window. *)
Theorem monitored_session (cfg : config) (Hok : cfg_ok cfg) (HL : PLANES_PER_FLASH cfg = 1) {C : Clock} {CL : ClockLaws C}
    M conf t rs {K : Socket} {T : Qt} {TL : QtLaws T} f g :
  0 <= M < (BLOCK_NB cfg * FLASH_NB cfg - FLASH_NB cfg * PLANES_PER_FLASH cfg) * PAGE_NB cfg ->
  1 <= GC_VICTIM_NB cfg -> INIT_SSD_CONFIG conf = Ret cfg -> Forall (fits cfg M) rs ->
  zlen rs < 2 ^ 31 -> PAGE_NB cfg * (zlen rs * GC_VICTIM_NB cfg) < 2 ^ 63 ->
  (forall n, room n = true) -> g_server_create g = true -> client_open g = true -> sock f = [] -> agrees tally0 f ->
  wp (SSD_INIT conf ;; submit_all rs) (fun _ d =>
    exists copies rounds, 0 <= copies /\ 0 <= rounds /\
      free_pages cfg (fst (d_state d)) + t_pages (host_tally cfg (Host ∅ 0) rs) + copies =
        PAGE_NB cfg * (BLOCK_NB cfg * FLASH_NB cfg) + PAGE_NB cfg * rounds /\
      (Forall (fun e => ftl_event e = false -> event_ok e) (log_of d) ->
       wp (log_all (concat (map messages (log_of d)))) (fun _ g' => exists bytes, stream g' = stream g ++ bytes /\
         forall chunks, concat chunks = bytes -> wp (receive_all chunks) (fun _ f' =>
           agrees (with_rounds (host_tally cfg (Host ∅ 0) rs) copies rounds) f' /\ sock f' = []) f) g)) (start t no_files).
Proof.
  intros HM HV Hconf Hrs Hn Hb Hroom Hg Ho Hs Hf. apply wp_bind.
  eapply wp_mono; [by apply (init_accounts cfg Hok M)|]. intros ? d [Hd Ha].
  eapply wp_mono; [apply (submit_all_accounts cfg Hok HL M HM HV rs (Host ∅ 0) 0 tally0 d); try done; lia|].
  intros ? d' [_ [(c & r & Et & Hc & Hr & Hfree) Hev]]. fold (host_tally cfg (Host ∅ 0) rs) in *.
  destruct (host_tally_bounds cfg Hok HL M HM rs (Host ∅ 0) tally0 ltac:(done) Hrs) as (Hpos & H1 & H2 & H3 & H4 & H5).
  fold (host_tally cfg (Host ∅ 0) rs) in *. simpl in H1, H2, H3, H4, H5.
  exists c, r. split; [lia|]. split; [lia|]. split; [unfold npages in Hfree; lia|]. intros Havg. rewrite <- Et.
  apply monitor_counts_log; try done.
  - apply Forall_forall. intros e He. destruct (ftl_event e) eqn:Ee; [|by eapply (proj1 (Forall_forall _ _) Havg)].
    apply (proj1 (Forall_forall _ _) Hev). unfold drive_log, ftl_log. by apply list_elem_of_filter.
  - rewrite Et. unfold tally_fits, with_rounds. simpl. pose proof (ok_page _ Hok).
    assert (r <= zlen rs * GC_VICTIM_NB cfg) by nia. assert (zlen rs <= zlen rs * GC_VICTIM_NB cfg) by nia. nia.
Qed.

(** ** The small drive and its window *)

(** The load of the small drive, more writes, which start the collector, and two
    reads, of which the second finds nothing. *)
Definition small_watched : list request := small_load ++ replicate 24 (Write 0 4) ++ [Read 0 4; Read 100 4].

Lemma small_watched_fits : Forall (fits small small_use) small_watched.
Proof.
  assert (fits small small_use (Write 0 4)) as Hw.
  { split; [apply small_request; reflexivity|]. split; apply Z.leb_le; vm_compute; reflexivity. }
  unfold small_watched. apply Forall_app. split; [exact small_load_fits|]. apply Forall_app.
  split; [by apply Forall_replicate|]. repeat (apply Forall_cons_2; [apply small_request; reflexivity|]). apply Forall_nil_2.
Qed.

Definition average_okb (e : event) : bool :=
  match e with
  | ReadAverage b => bandwidth_ok b
  | WriteAverage b u => bandwidth_ok b && util_ok u
  | _ => true
  end.

(** Its averages fit the window; the tally of its log. *)
Lemma small_averages_fit : let l := log_of (result (submit_all small_watched) small_new) in
  forallb average_okb l = true /\ foldl add_event tally0 l = Tally 538 134 4 1 136 1 14.
Proof. by vm_compute. Qed.

Lemma monitored_session_witness : wp (SSD_INIT (Some small_conf) ;; submit_all small_watched) (fun _ d =>
  exists copies rounds, 0 <= copies /\ 0 <= rounds /\
    free_pages small (fst (d_state d)) + t_pages (host_tally small (Host ∅ 0) small_watched) + copies =
      PAGE_NB small * (BLOCK_NB small * FLASH_NB small) + PAGE_NB small * rounds /\
    (Forall (fun e => ftl_event e = false -> event_ok e) (log_of d) ->
     wp (log_all (concat (map messages (log_of d)))) (fun _ g' => exists bytes, stream g' = stream log ++ bytes /\
       forall chunks, concat chunks = bytes -> wp (receive_all chunks) (fun _ f' =>
         agrees (with_rounds (host_tally small (Host ∅ 0) small_watched) copies rounds) f' /\ sock f' = []) window) log))
  (start 0 no_files).
Proof.
  apply (monitored_session small small_ok eq_refl small_use (Some small_conf) 0 small_watched window log);
    [exact small_room|by vm_compute|exact small_init|exact small_watched_fits|by vm_compute|by vm_compute|
     reflexivity|reflexivity|reflexivity|reflexivity|exact window_agrees].
Defined.
