(* ===== verification/Faults.v ===== *)
(** * Faults of the code

    Inputs on which the code does not do what it means to: runs of the model, and
    the loop that does not end. *)

From stdpp Require Import prelude gmap strings.
From Stdlib Require Import Ascii.
From S2P Require Import Prelude Config Blocks Mapping Device Perf SsdIo Gc Ftl Persist Ssd.
From S2P Require Import Tables Lists Host Session Example Cache Firm FirmRing FirmWrite CacheProps.
From S2P Require Import Text Monitor MonitorProps Bytes Identify Ide IdePio IdePorts IdeGuest IdeIdentify IdeProps.

Local Open Scope Z_scope.

(** What is seen of a run that returns. *)
Definition seen {S A B} (m : M S A) (s : S) (f : A -> S -> B) : option B :=
  match m s with Ret (a, s') => Some (f a s') | _ => None end.

(** ** The write buffer *)

(** The frames a loop has seen and those it will see hold too few valid ones: it
    goes round for ever. *)
Lemma marking_stuck N (HN : 0 < N) fuel : forall (b : firm) p l count n, ring N (wb_valid_array b) p l ->
  count + count_if is_V l < n -> mark_frames N fuel is_V (Some chF) p count n b = OutOfFuel.
Proof.
  induction fuel as [|fuel IH]; intros b p l count n Hr Hn; [done|]. pose proof (count_if_nonneg is_V l).
  unfold mark_frames. fold mark_frames. rewrite (proj2 (Z.eqb_neq count n)) by lia.
  pose proof (ring_length _ _ _ _ Hr) as Hl. destruct l as [|c l]; [simpl in Hl; lia|].
  pose proof (ring_ptr _ _ _ _ Hr) as Hp. assert (next_frame N p = adv N p 1) as Enx by by apply next_adv.
  unfold GET_WB_VALID_ARRAY_ENTRY, rd, mbind, M_bind, gets, need. rewrite (ring_get _ _ _ _ _ Hr). simpl.
  rewrite Enx. unfold count_if in Hn. simpl in Hn. fold (count_if is_V l) in Hn. destruct (is_V c) eqn:Ec.
  - unfold UPDATE_WB_VALID_ARRAY_ENTRY. destruct (Z.leb_spec N p); [lia|].
    destruct (ring_set N _ _ _ chF _ Hr) as (arr & Ha & Hr'). unfold wr, mbind, M_bind, gets, need, modify. rewrite Ha. simpl.
    apply (IH _ _ (l ++ [chF])); [by apply (ring_next N arr p chF l)|]. rewrite count_if_app. unfold count_if at 2. simpl. lia.
  - apply (IH _ _ (l ++ [c])); [by apply (ring_next N _ p c l)|]. rewrite count_if_app. unfold count_if at 2. simpl. rewrite Ec. lia.
Qed.

(** The first pages of a write that is larger than the write buffer use up its
    frames; the loop of [INCREASE_WB_FTL_POINTER] for the next page never ends. *)
Theorem oversize_write_hangs N fuel (b : firm) n : 0 < N -> zlen (wb_valid_array b) = N -> 0 <= ftl_write_ptr b < N ->
  Forall (fun c => c <> chV) (wb_valid_array b) -> 0 < n ->
  mark_frames N fuel is_V (Some chF) (ftl_write_ptr b) 0 n b = OutOfFuel.
Proof.
  intros HN Hl Hp Hv Hn. set (p := Z.to_nat (ftl_write_ptr b)).
  apply (marking_stuck N HN fuel b (ftl_write_ptr b) (drop p (wb_valid_array b) ++ take p (wb_valid_array b))); [by split|].
  assert (forall l, Forall (fun c => c <> chV) l -> count_if is_V l = 0) as Hz.
  { induction 1 as [|c l Hc _ IH]; [done|]. unfold count_if in *. simpl. unfold is_V at 1. by rewrite (proj2 (Ascii.eqb_neq _ _) Hc), IH. }
  rewrite Hz; [lia|]. apply Forall_app. split; [by apply Forall_drop|by apply Forall_take].
Qed.

(** A new small drive whose flash module is the specification machine, with
    buffers of eight frames; frame [i] of the write buffer holds [i]. *)
Definition fresh_world : firm * (ftl * nand) :=
  (Firm [] 0 [] 0 None (seqZ 0 8) (replicate 8 0) (replicate 8 ch0) 0 0 0 0 0 0 8 8,
   (fst (d_state small_new), nand0)).

#[local] Instance small_nand : Device := NandDevice small.

(** A write of twelve sectors through eight frames. *)
Example oversize_write : (firm_SSD_WRITE small 8 8 12 0 ;; TERM_IO_BUFFER small 8 8) fresh_world = OutOfFuel.
Proof. vm_compute. reflexivity. Qed.

(** A write, a write that overlaps its end, and a read of all their sectors: the
    sectors are in frames 0, 1, 4, 5, 6 and 7, but the read gets frames 0 to 5,
    the third and fourth of which have been overwritten by the second write. *)
Example stale_copy :
  let writes := firm_SSD_WRITE small 8 8 4 0 ;; firm_SSD_WRITE small 8 8 4 2 in
  seen writes fresh_world (fun _ v => (e_queue (fst v), vframes 8 0 (wb_valid_array (fst v)))) =
    Some ([Event WRITE VALID 0 6 (Some 0)], [0; 1; 4; 5; 6; 7]) /\
  seen (writes ;; firm_SSD_READ small 8 8 6 0) fresh_world (fun _ v => (e_queue (fst v), read_buffer (fst v))) =
    Some ([Event READ VALID 0 6 (Some 0)], [0; 1; 2; 3; 4; 5; 0; 0]).
Proof. vm_compute. done. Qed.

(** A write beyond the end of the disk is dropped when the queue is flushed, but
    its frames are never free again. *)
Example frames_leak : seen (firm_SSD_WRITE small 8 8 4 510 ;; SECURE_WRITE_BUFFER small 8 8) fresh_world
  (fun _ v => (e_queue (fst v), empty_write_buffer_frame (fst v))) = Some ([], 4).
Proof. vm_compute. reflexivity. Qed.

(** ** The translation layer *)

(** The sum of a negative sector number and the length wraps, so the check of
    the range accepts it; the access to the mapping table is out of bounds. *)
Example negative_sector : exceeds small (-8) 8 = false /\ _FTL_WRITE small (-8) 8 (snd fresh_world) = Undef.
Proof. vm_compute. done. Qed.

(** A write of no sectors uses [new_ppn] without a value. *)
Example empty_write : _FTL_WRITE small 4 0 (snd fresh_world) = Undef.
Proof. vm_compute. reflexivity. Qed.

(** ** The mapping cache *)

(** The cache as [INIT_CACHE] leaves it, without the pages of the map. *)
Definition fresh_cache : cache * (ftl * unit) :=
  (Cache (replicate 2 (CacheIdx 0 0 0 0 (replicate 16 0))) (replicate 8 (MapState 0 0 None)) 0 [] 0 (replicate 128 (-1)),
   (fst (d_state tiny_drive), tt)).

Local Abbreviation get_map := (CACHE_GET_MAP tiny 2 no_cell no_cell).

(** Loading map page 1 into the free second entry makes the cache forget map
    page 0, which is in the first: a free entry looks like one for map page 0. *)
Example free_entry_forgets : seen (get_map 0 MAP ;; get_map 1 MAP) fresh_cache
  (fun _ w => (map_num <$> aget (cache_idx_table (fst w)) 0, seen (LOOKUP_CACHE 0 MAP) (fst w) (fun r _ => r))) =
  Some (Some 0, Some None).
Proof. vm_compute. reflexivity. Qed.

(** The two kinds of map pages share one state: loading inverse map page 3 makes
    the cache forget map page 3. *)
Example shared_state_forgets : seen (get_map 3 MAP ;; get_map 3 INV_MAP) fresh_cache
  (fun _ w => (map_num <$> aget (cache_idx_table (fst w)) 0, seen (LOOKUP_CACHE 3 MAP) (fst w) (fun r _ => r))) =
  Some (Some 3, Some None).
Proof. vm_compute. reflexivity. Qed.

(** An update changes the mapping table and not the copy in the cache, which is
    what is written when the map page leaves the cache. *)
Example stale_write_back :
  seen (CACHE_UPDATE_PPN tiny 2 no_cell no_cell 16 7 ;; get_map 2 MAP ;; get_map 4 MAP) fresh_cache
    (fun _ w => (aget (mapping_table (fst (snd w))) 16, md_data <$> cache_map_data (fst w))) =
  Some (Some 7, [replicate 16 (-1)]).
Proof. vm_compute. reflexivity. Qed.

(** A drive with fewer mapping entries than a map page has no map page at all. *)
Example no_map_page : PAGE_MAPPING_ENTRY_NB small = 128 /\ MAP_ENTRY_NB small = 0.
Proof. vm_compute. done. Qed.

(** ** The monitor *)

Definition logged `{Socket} (es : list event) : list ascii :=
  match log_all (concat (map messages es)) log with Ret (_, g) => stream g | _ => [] end.

(** The report the monitor saves has no sectors after a write of eight: it takes
    them from [WriteSectorCount], and the sectors are counted in [WriteSecCount]. *)
Example saved_sectors : seen (receive (logged [WriteDone 8 2])) window
  (fun _ f => (f_int f "WriteSecCount", take 31 (btnSave_clicked f))) =
  Some (8, chars "Write Request" ++ ascii_of_nat 9 :: "1"%char :: newline :: chars "Write Sector" ++ ascii_of_nat 9 :: "0"%char :: [newline]).
Proof. vm_compute. reflexivity. Qed.

(** The newline of the first message does not wait for room in the socket; when it
    is lost, two messages become one line, and the pages are not counted. *)
Example lost_newline : seen (receive (logged (H := {| room n := negb (n =? 1); bind_ok := true |}) [WriteDone 8 2])) window
  (fun _ f => (f_int f "WriteCount", f_int f "WrittenCorrectCount")) = Some (1, 0).
Proof. vm_compute. reflexivity. Qed.

(** ** The disk controller *)

(** A disk that counts the sectors written, on a machine whose table has room for
    three sectors. *)
#[local] Instance counting : Disk := count_disk.
#[local] Instance counting_pc : Machine := pc count_disk true.

(** A guest writes eight sectors by DMA: three are transferred, and the drive gets
    all eight. *)
Example short_table : seen (guest_dma AsLong 0xca WriteCallback false 0 8 0x2000) (pc_controller, 0)
  (fun _ w => (ide_get_sector (drive_0 (fst w)), nsector (tf (drive_0 (fst w))), snd w)) = Some (3, 5, 8).
Proof. vm_compute. reflexivity. Qed.

(** The block layer fails, the machine stops, and the write of three sectors is
    done again: the drive has got it already, and gets it a second time. *)
Example dma_retry_twice : seen (guest_registers false 0 3 ;; on_current (bmdma_addr_writel 0x2000) ;; ide_ioport_write 7 0xca ;;
    on_current (bmdma_cmd_writeb BM_CMD_START ;; ide_write_dma_cb (-5) ;; ide_dma_restart_bh ;; ide_write_dma_cb 0)) (pc_controller, 0)
  (fun _ w => (ide_get_sector (drive_0 (fst w)), status (xf (drive_0 (fst w))), snd w)) = Some (3, Z.lor READY_STAT SEEK_STAT, 6).
Proof. vm_compute. reflexivity. Qed.

(** A guest asks a drive for its identification, sets eight sectors per interrupt and
    asks again: word 59 is the old one. *)
Example multiple_stale : seen (guest_identify ;; ide_ioport_write 2 8 ;; ide_ioport_write 7 0xc6 ;; guest_identify) (pc_controller, 0)
  (fun ws w => (word_at ws 59, mult_sectors (xf (drive_0 (fst w))))) = Some (0x102, 8).
Proof. vm_compute. reflexivity. Qed.

(** A drive without a disk. *)
Definition gone (s : IDEState) : IDEState := IDE (tf s) (xf s) (cmd s) (heads s) (sectors s) (nb_sectors s) false (is_cf s) (ident s) (atapi s).

(** A guest writes a sector to drive 0, which is missing, while drive 1 is there. *)
Example missing_master : (guest_pio_write 0x30 false 0 1 (replicate 256 0)) (Controller (gone (pc_drive 0 0)) (pc_drive 0 0) false pc_engine, 0) = Undef.
Proof. vm_compute. reflexivity. Qed.

(** A memory card with metadata. *)
Definition card (s : IDEState) : IDEState := IDE (tf s) (xf s) (cmd s) (heads s) (sectors s) (nb_sectors s) (bs s) true
  (Identity 1 [] false (replicate 256 0) 512 (replicate 512 7)) (atapi s).

(** A guest that reads the metadata gets zeros: the data port is closed. *)
Example metadata_unread : seen (ide_ioport_write 1 0x03 ;; ide_ioport_write 2 1 ;; ide_ioport_write 7 0xb8 ;; on_current (guest_reads 4))
    (Controller (card (pc_drive 0 0)) (pc_drive 0 0) false pc_engine, 0)
  (fun ws w => (ws, take 4 (io_buffer (xf (drive_0 (fst w)))))) = Some ([0; 0; 0; 0], [0; 0; 7; 7]).
Proof. vm_compute. reflexivity. Qed.
